(* ===== verification/_CoqProject ===== *)
-Q . S2P
Prelude.v
CString.v
Os.v
StrUtils.v
ShellUtils.v
SysLimits.v
PerfTimers.v
OkapiPath.v
MemOs.v
OkapiMirror.v
OkapiContain.v
OkapiSpec.v
Trie.v
State.v
Environ.v
EnvironSpec.v
CdeOptions.v
CdeOptionsSpec.v
ChildMem.v
Redirect.v
RedirectSpec.v
Shm.v
Sysent.v
Qualify.v
QualifySpec.v
ProcTab.v
ProcTabSafe.v
Syscalls.v
MapsSpec.v
ShmSpec.v
Elf.v
ElfSpec.v
StrQuote.v
Provenance.v
Forks.v
ProcTabSpec.v
ForksSpec.v
Execve.v
Calls.v
TraceSyscall.v
TraceLoop.v
Handlers.v
TraceSafe.v
TraceTable.v
TraceSpec.v
ReadlinkSpec.v
ProvSpec.v
Recorder.v
LogFile.v
Init.v
Startup.v
StartupSpec.v
MainSafe.v
MainAudit.v
ExecveSpec.v
InitSpec.v
