(* ===== verification/Prelude.v ===== *)
(** * Provenance-To-Use (PTU)

    PTU runs a program under ptrace.  In audit mode (ptu) it copies every file the program
    uses into a package, [cde-package/cde-root], and logs what the processes do; in exec
    mode (ptu-exec) it runs the program from the package, by rewriting the paths in the
    program's system calls.  The code is in src/strace-4.6: a fork of strace 4.6 whose
    hooks are in cde.c, with the libraries okapi.c (mirroring of files), provenance.c
    (the log) and a few helpers.  This development models those files and proves what
    makes them correct.

    ** How the program is modelled

    The code is a sequence of system calls that depends on the answers.  [Os.v] gives a
    program that type ([prog], the state monad [M] over it): a tree of calls, each with a
    reply; the operating system, the traced process and the libraries that are only called
    (ptrace, the file system) are a parameter, a handler [h] from calls to
    replies over a world of its own.  A run ends with a result, or with [exit], a failed
    assertion, or an access the C code must not make ([Segv]).  Three kinds of statements
    are used: [wpM K m s Q E] (whatever a system answers that meets the contract [K], only
    the calls that [K] allows are made, and the outcome meets [Q] or [E]); [ok], the same
    with an invariant of the state, used for safety; [returns h m s w tr a s' w'] (against
    the handler [h] the run ends, with this trace of calls and this result), used for
    functional correctness, which includes termination.  Strings are lists of bytes
    without their NUL; registers and addresses are in [Z]; memory is a map from addresses
    to bytes that ptrace reads and writes a word at a time, the word being 4 or 8 bytes
    with the tracer ([abi]).

    ** Files, and the code they model

    Each part has a file with its data and operations and a file, mostly named ...Spec,
    with its theorems.

    - [Prelude], [CString], [Os]: notations, tactics and hints; the functions of string.h;
      the monad and the proof rules.
    - [StrUtils] (strutils.c, rstrip of provenance.c, endswith and is_cde_binary of
      cde.c), [ShellUtils] (shellutils.c), [SysLimits] (syslimits.c), [PerfTimers]
      (perftimers.c), [StrQuote] (util.c: string_quote): the helpers.
    - [OkapiPath] (okapi.c: paths as stacks of components, canonicalisation, containment),
      [OkapiMirror] (okapi.c: create_mirror_file and what it calls), [MemOs] (a small file
      system for examples), [OkapiContain], [OkapiSpec].
    - [State]: the globals of cde.c and provenance.c, and struct tcb of defs.h, as records;
      [conf] is what main sets once, [cur] the tcb of the process at hand.
    - [Trie] (cde.c: the cache of streamed files), [CdeOptions], [CdeOptionsSpec] (cde.c:
      the arrays of directives and the parser CDE_init_options of cde.options),
      [Environ], [EnvironSpec] (cde.c: CDE_load_environment_vars).
    - [ChildMem] (util.c: umoven, umovestr; cde.c: strcpy_from_child, memcpy_to_child),
      [Shm], [MapsSpec], [ShmSpec] (cde.c: the fields of a tcb, find_free_addr,
      begin_setup_shmat, finish_setup_shmat, modify_syscall_...).
    - [Redirect], [RedirectSpec] (cde.c: ignore_path, create_abspath_within_cderoot,
      extract_sandboxed_pwd, redirect_filename_into_cderoot, copy_file_into_cde_root).
    - [Syscalls], [Handlers], [ReadlinkSpec] (cde.c: the hooks CDE_begin_... and
      CDE_end_... of the file, directory and socket calls), [Execve], [ExecveSpec] (cde.c:
      CDE_begin_execve, CDE_end_execve), [Elf], [ElfSpec] (readelf-mini.c:
      find_ELF_program_interpreter, which CDE_begin_execve asks for the interpreter).
    - [Provenance], [ProvSpec], [LogFile] (provenance.c: the lines of the log and its
      file), [Recorder] (its second thread, with the tracer's turns in between).
    - [Sysent] (the tables of calls of x86-64 and i386), [Qualify], [QualifySpec]
      (syscall.c: qualify), [ProcTab], [ProcTabSafe], [ProcTabSpec] (strace.c: the table of
      processes), [Forks], [ForksSpec] (process.c, util.c: children, waits, exits),
      [Calls] (what is called for each traced call), [TraceSyscall] (syscall.c:
      trace_syscall), [TraceLoop] (strace.c: trace), [TraceSafe], [TraceTable],
      [TraceSpec].
    - [Init], [InitSpec] (cde.c: CDE_init, the default cde.options, the scripts of the
      package), [Startup], [StartupSpec] (strace.c: main and what it calls), [MainSafe],
      [MainAudit] (theorems on whole runs).

    A stop of a process goes from [TraceLoop.trace] through [TraceSyscall.trace_syscall]
    and [Calls] to a hook of [Syscalls], [Execve] or [Forks] and to a line of [Provenance];
    a hook uses [Redirect], [OkapiMirror], [ChildMem] and [Shm]; [Startup.main] runs [Init],
    [CdeOptions], [Environ] and then the loop.

    ** What is proved

    - Whole runs, from main to their end, on any system that meets the conditions: an audit writes
      nowhere but into the package, the options file and the log of -c
      ([MainAudit.audit_run_confined]); an execution run changes no file
      ([MainSafe.exec_run_changes_no_file]).  Below them are the same for the loop
      ([TraceSafe.trace_audit_confined]), for the hooks ([Handlers]) and for mirroring
      ([OkapiContain.create_mirror_file_contained], for any file system without a link that
      climbs above its root).
      "In" a directory is said of the paths that the calls are given, as text without dots:
      links that are in the package already are not followed.  The conditions - no link of
      the machine climbs above its root, no other repositories, a current directory that
      stays - are those of [MainAudit.audit_system].
    - What a packaged program gets: the files ([RedirectSpec.redirect_exec_correct],
      [ShmSpec.two_args_redirected]), the links ([ReadlinkSpec.readlink_roundtrip],
      [OkapiSpec.absolute_link_leads_back]), the environment
      ([EnvironSpec.environment_restored]), the interpreter
      ([ElfSpec.find_interpreter_correct]) with which it is run
      ([ExecveSpec.linked_program_run]), from the script that reruns it
      ([InitSpec.nested_script_reruns]); the rewriting is transparent to the process
      ([ShmSpec.setup_shmat_transparent]).
    - The tracer: the table of processes stays well formed ([TraceTable.stops_keep_table]),
      the exit code is the program's ([TraceTable.exit_code_of_program]), the end of a
      process ends ([ProcTabSpec.droptcb_ends]), a child inherits what it must
      ([ForksSpec.new_child_inherits]), which calls are traced ([TraceSpec.traced_calls],
      [QualifySpec.qualify_trace_correct]), errors ([TraceSpec.get_error_correct]), what
      the options set ([StartupSpec.options_set]) and the search for the program.
    - The log: what an open, a close and a pass over the processes write ([ProvSpec]); in
      every interleaving the recorder keeps the log open while a process of its list exists,
      and ends when none is left ([Recorder]); a process is in the list from its first
      execve on ([ForksSpec.new_child_unlisted]), and a recorder that never finds one waits
      for ever ([Recorder.recorder_waits]).
    - Data.  Options, command lines, strings in the process's memory, /proc/<pid>/maps,
      shell words, quoted strings, ELF files, paths and the trie are read back as what was
      written, or equal a reference definition.
    - Where the code does not do what it means to, a theorem states what it does: see the
      findings of the manifest.

    ** Bounds

    Loops that depend on the system's answers have fuel: the recursion of okapi.c along
    links and directories, the loops that read a file line by line and the loop of the
    tracer, bounded by the number of stops.  Running out of fuel is an outcome of its own
    ([OutOfFuel]), which the functional theorems exclude; the theorems of safety and the
    invariants hold for every fuel; loops over data ([umovestr], [memcpy_to_child],
    [droptcb], getopt, the tables of an ELF file) have a bound that is always enough, so
    that their theorems have no fuel hypothesis.  Where a loop may be endless a theorem
    says so ([OkapiSpec.symlink_cycle_endless]).  Words of the process have 4 or 8 bytes
    and wrap around; what the tracer stores in an int or an unsigned is cut to its width
    where the code depends on it.

    ** Not modelled

    - The decoders and printers of system calls: no function of theirs is called for a call
      that PTU traces ([TraceSpec.traced_calls]), and what they print goes to strace's
      output; with them the options of strace that only change the output (-C, -q, -r, -t,
      -T, -z, -O).  The branch of startup_attach for -p is dead: no option sets pflag_seen.
    - Other architectures and systems than Linux on x86: their tables and the code under
      their macros.
    - The rest of readelf-mini, which prints: it is not reached from PTU's function, as the
      options that ask for it are off.  criu, which PTU's code does not call (the calls are
      commented out; CDE_memoize_process_state, which was to call it, is not called), and
      the notebook kernel in src/kernel, which is in Python.
    - Allocation is assumed to succeed (but where the code checks a size that a file
      gives), and [free] is modelled where a pointer that was freed is tested again.  The
      mutexes around the log are the turns of [Recorder].  *)
From Stdlib Require Export Ascii ZArith Lia.
From Stdlib Require String.
From stdpp Require Export prelude list strings.
#[global] Open Scope nat_scope.

Create HintDb ptu.

(** ** Tactics *)

(** Case analysis on the scrutinee of a [match] or [if] of the goal. *)
Ltac split_match :=
  match goal with
  | |- context [match ?x with _ => _ end] => destruct x eqn:?
  end.

(** Turn the boolean tests of the model into propositions. *)
Ltac to_prop :=
  repeat match goal with
  | H : bool_decide _ = true |- _ => apply bool_decide_eq_true_1 in H
  | H : bool_decide _ = false |- _ => apply bool_decide_eq_false_1 in H
  | H : (_ && _)%bool = true |- _ => apply andb_true_iff in H; destruct H
  | H : (_ || _)%bool = false |- _ => apply orb_false_iff in H; destruct H
  | H : negb _ = true |- _ => apply negb_true_iff in H
  | H : negb _ = false |- _ => apply negb_false_iff in H
  end.

(** ** Lists *)

Lemma take_app_exact {A} (l k : list A) : take (length l) (l ++ k) = l.
Proof. by rewrite take_app_length. Qed.

Lemma drop_app_exact {A} (l k : list A) : drop (length l) (l ++ k) = k.
Proof. by rewrite drop_app_length. Qed.

Lemma prefix_take {A} (p s : list A) :
  p `prefix_of` s <-> take (length p) s = p /\ length p <= length s.
Proof.
  split.
  - intros [k ->]. rewrite take_app_exact, length_app. split; [done|lia].
  - intros [H _]. exists (drop (length p) s). rewrite <- H at 1. by rewrite take_drop.
Qed.

Lemma drop_prefix {A} (p s : list A) :
  p `prefix_of` s -> s = p ++ drop (length p) s.
Proof. intros [k ->]. by rewrite drop_app_exact. Qed.

Lemma last_snoc_inv {A} (l : list A) x : last l = Some x -> exists k, l = k ++ [x].
Proof.
  induction l as [|a l IH] using rev_ind; [done|].
  rewrite last_snoc. intros [= ->]. eauto.
Qed.

(** The longest prefix whose elements all satisfy [p], and the rest. *)
Section Span.
Context {A : Type} (p : A -> bool).

Fixpoint drop_while (l : list A) : list A :=
  match l with
  | [] => []
  | x :: l' => if p x then drop_while l' else l
  end.

Fixpoint take_while (l : list A) : list A :=
  match l with
  | [] => []
  | x :: l' => if p x then x :: take_while l' else []
  end.

Lemma take_drop_while l : take_while l ++ drop_while l = l.
Proof. induction l as [|x l IH]; simpl; [done|]. destruct (p x); simpl; congruence. Qed.

Lemma take_while_all l : Forall (fun x => p x = true) (take_while l).
Proof. induction l as [|x l IH]; simpl; [constructor|]. destruct (p x) eqn:E; auto. Qed.

Lemma drop_while_head l x l' : drop_while l = x :: l' -> p x = false.
Proof.
  induction l as [|y l IH]; simpl; [done|].
  destruct (p y) eqn:E; [done|]. intros [= -> ->]. done.
Qed.

Lemma drop_while_nil l : Forall (fun x => p x = true) l -> drop_while l = [].
Proof. induction 1; simpl; [done|]. by rewrite H. Qed.

Lemma drop_while_app_all l k :
  Forall (fun x => p x = true) l -> drop_while (l ++ k) = drop_while k.
Proof. induction 1; simpl; [done|]. by rewrite H. Qed.

Lemma drop_while_none l : (forall x, head l = Some x -> p x = false) -> drop_while l = l.
Proof. destruct l as [|x l]; simpl; [done|]. intros H. by rewrite (H x). Qed.

Lemma drop_while_length l : length (drop_while l) <= length l.
Proof. induction l as [|x l IH]; simpl; [lia|]. destruct (p x); simpl; lia. Qed.

Lemma drop_while_idemp l : drop_while (drop_while l) = drop_while l.
Proof.
  destruct (drop_while l) as [|x k] eqn:E; [done|].
  simpl. by rewrite (drop_while_head _ _ _ E).
Qed.
End Span.
