(* ===== verification/CString.v ===== *)
(** * C strings and the part of <string.h>, <ctype.h>, <libgen.h> the sources use

    A C string is the list of its bytes before the terminating NUL; a pointer into
    a string is an offset.  Nothing here is mapped to [src/]: it is the model of the
    C library the components share. *)
From S2P Require Import Prelude.

Abbreviation cstring := (list ascii).

(** String literals of the sources. *)
Definition lit (s : string) : cstring := String.list_ascii_of_string s.
Arguments lit _%_string_scope.

Definition slash : ascii := "/"%char.
Definition dot : ascii := "."%char.
Definition NUL : ascii := "000"%char.
Definition newline : ascii := "010"%char.

Definition is_slash (c : ascii) : bool := bool_decide (c = slash).

(** A buffer up to its first NUL *)
Definition until_nul (b : cstring) : cstring := take_while (fun c => negb (bool_decide (c = NUL))) b.
(** A list that can be stored as a C string. *)
Definition nul_free (s : cstring) : Prop := NUL ∉ s.

#[export] Instance nul_free_dec s : Decision (nul_free s).
Proof. unfold nul_free. apply _. Defined.

(** ** <ctype.h>, "C" locale *)

Definition code (c : ascii) : nat := nat_of_ascii c.

(** [isspace]: space, \t, \n, \v, \f, \r. *)
Definition isspace (c : ascii) : bool :=
  (code c =? 32) || ((9 <=? code c) && (code c <=? 13)).

Definition isprint (c : ascii) : bool := (32 <=? code c) && (code c <=? 126).
Definition isdigit (c : ascii) : bool := (48 <=? code c) && (code c <=? 57).

(** ** <string.h> *)

(** [strcmp(a, b) == 0] *)
Definition strcmp_eq (a b : cstring) : bool := bool_decide (a = b).

(** [strncmp(a, b, n) == 0] *)
Definition strncmp_eq (a b : cstring) (n : nat) : bool := bool_decide (take n a = take n b).

(** [strchr(s, c)] as an offset, [c] not NUL *)
Fixpoint strchr (s : cstring) (c : ascii) : option nat :=
  match s with
  | [] => None
  | x :: s' => if bool_decide (x = c) then Some 0 else S <$> strchr s' c
  end.

(** [strstr(h, n)] as an offset *)
Fixpoint strstr (h n : cstring) : option nat :=
  if strncmp_eq h n (length n) then Some 0 else
  match h with
  | [] => None
  | _ :: h' => S <$> strstr h' n
  end.

(** The tokens successive [strtok(s, "d"); strtok(NULL, "d"); ...] return. *)
Fixpoint strtok_aux (d : ascii) (cur : cstring) (s : cstring) : list cstring :=
  match s with
  | [] => if bool_decide (cur = []) then [] else [rev cur]
  | x :: s' =>
    if bool_decide (x = d)
    then if bool_decide (cur = []) then strtok_aux d [] s' else rev cur :: strtok_aux d [] s'
    else strtok_aux d (x :: cur) s'
  end.
Definition strtok (d : ascii) (s : cstring) : list cstring := strtok_aux d [] s.

(** ** Paths *)

Definition IS_ABSPATH (p : cstring) : bool :=
  match p with c :: _ => is_slash c | [] => false end.

(** GNU [basename] (the one <string.h> declares): what follows the last slash. *)
Definition basename (p : cstring) : cstring :=
  rev (take_while (fun c => negb (is_slash c)) (rev p)).

(** glibc [dirname]. *)
Definition dirname (p : cstring) : cstring :=
  let r := rev p in
  let r1 := match drop_while is_slash r with [] => r | _ :: _ => drop_while is_slash r end in
  match drop_while (fun c => negb (is_slash c)) r1 with
  | [] => [dot]
  | r2 =>
    match drop_while is_slash r2 with
    | [] => if length r2 =? 2 then [slash; slash] else [slash]
    | r3 => rev r3
    end
  end.

Example basename_ex : basename (lit "../bin/python") = lit "python".
Proof. reflexivity. Qed.
Example dirname_ex :
  dirname (lit "/usr/lib") = lit "/usr" /\ dirname (lit "/usr/") = lit "/"
  /\ dirname (lit "usr") = lit "." /\ dirname (lit "/a//b/") = lit "/a".
Proof. repeat split. Qed.
Example strtok_ex : strtok "="%char (lit "=ignore==a=b") = [lit "ignore"; lit "a"; lit "b"].
Proof. reflexivity. Qed.

(** ** Numbers *)

(** The digits [printf] writes for an unsigned value in base [b]. *)
Fixpoint digits_fuel (fuel : nat) (b n : N) (acc : cstring) : cstring :=
  let d := ascii_of_N (let r := (n mod b)%N in if (r <? 10)%N then 48 + r else 87 + r)%N in
  match fuel with
  | O => d :: acc
  | S f => if (n <? b)%N then d :: acc else digits_fuel f b (n / b)%N (d :: acc)
  end.
Definition utoa (b n : N) : cstring := digits_fuel (N.to_nat (N.log2 n)) b n [].

(** [%d] *)
Definition itoa (z : Z) : cstring :=
  if (z <? 0)%Z then "-"%char :: utoa 10 (Z.to_N (- z)) else utoa 10 (Z.to_N z).

(** A wider integer assigned to an [int]. *)
Definition to_int (z : Z) : Z := ((z + 2 ^ 31) mod 2 ^ 32 - 2 ^ 31)%Z.

Example itoa_ex : itoa 0 = lit "0" /\ itoa (-125) = lit "-125" /\ itoa 40960 = lit "40960"
  /\ utoa 16 255 = lit "ff" /\ utoa 8 64 = lit "100".
Proof. repeat split. Qed.

(** ** Lemmas *)

Lemma strcmp_eq_spec a b : strcmp_eq a b = true <-> a = b.
Proof. unfold strcmp_eq. apply bool_decide_eq_true. Qed.

(** The test [strncmp(s, p, strlen(p)) == 0] is the prefix test. *)
Lemma strncmp_prefix s p : strncmp_eq s p (length p) = true <-> p `prefix_of` s.
Proof.
  unfold strncmp_eq. rewrite bool_decide_eq_true, firstn_all.
  rewrite prefix_take. split; [|intros [? _]; done].
  intros H. split; [done|]. apply (f_equal length) in H.
  rewrite length_take in H. lia.
Qed.

Lemma strncmp_prefix_false s p : strncmp_eq s p (length p) = false <-> ~ (p `prefix_of` s).
Proof. rewrite <- strncmp_prefix. destruct (strncmp_eq _ _ _); split; congruence. Qed.

Lemma strncmp_prefix_r s p : strncmp_eq p s (length p) = true <-> p `prefix_of` s.
Proof.
  rewrite <- strncmp_prefix. unfold strncmp_eq. rewrite !bool_decide_eq_true. split; congruence.
Qed.

Lemma strchr_Some s c i :
  strchr s c = Some i <-> exists a b, s = a ++ c :: b /\ (c ∉ a) /\ length a = i.
Proof.
  revert i; induction s as [|x s IH]; intros i; simpl.
  - split; [done|]. intros (a & b & H & _). by destruct a.
  - case_bool_decide as E; [subst x|].
    + split.
      * intros [= <-]. exists [], s. split_and!; [done| |done]. apply not_elem_of_nil.
      * intros (a & b & H & Hn & <-). destruct a as [|y a]; [done|].
        simplify_eq/=. set_solver.
    + split.
      * intros (j & H & ->)%fmap_Some. apply IH in H as (a & b & -> & Hn & <-).
        exists (x :: a), b. split_and!; [done| set_solver |done].
      * intros (a & b & H & Hn & <-). destruct a as [|y a]; simplify_eq/=.
        rewrite (proj2 (IH (length a))); [done|]. exists a, b. set_solver.
Qed.

Lemma strchr_None s c : strchr s c = None <-> c ∉ s.
Proof.
  induction s as [|x s IH]; simpl; [set_solver|].
  case_bool_decide; [set_solver|]. rewrite fmap_None, IH. set_solver.
Qed.

Lemma strstr_Some h n i :
  strstr h n = Some i -> exists a b, h = a ++ n ++ b /\ length a = i.
Proof.
  revert i; induction h as [|x h IH]; intros i; simpl.
  - destruct (strncmp_eq [] n (length n)) eqn:E; [|done].
    intros [= <-]. apply strncmp_prefix in E as [k E]. by exists [], k.
  - destruct (strncmp_eq (x :: h) n (length n)) eqn:E.
    + intros [= <-]. apply strncmp_prefix in E as [k ->]. by exists [], k.
    + intros (j & H & ->)%fmap_Some. apply IH in H as (a & b & -> & <-). by exists (x :: a), b.
Qed.

(** The offset [strstr] returns is the first occurrence. *)
Lemma strstr_first a n b :
  (forall k, k < length a -> ~ (n `prefix_of` drop k (a ++ n ++ b))) ->
  strstr (a ++ n ++ b) n = Some (length a).
Proof.
  induction a as [|x a IH]; simpl; intros H.
  - assert (E : strncmp_eq (n ++ b) n (length n) = true) by (apply strncmp_prefix; by exists b).
    destruct (n ++ b) eqn:E2; simpl; by rewrite E.
  - rewrite (proj2 (strncmp_prefix_false (x :: a ++ n ++ b) n) (H 0 ltac:(lia))).
    rewrite IH; [done|]. intros k Hk. apply (H (S k)). lia.
Qed.

Lemma strstr_None h n : strstr h n = None -> forall a b, h <> a ++ n ++ b.
Proof.
  induction h as [|x h IH]; simpl.
  - destruct (strncmp_eq _ _ _) eqn:E; [done|]. intros _ a b H.
    destruct a; [|done]. destruct n; [|done]. by apply strncmp_prefix_false in E.
  - destruct (strncmp_eq _ _ _) eqn:E; [done|].
    intros H%fmap_None [|y a] b Heq; simplify_eq/=.
    + apply strncmp_prefix_false in E. apply E. rewrite Heq. by eexists.
    + by eapply IH.
Qed.

Lemma is_slash_true c : is_slash c = true <-> c = slash.
Proof. apply bool_decide_eq_true. Qed.

Lemma IS_ABSPATH_cons p : IS_ABSPATH p = true <-> exists q, p = slash :: q.
Proof.
  destruct p as [|c p]; simpl; [naive_solver|].
  rewrite is_slash_true. naive_solver.
Qed.

Lemma IS_ABSPATH_app p q : IS_ABSPATH p = true -> IS_ABSPATH (p ++ q) = true.
Proof. destruct p; [done|]. done. Qed.

#[export] Hint Resolve IS_ABSPATH_app : ptu.

(** ** Tokens *)

Lemma strtok_aux_free d cur s :
  d ∉ s -> rev cur ++ s <> [] -> strtok_aux d cur s = [rev cur ++ s].
Proof.
  revert cur; induction s as [|x s IH]; intros cur Hd Hne; simpl.
  - rewrite app_nil_r in *. rewrite bool_decide_eq_false_2; [done|]. by intros ->.
  - apply not_elem_of_cons in Hd as [Hx Hd]. rewrite bool_decide_eq_false_2 by congruence.
    rewrite IH; simpl; rewrite <- ?app_assoc; simpl; done.
Qed.

Lemma strtok_aux_cut d cur s t :
  d ∉ s -> rev cur ++ s <> [] ->
  strtok_aux d cur (s ++ d :: t) = (rev cur ++ s) :: strtok_aux d [] t.
Proof.
  revert cur; induction s as [|x s IH]; intros cur Hd Hne; simpl.
  - rewrite app_nil_r in *. rewrite bool_decide_eq_true_2 by done.
    rewrite bool_decide_eq_false_2; [done|]. by intros ->.
  - apply not_elem_of_cons in Hd as [Hx Hd]. rewrite bool_decide_eq_false_2 by congruence.
    rewrite IH; simpl; rewrite <- ?app_assoc; simpl; done.
Qed.
