(* ===== verification/Os.v ===== *)
(** * The operating system as a parameter

    PTU talks to the world through system calls and library calls that depend on the
    state of the machine.  A program is a tree of such calls ([prog]); an operating
    system is a handler that answers them and updates a world of its own.  Theorems
    either quantify over every answer ([wp]) or over every handler with the laws they
    state ([run]).  Nothing here is mapped to [src/]. *)
From S2P Require Import Prelude CString.

(** ** What the calls exchange *)

Inductive fkind := REG | DIR | LNK | OTHER.
#[export] Instance fkind_dec : EqDecision fkind.
Proof. solve_decision. Defined.

(** [struct stat], the fields the sources read *)
Record fstat := { st_kind : fkind; st_mode : Z; st_mtime : Z; st_size : Z; st_uid : Z; st_gid : Z }.

(** The general purpose registers; the 32-bit names ([ebx], ...) are the low halves. *)
Inductive reg := RAX | RBX | RCX | RDX | RSI | RDI | RBP | RIP | ORIG_RAX | RSP | R8 | R9 | R10 | R15 | CS.
#[export] Instance reg_dec : EqDecision reg.
Proof. solve_decision. Defined.

(** [struct user_regs_struct] *)
Definition regs := reg -> Z.
Definition set_reg (r : reg) (v : Z) (rs : regs) : regs :=
  fun r' => if decide (r' = r) then v else rs r'.

(** [errno] values *)
Definition EPERM : Z := 1.
Definition ESRCH : Z := 3.
Definition EINTR : Z := 4.
Definition EIO : Z := 5.
Definition ECHILD : Z := 10.
Definition EEXIST : Z := 17.
Definition EINVAL : Z := 22.
Definition ENOSYS : Z := 38.

Inductive fmode := F_read | F_write | F_append.

(** The requests of [ptrace] that let a stopped process go on, or kill it. *)
Inductive restart := PTRACE_SYSCALL | PTRACE_CONT | PTRACE_DETACH | PTRACE_KILL.
#[export] Instance restart_dec : EqDecision restart.
Proof. solve_decision. Defined.

(** The arguments of a message printed on a terminal stream. *)
Inductive parg := PS (s : cstring) | PZ (z : Z).

(** A call that returns [0] or [-1] with [errno] replies with [0] or the [errno];
    a call that returns a pointer or a descriptor replies with an option. *)
Inductive sys : Type :=
(* files *)
| Lstat (p : cstring) | Stat (p : cstring) | Access (p : cstring)
| Mkdir (p : cstring) (mode : Z) | Rmdir (p : cstring)
| Symlink (target p : cstring) | Link (old new : cstring) | Unlink (p : cstring)
| Readlink (p : cstring) | Realpath (p : cstring) | Chmod (p : cstring) (mode : Z)
| Open_read (p : cstring) | Open_create (p : cstring) (mode : Z)
| Read (fd : Z) (n : nat) | Write (fd : Z) (b : cstring) | Close (fd : Z)
| Fopen (p : cstring) (m : fmode) | Getline (f : Z) | Fgets (f : Z) (n : nat)
| Fputs (f : Z) (s : cstring) | Fclose (f : Z)
| Opendir (p : cstring) | Readdir (d : Z) | Closedir (d : Z) | Set_cloexec (f : Z)
| Mmap (fd : Z) (len : Z) | Munmap (len : Z)
(* this process *)
| Getcwd | Getpid | Getenv (n : cstring) | Setenv (n v : cstring) (overwrite : bool) | Clearenv
| Putenv (s : cstring) | Getppid | Getuid | Geteuid | Getgid | Getpwnam (n : cstring)
| Initgroups (n : cstring) (gid : Z) | Setregid (rgid egid : Z) | Setreuid (ruid euid : Z)
| Signal (sig : Z) (ignored : bool) | Pause | Alarm (sec : Z) | Fork | Execvp (p : cstring) (argv : list cstring)
| Uname | Time | Umask (m : Z) | Clock_gettime | Rand | Sysconf_open_max | Popen_uname | Getpwuid | Usleep (usec : Z)
(* shared memory *)
| Shmget (key : Z) | Shmat (id : Z) | Shmctl_rmid (id : Z) | Shmdt (addr : Z)
| Shm_store (id : Z) (off : nat) (b : cstring)
(* the traced process *)
| Peekdata (pid addr : Z) | Pokedata (pid addr w : Z)
| Getregs (pid : Z) | Setregs (pid : Z) (rs : regs)
| Peekuser (pid : Z) (r : reg) | Pokeuser (pid : Z) (r : reg) (v : Z)
| Ptrace_restart (op : restart) (pid sig : Z)
| Ptrace_setoptions (pid opts : Z) | Ptrace_geteventmsg (pid : Z)
| Tgkill (tgid pid sig : Z) | Kill (pid sig : Z)
| Wait4 (pid options : Z)
| Ptrace_traceme | Ptrace_seize (pid : Z) | Ptrace_interrupt (pid : Z)
(* readelf-mini *)
| Find_ELF_program_interpreter (p : cstring)
(* terminal *)
| Eprintf (fmt : string) (args : list parg) | Printf (fmt : string) (args : list parg).
Arguments Eprintf _%_string_scope _.
Arguments Printf _%_string_scope _.

Definition reply (c : sys) : Type :=
  match c with
  | Lstat _ | Stat _ => option fstat
  | Access _ | Mkdir _ _ | Rmdir _ | Symlink _ _ | Link _ _ | Unlink _ | Chmod _ _ => Z
  | Readlink _ | Realpath _ => option cstring
  | Open_read _ | Open_create _ _ | Fopen _ _ | Opendir _ => option Z
  | Read _ _ => option cstring            (* [None] is the -1 of an error *)
  | Write _ _ => Z
  | Close _ | Fputs _ _ | Fclose _ | Closedir _ => unit
  | Getline _ | Fgets _ _ | Readdir _ => option cstring
  | Getcwd => cstring
  | Getpid | Time | Rand => Z
  | Getenv _ => option cstring
  | Setenv _ _ _ | Clearenv | Umask _ | Set_cloexec _ | Usleep _ | Munmap _ => unit
  | Putenv _ | Getppid | Getuid | Geteuid | Getgid | Initgroups _ _ | Setregid _ _ | Setreuid _ _ => Z
  | Getpwnam _ => option (Z * Z)          (* pw_uid, pw_gid *)
  | Signal _ _ | Pause | Alarm _ => unit
  | Fork => Z                             (* the child's pid, 0 in the child, or -1 *)
  | Execvp _ _ => unit                    (* it returns when it has failed *)
  | Uname => option (cstring * cstring * cstring * cstring)
  | Clock_gettime => Z * Z                (* tv_sec, tv_nsec *)
  | Sysconf_open_max => Z * Z             (* the value, [errno] *)
  | Popen_uname => option cstring
  | Mmap _ _ => option cstring            (* what can be read from the pointer on *)
  | Getpwuid => option cstring
  | Shmget _ => Z + Z                     (* the id, or [errno] *)
  | Shmat _ => option Z
  | Shmctl_rmid _ => Z
  | Shmdt _ | Shm_store _ _ _ => unit
  | Peekdata _ _ => Z + Z                 (* the word, or [errno] *)
  | Pokedata _ _ _ => Z
  | Getregs _ => option regs
  | Setregs _ _ => Z
  | Peekuser _ _ => Z + Z                 (* the word, or [errno] *)
  | Pokeuser _ _ _ => Z                   (* [errno] *)
  | Ptrace_restart _ _ _ | Ptrace_setoptions _ _ => Z
  | Ptrace_geteventmsg _ => Z + Z
  | Tgkill _ _ _ | Kill _ _ => Z
  | Wait4 _ _ => (Z * Z) + Z              (* the pid and its status, or [errno] *)
  | Ptrace_traceme | Ptrace_seize _ | Ptrace_interrupt _ => Z
  | Find_ELF_program_interpreter _ => option cstring
  | Eprintf _ _ | Printf _ _ => unit
  end.

(** The answer of a system that knows nothing: failure where a call can fail. *)
Definition null_reply (c : sys) : reply c :=
  match c return reply c with
  | Lstat _ | Stat _ => None
  | Access _ | Mkdir _ _ | Rmdir _ | Symlink _ _ | Link _ _ | Unlink _ | Chmod _ _ => EPERM
  | Readlink _ | Realpath _ => None
  | Open_read _ | Open_create _ _ | Fopen _ _ | Opendir _ => None
  | Read _ _ => None
  | Write _ _ => (-1)%Z
  | Close _ | Fputs _ _ | Fclose _ | Closedir _ => tt
  | Getline _ | Fgets _ _ | Readdir _ => None
  | Getcwd => [slash]
  | Getpid | Time | Rand => 0%Z
  | Getenv _ => None
  | Setenv _ _ _ | Clearenv | Umask _ | Set_cloexec _ | Usleep _ | Munmap _ => tt
  | Putenv _ | Initgroups _ _ | Setregid _ _ | Setreuid _ _ => (-1)%Z
  | Getppid | Getuid | Geteuid | Getgid => 1%Z
  | Getpwnam _ => None
  | Signal _ _ | Pause | Alarm _ | Execvp _ _ => tt
  | Fork => (-1)%Z
  | Uname => None
  | Clock_gettime => (0, 0)%Z
  | Sysconf_open_max => (-1, EPERM)%Z
  | Popen_uname | Getpwuid | Mmap _ _ => None
  | Shmget _ => inr EPERM
  | Shmat _ => None
  | Shmctl_rmid _ => (-1)%Z
  | Shmdt _ | Shm_store _ _ _ => tt
  | Peekdata _ _ => inr EIO
  | Pokedata _ _ _ => (-1)%Z
  | Getregs _ => None
  | Setregs _ _ => (-1)%Z
  | Peekuser _ _ => inr EIO
  | Pokeuser _ _ _ => EIO
  | Ptrace_restart _ _ _ | Ptrace_setoptions _ _ => ESRCH
  | Ptrace_geteventmsg _ => inr ESRCH
  | Tgkill _ _ _ | Kill _ _ => ESRCH
  | Wait4 _ _ => inr ECHILD
  | Ptrace_traceme | Ptrace_seize _ | Ptrace_interrupt _ => (-1)%Z
  | Find_ELF_program_interpreter _ => None
  | Eprintf _ _ | Printf _ _ => tt
  end.

(** How a run ends before it returns: [exit(n)], a failed [assert], a NULL
    dereference or an out-of-bounds access, or the fuel of the model in the named loop. *)
Inductive stop := Exit (n : Z) | AssertFailed | Segv | OutOfFuel (loop : string).
Arguments OutOfFuel _%_string_scope.
#[export] Instance stop_dec : EqDecision stop.
Proof. solve_decision. Defined.

(** ** Programs *)

Inductive prog (A : Type) : Type :=
| Ret (a : A)
| Stop (e : stop)
| Sys (c : sys) (k : reply c -> prog A).
Arguments Ret {A} _.
Arguments Stop {A} _.
Arguments Sys {A} _ _.

Fixpoint bindP {A B} (p : prog A) (f : A -> prog B) : prog B :=
  match p with
  | Ret a => f a
  | Stop e => Stop e
  | Sys c k => Sys c (fun r => bindP (k r) f)
  end.

(** The monad of the sources: a program over the state [S] of the tracer. *)
Definition M (S A : Type) : Type := S -> prog (A * S).

Section Monad.
Context {S : Type}.

Definition retM {A} (a : A) : M S A := fun s => Ret (a, s).
Definition bindM {A B} (m : M S A) (f : A -> M S B) : M S B :=
  fun s => bindP (m s) (fun '(a, s') => f a s').
Definition stopM {A} (e : stop) : M S A := fun _ => Stop e.
Definition sysM (c : sys) : M S (reply c) := fun s => Sys c (fun r => Ret (r, s)).
Definition getM : M S S := fun s => Ret (s, s).
Definition putM (s : S) : M S unit := fun _ => Ret (tt, s).
Definition modM (f : S -> S) : M S unit := fun s => Ret (tt, f s).
Definition gets {A} (f : S -> A) : M S A := fun s => Ret (f s, s).
End Monad.

Declare Scope ptu_scope.
Delimit Scope ptu_scope with ptu.
Notation "'let*' x := m 'in' k" := (bindM m (fun x => k))
  (at level 10, x pattern, m at level 100, k at level 200,
   format "'[v' 'let*'  x  :=  m  'in' '/' k ']'") : ptu_scope.
Notation "m ;;; k" := (bindM m (fun _ => k))
  (at level 199, right associativity, format "'[v' m  ;;; '/' k ']'") : ptu_scope.
#[global] Open Scope ptu_scope.

Section Derived.
Context {S : Type}.

Definition skip : M S unit := retM tt.
Definition when (b : bool) (m : M S unit) : M S unit := if b then m else skip.
(** [assert(b)] *)
Definition assertM (b : bool) : M S unit := if b then skip else stopM AssertFailed.
(** a pointer that is dereferenced *)
Definition deref {A} (o : option A) : M S A :=
  match o with Some a => retM a | None => stopM Segv end.
(** the result of a computation whose own assertions are checked *)
Definition assert_some {A} (o : option A) : M S A :=
  match o with Some a => retM a | None => stopM AssertFailed end.
(** [format]: asserts that the string it built is not empty *)
Definition format (s : cstring) : M S cstring :=
  match s with [] => stopM AssertFailed | _ => retM s end.
(** a copy into a buffer of [n] bytes *)
Definition strbuf (n : nat) (s : cstring) : M S cstring :=
  if length s <? n then retM s else stopM Segv.
(** [EXITIF(b)] *)
Definition EXITIF (b : bool) : M S unit :=
  if b then sysM (Eprintf "Fatal error in %s [%s:%d]\n" []) ;;; stopM (Exit 1) else skip.
(** [for] over a list *)
Fixpoint forM {A} (l : list A) (f : A -> M S unit) : M S unit :=
  match l with
  | [] => skip
  | x :: l' => f x ;;; forM l' f
  end.
End Derived.

(** ** Runs *)

Section Run.
Context {W : Type} (h : forall c : sys, W -> reply c * W).

Definition event := {c : sys & reply c}.

(** The calls made with their answers, the outcome, the final world. *)
Fixpoint run {A} (p : prog A) (w : W) : list event * (A + stop) * W :=
  match p with
  | Ret a => ([], inl a, w)
  | Stop e => ([], inr e, w)
  | Sys c k =>
    let '(r, w1) := h c w in
    let '(tr, o, w2) := run (k r) w1 in
    (existT c r :: tr, o, w2)
  end.

Definition trace {A} (p : prog A) (w : W) : list event := (run p w).1.1.
Definition outcome {A} (p : prog A) (w : W) : A + stop := (run p w).1.2.
Definition final {A} (p : prog A) (w : W) : W := (run p w).2.

Lemma run_bind {A B} (p : prog A) (f : A -> prog B) w :
  run (bindP p f) w =
  match run p w with
  | (t1, inl a, w1) => let '(t2, o, w2) := run (f a) w1 in (t1 ++ t2, o, w2)
  | (t1, inr e, w1) => (t1, inr e, w1)
  end.
Proof.
  revert w; induction p as [a|e|c k IH]; intros w; simpl.
  - by destruct (run (f a) w) as [[??]?].
  - done.
  - destruct (h c w) as [r w1]. rewrite IH.
    destruct (run (k r) w1) as [[t1 [a|e]] w2]; [|done].
    by destruct (run (f a) w2) as [[??]?].
Qed.
End Run.

(** Big steps: [m] returns [a] having made the calls [tr]. *)
Section Returns.
Context {W S : Type} (h : forall c : sys, W -> reply c * W).

Definition returns {A} (m : M S A) (s : S) (w : W) (tr : list event) (a : A) (s' : S) (w' : W) : Prop :=
  run h (m s) w = (tr, inl (a, s'), w').

Lemma returns_bind {A B} (m : M S A) (f : A -> M S B) s w t1 a s1 w1 t2 b s2 w2 :
  returns m s w t1 a s1 w1 -> returns (f a) s1 w1 t2 b s2 w2 ->
  returns (bindM m f) s w (t1 ++ t2) b s2 w2.
Proof. unfold returns, bindM. intros H1 H2. by rewrite run_bind, H1, H2. Qed.

Lemma returns_ret {A} (a : A) s w : returns (retM a) s w [] a s w.
Proof. done. Qed.

Lemma returns_sys c s w :
  returns (sysM c) s w [existT c (h c w).1] (h c w).1 s (h c w).2.
Proof. unfold returns, sysM. simpl. by destruct (h c w). Qed.

(** A call whose reply and effect are known, then the rest. *)
Lemma returns_sys_bind {B} c (f : reply c -> M S B) s w r w1 t b s' w' :
  (h c w).1 = r -> (h c w).2 = w1 -> returns (f r) s w1 t b s' w' ->
  returns (bindM (sysM c) f) s w (existT c r :: t) b s' w'.
Proof. intros <- <- H. exact (returns_bind _ _ _ _ _ _ _ _ _ _ _ _ (returns_sys c s w) H). Qed.

(** A step that makes no call. *)
Lemma returns_pure_bind {A B} (m : M S A) (f : A -> M S B) s s1 a w t b s' w' :
  m s = Ret (a, s1) -> returns (f a) s1 w t b s' w' -> returns (bindM m f) s w t b s' w'.
Proof. unfold returns, bindM. intros -> H. exact H. Qed.

(** [m] returns [a] from [s] in every world, and relates the worlds by [R]. *)
Section Runs.
Context (R : W -> W -> Prop) `{!Reflexive R, !Transitive R}.

Definition runs {A} (m : M S A) (s : S) (a : A) (s' : S) : Prop :=
  forall w, exists tr w', returns m s w tr a s' w' /\ R w w'.

Lemma runs_pure {A} (m : M S A) s a s' : m s = Ret (a, s') -> runs m s a s'.
Proof. intros H w. exists [], w. split; [|reflexivity]. unfold returns. by rewrite H. Qed.

Lemma runs_bind {A B} (m : M S A) (f : A -> M S B) s a s1 b s' :
  runs m s a s1 -> runs (f a) s1 b s' -> runs (bindM m f) s b s'.
Proof.
  intros H1 H2 w. destruct (H1 w) as (t1 & w1 & Hr1 & HR1). destruct (H2 w1) as (t2 & w2 & Hr2 & HR2).
  exists (t1 ++ t2), w2. split; [by eapply returns_bind|by transitivity w1].
Qed.

Lemma runs_pure_bind {A B} (m : M S A) (f : A -> M S B) s a s1 b s' :
  m s = Ret (a, s1) -> runs (f a) s1 b s' -> runs (bindM m f) s b s'.
Proof. intros H. apply runs_bind. by apply runs_pure. Qed.

Lemma runs_sys_bind {B} c (f : reply c -> M S B) s r b s' :
  (forall w, (h c w).1 = r /\ R w (h c w).2) -> runs (f r) s b s' -> runs (bindM (sysM c) f) s b s'.
Proof.
  intros H. apply runs_bind. intros w. destruct (H w) as [Hr HR].
  eexists _, _. split; [|exact HR]. rewrite <- Hr. apply returns_sys.
Qed.

(** A call whose reply is not looked at. *)
Lemma runs_ignore_bind {B} c (f : reply c -> M S B) s b s' :
  (forall w, R w (h c w).2) -> (forall r, runs (f r) s b s') -> runs (bindM (sysM c) f) s b s'.
Proof.
  intros H Hf w. destruct (Hf (h c w).1 (h c w).2) as (t2 & w2 & Hr2 & HR2).
  eexists _, w2. split; [eapply returns_bind; [apply returns_sys|exact Hr2]|].
  transitivity ((h c w).2); auto.
Qed.
End Runs.
End Returns.

(** ** Reasoning over every answer of the system *)

(** [may c]: the call [c] is allowed; [rep c r]: [r] is an answer the system gives. *)
Record contract := { may : sys -> Prop; rep : forall c, reply c -> Prop }.

Section Wp.
Context (K : contract).

Fixpoint wp {A} (p : prog A) (Q : A -> Prop) (E : stop -> Prop) : Prop :=
  match p with
  | Ret a => Q a
  | Stop e => E e
  | Sys c k => may K c /\ forall r, rep K c r -> wp (k r) Q E
  end.

Lemma wp_mono {A} (p : prog A) (Q Q' : A -> Prop) (E E' : stop -> Prop) :
  wp p Q E -> (forall a, Q a -> Q' a) -> (forall e, E e -> E' e) -> wp p Q' E'.
Proof. intros H HQ HE. induction p; simpl in *; [auto..|]. destruct H. eauto. Qed.

Lemma wp_bind {A B} (p : prog A) (f : A -> prog B) Q E :
  wp p (fun a => wp (f a) Q E) E -> wp (bindP p f) Q E.
Proof. induction p; simpl; [done..|]. intros []. eauto. Qed.

(** Adequacy: against a handler whose answers meet the contract, every call of the
    run is allowed and the outcome meets the postcondition. *)
Lemma wp_run {W} (h : forall c, W -> reply c * W) {A} (p : prog A) Q E w :
  (forall c w, rep K c (h c w).1) -> wp p Q E ->
  Forall (fun e : event => may K (projT1 e)) (trace h p w)
  /\ match outcome h p w with inl a => Q a | inr e => E e end.
Proof.
  intros Hh. unfold trace, outcome. revert w; induction p as [a|e|c k IH]; intros w; simpl.
  - eauto.
  - eauto.
  - intros [Hc Hk]. pose proof (Hh c w) as Hr. destruct (h c w) as [r w1]; simpl in *.
    destruct (IH r w1 (Hk r Hr)) as [IH1 IH2].
    destruct (run h (k r) w1) as [[t o] w2]; simpl in *. eauto.
Qed.

Definition wpM {S A} (m : M S A) (s : S) (Q : A -> S -> Prop) (E : stop -> Prop) : Prop :=
  wp (m s) (fun '(a, s') => Q a s') E.

Lemma wpM_mono {S A} (m : M S A) s (Q Q' : A -> S -> Prop) (E E' : stop -> Prop) :
  wpM m s Q E -> (forall a s', Q a s' -> Q' a s') -> (forall e, E e -> E' e) -> wpM m s Q' E'.
Proof. intros H HQ HE. eapply wp_mono; [done| |done]. intros []. apply HQ. Qed.

Lemma wpM_bind {S A B} (m : M S A) (f : A -> M S B) s Q E :
  wpM m s (fun a s' => wpM (f a) s' Q E) E -> wpM (bindM m f) s Q E.
Proof.
  intros H. apply wp_bind. eapply wp_mono; [apply H| |done]. intros []. done.
Qed.

(** A step that makes no call. *)
Lemma wpM_pure {S A} (m : M S A) s a s1 (Q : A -> S -> Prop) E :
  m s = Ret (a, s1) -> Q a s1 -> wpM m s Q E.
Proof. unfold wpM. by intros ->. Qed.

Lemma wpM_ret {S A} (a : A) (s : S) (Q : A -> S -> Prop) E : Q a s -> wpM (retM a) s Q E.
Proof. done. Qed.
Lemma wpM_stop {S A} e (s : S) (Q : A -> S -> Prop) (E : stop -> Prop) :
  E e -> wpM (stopM e) s Q E.
Proof. done. Qed.
Lemma wpM_sys {S} c (s : S) (Q : reply c -> S -> Prop) E :
  may K c -> (forall r, rep K c r -> Q r s) -> wpM (sysM c) s Q E.
Proof. by split. Qed.
Lemma wpM_get {S} (s : S) (Q : S -> S -> Prop) E : Q s s -> wpM getM s Q E.
Proof. done. Qed.
Lemma wpM_gets {S A} (f : S -> A) (s : S) (Q : A -> S -> Prop) E : Q (f s) s -> wpM (gets f) s Q E.
Proof. done. Qed.
Lemma wpM_put {S} (s0 s : S) (Q : unit -> S -> Prop) E : Q tt s0 -> wpM (putM s0) s Q E.
Proof. done. Qed.
Lemma wpM_mod {S} f (s : S) (Q : unit -> S -> Prop) E : Q tt (f s) -> wpM (modM f) s Q E.
Proof. done. Qed.
Lemma wpM_skip {S} (s : S) (Q : unit -> S -> Prop) E : Q tt s -> wpM skip s Q E.
Proof. done. Qed.

Lemma wpM_assert {S} b (s : S) (Q : unit -> S -> Prop) (E : stop -> Prop) :
  (b = true -> Q tt s) -> (b = false -> E AssertFailed) -> wpM (assertM b) s Q E.
Proof. destruct b; cbv; auto. Qed.

Lemma wpM_deref {S A} (o : option A) (s : S) (Q : A -> S -> Prop) (E : stop -> Prop) :
  (forall a, o = Some a -> Q a s) -> (o = None -> E Segv) -> wpM (deref o) s Q E.
Proof. destruct o; cbv; auto. Qed.

Lemma wpM_assert_some {S A} (o : option A) (s : S) (Q : A -> S -> Prop) (E : stop -> Prop) :
  (forall a, o = Some a -> Q a s) -> (o = None -> E AssertFailed) -> wpM (assert_some o) s Q E.
Proof. destruct o; cbv; auto. Qed.

Lemma wpM_format {S} x (s : S) (Q : cstring -> S -> Prop) (E : stop -> Prop) :
  Q x s -> E AssertFailed -> wpM (format x) s Q E.
Proof. destruct x; cbv; auto. Qed.

Lemma wpM_strbuf {S} n x (s : S) (Q : cstring -> S -> Prop) (E : stop -> Prop) :
  (length x < n -> Q x s) -> (n <= length x -> E Segv) -> wpM (strbuf n x) s Q E.
Proof.
  unfold strbuf. intros H1 H2.
  destruct (Nat.ltb_spec (length x) n); [by apply H1|by apply H2].
Qed.

Lemma wpM_when {S} b m (s : S) (Q : unit -> S -> Prop) E :
  (b = true -> wpM m s Q E) -> (b = false -> Q tt s) -> wpM (when b m) s Q E.
Proof. destruct b; intros H1 H2; [by apply H1|by apply H2]. Qed.

Lemma wpM_EXITIF {S} b (s : S) (Q : unit -> S -> Prop) (E : stop -> Prop) :
  (forall fmt args, may K (Eprintf fmt args)) ->
  (b = false -> Q tt s) -> (b = true -> E (Exit 1)) -> wpM (EXITIF b) s Q E.
Proof.
  destruct b; intros HK H1 H2; [|by apply H1].
  split; [apply HK|]. intros r _. by apply H2.
Qed.

(** A loop over a list preserves an invariant of the state. *)
Lemma wpM_forM {S A} (l : list A) (f : A -> M S unit) (I : S -> Prop) s E :
  I s -> (forall x s, x ∈ l -> I s -> wpM (f x) s (fun _ => I) E) ->
  wpM (forM l f) s (fun _ => I) E.
Proof.
  intros Hs Hf. revert s Hs; induction l as [|x l IH]; intros s Hs; simpl; [done|].
  apply wpM_bind. eapply wpM_mono; [apply Hf; [left|done]| |done].
  intros [] s' Hs'. apply IH; [|done]. intros y s1 Hy. apply Hf. by right.
Qed.
End Wp.

(** A computation whose outcome the contract determines runs to it against every handler
    that meets the contract. *)
Lemma runs_of_wpM {W S A} (h : forall c, W -> reply c * W) (R : W -> W -> Prop) `{!Reflexive R, !Transitive R}
    (K : contract) (m : M S A) s a s1 :
  (forall c w, may K c -> rep K c (h c w).1 /\ R w (h c w).2) ->
  wpM K m s (fun a' s' => s' = s1 /\ a' = a) (fun _ => False) -> runs h R m s a s1.
Proof.
  intros Hh. unfold wpM, runs, returns. generalize (m s). clear m s. intros p.
  induction p as [[a' s']|e|c k IH]; simpl; [|done|].
  - intros [-> ->] w. by exists [], w.
  - intros [Hc Hk] w. destruct (Hh c w Hc) as [Hr HR].
    destruct (h c w) as [r w1]; simpl in *. destruct (IH _ (Hk _ Hr) w1) as (tr & w' & Hrun & HR').
    eexists _, w'. rewrite Hrun. split; [done|]. etransitivity; [exact HR|exact HR'].
Qed.

(** A contract that allows more and expects less *)
Lemma wp_contract {A} (K K' : contract) (p : prog A) Q E :
  (forall c, may K c -> may K' c) -> (forall c r, rep K' c r -> rep K c r) -> wp K p Q E -> wp K' p Q E.
Proof.
  intros Hm Hr. induction p as [a|e|c k IH]; simpl; [done..|]. intros [Hc Hk]. split; [auto|].
  intros r Hrep. apply IH, Hk, Hr, Hrep.
Qed.

(** One step of symbolic execution of a goal [wpM K m s Q E]. *)
Ltac wp1 :=
  lazymatch goal with
  | |- wpM _ (bindM _ _) _ _ _ => apply wpM_bind
  | |- wpM _ (retM _) _ _ _ => apply wpM_ret
  | |- wpM _ (stopM _) _ _ _ => apply wpM_stop
  | |- wpM _ skip _ _ _ => apply wpM_skip
  | |- wpM _ getM _ _ _ => apply wpM_get
  | |- wpM _ (gets _) _ _ _ => apply wpM_gets
  | |- wpM _ (putM _) _ _ _ => apply wpM_put
  | |- wpM _ (modM _) _ _ _ => apply wpM_mod
  | |- wpM _ (sysM _) _ _ _ => apply wpM_sys; [|intros ? ?]
  | |- wpM _ (assertM true) _ _ _ => apply wpM_skip
  | |- wpM _ (assertM _) _ _ _ => apply wpM_assert; intros ?
  | |- wpM _ (assert_some (Some _)) _ _ _ => apply wpM_ret
  | |- wpM _ (deref (Some _)) _ _ _ => apply wpM_ret
  | |- wpM _ (assert_some _) _ _ _ => apply wpM_assert_some; [intros ? ?|intros ?]
  | |- wpM _ (format _) _ _ _ => apply wpM_format
  | |- wpM _ (strbuf _ _) _ _ _ => apply wpM_strbuf; intros ?
  | |- wpM _ (deref _) _ _ _ => apply wpM_deref; [intros ? ?|intros ?]
  | |- wpM _ (when _ _) _ _ _ => apply wpM_when; intros ?
  | |- wpM _ (if ?b then _ else _) _ _ _ => destruct b eqn:?
  | |- wpM _ (match ?x with _ => _ end) _ _ _ => destruct x eqn:?
  | |- wpM _ (let '(_, _) := ?x in _) _ _ _ => destruct x eqn:?
  end.

(** ** Safety: allowed calls and an invariant of the state

    [ok K I m Q]: from a state that satisfies [I], whatever the system answers within
    the contract, every call of [m] is allowed, and when [m] returns, its result
    satisfies [Q] and the state [I]. *)
Section Ok.
Context {S : Type} (K : contract) (I : S -> Prop).

Definition ok {A} (m : M S A) (Q : A -> Prop) : Prop :=
  forall s, I s -> wpM K m s (fun a s' => Q a /\ I s') (fun _ => True).

Lemma ok_weaken {A} (m : M S A) (Q Q' : A -> Prop) :
  ok m Q -> (forall a, Q a -> Q' a) -> ok m Q'.
Proof. intros H HQ s Hs. eapply wpM_mono; [by apply H| |done]. naive_solver. Qed.

Lemma ok_bind {A B} (m : M S A) (f : A -> M S B) (Q1 : A -> Prop) Q :
  ok m Q1 -> (forall a, Q1 a -> ok (f a) Q) -> ok (bindM m f) Q.
Proof.
  intros Hm Hf s Hs. apply wpM_bind. eapply wpM_mono; [by apply Hm| |done].
  intros a s' [Ha Hs']. by apply Hf.
Qed.

Lemma ok_ret {A} (a : A) (Q : A -> Prop) : Q a -> ok (retM a) Q.
Proof. by intros ? s ?. Qed.
Lemma ok_skip (Q : unit -> Prop) : Q tt -> ok skip Q.
Proof. by intros ? s ?. Qed.
Lemma ok_stop {A} e (Q : A -> Prop) : ok (stopM e) Q.
Proof. by intros s ?. Qed.
Lemma ok_sys c (Q : reply c -> Prop) :
  may K c -> (forall r, rep K c r -> Q r) -> ok (sysM c) Q.
Proof. intros Hc Hr s Hs. apply wpM_sys; [done|]. auto. Qed.
Lemma ok_gets {A} (f : S -> A) (Q : A -> Prop) : (forall s, I s -> Q (f s)) -> ok (gets f) Q.
Proof. intros H s Hs. apply wpM_gets. auto. Qed.
Lemma ok_mod f (Q : unit -> Prop) : Q tt -> (forall s, I s -> I (f s)) -> ok (modM f) Q.
Proof. intros HQ H s Hs. apply wpM_mod. auto. Qed.
Lemma ok_get (Q : S -> Prop) : (forall s, I s -> Q s) -> ok getM Q.
Proof. intros H s Hs. apply wpM_get. auto. Qed.
Lemma ok_put s0 (Q : unit -> Prop) : Q tt -> I s0 -> ok (putM s0) Q.
Proof. intros HQ H s Hs. apply wpM_put. auto. Qed.
Lemma ok_assert b (Q : unit -> Prop) : (b = true -> Q tt) -> ok (assertM b) Q.
Proof. intros H s Hs. apply wpM_assert; auto. Qed.
Lemma ok_deref {A} (o : option A) (Q : A -> Prop) :
  (forall a, o = Some a -> Q a) -> ok (deref o) Q.
Proof. intros H s Hs. apply wpM_deref; auto. Qed.
Lemma ok_assert_some {A} (o : option A) (Q : A -> Prop) :
  (forall a, o = Some a -> Q a) -> ok (assert_some o) Q.
Proof. intros H s Hs. apply wpM_assert_some; auto. Qed.
Lemma ok_format x (Q : cstring -> Prop) : Q x -> ok (format x) Q.
Proof. intros H s Hs. apply wpM_format; auto. Qed.
Lemma ok_strbuf n x (Q : cstring -> Prop) : (length x < n -> Q x) -> ok (strbuf n x) Q.
Proof. intros H s Hs. apply wpM_strbuf; auto. Qed.
Lemma ok_when b m (Q : unit -> Prop) : (b = true -> ok m Q) -> Q tt -> ok (when b m) Q.
Proof. intros H HQ s Hs. apply wpM_when; [|done]. intros Hb. by apply H. Qed.
Lemma ok_forM {A} (l : list A) (f : A -> M S unit) :
  (forall x, x ∈ l -> ok (f x) (fun _ => True)) -> ok (forM l f) (fun _ => True).
Proof.
  intros H. induction l as [|x l IH]; simpl; [by apply ok_skip|].
  eapply ok_bind; [apply H; left|]. intros _ _. apply IH. intros y Hy. apply H. by right.
Qed.
Lemma ok_EXITIF b (Q : unit -> Prop) :
  (forall fmt args, may K (Eprintf fmt args)) -> (b = false -> Q tt) -> ok (EXITIF b) Q.
Proof. intros HK HQ s Hs. apply wpM_EXITIF; auto. Qed.
End Ok.

(** The trivial fact about a sub-computation whose result does not matter. *)
Abbreviation okT K I m := (ok K I m (fun _ => True)).

(** One step on a goal [ok K I m Q]; the intermediate facts default to [True] except
    for the primitives that say more about their result. *)
Ltac ok1 :=
  lazymatch goal with
  | |- ok _ _ (bindM (sysM ?c) _) _ =>
      eapply (ok_bind _ _ _ _ (fun r => rep _ c r)); [apply ok_sys; [|done]|intros ? ?]
  | |- ok _ _ (bindM (retM ?a) _) _ =>
      eapply (ok_bind _ _ _ _ (fun r => r = a)); [by apply ok_ret|intros ? ->]
  | |- ok _ _ (bindM skip _) _ =>
      eapply (ok_bind _ _ _ _ (fun _ => True)); [by apply ok_skip|intros ? _]
  | |- ok _ _ (bindM (assertM ?b) _) _ =>
      eapply (ok_bind _ _ _ _ (fun _ => b = true)); [by apply ok_assert|intros ? ?]
  | |- ok _ _ (bindM (deref ?o) _) _ =>
      eapply (ok_bind _ _ _ _ (fun r => o = Some r)); [by apply ok_deref|intros ? ?]
  | |- ok _ _ (bindM (assert_some (Some ?a)) _) _ =>
      eapply (ok_bind _ _ _ _ (fun r => r = a)); [by apply ok_ret|intros ? ->]
  | |- ok _ _ (bindM (assert_some ?o) _) _ =>
      eapply (ok_bind _ _ _ _ (fun r => o = Some r)); [by apply ok_assert_some|intros ? ?]
  | |- ok _ _ (bindM (format ?x) _) _ =>
      eapply (ok_bind _ _ _ _ (fun r => r = x)); [by apply ok_format|intros ? ->]
  | |- ok _ _ (bindM (strbuf ?n ?x) _) _ =>
      eapply (ok_bind _ _ _ _ (fun r => r = x /\ length x < n)); [by apply ok_strbuf|intros ? [-> ?]]
  | |- ok _ ?I (bindM (gets ?f) _) _ =>
      eapply (ok_bind _ _ _ _ (fun r => exists s, I s /\ r = f s));
        [by apply ok_gets; eauto|intros ? (? & ? & ->)]
  | |- ok _ _ (bindM (modM _) _) _ =>
      eapply (ok_bind _ _ _ _ (fun _ => True)); [apply ok_mod; [done|]|intros ? _]
  | |- ok _ _ (bindM (when _ _) _) _ =>
      eapply (ok_bind _ _ _ _ (fun _ => True)); [apply ok_when; [intros ?|done]|intros ? _]
  | |- ok _ _ (bindM (bindM _ _) _) _ => eapply (ok_bind _ _ _ _ (fun _ => True)); [|intros ? _]
  | |- ok _ _ (retM _) _ => apply ok_ret
  | |- ok _ _ skip _ => apply ok_skip
  | |- ok _ _ (stopM _) _ => apply ok_stop
  | |- ok _ _ (sysM _) _ => apply ok_sys; [|intros ? ?]
  | |- ok _ _ (gets _) _ => apply ok_gets; intros ? ?
  | |- ok _ _ (modM _) _ => apply ok_mod
  | |- ok _ _ (assertM _) _ => apply ok_assert; intros ?
  | |- ok _ _ (deref _) _ => apply ok_deref; intros ? ?
  | |- ok _ _ (assert_some _) _ => apply ok_assert_some; intros ? ?
  | |- ok _ _ (format _) _ => apply ok_format
  | |- ok _ _ (strbuf _ _) _ => apply ok_strbuf; intros ?
  | |- ok _ _ (when _ _) _ => apply ok_when; [intros ?|]
  | |- ok _ _ (if ?b then _ else _) _ => destruct b eqn:?
  | |- ok _ _ (match ?x with _ => _ end) _ => destruct x eqn:?
  | |- ok _ _ (bindM (if ?b then _ else _) _) _ => destruct b eqn:?
  | |- ok _ _ (bindM (match ?x with _ => _ end) _) _ => destruct x eqn:?
  end.

(** The [ok] facts of the operations, each declared with its operation. *)
Create HintDb okdb.
#[export] Hint Extern 0 (may _ _) => solve [exact Logic.I | assumption] : okdb.
#[export] Hint Extern 0 True => exact Logic.I : okdb.

(** No invariant *)
Definition any_state {S : Type} (_ : S) : Prop := True.
#[export] Hint Extern 0 (any_state _) => exact Logic.I : okdb.

(** Steps on a goal [ok K I m Q]: the primitives with [ok1], a call of an operation with
    its fact. *)
Ltac ok_step :=
  first
    [ progress ok1
    | lazymatch goal with
      | |- ok _ _ (bindM ?m _) _ => eapply ok_bind; [solve [eauto with okdb]|intros ? ?]
      | |- ok _ _ _ _ => solve [eauto with okdb]
      end ].
Ltac oks := repeat (ok_step; try done).

(** Every call the program can issue, whatever the system answers, satisfies [P]. *)
Definition any_answer (P : sys -> Prop) : contract := {| may := P; rep := fun _ _ => True |}.
Definition issues_only {S A} (P : sys -> Prop) (m : M S A) (s : S) : Prop :=
  wpM (any_answer P) m s (fun _ _ => True) (fun _ => True).

(** The file a call creates, removes or changes. *)
Definition fs_write_target (c : sys) : option cstring :=
  match c with
  | Mkdir p _ | Rmdir p | Symlink _ p | Link _ p | Unlink p | Chmod p _ | Open_create p _
  | Fopen p F_write | Fopen p F_append => Some p
  | _ => None
  end.

(** Calls that change the traced process. *)
Definition touches_child (c : sys) : Prop :=
  match c with
  | Pokedata _ _ _ | Setregs _ _ | Shm_store _ _ _ => True
  | Pokeuser _ _ _ | Ptrace_restart _ _ _ | Ptrace_setoptions _ _ | Tgkill _ _ _ | Kill _ _ => True
  | Ptrace_seize _ | Ptrace_interrupt _ => True
  | _ => False
  end.
