(* ===== verification/StrUtils.v ===== *)
(** * strutils.c, and the two string routines other files duplicate

    [str_find_stripped_end], [str_rstrip], [str_startswith], [str_endswith]
    (strutils.c); [rstrip] (provenance.c) and [endswith], [is_cde_binary],
    [is_a_repo_name] (cde.c). *)
From S2P Require Import Prelude CString.

(** The loop over [p] of [str_find_stripped_end]; [p] and [stripped_end] are offsets. *)
Fixpoint str_find_stripped_end_loop (stripped_end p : nat) (rest : cstring) : nat :=
  match rest with
  | [] => stripped_end
  | c :: rest' =>
    str_find_stripped_end_loop (if negb (isspace c) then p + 1 else stripped_end) (p + 1) rest'
  end.

Definition str_find_stripped_end (str : cstring) : nat := str_find_stripped_end_loop 0 0 str.

(** Storing a NUL at offset [n] truncates the string there. *)
Definition str_rstrip (str : cstring) : cstring := take (str_find_stripped_end str) str.

Definition str_startswith (str starting_substr : cstring) : bool :=
  strncmp_eq str starting_substr (length starting_substr).

Definition str_endswith (str ending_substr : cstring) : bool :=
  let len_str := length str in
  let len_es := length ending_substr in
  if len_str <? len_es then false
  else strncmp_eq (drop (len_str - len_es) str) ending_substr len_es.

(** [rstrip] of provenance.c walks [end] down from the last byte; [n] is [end + 1 - s]. *)
Fixpoint rstrip_loop (s : cstring) (n : nat) : nat :=
  match n with
  | O => O
  | S e => match s !! e with
           | Some c => if isspace c then rstrip_loop s e else S e
           | None => S e
           end
  end.

Definition rstrip (s : cstring) : cstring :=
  let size := length s in
  if size =? 0 then s else take (rstrip_loop s size) s.

(** [endswith] of cde.c; a NULL argument gives 0. *)
Definition endswith (str suffix : option cstring) : bool :=
  match str, suffix with
  | Some str, Some suffix =>
    let lenstr := length str in
    let lensuffix := length suffix in
    if lenstr <? lensuffix then false
    else strncmp_eq (drop (lenstr - lensuffix) str) suffix lensuffix
  | _, _ => false
  end.

Definition is_cde_binary (str : option cstring) : bool :=
  endswith str (Some (lit "/cde")) || endswith str (Some (lit "/cde-exec")) ||
  endswith str (Some (lit "/ptu")) || endswith str (Some (lit "/ptu-exec")).

Definition CDE_ROOT_NAME_DEFAULT : cstring := lit "cde-root".

Definition is_a_repo_name (path : cstring) : bool :=
  strncmp_eq path CDE_ROOT_NAME_DEFAULT (length CDE_ROOT_NAME_DEFAULT).

(** ** Lemmas *)

Lemma stripped_end_loop_snoc e p s c :
  str_find_stripped_end_loop e p (s ++ [c]) =
  if isspace c then str_find_stripped_end_loop e p s else p + length s + 1.
Proof.
  revert e p; induction s as [|x s IH]; intros e p; simpl.
  - destruct (isspace c); simpl; lia.
  - rewrite IH. destruct (isspace c); [done|]. lia.
Qed.

Lemma str_find_stripped_end_snoc s c :
  str_find_stripped_end (s ++ [c]) =
  if isspace c then str_find_stripped_end s else length (s ++ [c]).
Proof.
  unfold str_find_stripped_end. rewrite stripped_end_loop_snoc, length_app. simpl. done.
Qed.

Lemma str_find_stripped_end_le s : str_find_stripped_end s <= length s.
Proof.
  induction s as [|c s IH] using rev_ind; [done|].
  rewrite str_find_stripped_end_snoc, length_app. destruct (isspace c); simpl; lia.
Qed.

Lemma str_rstrip_snoc s c :
  str_rstrip (s ++ [c]) = if isspace c then str_rstrip s else s ++ [c].
Proof.
  unfold str_rstrip. rewrite str_find_stripped_end_snoc. destruct (isspace c).
  - rewrite take_app_le; [done|]. apply str_find_stripped_end_le.
  - by rewrite firstn_all.
Qed.

Lemma suffix_test s e :
  (if length s <? length e then false
   else strncmp_eq (drop (length s - length e) s) e (length e)) = true
  <-> e `suffix_of` s.
Proof.
  destruct (Nat.ltb_spec (length s) (length e)) as [Hlt|Hge].
  - split; [done|]. intros [k ->]. rewrite length_app in Hlt. lia.
  - rewrite strncmp_prefix. split.
    + intros [k Hk]. exists (take (length s - length e) s).
      rewrite <- (take_drop (length s - length e) s) at 1. rewrite Hk. f_equal.
      apply (f_equal length) in Hk. rewrite length_drop, length_app in Hk.
      destruct k; [by rewrite app_nil_r|simpl in Hk; lia].
    + intros [k ->]. rewrite length_app, Nat.add_sub, drop_app_exact. done.
Qed.

Lemma rstrip_loop_le s n : rstrip_loop s n <= n.
Proof.
  induction n as [|n IH]; simpl; [done|].
  destruct (s !! n) as [c|]; [|lia]. destruct (isspace c); lia.
Qed.

Lemma rstrip_loop_app s k n : n <= length s -> rstrip_loop (s ++ k) n = rstrip_loop s n.
Proof.
  induction n as [|n IH]; simpl; intros H; [done|].
  rewrite lookup_app_l by lia. rewrite IH by lia. done.
Qed.

Lemma rstrip_loop_stripped s : rstrip_loop s (length s) = str_find_stripped_end s.
Proof.
  induction s as [|c s IH] using rev_ind; [done|].
  rewrite str_find_stripped_end_snoc, length_app. simpl.
  rewrite Nat.add_1_r. simpl. rewrite lookup_app_r, Nat.sub_diag by lia. simpl.
  destruct (isspace c); [|done].
  rewrite rstrip_loop_app by done. apply IH.
Qed.

(** ** Properties *)

(** [str_rstrip] removes exactly the trailing white space: what it drops is all
    white space, and what it keeps is empty or ends in a character that is not. *)
Theorem str_rstrip_correct (s : cstring) :
  exists spaces, s = str_rstrip s ++ spaces
  /\ Forall (fun c => isspace c = true) spaces
  /\ (forall c, last (str_rstrip s) = Some c -> isspace c = false).
Proof.
  induction s as [|c s (sp & Hs & Hsp & Hl)] using rev_ind.
  - exists []. split_and!; [done|constructor|done].
  - rewrite str_rstrip_snoc. destruct (isspace c) eqn:E.
    + exists (sp ++ [c]). rewrite app_assoc, <- Hs. split_and!; [done| |done].
      apply Forall_app. auto.
    + exists []. rewrite app_nil_r. split_and!; [done|constructor|].
      intros d. rewrite last_snoc. by intros [= <-].
Qed.

(** The backward scan of provenance.c and the forward scan of strutils.c are the
    same function. *)
Theorem rstrip_is_str_rstrip (s : cstring) : rstrip s = str_rstrip s.
Proof.
  unfold rstrip, str_rstrip. rewrite rstrip_loop_stripped.
  destruct s; [done|]. done.
Qed.

(** The affix tests decide the prefix and suffix relations, and the [endswith] of
    cde.c agrees with the [str_endswith] of strutils.c on every pair of strings. *)
Theorem affix_tests_correct (s t : cstring) :
  (str_startswith s t = true <-> t `prefix_of` s)
  /\ (str_endswith s t = true <-> t `suffix_of` s)
  /\ endswith (Some s) (Some t) = str_endswith s t.
Proof.
  split_and!; [apply strncmp_prefix|apply suffix_test|done].
Qed.
