(* ===== verification/ShellUtils.v ===== *)
(** * shellutils.c: quoting an argument for the shell

    [malloc_quoted_arg_str], with every store checked against the size it allocated,
    and a reference reader of POSIX shell words to say what quoting means. *)
From S2P Require Import Prelude CString.

(** ** The code *)

Definition safechars : cstring :=
  lit "ABCDEFGHIJKLMNOPQRSTUVWXYZabcdefghijklmnopqrstuvwxyz1234567890@%_-+=:,./".

Definition is_safe (ch : ascii) : bool :=
  match strchr safechars ch with Some _ => true | None => false end.

(** The first loop: the length of [argstr] and the number of unsafe characters. *)
Fixpoint count_unsafe (argstr : cstring) (argstr_len num_unsafe_chars : nat) : nat * nat :=
  match argstr with
  | [] => (argstr_len, num_unsafe_chars)
  | ch :: rest =>
    count_unsafe rest (argstr_len + 1)
      (if is_safe ch then num_unsafe_chars else num_unsafe_chars + 1)
  end.

Definition squote : ascii := "039"%char.
Definition dquote : ascii := "034"%char.
(** the five bytes that replace a single quote *)
Definition squote_escape : cstring := [squote; dquote; squote; dquote; squote].

(** A heap block of [cap] bytes filled up to the cursor [qch]. *)
Record block := { cap : nat; written : cstring }.

(** Store bytes at the cursor; [None] is a store past the end of the block. *)
Definition emit (b : block) (bytes : cstring) : option block :=
  if length (written b) + length bytes <=? cap b
  then Some {| cap := cap b; written := written b ++ bytes |}
  else None.

(** The second loop. *)
Fixpoint quote_loop (b : block) (ach : cstring) : option block :=
  match ach with
  | [] => Some b
  | c :: rest =>
    b' ← (if bool_decide (c = squote) then emit b squote_escape else emit b [c]);
    quote_loop b' rest
  end.

(** [None] is a heap overflow; the result is the C string in the block. *)
Definition malloc_quoted_arg_str (argstr : cstring) : option cstring :=
  let '(argstr_len, num_unsafe_chars) := count_unsafe argstr 0 0 in
  if num_unsafe_chars =? 0 then Some argstr else
  b ← emit {| cap := argstr_len + 3 + 4 * num_unsafe_chars; written := [] |} [squote];
  b ← quote_loop b argstr;
  b ← emit b [squote; NUL];
  Some (removelast (written b)).

(** ** The reference: reading words as the shell does

    Blanks separate words; inside single quotes every character is literal; inside
    double quotes so is every character but those of [dq_special]; outside quotes a
    character that the shell may interpret makes the reader give up ([None]), as an
    unterminated quote does. *)
Inductive quoting := Bare | Single | Double.

Definition is_blank (c : ascii) : bool := bool_decide (c = " "%char) || bool_decide (c = "009"%char).
Definition dq_special (c : ascii) : bool :=
  bool_decide (c ∈ ["$"%char; "`"%char; "\"%char; dquote]).

(** [cur]: the word being read, reversed; [None] between words. *)
Fixpoint sh_read (q : quoting) (cur : option cstring) (s : cstring) : option (list cstring) :=
  match s with
  | [] => match q with
          | Bare => Some (match cur with Some w => [rev w] | None => [] end)
          | _ => None
          end
  | c :: s' =>
    let w := default [] cur in
    match q with
    | Bare =>
      if is_blank c then
        match cur with
        | Some w => cons (rev w) <$> sh_read Bare None s'
        | None => sh_read Bare None s'
        end
      else if bool_decide (c = squote) then sh_read Single (Some w) s'
      else if bool_decide (c = dquote) then sh_read Double (Some w) s'
      else if is_safe c then sh_read Bare (Some (c :: w)) s'
      else None
    | Single =>
      if bool_decide (c = squote) then sh_read Bare (Some w) s'
      else sh_read Single (Some (c :: w)) s'
    | Double =>
      if bool_decide (c = dquote) then sh_read Bare (Some w) s'
      else if dq_special c then None
      else sh_read Double (Some (c :: w)) s'
    end
  end.

Definition sh_words (s : cstring) : option (list cstring) := sh_read Bare None s.

(** The line [CDE_init] appends to cde.log: the words separated by spaces. *)
Fixpoint join_quoted (args : list cstring) : option cstring :=
  match args with
  | [] => Some []
  | a :: rest =>
    q ← malloc_quoted_arg_str a;
    r ← join_quoted rest;
    Some (" "%char :: q ++ r)
  end.

(** ** Lemmas *)

Lemma count_unsafe_spec s n m :
  count_unsafe s n m = (n + length s, m + length (List.filter (fun c => negb (is_safe c)) s)).
Proof.
  revert n m; induction s as [|c s IH]; intros n m; simpl; [f_equal; lia|].
  rewrite IH. destruct (is_safe c); simpl; f_equal; lia.
Qed.

Definition esc (c : ascii) : cstring := if bool_decide (c = squote) then squote_escape else [c].

Lemma squote_unsafe : is_safe squote = false.
Proof. reflexivity. Qed.

Lemma escape_length s :
  length (flat_map esc s) <= length s + 4 * length (List.filter (fun c => negb (is_safe c)) s).
Proof.
  induction s as [|c s IH]; simpl; [lia|]. rewrite length_app. unfold esc at 1.
  case_bool_decide; [subst c; rewrite squote_unsafe; simpl in *; lia|].
  destruct (is_safe c); simpl in *; lia.
Qed.

Lemma emit_ok b bytes :
  length (written b) + length bytes <= cap b ->
  emit b bytes = Some {| cap := cap b; written := written b ++ bytes |}.
Proof. intros H. unfold emit. by rewrite (proj2 (Nat.leb_le _ _) H). Qed.

Lemma quote_loop_ok s b :
  length (written b) + length (flat_map esc s) <= cap b ->
  quote_loop b s = Some {| cap := cap b; written := written b ++ flat_map esc s |}.
Proof.
  revert b; induction s as [|c s IH]; intros b; simpl.
  - intros _. rewrite app_nil_r. by destruct b.
  - rewrite length_app. unfold esc at 1 3. intros H.
    case_bool_decide; (rewrite emit_ok by (simpl in *; lia)); simpl;
      (rewrite IH by (simpl; rewrite length_app; simpl in *; lia)); simpl;
      by rewrite <- app_assoc.
Qed.

(** The result in closed form; in particular no store leaves the block. *)
Lemma quoted_closed_form s :
  malloc_quoted_arg_str s =
  Some (if forallb is_safe s then s else squote :: flat_map esc s ++ [squote]).
Proof.
  unfold malloc_quoted_arg_str. rewrite count_unsafe_spec. simpl.
  set (u := length (List.filter _ s)).
  assert (Hu : forallb is_safe s = (u =? 0)).
  { subst u. induction s as [|c s IH]; simpl; [done|]. destruct (is_safe c); simpl; [apply IH|done]. }
  rewrite Hu. destruct (Nat.eqb_spec u 0) as [E|E]; [done|].
  pose proof (escape_length s) as Hl. fold u in Hl.
  rewrite emit_ok by (simpl; lia). simpl.
  rewrite quote_loop_ok by (simpl; lia). simpl.
  rewrite emit_ok by (simpl; lia). cbn [mbind option_bind written].
  change [squote; NUL] with ([squote] ++ [NUL]).
  by rewrite app_assoc, removelast_last.
Qed.

Lemma sh_read_safe s w k :
  Forall (fun c => is_safe c = true) s ->
  sh_read Bare (Some w) (s ++ k) = sh_read Bare (Some (rev s ++ w)) k.
Proof.
  intros Hs; revert w; induction Hs as [|c s Hc Hs IH]; intros w; simpl; [done|].
  assert (is_blank c = false /\ bool_decide (c = squote) = false
          /\ bool_decide (c = dquote) = false) as (-> & -> & ->).
  { unfold is_blank. split_and!; [rewrite orb_false_iff; split| |];
      apply bool_decide_eq_false_2; intros ->; done. }
  rewrite Hc, IH. by rewrite <- app_assoc.
Qed.

Lemma sh_read_safe_None c s k :
  Forall (fun c => is_safe c = true) (c :: s) ->
  sh_read Bare None ((c :: s) ++ k) = sh_read Bare (Some (rev (c :: s))) k.
Proof.
  intros H. pose proof (sh_read_safe (c :: s) [] k H) as E. rewrite app_nil_r in E. rewrite <- E.
  inversion H; subst. simpl.
  assert (is_blank c = false) as ->; [|done].
  unfold is_blank. rewrite orb_false_iff; split; apply bool_decide_eq_false_2; intros ->; done.
Qed.

Lemma sh_read_escaped s w k :
  sh_read Single (Some w) (flat_map esc s ++ squote :: k) =
  sh_read Bare (Some (rev s ++ w)) k.
Proof.
  revert w; induction s as [|c s IH]; intros w; simpl.
  - done.
  - unfold esc at 1. case_bool_decide as E.
    + subst c. rewrite <- app_assoc.
      change (sh_read Single (Some (squote :: w)) (flat_map esc s ++ squote :: k)
              = sh_read Bare (Some ((rev s ++ [squote]) ++ w)) k).
      rewrite IH. by rewrite <- app_assoc.
    + simpl. rewrite bool_decide_eq_false_2 by done. rewrite IH. by rewrite <- app_assoc.
Qed.

(** Reading a quoted argument that is not empty gives it back, whatever follows. *)
Lemma sh_read_quoted s q k :
  s <> [] -> malloc_quoted_arg_str s = Some q ->
  sh_read Bare None (q ++ k) = sh_read Bare (Some (rev s)) k.
Proof.
  rewrite quoted_closed_form. intros Hs [= <-].
  destruct (forallb is_safe s) eqn:E.
  - destruct s as [|c s]; [done|]. apply sh_read_safe_None.
    apply Forall_forall. intros x Hx. apply list_elem_of_In in Hx.
    by apply (proj1 (forallb_forall _ _) E).
  - rewrite <- app_comm_cons, <- app_assoc. simpl.
    rewrite sh_read_escaped. by rewrite app_nil_r.
Qed.

Lemma join_quoted_space args r :
  join_quoted args = Some r -> args = [] /\ r = [] \/ exists r', r = " "%char :: r'.
Proof.
  destruct args as [|a args]; simpl; [intros [= <-]; by left|].
  destruct (malloc_quoted_arg_str a); simpl; [|done].
  destruct (join_quoted args); simpl; [|done]. intros [= <-]. right. by eexists.
Qed.

(** Reading one quoted argument in front of a line that was itself read. *)
Lemma sh_words_cons a q args r ws :
  a <> [] -> malloc_quoted_arg_str a = Some q -> join_quoted args = Some r ->
  sh_words r = Some ws -> sh_words (" "%char :: q ++ r) = Some (a :: ws).
Proof.
  unfold sh_words. intros Ha Hq Hr Hws. simpl. rewrite (sh_read_quoted _ _ _ Ha Hq).
  destruct (join_quoted_space _ _ Hr) as [[-> ->]|[r' ->]]; simpl in *.
  - injection Hws as <-. by rewrite rev_involutive.
  - rewrite Hws. simpl. by rewrite rev_involutive.
Qed.

(** ** Properties *)

Definition nonempty (a : cstring) : bool := match a with [] => false | _ => true end.

(** C27.  Quoting never writes outside the block it allocates, and the shell reads the
    quoted text of any list of arguments, separated by spaces as cde.log has them, as
    exactly those arguments -- except the empty ones, which are written as nothing at
    all and are lost. *)
Theorem quoted_args_roundtrip (args : list cstring) :
  exists line, join_quoted args = Some line /\ sh_words line = Some (List.filter nonempty args).
Proof.
  induction args as [|a args (r & Hr & IH)]; simpl; [by exists []|].
  destruct (malloc_quoted_arg_str a) as [q|] eqn:Hq; [|by rewrite quoted_closed_form in Hq].
  rewrite Hr. simpl. eexists; split; [done|].
  destruct a as [|c a]; [|by eapply sh_words_cons].
  rewrite quoted_closed_form in Hq. injection Hq as <-. done.
Qed.
