(* ===== verification/SysLimits.v ===== *)
(** * syslimits.c: the number of files a process may have open

    [max_open_files] asks the system once and keeps the answer in the static
    [max_open]; 0 means that it has not asked yet (OPEN_MAX is not defined). *)
From S2P Require Import Prelude CString Os.

Definition max_open_fallback : Z := 256.

(** A tracer state that holds the static variable [max_open]. *)
Class HasMaxOpen (S : Type) := {
  max_open : S -> Z;
  set_max_open : Z -> S -> S;
  max_open_set : forall v s, max_open (set_max_open v s) = v;
}.

#[export] Instance max_open_self : HasMaxOpen Z :=
  {| max_open s := s; set_max_open v _ := v; max_open_set _ _ := eq_refl |}.

Section SysLimits.
Context {S : Type} `{HasMaxOpen S}.

Definition max_open_files : M S Z :=
  let* m := gets max_open in
  if (m =? 0)%Z then
    let* r := sysM Sysconf_open_max in
    let '(v, err) := r in
    modM (set_max_open v) ;;;
    when (v <? 0)%Z
      (if (err =? 0)%Z then modM (set_max_open max_open_fallback)
       else modM (set_max_open (-1)) ;;;
            sysM (Eprintf "%s" [PS (lit "sysconf call in max_open_files()")])) ;;;
    gets max_open
  else retM m.

(** What one answer of [sysconf] stands for. *)
Definition limit_of (r : Z * Z) : Z :=
  if (r.1 <? 0)%Z then if (r.2 =? 0)%Z then max_open_fallback else (-1)%Z else r.1.

Lemma max_open_files_known s :
  max_open s <> 0%Z -> max_open_files s = Ret (max_open s, s).
Proof.
  intros Hs. unfold max_open_files, bindM, gets. simpl.
  by rewrite (proj2 (Z.eqb_neq _ _) Hs).
Qed.

(** [max_open_files] returns the limit the system reports, 256 when the limit is
    indeterminate and -1 on an error; a limit it has found is returned from then on
    without asking again, whatever the system would answer. *)
Theorem max_open_files_cached {W} (h : forall c, W -> reply c * W) (s : S) (w : W) :
  max_open s = 0%Z ->
  let v := limit_of (h Sysconf_open_max w).1 in
  exists s', outcome h (max_open_files s) w = inl (v, s') /\ max_open s' = v
  /\ (v <> 0%Z -> forall W' (h' : forall c, W' -> reply c * W') w',
        run h' (max_open_files s') w' = ([], inl (v, s'), w')).
Proof.
  intros Hs v.
  assert (E : exists s', outcome h (max_open_files s) w = inl (v, s') /\ max_open s' = v).
  { unfold v, limit_of, outcome, max_open_files, bindM, gets. simpl. rewrite Hs. simpl.
    destruct (h Sysconf_open_max w) as [[z err] w1]. simpl.
    destruct (z <? 0)%Z; simpl; [destruct (err =? 0)%Z; simpl|]; [| |].
    - eexists. rewrite max_open_set. split; [done|]. apply max_open_set.
    - unfold bindM. simpl. destruct (h (Eprintf _ _) w1). simpl.
      eexists. rewrite max_open_set. split; [done|]. apply max_open_set.
    - eexists. rewrite max_open_set. split; [done|]. apply max_open_set. }
  destruct E as (s' & Ho & Hv). exists s'. split_and!; [done|done|].
  intros Hne W' h' w'. rewrite max_open_files_known by congruence. simpl. by rewrite Hv.
Qed.
End SysLimits.

(** A system that answers one call after the other from a list. *)
Definition scripted_limit (c : sys) (w : list (Z * Z)) : reply c * list (Z * Z) :=
  match c return list (Z * Z) -> reply c * list (Z * Z) with
  | Sysconf_open_max => fun w => match w with r :: w' => (r, w') | [] => ((-1, 0)%Z, []) end
  | c => fun w => (null_reply c, w)
  end w.

Lemma max_open_files_cached_witness :
  max_open (0%Z : Z) = 0%Z /\
  exists s', outcome scripted_limit (max_open_files (0%Z : Z)) [(1024, 0); (7, 0)]%Z = inl (1024%Z, s')
  /\ max_open s' = 1024%Z
  /\ (1024%Z <> 0%Z -> forall W' (h' : forall c, W' -> reply c * W') w',
        run h' (max_open_files s') w' = ([], inl (1024%Z, s'), w')).
Proof.
  split; [reflexivity|].
  exact (max_open_files_cached scripted_limit (0%Z : Z) [(1024, 0); (7, 0)]%Z eq_refl).
Defined.
