(* ===== verification/PerfTimers.v ===== *)
(** * perftimers.c: performance timers

    The timers are bits of two words (enabled, running), each with a start time and an
    accumulated total; the clock is the system's.  The component is used through the
    class [HasTimers], so that its clients keep the state where they like. *)
From S2P Require Import Prelude CString Os.
Local Open Scope Z_scope.

(** ** Data *)

(** [enum PerfTimer]: one value, [AUDIT_FILE_COPYING = 0x01]. *)
Definition PerfTimer := Z.
Definition AUDIT_FILE_COPYING : PerfTimer := 1.
Definition NUM_TIMERS : nat := 1.

Inductive TimerStatus := DISABLED | ENABLED.

Inductive TimerAction :=
| SUCCESS_TIMER_ENABLED | SUCCESS_TIMER_DISABLED | SUCCESS_TIMER_STARTED
| SUCCESS_TIMER_STOPPED | SUCCESS_TIMER_TOTAL_RETURNED | ERR_TIMER_NOT_ENABLED
| ERR_TIMER_ALREADY_ENABLED | ERR_TIMER_ALREADY_STARTED | ERR_TIMER_RUNNING
| ERR_TIMER_ALREADY_STOPPED | ERR_TIMER_ALREADY_DISABLED | ERR_UNKNOWN_ERROR.

Definition NSEC_PER_SEC : Z := 1000000000.

Record timespec := { tv_sec : Z; tv_nsec : Z }.

Record timers := {
  timers_status : Z;
  timers_running : Z;
  start_times : list timespec;
  total_times : list timespec;
}.

Definition ts0 : timespec := {| tv_sec := 0; tv_nsec := 0 |}.
Definition timers_init : timers :=
  {| timers_status := 0; timers_running := 0;
     start_times := replicate NUM_TIMERS ts0; total_times := replicate NUM_TIMERS ts0 |}.

(** ** Private operations *)

(** The position of the lowest bit of [pt] that is set; a 32-bit [bitpos] is shifted. *)
Fixpoint get_index_loop (fuel : nat) (bitpos : Z) (index : nat) (pt : PerfTimer) : option nat :=
  if Z.land bitpos pt =? 0
  then match fuel with
       | O => None
       | S f => get_index_loop f (Z.shiftl bitpos 1) (index + 1)%nat pt
       end
  else Some index.
Definition get_index (pt : PerfTimer) : option nat := get_index_loop 31 1 0 pt.

Definition is_enabled (t : timers) (pt : PerfTimer) : bool :=
  negb (Z.land (timers_status t) pt =? 0).
Definition is_started (t : timers) (pt : PerfTimer) : bool :=
  negb (Z.land (timers_running t) pt =? 0).

Definition with_status (v : Z) (t : timers) : timers :=
  {| timers_status := v; timers_running := timers_running t;
     start_times := start_times t; total_times := total_times t |}.
Definition with_running (v : Z) (t : timers) : timers :=
  {| timers_status := timers_status t; timers_running := v;
     start_times := start_times t; total_times := total_times t |}.
Definition set_enabled (pt : PerfTimer) (t : timers) : timers :=
  with_status (Z.lor (timers_status t) pt) t.
Definition set_disabled (pt : PerfTimer) (t : timers) : timers :=
  with_status (Z.land (timers_status t) (Z.lnot pt)) t.
Definition set_started (pt : PerfTimer) (t : timers) : timers :=
  with_running (Z.lor (timers_running t) pt) t.
Definition set_stopped (pt : PerfTimer) (t : timers) : timers :=
  with_running (Z.land (timers_running t) (Z.lnot pt)) t.
Definition set_start (i : nat) (v : timespec) (t : timers) : timers :=
  {| timers_status := timers_status t; timers_running := timers_running t;
     start_times := <[i := v]> (start_times t); total_times := total_times t |}.
Definition set_total (i : nat) (v : timespec) (t : timers) : timers :=
  {| timers_status := timers_status t; timers_running := timers_running t;
     start_times := start_times t; total_times := <[i := v]> (total_times t) |}.

Definition sub_ts (tsa tsb : timespec) : timespec :=
  let s := tv_sec tsa - tv_sec tsb in
  let n := tv_nsec tsa - tv_nsec tsb in
  if n <? 0 then {| tv_sec := s - 1; tv_nsec := n + NSEC_PER_SEC |}
  else {| tv_sec := s; tv_nsec := n |}.

Definition add_ts (tsa tsb : timespec) : timespec :=
  let s := tv_sec tsa + tv_sec tsb in
  let n := tv_nsec tsa + tv_nsec tsb in
  if n >? NSEC_PER_SEC then {| tv_sec := s + 1; tv_nsec := n - NSEC_PER_SEC |}
  else {| tv_sec := s; tv_nsec := n |}.

(** ** The interface to the clients *)

Class HasTimers (S : Type) := {
  get_timers : S -> timers;
  put_timers : timers -> S -> S;
  get_put_timers : forall t s, get_timers (put_timers t s) = t;
}.

#[export] Instance timers_self : HasTimers timers :=
  {| get_timers t := t; put_timers t _ := t; get_put_timers _ _ := eq_refl |}.

Section Timers.
Context {S : Type} `{HasTimers S}.

Definition mod_timers (f : timers -> timers) : M S unit :=
  modM (fun s => put_timers (f (get_timers s)) s).

(** An array access [a[get_index(pt)]]; out of the array is undefined behaviour. *)
Definition slot (pt : PerfTimer) : M S nat :=
  match get_index pt with
  | Some i => if (i <? NUM_TIMERS)%nat then retM i else stopM Segv
  | None => stopM Segv
  end.

Definition set_timer (pt : PerfTimer) (stat_req : TimerStatus) : M S TimerAction :=
  let* t := gets get_timers in
  let pt_enabled := is_enabled t pt in
  match stat_req, pt_enabled with
  | ENABLED, true => retM ERR_TIMER_ALREADY_ENABLED
  | ENABLED, false =>
    let* ptindex := slot pt in
    mod_timers (set_total ptindex ts0) ;;;
    mod_timers (set_enabled pt) ;;;
    retM SUCCESS_TIMER_ENABLED
  | DISABLED, true => mod_timers (set_disabled pt) ;;; retM SUCCESS_TIMER_DISABLED
  | DISABLED, false => retM ERR_TIMER_ALREADY_DISABLED
  end.

Definition start_timer (pt : PerfTimer) : M S TimerAction :=
  let* t := gets get_timers in
  if negb (is_enabled t pt) then retM ERR_TIMER_NOT_ENABLED
  else if is_started t pt then retM ERR_TIMER_ALREADY_STARTED
  else
    let* ptindex := slot pt in
    let* now := sysM Clock_gettime in
    mod_timers (set_start ptindex {| tv_sec := now.1; tv_nsec := now.2 |}) ;;;
    mod_timers (set_started pt) ;;;
    retM SUCCESS_TIMER_STARTED.

Definition stop_timer (pt : PerfTimer) : M S TimerAction :=
  let* t := gets get_timers in
  if negb (is_enabled t pt) then retM ERR_TIMER_NOT_ENABLED
  else if negb (is_started t pt) then retM ERR_TIMER_ALREADY_STOPPED
  else
    let* now := sysM Clock_gettime in
    let* ptindex := slot pt in
    let* tsstart := deref (start_times t !! ptindex) in
    let* tstotal := deref (total_times t !! ptindex) in
    let tssubtotal := sub_ts {| tv_sec := now.1; tv_nsec := now.2 |} tsstart in
    mod_timers (set_total ptindex (add_ts tstotal tssubtotal)) ;;;
    mod_timers (set_stopped pt) ;;;
    retM SUCCESS_TIMER_STOPPED.

(** The [double] is kept as the pair it is computed from. *)
Definition get_total_time (pt : PerfTimer) : M S (TimerAction * option timespec) :=
  let* t := gets get_timers in
  if negb (is_enabled t pt) then retM (ERR_TIMER_NOT_ENABLED, None)
  else if is_started t pt then retM (ERR_TIMER_RUNNING, None)
  else
    let* ptindex := slot pt in
    let* tot := deref (total_times t !! ptindex) in
    retM (SUCCESS_TIMER_TOTAL_RETURNED, Some tot).

Definition set_perf_timer := set_timer.
Definition start_perf_timer := start_timer.
Definition stop_perf_timer := stop_timer.
Definition get_total_perf_time := get_total_time.

(** The timers make one call, and change the timers only. *)
Section Frame.
Context (K : contract) (I : S -> Prop) (HK : may K Clock_gettime).
Context (HI : forall t s, I s -> I (put_timers t s)).

Lemma ok_start_perf_timer pt : okT K I (start_perf_timer pt).
Proof.
  unfold start_perf_timer, start_timer, slot, mod_timers. oks; intros ? ?; by apply HI.
Qed.
Lemma ok_stop_perf_timer pt : okT K I (stop_perf_timer pt).
Proof.
  unfold stop_perf_timer, stop_timer, slot, mod_timers. oks; intros ? ?; by apply HI.
Qed.
End Frame.
End Timers.

#[export] Hint Resolve ok_start_perf_timer ok_stop_perf_timer : okdb.

(** ** The abstract timer

    What the component promises: the time between start and stop, in nanoseconds, is
    added to the total; the flags gate the operations. *)
Record atimer := { a_enabled : bool; a_started : bool; a_since : Z; a_total : Z }.

Definition ns (t : timespec) : Z := tv_sec t * NSEC_PER_SEC + tv_nsec t.

Inductive timer_op := Op_set (r : TimerStatus) | Op_start | Op_stop.

Definition do_op {S} `{HasTimers S} (op : timer_op) (pt : PerfTimer) : M S TimerAction :=
  match op with
  | Op_set r => set_perf_timer pt r
  | Op_start => start_perf_timer pt
  | Op_stop => stop_perf_timer pt
  end.

Definition timer_step (op : timer_op) (now : Z) (a : atimer) : TimerAction * atimer :=
  let (en, st, since, total) := a in
  match op with
  | Op_set ENABLED =>
    if en then (ERR_TIMER_ALREADY_ENABLED, a)
    else (SUCCESS_TIMER_ENABLED, Build_atimer true st since 0)
  | Op_set DISABLED =>
    if en then (SUCCESS_TIMER_DISABLED, Build_atimer false st since total)
    else (ERR_TIMER_ALREADY_DISABLED, a)
  | Op_start =>
    if negb en then (ERR_TIMER_NOT_ENABLED, a)
    else if st then (ERR_TIMER_ALREADY_STARTED, a)
    else (SUCCESS_TIMER_STARTED, Build_atimer en true now total)
  | Op_stop =>
    if negb en then (ERR_TIMER_NOT_ENABLED, a)
    else if negb st then (ERR_TIMER_ALREADY_STOPPED, a)
    else (SUCCESS_TIMER_STOPPED, Build_atimer en false since (total + (now - since)))
  end.

(** A reading of the clock. *)
Definition ts_ok (t : timespec) : Prop := 0 <= tv_nsec t < NSEC_PER_SEC.

Record timer_rel (t : timers) (a : atimer) : Prop := {
  rel_enabled : is_enabled t AUDIT_FILE_COPYING = a_enabled a;
  rel_started : is_started t AUDIT_FILE_COPYING = a_started a;
  rel_times : exists s0 t0, start_times t = [s0] /\ total_times t = [t0]
    /\ ts_ok s0 /\ ns s0 = a_since a
    /\ 0 <= tv_nsec t0 <= NSEC_PER_SEC /\ ns t0 = a_total a;
}.

(** ** Lemmas *)

Lemma sub_ts_ns a b : ns (sub_ts a b) = ns a - ns b.
Proof. unfold sub_ts, ns. destruct (_ <? 0) eqn:?; simpl; unfold NSEC_PER_SEC; lia. Qed.

Lemma sub_ts_ok a b : ts_ok a -> ts_ok b -> ts_ok (sub_ts a b).
Proof. unfold sub_ts, ts_ok. destruct (Z.ltb_spec (tv_nsec a - tv_nsec b) 0); simpl; lia. Qed.

Lemma add_ts_ns a b : ns (add_ts a b) = ns a + ns b.
Proof. unfold add_ts, ns. destruct (_ >? _) eqn:?; simpl; unfold NSEC_PER_SEC; lia. Qed.

Lemma add_ts_bounds a b :
  0 <= tv_nsec a <= NSEC_PER_SEC -> ts_ok b -> 0 <= tv_nsec (add_ts a b) <= NSEC_PER_SEC.
Proof.
  unfold add_ts, ts_ok. intros Ha Hb.
  destruct (Z.gtb_spec (tv_nsec a + tv_nsec b) NSEC_PER_SEC); simpl; lia.
Qed.

Lemma land_lor_1 v : negb (Z.land (Z.lor v 1) 1 =? 0) = true.
Proof.
  apply negb_true_iff, Z.eqb_neq. intros H.
  apply (f_equal (fun z => Z.testbit z 0)) in H.
  by rewrite Z.land_spec, Z.lor_spec, orb_true_r in H.
Qed.

Lemma land_lnot_1 v : negb (Z.land (Z.land v (Z.lnot 1)) 1 =? 0) = false.
Proof. by rewrite <- Z.land_assoc, Z.land_0_r. Qed.

Lemma timers_init_rel :
  timer_rel timers_init {| a_enabled := false; a_started := false; a_since := 0; a_total := 0 |}.
Proof. split; [done..|]. exists ts0, ts0. repeat split; done. Qed.

(** ** Properties *)

(** The four operations refine the abstract timer for every behaviour of the
    clock: each call returns the action the abstract step returns, the total is the
    exact number of nanoseconds between the starts and the stops, and no call leaves
    the one-element arrays. *)
Theorem timer_refines {S} `{HasTimers S} {W} (h : forall c, W -> reply c * W)
    (s : S) (w : W) (a : atimer) (op : timer_op) :
  timer_rel (get_timers s) a ->
  let clk := (h Clock_gettime w).1 in
  ts_ok {| tv_sec := clk.1; tv_nsec := clk.2 |} ->
  let now := ns {| tv_sec := clk.1; tv_nsec := clk.2 |} in
  exists s', outcome h (do_op op AUDIT_FILE_COPYING s) w = inl ((timer_step op now a).1, s')
  /\ timer_rel (get_timers s') (timer_step op now a).2.
Proof.
  intros [He Hs Ht] clk Hclk now.
  destruct a as [en st since total]; simpl in *.
  unfold outcome. destruct op as [[|]| |]; simpl;
    unfold set_perf_timer, set_timer, start_perf_timer, start_timer, stop_perf_timer,
      stop_timer, bindM, gets, mod_timers, modM; simpl; rewrite He, ?Hs.
  - destruct en; simpl; (eexists; split; [reflexivity|]).
    + rewrite get_put_timers. split; [apply land_lnot_1|exact Hs|exact Ht].
    + split; [exact He|exact Hs|exact Ht].
  - destruct en; simpl; (eexists; split; [reflexivity|]).
    + split; [exact He|exact Hs|exact Ht].
    + rewrite !get_put_timers. split; [apply land_lor_1|exact Hs|]. simpl.
      destruct Ht as (s0 & t0 & Est & Ett & Hs0 & Hsince & _ & _).
      exists s0, ts0. rewrite Ett. repeat split; first [assumption|apply Hs0|cbv; congruence].
  - destruct en, st; simpl;
      try (eexists; split; [reflexivity|]; split; [exact He|exact Hs|exact Ht]).
    unfold clk, now in *. destruct (h Clock_gettime w) as [[sec nsec] w1]; simpl in *.
    eexists; (split; [reflexivity|]). rewrite !get_put_timers.
    split; [exact He|apply land_lor_1|]. simpl.
    destruct Ht as (s0 & t0 & Est & Ett & Hs0 & Hsince & Hb & Htot).
    eexists _, t0. rewrite Est. repeat split; first [assumption|apply Hclk|apply Hb].
  - destruct en, st; simpl;
      try (eexists; split; [reflexivity|]; split; [exact He|exact Hs|exact Ht]).
    destruct Ht as (s0 & t0 & Est & Ett & Hs0 & Hsince & Hb & Htot).
    unfold clk, now in *. destruct (h Clock_gettime w) as [[sec nsec] w1]; simpl in *.
    rewrite Est, Ett. simpl. eexists; (split; [reflexivity|]). rewrite !get_put_timers.
    split; [exact He|apply land_lnot_1|]. simpl.
    eexists s0, _. rewrite Est, Ett.
    pose proof (add_ts_bounds _ _ Hb (sub_ts_ok _ _ Hclk Hs0)) as Hb'.
    repeat split; try first [assumption|apply Hs0|apply Hb'].
    rewrite add_ts_ns, sub_ts_ns. congruence.
Qed.

(** A clock that reads five seconds and a half. *)
Definition clock_5_5 (c : sys) (w : unit) : reply c * unit :=
  match c return reply c * unit with
  | Clock_gettime => ((5, 500000000), tt)
  | c => (null_reply c, tt)
  end.

Lemma timer_refines_witness :
  let a := {| a_enabled := false; a_started := false; a_since := 0; a_total := 0 |} in
  timer_rel (get_timers timers_init) a
  /\ exists s', outcome clock_5_5 (do_op (Op_set ENABLED) AUDIT_FILE_COPYING timers_init) tt
                = inl (SUCCESS_TIMER_ENABLED, s')
     /\ timer_rel s' {| a_enabled := true; a_started := false; a_since := 0; a_total := 0 |}.
Proof.
  split; [apply timers_init_rel|].
  apply (@timer_refines timers timers_self unit clock_5_5 timers_init tt
           {| a_enabled := false; a_started := false; a_since := 0; a_total := 0 |}
           (Op_set ENABLED) timers_init_rel).
  unfold ts_ok, NSEC_PER_SEC. simpl. lia.
Defined.

(** [add_ts] carries only past a full second: its nanosecond field stays within
    [0, NSEC_PER_SEC], and it reaches NSEC_PER_SEC -- which no normalised timespec
    does -- exactly when the two fields add up to one second. *)
Theorem add_ts_carry (a b : timespec) (Ha : ts_ok a) (Hb : ts_ok b) :
  ns (add_ts a b) = ns a + ns b
  /\ 0 <= tv_nsec (add_ts a b) <= NSEC_PER_SEC
  /\ (ts_ok (add_ts a b) <-> tv_nsec a + tv_nsec b <> NSEC_PER_SEC).
Proof.
  split; [apply add_ts_ns|]. split.
  { unfold ts_ok in Ha. apply add_ts_bounds; [lia|done]. }
  unfold ts_ok, add_ts in *.
  destruct (Z.gtb_spec (tv_nsec a + tv_nsec b) NSEC_PER_SEC); simpl; lia.
Qed.

Lemma add_ts_carry_witness :
  let half := {| tv_sec := 0; tv_nsec := 500000000 |} in
  ts_ok half /\ ~ ts_ok (add_ts half half).
Proof.
  assert (H : ts_ok {| tv_sec := 0; tv_nsec := 500000000 |})
    by (unfold ts_ok, NSEC_PER_SEC; simpl; lia).
  split; [exact H|]. intros Hok.
  pose proof (add_ts_carry _ _ H H) as (_ & _ & Hc). apply Hc in Hok. by apply Hok.
Defined.
