(* ===== verification/OkapiPath.v ===== *)
(** * okapi.c, path components: parsing, canonicalisation, containment

    [struct path] and the functions on it ([new_path_internal], [path_pop],
    [get_path_component], [path2str], [canonicalize_*], [file_is_within_dir]), with the
    bookkeeping of the heap blocks they fill, and the reference semantics of a path as
    the list of its components. *)
From S2P Require Import Prelude CString.

(** ** Data *)

(** [struct path]: [stack] is the vector up to its terminating NULL, whose length is
    [depth]; [stacksize] is the capacity of the block, terminator included. *)
Record path := { stacksize : nat; is_abspath : bool; stack : list cstring }.
Definition depth (p : path) : nat := length (stack p).

(** ** Operations *)

Definition new_path (is_abs : bool) : path :=
  {| stacksize := 1; is_abspath := is_abs; stack := [] |}.

Definition empty_path (p : path) : path :=
  {| stacksize := stacksize p; is_abspath := is_abspath p; stack := [] |}.

Definition path_pop (p : path) : path :=
  if depth p =? 0 then p
  else {| stacksize := stacksize p; is_abspath := is_abspath p;
          stack := take (depth p - 1) (stack p) |}.

(** Indexed from 1; [None] is the failed assertion, or the access before the block. *)
Definition get_path_component (p : path) (ind : nat) : option cstring :=
  if ind <=? depth p then
    match ind with O => None | S i => stack p !! i end
  else None.

(** [while (stackleft <= 1)]: double the block. *)
Fixpoint np_grow (fuel : nat) (base : path) (stackleft : nat) : option (path * nat) :=
  if stackleft <=? 1 then
    match fuel with
    | O => None
    | S f =>
      let sz := stacksize base * 2 in
      np_grow f {| stacksize := sz + 1; is_abspath := is_abspath base; stack := stack base |}
              (sz / 2 + 1)
    end
  else Some (base, stackleft).

(** [base->stack[i] = ...]: [None] is a store outside the block. *)
Definition np_store (base : path) (i : nat) : option unit :=
  if i <? stacksize base then Some tt else None.

Definition with_stack (base : path) (st : list cstring) : path :=
  {| stacksize := stacksize base; is_abspath := is_abspath base; stack := st |}.

(** The four cases of one component. *)
Definition np_component (base : path) (stackleft : nat) (comp : cstring) : option (path * nat) :=
  if bool_decide (comp = []) then _ ← np_store base (depth base); Some (base, stackleft)
  else if strcmp_eq comp (lit ".") then _ ← np_store base (depth base); Some (base, stackleft)
  else if strcmp_eq comp (lit "..") then
    if 0 <? depth base
    then _ ← np_store base (depth base - 1);
         Some (with_stack base (take (depth base - 1) (stack base)), stackleft + 1)
    else Some (base, stackleft)
  else
    _ ← np_store base (depth base);
    _ ← np_store base (depth base + 1);
    Some (with_stack base (stack base ++ [comp]), stackleft - 1).

(** The [do ... while (path)] loop. *)
Fixpoint np_loop (fuel : nat) (base : path) (stackleft : nat) (p : cstring) : option path :=
  match fuel with
  | O => None
  | S f =>
    '(base, stackleft) ← np_grow 2 base stackleft;
    let p := drop_while is_slash p in
    let next := strchr p slash in
    let comp := match next with Some i => take i p | None => p end in
    '(base, stackleft) ← np_component base stackleft comp;
    match next with
    | Some i => np_loop f base stackleft (drop (i + 1) p)
    | None => Some base
    end
  end.

Definition new_path_internal (p : cstring) (is_abs : bool) : option path :=
  let base := new_path is_abs in
  let '(base, p) := if is_abs then (empty_path base, tail p) else (base, p) in
  let stackleft := stacksize base - depth base - 1 in
  np_loop (S (length p)) base stackleft p.

(** [None]: a failed assertion. *)
Definition new_path_from_abspath (p : cstring) : option path :=
  if IS_ABSPATH p then new_path_internal p true else None.

Definition new_path_from_relpath (relpath base : cstring) : option path :=
  if negb (IS_ABSPATH relpath) && IS_ABSPATH base
  then new_path_from_abspath (base ++ lit "/" ++ relpath) else None.

(** The copy loop of [path2str]; [destlen] is the room left. *)
Fixpoint p2s_loop (comps : list cstring) (destlen : nat) (dest : cstring) : option cstring :=
  match comps with
  | [] => Some dest
  | c :: rest =>
    if length c + 1 <=? destlen then
      let dest := dest ++ c in
      let destlen := destlen - length c in
      match rest with
      | [] => Some dest
      | _ :: _ => if 2 <=? destlen then p2s_loop rest (destlen - 1) (dest ++ [slash]) else None
      end
    else None
  end.

Definition path2str (p : path) (d : nat) : option cstring :=
  let d := if (d =? 0) || (depth p <? d) then depth p else d in
  let comps := take d (stack p) in
  let destlen := 2 + sum_list_with (fun c => length c + 1) comps in
  if is_abspath p then p2s_loop comps (destlen - 1) [slash] else p2s_loop comps destlen [].

Definition canonicalize_abspath (abspath : cstring) : option cstring :=
  p ← new_path_from_abspath abspath; path2str p 0.

Definition canonicalize_relpath (relpath base : cstring) : option cstring :=
  p ← new_path_from_relpath relpath base; path2str p 0.

Definition canonicalize_path (p relpath_base : cstring) : option cstring :=
  if IS_ABSPATH p then canonicalize_abspath p else canonicalize_relpath p relpath_base.

(** Append a slash unless the string is at most one byte long. *)
Definition tack_slash (s : cstring) : cstring := if 1 <? length s then s ++ [slash] else s.

Definition file_is_within_dir (filename target_dir relative_path_basedir : cstring) : option bool :=
  fake_cano_dir ← canonicalize_abspath target_dir;
  let cano_dir := tack_slash fake_cano_dir in
  fake_cano_filename ← canonicalize_path filename relative_path_basedir;
  let cano_filename := tack_slash fake_cano_filename in
  Some ((length cano_dir <=? length cano_filename)
        && strncmp_eq cano_dir cano_filename (length cano_dir)).

(** ** Reference semantics: a path is the list of its components *)

Fixpoint split_slash (s : cstring) : list cstring :=
  match s with
  | [] => [[]]
  | c :: s' =>
    if is_slash c then [] :: split_slash s'
    else match split_slash s' with x :: xs => (c :: x) :: xs | [] => [[c]] end
  end.

Definition resolve1 (st : list cstring) (c : cstring) : list cstring :=
  if bool_decide (c = []) then st
  else if strcmp_eq c (lit ".") then st
  else if strcmp_eq c (lit "..") then take (length st - 1) st
  else st ++ [c].

(** The components reached from [st] by walking along [s], staying below the root. *)
Definition walk (st : list cstring) (s : cstring) : list cstring :=
  foldl resolve1 st (split_slash s).
Definition resolve (s : cstring) : list cstring := walk [] s.

Fixpoint join_slash (l : list cstring) : cstring :=
  match l with
  | [] => []
  | [c] => c
  | c :: l' => c ++ slash :: join_slash l'
  end.
Definition render (l : list cstring) : cstring := slash :: join_slash l.

(** A component of a canonical path. *)
Definition normal (c : cstring) : Prop :=
  c <> [] /\ c <> lit "." /\ c <> lit ".." /\ slash ∉ c.
#[export] Instance normal_dec c : Decision (normal c).
Proof. unfold normal. apply _. Defined.

#[local] Arguments np_grow : simpl never.
#[local] Arguments np_component : simpl never.

(** ** Lemmas: splitting and walking *)

Lemma split_slash_nonempty s : split_slash s <> [].
Proof. destruct s as [|c s]; simpl; [done|]. destruct (is_slash c); [done|]. by destruct (split_slash s). Qed.

Lemma split_slash_app a b : split_slash (a ++ slash :: b) = split_slash a ++ split_slash b.
Proof.
  induction a as [|c a IH]; simpl; [done|]. destruct (is_slash c); [by rewrite IH|].
  rewrite IH. pose proof (split_slash_nonempty a). destruct (split_slash a); done.
Qed.

Lemma split_slash_free c : slash ∉ c -> split_slash c = [c].
Proof.
  induction c as [|x c IH]; simpl; [done|]. intros H.
  rewrite not_elem_of_cons in H. destruct H as [Hx Hc].
  destruct (is_slash x) eqn:E; [apply is_slash_true in E; congruence|].
  by rewrite IH.
Qed.

Lemma split_slash_no_slash s c : c ∈ split_slash s -> slash ∉ c.
Proof.
  revert c; induction s as [|x s IH]; intros c; simpl.
  { intros ->%list_elem_of_singleton. apply not_elem_of_nil. }
  destruct (is_slash x) eqn:E.
  { intros [->|Hc]%elem_of_cons; [apply not_elem_of_nil|by apply IH]. }
  assert (x <> slash) by (intros ->; done).
  pose proof (split_slash_nonempty s). destruct (split_slash s) as [|y ys]; [done|].
  intros [->|Hc]%elem_of_cons; [|apply IH; by right].
  rewrite elem_of_cons. intros [?|?]; [done|]. by eapply (IH y); [left|].
Qed.

Lemma walk_app st a b : walk st (a ++ slash :: b) = walk (walk st a) b.
Proof. unfold walk. by rewrite split_slash_app, foldl_app. Qed.

Lemma walk_slash st s : walk st (slash :: s) = walk st s.
Proof. done. Qed.

Lemma walk_free st c : slash ∉ c -> walk st c = resolve1 st c.
Proof. intros H. unfold walk. by rewrite split_slash_free. Qed.

Lemma walk_drop_slashes st s : walk st (drop_while is_slash s) = walk st s.
Proof.
  induction s as [|c s IH]; simpl; [done|].
  destruct (is_slash c) eqn:E; [|done]. apply is_slash_true in E as ->. by rewrite walk_slash.
Qed.

Lemma resolve1_normal st c : normal c -> resolve1 st c = st ++ [c].
Proof.
  intros (? & ? & ? & ?). unfold resolve1, strcmp_eq. by rewrite !bool_decide_eq_false_2.
Qed.

Lemma Forall_resolve1 st c : slash ∉ c -> Forall normal st -> Forall normal (resolve1 st c).
Proof.
  intros Hs Hst. unfold resolve1, strcmp_eq. repeat case_bool_decide; [done|done| |].
  - by apply Forall_take.
  - apply Forall_app. split; [done|]. by repeat constructor.
Qed.

Lemma Forall_walk st s : Forall normal st -> Forall normal (walk st s).
Proof.
  unfold walk. intros Hst.
  assert (H : Forall (fun c => slash ∉ c) (split_slash s)).
  { apply Forall_forall. apply split_slash_no_slash. }
  revert st Hst; induction H; intros st Hst; simpl; [done|].
  apply IHForall. by apply Forall_resolve1.
Qed.

Lemma resolve_normal s : Forall normal (resolve s).
Proof. apply Forall_walk. constructor. Qed.

Lemma join_slash_cons c l :
  join_slash (c :: l) = match l with [] => c | _ => c ++ slash :: join_slash l end.
Proof. by destruct l. Qed.

Lemma walk_join st l : Forall normal l -> walk st (join_slash l) = st ++ l.
Proof.
  intros H; revert st; induction H as [|c l Hc Hl IH]; intros st.
  - by rewrite app_nil_r.
  - rewrite join_slash_cons. pose proof Hc as (_ & _ & _ & Hs). destruct l as [|d l].
    + by rewrite walk_free, resolve1_normal.
    + rewrite walk_app, (walk_free st c), resolve1_normal, IH by done. by rewrite <- app_assoc.
Qed.

(** Rendering and reading back. *)
Lemma walk_render st l : Forall normal l -> walk st (render l) = st ++ l.
Proof. apply walk_join. Qed.

Lemma resolve_render l : Forall normal l -> resolve (render l) = l.
Proof. apply walk_render. Qed.

Lemma render_inj l k : Forall normal l -> Forall normal k -> render l = render k -> l = k.
Proof. intros Hl Hk H. apply (f_equal resolve) in H. by rewrite !resolve_render in H. Qed.

Lemma IS_ABSPATH_render l : IS_ABSPATH (render l) = true.
Proof. done. Qed.
#[export] Hint Resolve resolve_normal Forall_walk IS_ABSPATH_render : ptu.

(** ** Lemmas: the code against the reference *)

(** The block always has room for one more component and the terminator. *)
Definition np_inv (base : path) (stackleft : nat) : Prop := stackleft + depth base + 1 <= stacksize base.

Lemma np_grow_ok base stackleft :
  np_inv base stackleft ->
  exists base' stackleft', np_grow 2 base stackleft = Some (base', stackleft')
  /\ np_inv base' stackleft' /\ 2 <= stackleft'
  /\ stack base' = stack base /\ is_abspath base' = is_abspath base.
Proof.
  unfold np_inv, depth. intros H. unfold np_grow. cbn [stacksize].
  destruct (Nat.leb_spec stackleft 1) as [Hle|Hgt].
  - rewrite Nat.div_mul by lia.
    destruct (Nat.leb_spec (stacksize base + 1) 1); [lia|].
    eexists _, _. split; [reflexivity|]. simpl. split_and!; [lia|lia|done|done].
  - eexists _, _. split; [reflexivity|]. split_and!; [lia|lia|done|done].
Qed.

Lemma np_store_ok base i : i < stacksize base -> np_store base i = Some tt.
Proof. intros H. unfold np_store. by rewrite (proj2 (Nat.ltb_lt _ _) H). Qed.

Lemma np_component_ok base stackleft c :
  np_inv base stackleft -> 2 <= stackleft ->
  exists base' stackleft', np_component base stackleft c = Some (base', stackleft')
  /\ np_inv base' stackleft' /\ stack base' = resolve1 (stack base) c
  /\ is_abspath base' = is_abspath base.
Proof.
  unfold np_inv. intros H H2. unfold np_component, resolve1, depth in *.
  destruct (bool_decide (c = [])).
  { rewrite np_store_ok by lia. by eexists _, _. }
  destruct (strcmp_eq c (lit ".")).
  { rewrite np_store_ok by lia. by eexists _, _. }
  destruct (strcmp_eq c (lit "..")).
  - destruct (Nat.ltb_spec 0 (length (stack base))) as [Hd|Hd].
    + rewrite np_store_ok by lia. eexists _, _. split; [reflexivity|]. simpl.
      rewrite length_take. split_and!; [lia|done|done].
    + eexists _, _. split; [reflexivity|]. split_and!; [lia| |done].
      assert (stack base = []) as -> by (by apply length_zero_iff_nil; lia). done.
  - rewrite !np_store_ok by lia. eexists _, _. split; [reflexivity|]. simpl.
    rewrite length_app. simpl. split_and!; [lia|done|done].
Qed.

Lemma np_loop_ok fuel base stackleft p :
  length p < fuel -> np_inv base stackleft ->
  exists q, np_loop fuel base stackleft p = Some q
  /\ stack q = walk (stack base) p /\ is_abspath q = is_abspath base /\ depth q < stacksize q.
Proof.
  revert base stackleft p; induction fuel as [|f IH]; intros base stackleft p Hlen Hinv; [lia|].
  simpl. destruct (np_grow_ok _ _ Hinv) as (b1 & l1 & -> & Hi1 & H2 & Hst1 & Hab1). simpl.
  rewrite <- (walk_drop_slashes _ p).
  pose proof (drop_while_length is_slash p) as Hdl.
  set (p' := drop_while is_slash p) in *.
  destruct (strchr p' slash) as [i|] eqn:E.
  - apply strchr_Some in E as (a & b & -> & Ha & <-).
    rewrite take_app_exact.
    destruct (np_component_ok _ _ a Hi1 H2) as (b2 & l2 & -> & Hi2 & Hst2 & Hab2). simpl.
    replace (drop (length a + 1) (a ++ slash :: b)) with b
      by (rewrite drop_app_add; done).
    destruct (IH b2 l2 b) as (q & -> & Hq & Habq & Hd).
    { rewrite length_app in Hdl. simpl in Hdl. lia. }
    { done. }
    exists q. split_and!; [done| |congruence|done].
    rewrite Hq, Hst2, Hst1, walk_app, (walk_free _ a) by done. done.
  - apply strchr_None in E.
    destruct (np_component_ok _ _ p' Hi1 H2) as (b2 & l2 & -> & Hi2 & Hst2 & Hab2). simpl.
    exists b2. split_and!; [done| |congruence|unfold np_inv in Hi2; lia].
    rewrite Hst2, Hst1, walk_free by done. done.
Qed.

Lemma np_inv_init b : np_inv (new_path b) (stacksize (new_path b) - depth (new_path b) - 1).
Proof. unfold np_inv. simpl. unfold depth. simpl. lia. Qed.

(** An absolute path is parsed into the components it resolves to. *)
Lemma new_path_from_abspath_ok s :
  IS_ABSPATH s = true ->
  exists p, new_path_from_abspath s = Some p
  /\ stack p = resolve s /\ is_abspath p = true /\ depth p < stacksize p.
Proof.
  intros H. unfold new_path_from_abspath. rewrite H.
  apply IS_ABSPATH_cons in H as [q ->]. unfold new_path_internal. simpl.
  apply (np_loop_ok (S (length q)) (empty_path (new_path true)) 0 q); [lia|].
  apply np_inv_init.
Qed.

Lemma p2s_loop_ok comps destlen dest :
  sum_list_with (fun c => length c + 1) comps <= destlen ->
  p2s_loop comps destlen dest = Some (dest ++ join_slash comps).
Proof.
  revert destlen dest; induction comps as [|c comps IH]; intros destlen dest; simpl.
  - intros _. by rewrite app_nil_r.
  - intros H. destruct (Nat.leb_spec (length c + 1) destlen); [|lia].
    destruct comps as [|d comps]; [done|].
    destruct (destlen - length c) as [|[|n]] eqn:E; [simpl in *; lia..|].
    rewrite IH by (simpl in *; lia). by rewrite <- !app_assoc.
Qed.

(** [path2str] in closed form: no assertion fails. *)
Lemma path2str_ok p d :
  path2str p d =
  Some ((if is_abspath p then [slash] else [])
        ++ join_slash (if (d =? 0) || (depth p <? d) then stack p else take d (stack p))).
Proof.
  unfold path2str.
  replace (take (if (d =? 0) || (depth p <? d) then depth p else d) (stack p))
    with (if (d =? 0) || (depth p <? d) then stack p else take d (stack p))
    by (destruct (_ || _); [unfold depth; by rewrite firstn_all|done]).
  destruct (is_abspath p); apply p2s_loop_ok; lia.
Qed.

Lemma path2str_abs p d :
  is_abspath p = true -> 0 < d <= depth p -> path2str p d = Some (render (take d (stack p))).
Proof.
  intros Ha Hd. rewrite path2str_ok, Ha.
  destruct (Nat.eqb_spec d 0); [lia|]. destruct (Nat.ltb_spec (depth p) d); [lia|]. done.
Qed.

Lemma path2str_all p : is_abspath p = true -> path2str p 0 = Some (render (stack p)).
Proof. intros Ha. by rewrite path2str_ok, Ha. Qed.

Lemma canonicalize_abspath_ok s :
  IS_ABSPATH s = true -> canonicalize_abspath s = Some (render (resolve s)).
Proof.
  intros H. unfold canonicalize_abspath.
  destruct (new_path_from_abspath_ok s H) as (p & -> & <- & Ha & _). simpl.
  by rewrite path2str_all.
Qed.

Lemma canonicalize_path_ok s base :
  IS_ABSPATH base = true ->
  canonicalize_path s base =
  Some (render (if IS_ABSPATH s then resolve s else walk (resolve base) s)).
Proof.
  intros Hb. unfold canonicalize_path. destruct (IS_ABSPATH s) eqn:Hs.
  - by apply canonicalize_abspath_ok.
  - unfold canonicalize_relpath, new_path_from_relpath. rewrite Hs, Hb. simpl.
    pose proof (canonicalize_abspath_ok (base ++ lit "/" ++ s)) as E.
    unfold canonicalize_abspath in E. simpl in E. rewrite E by auto with ptu.
    unfold resolve. by rewrite walk_app.
Qed.

(** Without the assertion on the base nothing else can fail. *)
Lemma canonicalize_path_abs s base :
  IS_ABSPATH s = true -> canonicalize_path s base = Some (render (resolve s)).
Proof. intros H. unfold canonicalize_path. rewrite H. by apply canonicalize_abspath_ok. Qed.

Lemma canonicalize_path_normal s base out :
  canonicalize_path s base = Some out -> exists l, out = render l /\ Forall normal l.
Proof.
  unfold canonicalize_path. destruct (IS_ABSPATH s) eqn:Hs.
  - rewrite canonicalize_abspath_ok by done. intros [= <-]. eauto with ptu.
  - unfold canonicalize_relpath, new_path_from_relpath. rewrite Hs. simpl.
    destruct (IS_ABSPATH base) eqn:Hb; [|done]. simpl.
    destruct (new_path_from_abspath_ok (base ++ slash :: s)) as (p & E & Hst & Ha & _);
      [by apply IS_ABSPATH_app|].
    cbn [app lit String.list_ascii_of_string] in *. change "/"%char with slash. rewrite E. simpl.
    rewrite path2str_all by done. intros [= <-]. rewrite Hst. eauto with ptu.
Qed.

Lemma render_canonical l : Forall normal l -> canonicalize_abspath (render l) = Some (render l).
Proof. intros H. by rewrite canonicalize_abspath_ok, resolve_render. Qed.

(** With a slash after it, a canonical path lists its components each with its own. *)
Definition enc (l : list cstring) : cstring := flat_map (fun c => c ++ [slash]) l.

Lemma tack_slash_render l : Forall normal l -> tack_slash (render l) = slash :: enc l.
Proof.
  intros H. unfold tack_slash, render.
  assert (E : forall l : list cstring, l <> [] -> join_slash l ++ [slash] = enc l).
  { clear. induction l as [|c [|d l] IH]; intros Hl; [done|simpl; by rewrite app_nil_r|].
    change (join_slash (c :: d :: l)) with (c ++ slash :: join_slash (d :: l)).
    change (enc (c :: d :: l)) with ((c ++ [slash]) ++ enc (d :: l)).
    rewrite <- IH by done. by rewrite <- !app_assoc. }
  destruct l as [|c l]; [done|].
  assert (0 < length (join_slash (c :: l))).
  { inversion H as [|? ? (Hc & _) _]; subst. rewrite join_slash_cons.
    destruct c; [done|]. destruct l; simpl; lia. }
  destruct (Nat.ltb_spec 1 (length (slash :: join_slash (c :: l)))); [|simpl in *; lia].
  rewrite <- E by done. done.
Qed.

Lemma slash_split_unique a b x y :
  slash ∉ a -> slash ∉ b -> (a ++ slash :: x) = (b ++ slash :: y) -> a = b /\ x = y.
Proof.
  revert b; induction a as [|c a IH]; intros [|d b] Ha Hb H; simplify_eq/=; try set_solver.
  destruct (IH b) as [-> ->]; [set_solver..|done|done].
Qed.

Lemma enc_prefix l k :
  Forall normal l -> Forall normal k -> (enc l `prefix_of` enc k <-> l `prefix_of` k).
Proof.
  intros Hl; revert k; induction Hl as [|c l (Hc & _ & _ & Hs) Hl IH]; intros k Hk.
  { split; intros _; [by exists k|by exists (enc k)]. }
  destruct Hk as [|d k (Hd & _ & _ & Hs') Hk]; simpl.
  - split; intros [x Hx]; [|done]. by destruct c.
  - split.
    + intros [x Hx]. rewrite <- !app_assoc in Hx. simpl in Hx.
      apply slash_split_unique in Hx as [-> Hx]; [|done|done].
      destruct (proj1 (IH k Hk)) as [y ->]; [by exists x|]. by exists y.
    + intros [x Hx]. simplify_eq/=. destruct (proj2 (IH (l ++ x) Hk)) as [y ->]; [by exists x|].
      exists y. by rewrite <- !app_assoc.
Qed.

(** ** Properties *)

(** C25.  Parsing refines the component semantics: for every absolute path
    [new_path_from_abspath] returns -- the loop terminates and no store leaves the block
    it grows -- the components the path resolves to, with "", "." and ".." eliminated,
    and [path2str] prints the first [d] of them without failing an assertion. *)
Theorem new_path_refines (s : cstring) (H : IS_ABSPATH s = true) :
  exists p, new_path_from_abspath s = Some p /\ stack p = resolve s
  /\ Forall normal (stack p) /\ depth p < stacksize p
  /\ path2str p 0 = Some (render (resolve s))
  /\ forall d, 0 < d <= depth p -> path2str p d = Some (render (take d (resolve s))).
Proof.
  destruct (new_path_from_abspath_ok s H) as (p & -> & Hst & Ha & Hd).
  exists p. rewrite <- Hst. split_and!; [done..| |done| |].
  - rewrite Hst. auto with ptu.
  - by apply path2str_all.
  - intros d. by apply path2str_abs.
Qed.

Lemma new_path_refines_witness :
  IS_ABSPATH (lit "//usr/./lib/../bin/") = true /\
  exists p, new_path_from_abspath (lit "//usr/./lib/../bin/") = Some p
  /\ stack p = [lit "usr"; lit "bin"].
Proof.
  split; [reflexivity|].
  destruct (new_path_refines (lit "//usr/./lib/../bin/") eq_refl) as (p & Hp & Hs & _).
  exists p. split; [exact Hp|]. rewrite Hs. reflexivity.
Defined.

(** C26.  [canonicalize_path] resolves a path component by component: it is read from "/",
    or from where the base leads if it is relative, an empty component or "." stays, ".."
    goes up one, but not above "/", and any other goes down; the result is the text of the
    place reached, which has none of these components and is its own canonical form from
    any base. *)
Theorem canonicalize_path_resolves (s base : cstring) (H : IS_ABSPATH base = true)
    (l := foldl resolve1 (if IS_ABSPATH s then [] else foldl resolve1 [] (split_slash base)) (split_slash s)) :
  canonicalize_path s base = Some (render l)
  /\ Forall normal l
  /\ forall base', canonicalize_path (render l) base' = Some (render l).
Proof.
  assert (E : l = if IS_ABSPATH s then resolve s else walk (resolve base) s) by (unfold l; by destruct (IS_ABSPATH s)).
  rewrite E, canonicalize_path_ok by done.
  assert (Hn : Forall normal (if IS_ABSPATH s then resolve s else walk (resolve base) s))
    by (destruct (IS_ABSPATH s); auto with ptu).
  split_and!; [done|done|]. intros base'. by rewrite canonicalize_path_abs, resolve_render.
Qed.

Lemma canonicalize_path_resolves_witness :
  canonicalize_path (lit "../../../etc/./passwd") (lit "/home/alice") = Some (lit "/etc/passwd")
  /\ canonicalize_path (lit "../bob//x") (lit "/home/alice") = Some (lit "/home/bob/x").
Proof.
  split.
  - exact (proj1 (canonicalize_path_resolves (lit "../../../etc/./passwd") (lit "/home/alice") eq_refl)).
  - exact (proj1 (canonicalize_path_resolves (lit "../bob//x") (lit "/home/alice") eq_refl)).
Defined.

(** [file_is_within_dir] decides containment by components, not by characters:
    the directory's components are a prefix of the file's.  "/home/a.txt" is not within
    "/home/a", a directory is within itself, and everything is within "/". *)
Theorem file_is_within_dir_correct (filename target_dir base : cstring)
    (Hd : IS_ABSPATH target_dir = true) (Hb : IS_ABSPATH base = true) :
  file_is_within_dir filename target_dir base =
  Some (bool_decide (resolve target_dir `prefix_of`
          (if IS_ABSPATH filename then resolve filename else walk (resolve base) filename))).
Proof.
  unfold file_is_within_dir.
  rewrite canonicalize_abspath_ok, canonicalize_path_ok by done. simpl. f_equal.
  set (k := if IS_ABSPATH filename then _ else _).
  assert (Hk : Forall normal k) by (subst k; destruct (IS_ABSPATH filename); auto with ptu).
  rewrite !tack_slash_render by auto with ptu.
  apply eq_true_iff_eq. rewrite bool_decide_eq_true, <- (enc_prefix _ k) by auto with ptu.
  rewrite andb_true_iff, strncmp_prefix_r. split.
  - intros [_ Hp]. by apply prefix_cons_inv_2 in Hp.
  - intros Hp. split; [|by apply prefix_cons].
    apply Nat.leb_le. apply prefix_length. by apply prefix_cons.
Qed.

Lemma file_is_within_dir_correct_witness :
  IS_ABSPATH (lit "/home/a/") = true /\
  file_is_within_dir (lit "/home/a.txt") (lit "/home/a/") (lit "/") = Some false
  /\ file_is_within_dir (lit "x/../y") (lit "/home/a/") (lit "/home/a") = Some true.
Proof.
  split; [reflexivity|].
  split; (rewrite file_is_within_dir_correct by reflexivity; vm_compute; reflexivity).
Defined.
