(* ===== verification/MemOs.v ===== *)
(** * A concrete operating system for the examples

    An in-memory POSIX file system with symbolic links (resolved as the kernel does,
    at most 64 steps), a few descriptors and streams, an environment, and one traced
    process with a byte-addressed memory and registers.  It instantiates the parameter
    of the development at concrete inputs; nothing here is mapped to [src/]. *)
From S2P Require Import Prelude CString Os OkapiPath.

Inductive node := N_file (content : cstring) (mode mtime : Z) | N_dir | N_link (target : cstring).

(** A path of the tree is the list of its components. *)
Abbreviation tree := (list (list cstring * node)).

Record world := {
  fs : tree;
  fds : list (list cstring * cstring);     (** open files: path, bytes still to read *)
  lines_of : list (list cstring);          (** open text streams: lines still to read *)
  printed : list (Z * cstring);            (** what [fputs] wrote, by stream *)
  env : list (cstring * cstring);
  child_mem : list (Z * Z);                (** aligned words of the traced process *)
  child_regs : option regs;
  word : Z;                                (** its word size in bytes *)
}.

Definition with_fs (f : tree) (w : world) : world :=
  {| fs := f; fds := fds w; lines_of := lines_of w; printed := printed w; env := env w;
     child_mem := child_mem w; child_regs := child_regs w; word := word w |}.
Definition with_fds d (w : world) : world :=
  {| fs := fs w; fds := d; lines_of := lines_of w; printed := printed w; env := env w;
     child_mem := child_mem w; child_regs := child_regs w; word := word w |}.
Definition with_lines d (w : world) : world :=
  {| fs := fs w; fds := fds w; lines_of := d; printed := printed w; env := env w;
     child_mem := child_mem w; child_regs := child_regs w; word := word w |}.
Definition with_printed d (w : world) : world :=
  {| fs := fs w; fds := fds w; lines_of := lines_of w; printed := d; env := env w;
     child_mem := child_mem w; child_regs := child_regs w; word := word w |}.
Definition with_env d (w : world) : world :=
  {| fs := fs w; fds := fds w; lines_of := lines_of w; printed := printed w; env := d;
     child_mem := child_mem w; child_regs := child_regs w; word := word w |}.
Definition with_mem d (w : world) : world :=
  {| fs := fs w; fds := fds w; lines_of := lines_of w; printed := printed w; env := env w;
     child_mem := d; child_regs := child_regs w; word := word w |}.
Definition with_regs d (w : world) : world :=
  {| fs := fs w; fds := fds w; lines_of := lines_of w; printed := printed w; env := env w;
     child_mem := child_mem w; child_regs := d; word := word w |}.

Definition empty_world : world :=
  {| fs := []; fds := []; lines_of := []; printed := []; env := []; child_mem := [];
     child_regs := None; word := 8 |}.

Fixpoint assoc {K V} `{EqDecision K} (k : K) (l : list (K * V)) : option V :=
  match l with
  | [] => None
  | (k', v) :: l' => if decide (k = k') then Some v else assoc k l'
  end.
Definition assoc_del {K V} `{EqDecision K} (k : K) (l : list (K * V)) : list (K * V) :=
  List.filter (fun kv => negb (bool_decide (kv.1 = k))) l.

Definition find_node (t : tree) (p : list cstring) : option node :=
  if bool_decide (p = []) then Some N_dir else assoc p t.

(** The path reached from [cur] by walking along [todo]; the last link is followed when
    [follow] holds; a last component that does not exist is kept. *)
Fixpoint namei (fuel : nat) (t : tree) (follow : bool) (cur todo : list cstring) : option (list cstring) :=
  match fuel with
  | O => None
  | S f =>
    match todo with
    | [] => Some cur
    | c :: rest =>
      if bool_decide (c = []) || strcmp_eq c (lit ".") then namei f t follow cur rest
      else if strcmp_eq c (lit "..") then namei f t follow (take (length cur - 1) cur) rest
      else
        let p := cur ++ [c] in
        match find_node t p with
        | Some (N_link l) =>
          if negb follow && bool_decide (rest = []) then Some p
          else namei f t follow (if IS_ABSPATH l then [] else cur) (split_slash l ++ rest)
        | Some N_dir => namei f t follow p rest
        | _ => if bool_decide (rest = []) then Some p else None
        end
    end
  end.
Definition at_path (t : tree) (follow : bool) (p : cstring) : option (list cstring) :=
  namei 64 t follow [] (split_slash p).

Definition stat_of (n : node) : fstat :=
  match n with
  | N_file c m t => {| st_kind := REG; st_mode := m; st_mtime := t; st_size := Z.of_nat (length c); st_uid := 0; st_gid := 0 |}
  | N_dir => {| st_kind := DIR; st_mode := 16877; st_mtime := 0; st_size := 4096; st_uid := 0; st_gid := 0 |}
  | N_link l => {| st_kind := LNK; st_mode := 41471; st_mtime := 0; st_size := Z.of_nat (length l); st_uid := 0; st_gid := 0 |}
  end.

Definition get (t : tree) (follow : bool) (p : cstring) : option node :=
  q ← at_path t follow p; find_node t q.

(** Create a node where there is none and the parent is a directory. *)
Definition create (w : world) (p : cstring) (n : node) : Z * world :=
  match at_path (fs w) false p with
  | None => (2%Z, w)
  | Some q =>
    match find_node (fs w) q with
    | Some _ => (EEXIST, w)
    | None =>
      match find_node (fs w) (take (length q - 1) q) with
      | Some N_dir => (0%Z, with_fs ((q, n) :: fs w) w)
      | _ => (2%Z, w)
      end
    end
  end.

Definition remove (w : world) (p : cstring) : Z * world :=
  match at_path (fs w) false p with
  | Some q =>
    match find_node (fs w) q with
    | Some _ => (0%Z, with_fs (assoc_del q (fs w)) w)
    | None => (2%Z, w)
    end
  | None => (2%Z, w)
  end.

(** The lines of a text file, newlines kept. *)
Fixpoint text_lines (cur : cstring) (s : cstring) : list cstring :=
  match s with
  | [] => if bool_decide (cur = []) then [] else [rev cur]
  | c :: s' => if bool_decide (c = newline) then rev (c :: cur) :: text_lines [] s'
               else text_lines (c :: cur) s'
  end.

Definition mem_os (c : sys) (w : world) : reply c * world :=
  match c return reply c * world with
  | Lstat p => (stat_of <$> get (fs w) false p, w)
  | Stat p => (stat_of <$> get (fs w) true p, w)
  | Access p => (match get (fs w) true p with Some _ => 0%Z | None => 2%Z end, w)
  | Mkdir p _ => create w p N_dir
  | Symlink t p => create w p (N_link t)
  | Link o p => match get (fs w) false o with Some n => create w p n | None => (2%Z, w) end
  | Unlink p => remove w p
  | Rmdir p => remove w p
  | Readlink p => (match get (fs w) false p with Some (N_link t) => Some t | _ => None end, w)
  | Realpath p =>
    (q ← at_path (fs w) true p; _ ← find_node (fs w) q; Some (render q), w)
  | Open_read p =>
    match (q ← at_path (fs w) true p; n ← find_node (fs w) q;
           match n with N_file c _ _ => Some (q, c) | _ => None end) with
    | Some qc => (Some (Z.of_nat (length (fds w))), with_fds (fds w ++ [qc]) w)
    | None => (None, w)
    end
  | Open_create p m =>
    match at_path (fs w) true p with
    | None => (None, w)
    | Some q =>
      let w' := match find_node (fs w) q with
                | None => with_fs ((q, N_file [] m 0) :: fs w) w | Some _ => w end in
      (Some (Z.of_nat (length (fds w))), with_fds (fds w ++ [(q, [])]) w')
    end
  | Read fd n =>
    match fds w !! Z.to_nat fd with
    | Some (q, c) => (Some (take n c), with_fds (<[Z.to_nat fd := (q, drop n c)]> (fds w)) w)
    | None => (None, w)
    end
  | Write fd b =>
    match fds w !! Z.to_nat fd with
    | Some (q, _) =>
      match find_node (fs w) q with
      | Some (N_file c m t) =>
        (Z.of_nat (length b), with_fs ((q, N_file (c ++ b) m t) :: assoc_del q (fs w)) w)
      | _ => ((-1)%Z, w)
      end
    | None => ((-1)%Z, w)
    end
  | Fopen p F_read =>
    match get (fs w) true p with
    | Some (N_file c _ _) =>
      (Some (Z.of_nat (length (lines_of w))), with_lines (lines_of w ++ [text_lines [] c]) w)
    | _ => (None, w)
    end
  | Fopen p _ => (Some (Z.of_nat (length (lines_of w))), with_lines (lines_of w ++ [[]]) w)
  | Getline f | Fgets f _ =>
    match lines_of w !! Z.to_nat f with
    | Some (l :: ls) => (Some l, with_lines (<[Z.to_nat f := ls]> (lines_of w)) w)
    | _ => (None, w)
    end
  | Fputs f s => (tt, with_printed (printed w ++ [(f, s)]) w)
  | Getenv n => (assoc n (env w), w)
  | Setenv n v o =>
    (tt, if negb o && bool_decide (is_Some (assoc n (env w))) then w
         else with_env ((n, v) :: assoc_del n (env w)) w)
  | Clearenv => (tt, with_env [] w)
  | Peekdata _ a => (match assoc a (child_mem w) with Some v => inl v | None => inr EIO end, w)
  | Pokedata _ a v =>
    match assoc a (child_mem w) with
    | Some _ => (0%Z, with_mem ((a, v) :: assoc_del a (child_mem w)) w)
    | None => ((-1)%Z, w)
    end
  | Getregs _ => (child_regs w, w)
  | Setregs _ rs => (0%Z, with_regs (Some rs) w)
  | c => (null_reply c, w)
  end.

(** A tree with the directories of the given paths and the given nodes. *)
Definition mk_tree (dirs : list string) (nodes : list (string * node)) : tree :=
  ((fun d => (resolve (lit d), N_dir)) <$> dirs) ++
  ((fun '(p, n) => (resolve (lit p), n)) <$> nodes).
