(* ===== verification/OkapiMirror.v ===== *)
(** * okapi.c: mirroring files, directories and symbolic links

    [create_mirror_file], [create_mirror_dirs], [create_mirror_symlink_and_target] and
    [okapi_copy_file]: the calls they make on the file system, in their order.  The two
    mutually recursive functions take fuel; the copy loop takes its own. *)
From S2P Require Import Prelude CString Os PerfTimers OkapiPath.

Definition MAXPATHLEN : nat := N.to_nat 4096.

(** What the component needs of the tracer's state. *)
Class OkapiState (S : Type) := {
  okapi_timers :: HasTimers S;
  OKAPI_VERBOSE : S -> bool;
}.

Section Okapi.
Context {S : Type} `{OkapiState S}.

Definition warn (fmt : string) (args : list parg) : M S unit :=
  let* v := gets OKAPI_VERBOSE in when v (let* _ := sysM (Eprintf fmt args) in skip).
Arguments warn _%_string_scope _.

Definition eprint (fmt : string) (args : list parg) : M S unit :=
  let* _ := sysM (Eprintf fmt args) in skip.
Arguments eprint _%_string_scope _.

Definition realpath_strdup (filename : cstring) : M S cstring :=
  let* r := sysM (Realpath filename) in
  let* ret := assert_some r in
  assertM (IS_ABSPATH ret) ;;;
  retM ret.

Definition readlink_strdup (filename : cstring) : M S cstring :=
  let* r := sysM (Readlink filename) in
  let* p := assert_some r in
  assertM (negb (bool_decide (p = []))) ;;;
  retM p.

(** [while ((bytes = read(inF, buf, sizeof(buf))) > 0) write(outF, buf, bytes)] *)
Fixpoint copy_loop (fuel : nat) (inF outF : Z) : M S unit :=
  match fuel with
  | O => stopM (OutOfFuel "copy")
  | Datatypes.S f =>
    let* r := sysM (Read inF MAXPATHLEN) in
    match r with
    | Some (c :: buf) =>
      let* _ := sysM (Write outF (c :: buf)) in copy_loop f inF outF
    | _ => skip
    end
  end.

Definition okapi_copy_file (cf : nat) (src_filename dst_filename : cstring) (perms : Z) : M S unit :=
  let* perms :=
    if (perms =? 0)%Z then
      let* r := sysM (Lstat src_filename) in
      retM (match r with Some st => st_mode st | None => perms end)
    else retM perms in
  let perms := if (perms =? 0)%Z then 511%Z else perms in
  let* _ := start_perf_timer AUDIT_FILE_COPYING in
  let* inF := sysM (Open_read src_filename) in
  let* r := sysM (Open_create dst_filename perms) in
  match r with
  | None =>
    eprint "Error in copy_file: cannot create '%s'" [PS dst_filename] ;;; stopM (Exit 1)
  | Some outF =>
    match inF with
    | Some inF => copy_loop cf inF outF ;;; let* _ := sysM (Close inF) in skip
    | None => eprint "WARNING: cannot copy contents of '%s', creating an empty file instead"
                     [PS src_filename]
    end ;;;
    let* _ := sysM (Close outF) in
    let* _ := stop_perf_timer AUDIT_FILE_COPYING in
    skip
  end.

(** 1. try a hard link; 2. if that fails, unless the file exists, copy. *)
Definition link_or_copy (cf : nat) (src_path dst_path : cstring) : M S unit :=
  let* e := sysM (Link src_path dst_path) in
  when (negb (e =? 0)%Z && negb (e =? EEXIST)%Z) (okapi_copy_file cf src_path dst_path 0).

(** One iteration of the loop of [create_mirror_dirs]; [symlink_and_target] stands
    for the call of [create_mirror_symlink_and_target]. *)
Definition mirror_dir (symlink_and_target : cstring -> cstring -> cstring -> M S unit)
    (src_prefix dst_prefix : cstring) (p : path) (i : nat) : M S unit :=
  let* dn := assert_some (path2str p i) in
  assertM (IS_ABSPATH dn) ;;;
  let* dst_dirname := format (dst_prefix ++ dn) in
  assertM (IS_ABSPATH dst_dirname) ;;;
  let* r := sysM (Lstat dst_dirname) in
  match r with
  | Some _ => skip
  | None =>
    let* src_dirname := format (src_prefix ++ dn) in
    assertM (IS_ABSPATH src_dirname) ;;;
    let* r := sysM (Lstat src_dirname) in
    match r with
    | None => skip
    | Some src_dn_stat =>
      if bool_decide (st_kind src_dn_stat = LNK) then symlink_and_target dn src_prefix dst_prefix
      else
        assertM (bool_decide (st_kind src_dn_stat = DIR)) ;;;
        let* _ := start_perf_timer AUDIT_FILE_COPYING in
        let* _ := sysM (Mkdir dst_dirname 511) in
        let* _ := stop_perf_timer AUDIT_FILE_COPYING in
        skip
    end
  end.

Definition create_mirror_dirs_with (symlink_and_target : cstring -> cstring -> cstring -> M S unit)
    (original_abspath src_prefix dst_prefix : cstring) (pop_one : bool) : M S unit :=
  assertM (IS_ABSPATH original_abspath) ;;;
  assertM (IS_ABSPATH dst_prefix) ;;;
  let* p := assert_some (new_path_from_abspath original_abspath) in
  let p := if pop_one then path_pop p else p in
  forM (seq 1 (depth p)) (mirror_dir symlink_and_target src_prefix dst_prefix p).

(** [create a symlink, EEXIST is not a failure] *)
Definition mirror_symlink (target p : cstring) : M S unit :=
  let* _ := start_perf_timer AUDIT_FILE_COPYING in
  let* e := sysM (Symlink target p) in
  (if negb (e =? 0)%Z && negb (e =? EEXIST)%Z
   then warn "WARNING: symlink('%s', '%s') failed" [PS target; PS p] else skip) ;;;
  let* _ := stop_perf_timer AUDIT_FILE_COPYING in
  skip.

(** [assert((strlen(s) >= n) && (strncmp(s, pre, n) == 0))], then the suffix [s + n],
    asserted to be absolute. *)
Definition suffix_after (pre s : cstring) : M S cstring :=
  assertM ((length pre <=? length s) && strncmp_eq s pre (length pre)) ;;;
  let suf := drop (length pre) s in
  assertM (IS_ABSPATH suf) ;;;
  retM suf.

Fixpoint strcat_n (n : nat) (s : cstring) : cstring :=
  match n with O => [] | Datatypes.S n' => s ++ strcat_n n' s end.

(** The relative form of a link to an absolute path: "./", one "../" per component of
    the directory of the link inside the package, the target. *)
Definition munged_target (depth_ : nat) (target_suffix : cstring) : cstring :=
  lit "./" ++ strcat_n depth_ (lit "../") ++ target_suffix.

(** The branch for a link to an absolute path. *)
Definition mirror_absolute_link (orig_symlink_target dir_realpath src_prefix dst_symlink_path : cstring)
  : M S cstring :=
  let* dir_realpath_suffix := suffix_after src_prefix dir_realpath in
  let* p := assert_some (new_path_from_abspath dir_realpath_suffix) in
  let* orig_symlink_target_suffix := suffix_after src_prefix orig_symlink_target in
  let* relative_symlink_target :=
    strbuf MAXPATHLEN (munged_target (depth p) orig_symlink_target_suffix) in
  assertM (strncmp_eq relative_symlink_target (lit "./") 2) ;;;
  assertM (match strstr relative_symlink_target (lit "//") with Some _ => true | None => false end) ;;;
  mirror_symlink relative_symlink_target dst_symlink_path ;;;
  retM orig_symlink_target.

(** The part after the link itself has been made: its target. *)
Definition mirror_symlink_target (cf : nat)
    (symlink_and_target : cstring -> cstring -> cstring -> M S unit)
    (filename_abspath symlink_target_abspath src_prefix dst_prefix : cstring) : M S unit :=
  assertM (IS_ABSPATH symlink_target_abspath) ;;;
  let* symlink_target_abspath_suffix := suffix_after src_prefix symlink_target_abspath in
  let* r := sysM (Lstat symlink_target_abspath) in
  match r with
  | None => warn "WARNING: '%s' (symlink target) does not exist" [PS symlink_target_abspath]
  | Some symlink_target_stat =>
    if bool_decide (st_kind symlink_target_stat = LNK)
    then symlink_and_target symlink_target_abspath_suffix src_prefix dst_prefix
    else
      let* symlink_dst_original_path := assert_some (canonicalize_abspath symlink_target_abspath) in
      let* symlink_dst_original_path_suffix := suffix_after src_prefix symlink_dst_original_path in
      let* symlink_dst_abspath := format (dst_prefix ++ symlink_dst_original_path_suffix) in
      match st_kind symlink_target_stat with
      | REG =>
        create_mirror_dirs_with symlink_and_target symlink_dst_original_path_suffix
          src_prefix dst_prefix true ;;;
        link_or_copy cf symlink_target_abspath symlink_dst_abspath
      | DIR =>
        create_mirror_dirs_with symlink_and_target symlink_dst_original_path_suffix
          src_prefix dst_prefix false
      | _ => warn "WARNING: create_mirror_symlink_and_target('%s') has unknown target file type"
                  [PS filename_abspath]
      end
  end.

Fixpoint create_mirror_symlink_and_target (cf fuel : nat)
    (filename_abspath src_prefix dst_prefix : cstring) : M S unit :=
  match fuel with
  | O => stopM (OutOfFuel "symlinks")
  | Datatypes.S f =>
    let rec := create_mirror_symlink_and_target cf f in
    assertM (IS_ABSPATH filename_abspath) ;;;
    assertM (IS_ABSPATH dst_prefix) ;;;
    let* src_path := format (src_prefix ++ filename_abspath) in
    assertM (IS_ABSPATH src_path) ;;;
    let* r := sysM (Lstat src_path) in
    match r with
    | None => eprint "FATAL ERROR: lstat('%s') failed" [PS src_path] ;;; stopM (Exit 1)
    | Some src_path_stat =>
      assertM (bool_decide (st_kind src_path_stat = LNK)) ;;;
      let* orig_symlink_target := readlink_strdup src_path in
      let* dir_realpath := realpath_strdup (dirname src_path) in
      let* dst_symlink_path := format (dst_prefix ++ filename_abspath) in
      create_mirror_dirs_with rec filename_abspath src_prefix dst_prefix true ;;;
      let* symlink_target_abspath :=
        if IS_ABSPATH orig_symlink_target then
          mirror_absolute_link orig_symlink_target dir_realpath src_prefix dst_symlink_path
        else
          let* t := format (dir_realpath ++ slash :: orig_symlink_target) in
          mirror_symlink orig_symlink_target dst_symlink_path ;;;
          retM t in
      mirror_symlink_target cf rec filename_abspath symlink_target_abspath src_prefix dst_prefix
    end
  end.

Definition create_mirror_dirs (cf fuel : nat) :=
  create_mirror_dirs_with (create_mirror_symlink_and_target cf fuel).

Definition create_mirror_file (cf fuel : nat) (filename_abspath src_prefix dst_prefix : cstring)
  : M S unit :=
  assertM (IS_ABSPATH filename_abspath) ;;;
  assertM (IS_ABSPATH dst_prefix) ;;;
  let* src_path := format (src_prefix ++ filename_abspath) in
  let* dst_path := format (dst_prefix ++ filename_abspath) in
  assertM (IS_ABSPATH src_path) ;;;
  assertM (IS_ABSPATH dst_path) ;;;
  let* r := sysM (Lstat src_path) in
  match r with
  | None => warn "WARNING: cannot mirror '%s' since it does not exist" [PS src_path]
  | Some src_path_stat =>
    let is_symlink := bool_decide (st_kind src_path_stat = LNK) in
    let* src_path_stat :=
      if is_symlink then
        let* r := sysM (Stat src_path) in
        match r with
        | Some st => retM st
        | None =>
          warn "WARNING: the symlink '%s' has a non-existent target" [PS src_path] ;;;
          retM src_path_stat
        end
      else retM src_path_stat in
    let* up_to_date :=
      if bool_decide (st_kind src_path_stat = REG) then
        let* r := sysM (Stat dst_path) in
        retM (match r with
              | Some dst_path_stat => (st_mtime src_path_stat <=? st_mtime dst_path_stat)%Z
              | None => false
              end)
      else retM false in
    if up_to_date then skip
    else if is_symlink then
      create_mirror_symlink_and_target cf fuel filename_abspath src_prefix dst_prefix
    else
      match st_kind src_path_stat with
      | REG =>
        create_mirror_dirs cf fuel filename_abspath src_prefix dst_prefix true ;;;
        link_or_copy cf src_path dst_path
      | DIR => create_mirror_dirs cf fuel filename_abspath src_prefix dst_prefix false
      | _ => skip
      end
  end.
End Okapi.
