(* ===== verification/OkapiContain.v ===== *)
(** * Containment: mirroring writes below the destination only

    [create_mirror_file] copies a file with the symbolic links and directories it is
    reached through.  Whatever the system answers, as long as no link of the source tree
    climbs above its root, each file that is created, linked or removed has a path below
    the destination prefix; a link that climbs makes the code leave it. *)
From S2P Require Import Prelude CString Os PerfTimers OkapiPath OkapiMirror MemOs.

(** The level of a walk along path components, from level [n]; [None] when it climbs
    above level 0. *)
Fixpoint climb (n : nat) (comps : list cstring) : option nat :=
  match comps with
  | [] => Some n
  | c :: l =>
    if bool_decide (c = []) || strcmp_eq c (lit ".") then climb n l
    else if strcmp_eq c (lit "..") then match n with O => None | S m => climb m l end
    else climb (S n) l
  end.
Definition no_escape (q : cstring) : Prop := is_Some (climb 0 (split_slash q)).
#[export] Instance no_escape_dec q : Decision (no_escape q).
Proof. unfold no_escape. apply _. Defined.

(** [p] is a path in the tree at [dst]. *)
Definition below (dst p : cstring) : Prop := exists q, p = dst ++ q /\ IS_ABSPATH q = true /\ no_escape q.

(** [q] names something of the tree at [src], without climbing above [src]. *)
Definition contained (src q : cstring) : Prop :=
  forall suf, q = src ++ suf -> IS_ABSPATH suf = true -> no_escape suf.

Definition link_path (dir t : cstring) : cstring :=
  if IS_ABSPATH t then t else dir ++ slash :: t.

(** The links of the tree at [src] do not climb above it, [rp] being [realpath(3)]. *)
Definition tame (rp : cstring -> cstring) (src : cstring) (c : sys) : reply c -> Prop :=
  match c return reply c -> Prop with
  | Readlink p => fun r => forall t, r = Some t -> contained src (link_path (rp (dirname p)) t)
  | Realpath p => fun r => forall d, r = Some d -> d = rp p
  | _ => fun _ => True
  end.

Definition mirror_contract (rp : cstring -> cstring) (src dst : cstring) : contract :=
  {| may c := match fs_write_target c with Some p => below dst p | None => True end;
     rep := tame rp src |}.

Lemma climb_normal n l : Forall normal l -> climb n l = Some (n + length l).
Proof.
  intros H; revert n; induction H as [|c l (Hn & Hd & Hdd & _) Hl IH]; intros n; simpl.
  { f_equal; lia. }
  unfold strcmp_eq. rewrite !bool_decide_eq_false_2 by done. simpl. rewrite IH. f_equal; lia.
Qed.

Lemma split_join l : Forall normal l -> l <> [] -> split_slash (join_slash l) = l.
Proof.
  induction 1 as [|c l (_ & _ & _ & Hs) Hl IH]; intros Hne; [done|].
  rewrite join_slash_cons. destruct l as [|d l]; [by apply split_slash_free|].
  rewrite split_slash_app, IH, split_slash_free by done. done.
Qed.

Lemma split_render l : Forall normal l -> l <> [] -> split_slash (render l) = [] :: l.
Proof. intros. unfold render. simpl. by rewrite split_join. Qed.

Lemma no_escape_render l : Forall normal l -> no_escape (render l).
Proof.
  intros H. destruct (decide (l = [])) as [->|Hne]; [vm_compute; eauto|].
  unfold no_escape. rewrite split_render by done. simpl. rewrite climb_normal; eauto.
Qed.

(** What follows a prefix of a canonical path is canonical from its first slash on. *)
Lemma contained_render src l : Forall normal l -> contained src (render l).
Proof.
  intros Hl suf E Hsuf. destruct (decide (l = [])) as [->|Hne].
  - destruct src as [|c src]; [simplify_eq/=; vm_compute; eauto|].
    injection E as <- E. by destruct src; simplify_eq/=.
  - pose proof (split_render l Hl Hne) as Hsp. rewrite E in Hsp.
    apply IS_ABSPATH_cons in Hsuf as [q ->].
    rewrite split_slash_app in Hsp.
    unfold no_escape. simpl.
    assert (Forall normal (split_slash q)) as Hn.
    { pose proof (split_slash_nonempty src) as Hsn.
      destruct (split_slash src) as [|x y] eqn:Ex; [done|].
      injection Hsp as -> Hsp. rewrite <- Hsp in Hl. apply Forall_app in Hl. tauto. }
    rewrite climb_normal; eauto.
Qed.

(** The calls of the component that change no file, and those that write at [p]. *)
Definition okapi_reads (c : sys) : bool :=
  match c with
  | Lstat _ | Stat _ | Readlink _ | Realpath _ | Open_read _ | Read _ _ | Write _ _ | Close _
  | Clock_gettime | Eprintf _ _ => true
  | _ => false
  end.
Definition okapi_writes (p : cstring) (c : sys) : Prop :=
  match c with
  | Mkdir p' _ | Symlink _ p' | Link _ p' | Open_create p' _ => p' = p
  | _ => False
  end.

(** The calls the component makes, for any notion [good] of the paths (after the
    prefixes) that the paths it computes satisfy. *)
Section Calls.
Context {S : Type} `{OkapiState S}.
Context (K : contract) (I : S -> Prop) (src dst : cstring) (good : cstring -> Prop).
Context (HI : forall t s, I s -> I (put_timers t s)).
Context (Kr : forall c, okapi_reads c = true -> may K c).
Context (Kw : forall q c, IS_ABSPATH q = true -> good q -> okapi_writes (dst ++ q) c -> may K c).
Context (good_sub : forall l suf, Forall normal l -> render l = src ++ suf -> IS_ABSPATH suf = true -> good suf).
Context (good_render : forall l, Forall normal l -> good (render l)).
Context (good_link : forall p t d suf, rep K (Readlink p) (Some t) ->
  rep K (Realpath (dirname p)) (Some d) -> link_path d t = src ++ suf -> IS_ABSPATH suf = true -> good suf).

#[local] Hint Extern 0 (may K _) => apply Kr; reflexivity : okdb.
#[local] Hint Extern 1 (may K _) => eapply Kw; cycle 2; [reflexivity|assumption|assumption] : okdb.
#[local] Hint Resolve HI : okdb.

Lemma ok_warn fmt args : okT K I (warn fmt args).
Proof. unfold warn. oks; auto with okdb. Qed.
Lemma ok_eprint fmt args : okT K I (eprint fmt args).
Proof. unfold eprint. oks; auto with okdb. Qed.
#[local] Hint Resolve ok_warn ok_eprint : okdb.

Lemma ok_copy_loop cf i o : okT K I (copy_loop cf i o).
Proof. induction cf; simpl; oks; auto with okdb. Qed.
#[local] Hint Resolve ok_copy_loop : okdb.

Lemma ok_okapi_copy_file cf s q perms :
  IS_ABSPATH q = true -> good q -> okT K I (okapi_copy_file cf s (dst ++ q) perms).
Proof. intros Hq Hg. unfold okapi_copy_file. oks; eauto with okdb. Qed.
#[local] Hint Resolve ok_okapi_copy_file : okdb.

Lemma ok_link_or_copy cf s q :
  IS_ABSPATH q = true -> good q -> okT K I (link_or_copy cf s (dst ++ q)).
Proof. intros Hq Hg. unfold link_or_copy. oks; eauto with okdb. Qed.

Lemma ok_mirror_symlink t q :
  IS_ABSPATH q = true -> good q -> okT K I (mirror_symlink t (dst ++ q)).
Proof. intros Hq Hg. unfold mirror_symlink. oks; eauto with okdb. Qed.
#[local] Hint Resolve ok_link_or_copy ok_mirror_symlink : okdb.

Definition Rec (m : cstring -> cstring -> cstring -> M S unit) : Prop :=
  forall q, IS_ABSPATH q = true -> good q -> okT K I (m q src dst).

Lemma ok_mirror_dirs m (p : path) :
  Rec m -> is_abspath p = true -> Forall normal (stack p) ->
  okT K I (forM (seq 1 (depth p)) (mirror_dir m src dst p)).
Proof.
  intros Hm Hp Hn. apply ok_forM. intros i Hi%elem_of_seq. unfold mirror_dir.
  rewrite path2str_abs by (done || lia).
  assert (good (render (take i (stack p)))) by auto using Forall_take.
  oks; eauto with okdb.
Qed.

Lemma ok_create_mirror_dirs_with m q b :
  Rec m -> okT K I (create_mirror_dirs_with m q src dst b).
Proof.
  intros Hm. unfold create_mirror_dirs_with. do 2 ok1.
  destruct (new_path_from_abspath_ok q) as (p & -> & Hst & Ha & _); [done|].
  ok1. apply ok_mirror_dirs; [done| |].
  - destruct b; [|done]. unfold path_pop. by case_match.
  - assert (Forall normal (stack p)) by (rewrite Hst; auto with ptu).
    destruct b; [|done]. unfold path_pop. case_match; [done|]. simpl. by apply Forall_take.
Qed.
#[local] Hint Resolve ok_create_mirror_dirs_with : okdb.

Lemma ok_suffix_after pre s :
  ok K I (suffix_after pre s) (fun suf => s = pre ++ suf /\ IS_ABSPATH suf = true).
Proof.
  unfold suffix_after. oks. to_prop. split; [|done].
  apply drop_prefix, strncmp_prefix. done.
Qed.

Lemma ok_mirror_absolute_link t d q :
  IS_ABSPATH q = true -> good q ->
  ok K I (mirror_absolute_link t d src (dst ++ q)) (fun r => r = t).
Proof.
  intros Hq Hg. unfold mirror_absolute_link.
  eapply ok_bind; [apply ok_suffix_after|]. intros ? [_ _]. ok1.
  eapply ok_bind; [apply ok_suffix_after|]. intros ? [_ _]. oks; eauto with okdb.
Qed.

(** The target of a link that the system answered. *)
Definition good_target (t : cstring) : Prop :=
  forall suf, t = src ++ suf -> IS_ABSPATH suf = true -> good suf.

Lemma ok_mirror_symlink_target cf m q t :
  Rec m -> good_target t -> okT K I (mirror_symlink_target cf m q t src dst).
Proof.
  intros Hm Ht. unfold mirror_symlink_target. ok1.
  eapply ok_bind; [apply ok_suffix_after|]. intros suf [-> Hsuf].
  pose proof (Ht suf eq_refl Hsuf) as Hg.
  rewrite canonicalize_abspath_ok by done. oks; auto with okdb.
  eapply ok_bind; [apply ok_suffix_after|]. intros suf' [Hc Hsuf'].
  pose proof (good_sub _ _ (resolve_normal _) Hc Hsuf') as Hg'.
  oks; auto with okdb.
Qed.

Lemma ok_readlink_strdup p : ok K I (readlink_strdup p) (fun t => rep K (Readlink p) (Some t)).
Proof. unfold readlink_strdup. oks; auto with okdb; by simplify_eq. Qed.
Lemma ok_realpath_strdup p : ok K I (realpath_strdup p) (fun d => rep K (Realpath p) (Some d)).
Proof. unfold realpath_strdup. oks; auto with okdb; by simplify_eq. Qed.

Lemma ok_create_mirror_symlink_and_target cf fuel :
  Rec (create_mirror_symlink_and_target cf fuel).
Proof.
  induction fuel as [|fuel IH]; intros q Hq Hg; simpl; [by apply ok_stop|].
  do 4 ok1. ok1; [auto with okdb|]. ok1; [|oks; auto with okdb].
  ok1. eapply ok_bind; [apply ok_readlink_strdup|]. intros t Ht.
  eapply ok_bind; [apply ok_realpath_strdup|]. intros d Hd.
  ok1. eapply ok_bind; [by apply ok_create_mirror_dirs_with|]. intros _ _.
  eapply (ok_bind _ _ _ _ (fun r => r = link_path d t)).
  - unfold link_path. destruct (IS_ABSPATH t); [by apply ok_mirror_absolute_link|].
    ok1. eapply ok_bind; [by apply ok_mirror_symlink|]. intros _ _. by apply ok_ret.
  - intros ? ->. apply ok_mirror_symlink_target; [done|]. intros suf. by apply good_link with (src ++ q).
Qed.

Lemma ok_create_mirror_dirs cf fuel q b : okT K I (create_mirror_dirs cf fuel q src dst b).
Proof. apply ok_create_mirror_dirs_with, ok_create_mirror_symlink_and_target. Qed.
#[local] Hint Resolve ok_create_mirror_dirs : okdb.

Lemma ok_create_mirror_file cf fuel q :
  good q -> okT K I (create_mirror_file cf fuel q src dst).
Proof.
  intros Hg. unfold create_mirror_file. ok1.
  oks; auto with okdb; by apply ok_create_mirror_symlink_and_target.
Qed.
End Calls.

(** The state of [okapi] on its own: the timers; warnings are printed. *)
#[export] Instance okapi_self : OkapiState timers :=
  {| okapi_timers := timers_self; OKAPI_VERBOSE _ := true |}.

Definition writes_below (dst : cstring) (e : event) : Prop :=
  forall p, fs_write_target (projT1 e) = Some p -> below dst p.

Lemma ok_create_mirror_file_below {S} `{OkapiState S} rp src dst cf fuel q :
  no_escape q ->
  okT (mirror_contract rp src dst) (any_state (S := S)) (create_mirror_file cf fuel q src dst).
Proof.
  intros Hq. apply ok_create_mirror_file with (good := no_escape); [done| | | | | |done].
  - by intros [].
  - intros q' c Habs Hg Hc. destruct c; simpl in *; try done; subst; by exists q'.
  - intros l suf Hl E Hsuf. by apply (contained_render src l).
  - apply no_escape_render.
  - intros p t d suf Ht Hd. simpl in Ht, Hd. rewrite (Hd d eq_refl). apply (Ht t eq_refl).
Qed.

(** C7.  Containment.  If no symbolic link of the tree at [src] climbs above [src] and
    the file name does not either, then every file that [create_mirror_file] creates,
    links or changes, along every chain of links and directories it follows, has a path
    below [dst]. *)
Theorem create_mirror_file_contained {S} `{OkapiState S} {W} (h : forall c, W -> reply c * W)
    (rp : cstring -> cstring) (src dst filename_abspath : cstring) (cf fuel : nat) (s : S) (w : W)
    (Hh : forall c w, tame rp src c (h c w).1) (Hq : no_escape filename_abspath) :
  Forall (writes_below dst) (trace h (create_mirror_file cf fuel filename_abspath src dst s) w).
Proof.
  pose proof (ok_create_mirror_file_below rp src dst cf fuel filename_abspath Hq s Logic.I) as Hwp.
  destruct (wp_run (mirror_contract rp src dst) h _ _ _ w Hh Hwp) as [Htr _].
  eapply Forall_impl; [exact Htr|]. intros [c r] Hc p Hp. simpl in *. by rewrite Hp in Hc.
Qed.

(** A fixed source tree whose directory /opt/app is a link to /opt/app-1.2; writes
    succeed. *)
Definition app_tree : tree :=
  mk_tree ["/opt"; "/opt/app-1.2"]
    [("/opt/app", N_link (lit "/opt/app-1.2")); ("/opt/app-1.2/run", N_file (lit "x") 493 1)].
Definition app_world : world := with_fs app_tree empty_world.
Definition app_os (c : sys) (w : unit) : reply c * unit :=
  match c return reply c * unit with
  | Mkdir _ _ | Symlink _ _ | Link _ _ => (0%Z, tt)
  | c => ((mem_os c app_world).1, tt)
  end.

Lemma app_links p t : get app_tree false p = Some (N_link t) -> t = lit "/opt/app-1.2".
Proof.
  unfold get. destruct (at_path app_tree false p) as [l|]; [|done]. simpl.
  unfold find_node. case_bool_decide; [done|].
  unfold app_tree, mk_tree. simpl. repeat case_decide; naive_solver.
Qed.

Lemma create_mirror_file_contained_witness :
  Forall (writes_below (lit "/pkg"))
    (trace app_os (create_mirror_file 9 9 (lit "/opt/app/run") [] (lit "/pkg") timers_init) tt)
  /\ In (Symlink (lit "./..//opt/app-1.2") (lit "/pkg/opt/app"))
       (map (@projT1 _ _) (trace app_os (create_mirror_file 9 9 (lit "/opt/app/run") [] (lit "/pkg")
          timers_init) tt)).
Proof.
  split; [|vm_compute; tauto].
  apply (create_mirror_file_contained app_os (fun p => default p (app_os (Realpath p) tt).1)).
  - intros c []. destruct c; try exact Logic.I; simpl.
    + intros t Ht. destruct (get app_tree false p) as [[| |t']|] eqn:E; try done.
      injection Ht as ->. apply app_links in E as ->.
      intros suf Hs _. simpl in Hs. rewrite <- Hs. vm_compute; eauto.
    + intros d Hd. unfold app_world, with_fs in Hd. simpl in Hd. by rewrite Hd.
  - vm_compute; eauto.
Defined.

(** A tree where the link /a/l climbs above the root to the link /x/m: mirrored into
    /home/pkg, the second link is made in /home/x, outside of /home/pkg. *)
Definition climbing_world : world :=
  with_fs (mk_tree ["/a"; "/x"; "/home"; "/home/pkg"; "/home/x"]
    [("/a/l", N_link (lit "../../x/m")); ("/x/m", N_link (lit "/f")); ("/f", N_file (lit "x") 420 1)])
    empty_world.

(** Without that hypothesis containment fails: the target of a relative link is not
    canonicalised before the recursive call, so its ".." are counted from the package. *)
Theorem create_mirror_file_escapes :
  let w := final mem_os (create_mirror_file 9 9 (lit "/a/l") [] (lit "/home/pkg") timers_init) climbing_world in
  assoc [lit "home"; lit "x"; lit "m"] (fs climbing_world) = None
  /\ assoc [lit "home"; lit "x"; lit "m"] (fs w) = Some (N_link (lit "./..//f"))
  /\ ~ below (lit "/home/pkg") (lit "/home/x/m").
Proof.
  split_and!; [vm_compute; reflexivity..|].
  intros (q & Hq & _). destruct q; discriminate.
Qed.
