(* ===== verification/OkapiSpec.v ===== *)
(** * What mirroring achieves

    The relative form of an absolute link leads back to the same place inside the
    package; a copy writes the bytes it read; the directories of a path exist after
    [create_mirror_dirs]; links that point to each other make the recursion endless;
    a file that exists already is never refreshed. *)
From S2P Require Import Prelude CString Os PerfTimers OkapiPath MemOs OkapiMirror OkapiContain.

(** ** Links *)

Lemma walk_ups st n t :
  walk st (strcat_n n (lit "../") ++ t) = walk (take (length st - n) st) t.
Proof.
  revert st; induction n as [|n IH]; intros st; cbn [strcat_n].
  { by rewrite Nat.sub_0_r, firstn_all. }
  change ((lit "../" ++ strcat_n n (lit "../")) ++ t)
    with (lit ".." ++ slash :: (strcat_n n (lit "../") ++ t)).
  rewrite walk_app, IH.
  change (walk st (lit "..")) with (take (length st - 1) st).
  f_equal. rewrite take_take, length_take. f_equal. lia.
Qed.

Lemma walk_inside P D comps :
  is_Some (climb (length D) comps) ->
  foldl resolve1 (P ++ D) comps = P ++ foldl resolve1 D comps.
Proof.
  revert D; induction comps as [|c l IH]; intros D; simpl; [done|].
  destruct (decide (c = [])) as [->|H1]; [apply IH|].
  destruct (decide (c = lit ".")) as [->|H2]; [apply IH|].
  destruct (decide (c = lit "..")) as [->|H3].
  - change (is_Some (match length D with O => None | S m => climb m l end) ->
      foldl resolve1 (take (length (P ++ D) - 1) (P ++ D)) l
      = P ++ foldl resolve1 (take (length D - 1) D) l).
    destruct (length D) as [|m] eqn:E; [by intros []|]. intros Hc.
    rewrite <- IH by (rewrite length_take, E, Nat.min_l by lia; simpl; by rewrite Nat.sub_0_r).
    f_equal. rewrite length_app, E. rewrite take_app_ge by lia. f_equal. f_equal. lia.
  - assert (R : forall st, resolve1 st c = st ++ [c]).
    { intros st. unfold resolve1, strcmp_eq. by rewrite !bool_decide_eq_false_2. }
    unfold strcmp_eq. rewrite !bool_decide_eq_false_2 by done. simpl. intros Hc.
    rewrite !R, <- app_assoc. apply IH. rewrite length_app. simpl. by rewrite Nat.add_1_r.
Qed.

Lemma walk_no_escape P t : no_escape t -> walk P t = P ++ resolve t.
Proof.
  intros H. unfold walk, resolve. rewrite <- (app_nil_r P) at 1. by apply walk_inside.
Qed.

Lemma munged_target_leads_back P D t :
  walk (P ++ D) (munged_target (length D) t) = walk P t.
Proof.
  unfold munged_target.
  change (lit "./" ++ strcat_n (length D) (lit "../") ++ t)
    with (lit "." ++ slash :: (strcat_n (length D) (lit "../") ++ t)).
  rewrite walk_app. change (walk (P ++ D) (lit ".")) with (P ++ D).
  rewrite walk_ups, length_app. f_equal. rewrite take_app_le by lia.
  rewrite take_ge by lia. done.
Qed.

Lemma wpM_suffix_after {S} K (pre suf : cstring) (s : S) (Q : cstring -> S -> Prop) (E : stop -> Prop) :
  IS_ABSPATH suf = true -> Q suf s -> wpM K (suffix_after pre (pre ++ suf)) s Q E.
Proof.
  intros Habs HQ. unfold suffix_after. rewrite drop_app_exact.
  assert (E1 : strncmp_eq (pre ++ suf) pre (length pre) = true)
    by (apply strncmp_prefix; by exists suf).
  rewrite E1, (proj2 (Nat.leb_le (length pre) _)), Habs by (rewrite length_app; lia). done.
Qed.

Lemma wpM_format_abs {S} K x (s : S) (Q : cstring -> S -> Prop) (E : stop -> Prop) :
  IS_ABSPATH x = true -> Q x s -> wpM K (format x) s Q E.
Proof. by destruct x. Qed.

Lemma wpM_start_timer {S} `{HasTimers S} K pt (s : S) (Q : TimerAction -> S -> Prop) (E : stop -> Prop) :
  may K Clock_gettime -> (forall a s', Q a s') -> E Segv -> wpM K (start_perf_timer pt) s Q E.
Proof.
  intros HK HQ HE. unfold start_perf_timer, start_timer, slot, mod_timers. repeat (wp1; try done); eauto.
Qed.
Lemma wpM_stop_timer {S} `{HasTimers S} K pt (s : S) (Q : TimerAction -> S -> Prop) (E : stop -> Prop) :
  may K Clock_gettime -> (forall a s', Q a s') -> E Segv -> wpM K (stop_perf_timer pt) s Q E.
Proof.
  intros HK HQ HE. unfold stop_perf_timer, stop_timer, slot, mod_timers. repeat (wp1; try done); eauto.
Qed.

(** Nothing of the file system is changed but by the link [T] at [p]. *)
Definition only_link (T p : cstring) (c : sys) : Prop := c = Symlink T p \/ fs_write_target c = None.

(** A call that is made in every run that does not stop *)
Fixpoint makes {A} (c0 : sys) (p : prog A) : Prop :=
  match p with
  | Ret _ => False
  | Stop _ => True
  | Sys c k => c = c0 \/ forall r, makes c0 (k r)
  end.
Lemma makes_run {W A} (h : forall c, W -> reply c * W) c0 (p : prog A) w :
  makes c0 p -> match outcome h p w with inl _ => exists r, existT c0 r ∈ trace h p w | inr _ => True end.
Proof.
  unfold outcome, trace. revert w; induction p as [a|e|c k IH]; intros w; simpl; [done|done|]. intros Hm.
  destruct (h c w) as [r w1]. specialize (IH r w1). destruct (run h (k r) w1) as [[t [a|e]] w2]; simpl in *; [|done].
  destruct Hm as [->|Hm]; [exists r; apply list_elem_of_here|]. destruct (IH (Hm r)) as [r0 Hr0].
  exists r0. by apply list_elem_of_further.
Qed.
Lemma makes_bind_l {S A B} c0 (m : M S A) (f : A -> M S B) s : makes c0 (m s) -> makes c0 (bindM m f s).
Proof.
  unfold bindM. induction (m s) as [a|e|c k IH]; simpl; [done|done|]. intros [->|Hm]; [by left|right]. intros r. by apply IH, Hm.
Qed.
Lemma makes_bind_r {S A B} c0 (m : M S A) (f : A -> M S B) s : (forall a s', makes c0 (f a s')) -> makes c0 (bindM m f s).
Proof.
  intros Hf. unfold bindM. induction (m s) as [[a s1]|e|c k IH]; simpl; [apply Hf|done|]. right. intros r. apply IH.
Qed.
Lemma makes_pure {S A B} c0 (m : M S A) (f : A -> M S B) s a s' : m s = Ret (a, s') -> makes c0 (f a s') -> makes c0 (bindM m f s).
Proof. unfold bindM. by intros ->. Qed.

Lemma strcat_n_slash pre n :
  exists x, (pre ++ [slash]) ++ strcat_n n (lit "../") = x ++ [slash].
Proof.
  revert pre; induction n as [|n IH]; intros pre; cbn [strcat_n]; [exists pre; by rewrite app_nil_r|].
  destruct (IH (pre ++ slash :: lit "..")) as [x Hx]. exists x.
  rewrite <- Hx, <- !app_assoc. done.
Qed.

(** The two assertions on the text of the link hold. *)
Lemma munged_target_marked n t :
  IS_ABSPATH t = true ->
  strncmp_eq (munged_target n t) (lit "./") 2 = true /\ is_Some (strstr (munged_target n t) (lit "//")).
Proof.
  intros [t' ->]%IS_ABSPATH_cons. split; [done|].
  destruct (strstr _ _) eqn:E; [done|]. exfalso.
  destruct (strcat_n_slash (lit ".") n) as [x Hx].
  apply (strstr_None _ _ E x t'). unfold munged_target.
  change (lit "./") with (lit "." ++ [slash]). rewrite app_assoc, Hx, <- app_assoc. done.
Qed.

Lemma suffix_after_pure {S} (pre suf : cstring) (s : S) : IS_ABSPATH suf = true -> suffix_after pre (pre ++ suf) s = Ret (suf, s).
Proof.
  intros Habs. unfold suffix_after. rewrite drop_app_exact.
  assert (E1 : strncmp_eq (pre ++ suf) pre (length pre) = true) by (apply strncmp_prefix; by exists suf).
  by rewrite E1, (proj2 (Nat.leb_le (length pre) _)), Habs by (rewrite length_app; lia).
Qed.

Section AbsoluteLink.
Context {S : Type} `{OkapiState S} (src d t p : cstring) (Habs : IS_ABSPATH t = true) (Hd : IS_ABSPATH d = true).
(** The text of the link *)
Let T := munged_target (length (resolve d)) t.

Lemma absolute_link_only s :
  wpM (any_answer (only_link T p)) (mirror_absolute_link (src ++ t) (src ++ d) src p) s
    (fun r _ => r = src ++ t) (fun e => e = Segv).
Proof.
  unfold mirror_absolute_link. wp1. apply wpM_suffix_after; [done|].
  destruct (new_path_from_abspath_ok d Hd) as (q & -> & Hq & _).
  do 3 wp1. apply wpM_suffix_after; [done|]. change (depth q) with (length (stack q)). rewrite Hq. fold T.
  destruct (munged_target_marked (length (resolve d)) t Habs) as [H1 [k H2]]. fold T in H1, H2.
  wp1. wp1; [|done]. rewrite H1, H2. do 5 wp1.
  unfold mirror_symlink, warn. wp1. apply wpM_start_timer; [by right|intros _ s'|done]. wp1. wp1; [by left|].
  wp1. wp1; repeat (wp1; try by right); apply wpM_stop_timer; try done; by right.
Qed.
Lemma absolute_link_made s : makes (Symlink T p) (mirror_absolute_link (src ++ t) (src ++ d) src p s).
Proof.
  unfold mirror_absolute_link. eapply makes_pure; [by apply suffix_after_pure|].
  destruct (new_path_from_abspath_ok d Hd) as (q & -> & Hq & _). eapply makes_pure; [reflexivity|].
  eapply makes_pure; [by apply suffix_after_pure|]. change (depth q) with (length (stack q)). rewrite Hq. fold T.
  unfold strbuf. destruct (length T <? MAXPATHLEN); [|done]. eapply makes_pure; [reflexivity|].
  do 2 (apply makes_bind_r; intros ? ?). apply makes_bind_l. unfold mirror_symlink.
  apply makes_bind_r. intros ? ?. apply makes_bind_l. by left.
Qed.
End AbsoluteLink.

(** C23.  A link to an absolute path that does not climb above "/" is mirrored by a relative
    one, and by nothing else: whatever the system answers, the link is made at [p], and from
    wherever the package is (at components [P]) it leads to the mirror of its target.  The
    code's own assertions on the link's text hold: the only other way to end is a buffer
    that is too small, for that text or for the timers. *)
Theorem absolute_link_leads_back {S} `{OkapiState S} {W} (h : forall c, W -> reply c * W) (src d t p : cstring) (s : S) (w : W)
    (Ht : no_escape t) (Habs : IS_ABSPATH t = true) (Hd : IS_ABSPATH d = true) (m := mirror_absolute_link (src ++ t) (src ++ d) src p s) :
  exists T, IS_ABSPATH T = false /\ (forall P, walk (P ++ resolve d) T = P ++ resolve t)
  /\ Forall (fun e : event => only_link T p (projT1 e)) (trace h m w)
  /\ match outcome h m w with
     | inl (r, _) => r = src ++ t /\ exists e, existT (Symlink T p) e ∈ trace h m w
     | inr e => e = Segv
     end.
Proof.
  exists (munged_target (length (resolve d)) t). split; [done|]. split.
  { intros P. by rewrite munged_target_leads_back, walk_no_escape. }
  pose proof (absolute_link_only src d t p Habs Hd s) as Ho. apply (wp_run (any_answer (only_link (munged_target (length (resolve d)) t) p)) h _ _ _ w (fun _ _ => Logic.I)) in Ho as [Htr Ho].
  pose proof (makes_run h _ _ w (absolute_link_made src d t p Habs Hd s)) as Hm. fold m in Htr, Ho, Hm. split; [exact Htr|].
  by destruct (outcome h m w) as [[r s']|e].
Qed.

Lemma absolute_link_leads_back_witness :
  exists T, IS_ABSPATH T = false /\ (forall P, walk (P ++ [lit "usr"; lit "bin"]) T = P ++ [lit "etc"; lit "alternatives"; lit "java"])
  /\ Forall (fun e : event => only_link T (lit "/pkg/usr/bin/java") (projT1 e))
       (trace app_os (mirror_absolute_link (lit "/etc/alternatives/java") (lit "/usr/bin") [] (lit "/pkg/usr/bin/java") timers_init) tt)
  /\ match outcome app_os (mirror_absolute_link (lit "/etc/alternatives/java") (lit "/usr/bin") [] (lit "/pkg/usr/bin/java") timers_init) tt with
     | inl (r, _) => r = lit "/etc/alternatives/java"
         /\ exists e, existT (Symlink T (lit "/pkg/usr/bin/java")) e
              ∈ trace app_os (mirror_absolute_link (lit "/etc/alternatives/java") (lit "/usr/bin") [] (lit "/pkg/usr/bin/java") timers_init) tt
     | inr e => e = Segv
     end.
Proof.
  exact (absolute_link_leads_back app_os [] (lit "/usr/bin") (lit "/etc/alternatives/java") (lit "/pkg/usr/bin/java") timers_init tt
    ltac:(vm_compute; eauto) eq_refl eq_refl).
Defined.
(** That link's text; and one that climbs above "/", which leads out of the package. *)
Example munged_java : munged_target 2 (lit "/etc/alternatives/java") = lit "./../..//etc/alternatives/java"
  /\ walk [lit "pkg"; lit "usr"; lit "bin"] (munged_target 2 (lit "/../etc")) = [lit "etc"].
Proof. split; reflexivity. Qed.

(** ** Copies *)

(** The bytes a trace writes to the descriptor [fd]. *)
Definition written_to (fd : Z) (tr : list event) : cstring :=
  flat_map (fun e : event =>
    match projT1 e with Write fd' b => if decide (fd' = fd) then b else [] | _ => [] end) tr.

Lemma written_to_app fd t1 t2 : written_to fd (t1 ++ t2) = written_to fd t1 ++ written_to fd t2.
Proof. apply flat_map_app. Qed.

Lemma timer_off {S} `{HasTimers S} (s : S) :
  is_enabled (get_timers s) AUDIT_FILE_COPYING = false ->
  start_perf_timer AUDIT_FILE_COPYING s = Ret (ERR_TIMER_NOT_ENABLED, s) /\
  stop_perf_timer AUDIT_FILE_COPYING s = Ret (ERR_TIMER_NOT_ENABLED, s).
Proof.
  intros E. unfold start_perf_timer, start_timer, stop_perf_timer, stop_timer, bindM, gets.
  simpl. by rewrite E.
Qed.

(** A system on which [src] opens as [i] and reads as the given chunks: [left] are the
    chunks that remain, and writing elsewhere does not change them. *)
Record readable {W} (h : forall c, W -> reply c * W) (src dst : cstring) (i o : Z)
    (chunks : list cstring) (left : W -> list cstring) : Prop := {
  rd_open : forall w, (h (Open_read src) w).1 = Some i /\ left (h (Open_read src) w).2 = chunks;
  rd_create : forall m w, (h (Open_create dst m) w).1 = Some o
    /\ left (h (Open_create dst m) w).2 = left w;
  rd_read : forall w, match left w with
    | [] => (h (Read i MAXPATHLEN) w).1 = Some []
    | c :: l => c <> [] /\ (h (Read i MAXPATHLEN) w).1 = Some c /\ left (h (Read i MAXPATHLEN) w).2 = l
    end;
  rd_write : forall b w, left (h (Write o b) w).2 = left w;
}.

Section Copy.
Context {S : Type} `{OkapiState S} {W : Type} (h : forall c, W -> reply c * W).
Context (src dst : cstring) (i o : Z) (chunks : list cstring) (left : W -> list cstring).
Context (Hr : readable h src dst i o chunks left).

Lemma copy_loop_returns cf (s : S) w :
  length (left w) < cf ->
  exists tr w', returns h (copy_loop cf i o) s w tr tt s w' /\ written_to o tr = concat (left w).
Proof.
  revert w; induction cf as [|cf IH]; intros w Hcf; [lia|]. simpl.
  pose proof (rd_read _ _ _ _ _ _ _ Hr w) as Hrd. destruct (left w) as [|c l] eqn:E.
  - eexists _, _. split; [|shelve].
    eapply returns_sys_bind; [exact Hrd|done|]. apply returns_ret.
    Unshelve. done.
  - destruct Hrd as (Hc & Hrd & Hl). destruct c as [|x c]; [done|].
    destruct (IH (h (Write o (x :: c)) (h (Read i MAXPATHLEN) w).2).2) as (tr & w' & Hret & Hw).
    { rewrite (rd_write _ _ _ _ _ _ _ Hr), Hl. simpl in Hcf. lia. }
    eexists _, _. split.
    + eapply returns_sys_bind; [exact Hrd|done|]. eapply returns_sys_bind; [done|done|]. exact Hret.
    + simpl. rewrite decide_True by done. f_equal.
      rewrite Hw, (rd_write _ _ _ _ _ _ _ Hr), Hl. done.
Qed.

(** C21.  [okapi_copy_file] with [perms] 0 creates the destination with the mode of the
    source, writes to it exactly the bytes that the source reads as, whatever the sizes
    of the chunks [read] returns, and returns. *)
Theorem okapi_copy_file_copies (cf : nat) (s : S) (w : W) (st : fstat)
    (Hcf : length chunks < cf) (Hoff : is_enabled (get_timers s) AUDIT_FILE_COPYING = false)
    (Hst : (h (Lstat src) w).1 = Some st) (Hmode : (st_mode st =? 0)%Z = false) :
  exists tr w', returns h (okapi_copy_file cf src dst 0) s w tr tt s w'
  /\ written_to o tr = concat chunks
  /\ In (Open_create dst (st_mode st)) (map (@projT1 _ _) tr).
Proof.
  destruct (timer_off s Hoff) as [Hstart Hstop].
  pose (w1 := (h (Lstat src) w).2). pose (w2 := (h (Open_read src) w1).2).
  pose (w3 := (h (Open_create dst (st_mode st)) w2).2).
  destruct (rd_open _ _ _ _ _ _ _ Hr w1) as [Hi Hl].
  destruct (rd_create _ _ _ _ _ _ _ Hr (st_mode st) w2) as [Ho Hl'].
  destruct (copy_loop_returns cf s w3) as (tr & w' & Hret & Hw).
  { unfold w3. rewrite Hl'. unfold w2. rewrite Hl. done. }
  eexists _, _. split; [|split].
  - unfold okapi_copy_file. change (0 =? 0)%Z with true. cbv iota.
    eapply returns_bind; [eapply returns_sys_bind; [exact Hst|done|apply returns_ret]|].
    cbv zeta. rewrite Hmode. eapply returns_pure_bind; [exact Hstart|].
    eapply returns_sys_bind; [exact Hi|done|]. eapply returns_sys_bind; [exact Ho|done|]. cbv iota.
    eapply returns_bind.
    { eapply returns_bind; [exact Hret|]. eapply returns_sys_bind; [done|done|]. apply returns_ret. }
    eapply returns_sys_bind; [done|done|]. eapply returns_pure_bind; [exact Hstop|]. apply returns_ret.
  - simpl. rewrite !written_to_app. simpl. rewrite !app_nil_r, Hw. unfold w3. rewrite Hl'. unfold w2. by rewrite Hl.
  - simpl. tauto.
Qed.
End Copy.

(** A source that reads as two chunks; the world counts the chunks read. *)
Definition two_chunks : list cstring := [lit "ab"; lit "c"].
Definition chunk_os (c : sys) (w : nat) : reply c * nat :=
  match c return reply c * nat with
  | Lstat _ => (Some {| st_kind := REG; st_mode := 420; st_mtime := 0; st_size := 3; st_uid := 0; st_gid := 0 |}, w)
  | Open_read _ => (Some 3%Z, 0)
  | Open_create _ _ => (Some 4%Z, w)
  | Read _ _ => match drop w two_chunks with [] => (Some [], w) | c :: _ => (Some c, S w) end
  | c => (null_reply c, w)
  end.

Lemma chunk_os_readable : readable chunk_os (lit "/s") (lit "/d") 3 4 two_chunks (fun w => drop w two_chunks).
Proof. split; intros; cbn; try (split; reflexivity); try reflexivity.
  destruct w as [|[|w]]; [by split_and!..|]. cbn. by rewrite drop_nil.
Qed.

Lemma okapi_copy_file_copies_witness :
  exists tr w', returns chunk_os (okapi_copy_file 3 (lit "/s") (lit "/d") 0) timers_init 7 tr tt timers_init w'
  /\ written_to 4 tr = lit "abc"
  /\ In (Open_create (lit "/d") 420) (map (@projT1 _ _) tr).
Proof.
  apply (okapi_copy_file_copies chunk_os (lit "/s") (lit "/d") 3 4 two_chunks _ chunk_os_readable 3 timers_init 7
    {| st_kind := REG; st_mode := 420; st_mtime := 0; st_size := 3; st_uid := 0; st_gid := 0 |}); [vm_compute; lia|done|done|done].
Defined.

(** ** Directories *)

(** The prefix of depth [i] of a path, as [path2str] prints it. *)
Definition dn (comps : list cstring) (i : nat) : cstring := render (take i comps).

(** A file system whose directories at [src] along the path are all there (and are not
    links), where [present w p] says that the directory [p] exists: [mkdir] makes a
    directory whose parent exists, and nothing here removes one. *)
Record mkdir_laws {W} (h : forall c, W -> reply c * W) (src dst : cstring) (comps : list cstring)
    (present : W -> cstring -> Prop) : Prop := {
  md_lstat : forall w i, i < length comps ->
    let p := dst ++ dn comps (S i) in
    (h (Lstat p) w).2 = w /\ (is_Some (h (Lstat p) w).1 <-> present w p);
  md_src : forall w i, i < length comps ->
    exists st, h (Lstat (src ++ dn comps (S i))) w = (Some st, w) /\ st_kind st = DIR;
  md_mkdir : forall w i m, i < length comps ->
    let parent := match i with O => dst | _ => dst ++ dn comps i end in
    let p := dst ++ dn comps (S i) in
    present w parent -> present (h (Mkdir p m) w).2 p;
  md_keep : forall w i m q, i < length comps -> present w q ->
    present (h (Mkdir (dst ++ dn comps (S i)) m) w).2 q;
}.

Section Dirs.
Context {S : Type} `{OkapiState S} {W : Type} (h : forall c, W -> reply c * W).
Context (src dst : cstring) (comps : list cstring) (present : W -> cstring -> Prop).
Context (Hl : mkdir_laws h src dst comps present).
Context (Hdst : IS_ABSPATH dst = true) (Hsrc : src = [] \/ IS_ABSPATH src = true).

Lemma mirror_dir_present m (p : path) i (s : S) w :
  is_abspath p = true -> stack p = comps -> i < length comps ->
  is_enabled (get_timers s) AUDIT_FILE_COPYING = false ->
  present w (match i with O => dst | _ => dst ++ dn comps i end) ->
  exists tr w', returns h (mirror_dir m src dst p (Datatypes.S i)) s w tr tt s w'
  /\ present w' (dst ++ dn comps (Datatypes.S i)) /\ (forall q, present w q -> present w' q).
Proof.
  intros Ha Hst Hi Hoff Hpar. destruct (timer_off s Hoff) as [Hstart Hstop].
  destruct (md_lstat _ _ _ _ _ Hl w i Hi) as [Hw Hp].
  destruct (md_src _ _ _ _ _ Hl w i Hi) as (st & Hsrcst & Hk).
  set (d := dn comps (Datatypes.S i)) in *.
  assert (Hd : path2str p (Datatypes.S i) = Some d).
  { unfold d, dn. rewrite <- Hst. apply path2str_abs; [done|]. unfold depth. rewrite Hst. lia. }
  assert (Habs : IS_ABSPATH d = true) by apply IS_ABSPATH_render.
  assert (Habs1 : IS_ABSPATH (dst ++ d) = true) by by apply IS_ABSPATH_app.
  assert (Habs2 : IS_ABSPATH (src ++ d) = true) by (destruct Hsrc as [->|?]; [done|by apply IS_ABSPATH_app]).
  assert (Hf : forall x, IS_ABSPATH x = true -> forall s : S, format x s = Ret (x, s)) by by intros [].
  destruct (h (Lstat (dst ++ d)) w) as [[st'|] w1] eqn:E; simpl in Hw; subst w1.
  - eexists _, w. split_and!; [|by apply Hp; eauto|done]. unfold mirror_dir. rewrite Hd.
    eapply returns_pure_bind; [done|]. rewrite Habs. eapply returns_pure_bind; [done|].
    eapply returns_pure_bind; [by apply Hf|]. rewrite Habs1. eapply returns_pure_bind; [done|].
    eapply (returns_sys_bind _ (Lstat (dst ++ d)) _ _ _ (Some st') w); [by rewrite E|by rewrite E|]. apply returns_ret.
  - eexists _, (h (Mkdir (dst ++ d) 511) w).2. split_and!; cycle 1.
    { by apply (md_mkdir _ _ _ _ _ Hl w i 511 Hi). }
    { intros q Hq. by apply (md_keep _ _ _ _ _ Hl w i 511 q Hi). }
    unfold mirror_dir. rewrite Hd.
    eapply returns_pure_bind; [done|]. rewrite Habs. eapply returns_pure_bind; [done|].
    eapply returns_pure_bind; [by apply Hf|]. rewrite Habs1. eapply returns_pure_bind; [done|].
    eapply (returns_sys_bind _ (Lstat (dst ++ d)) _ _ _ None w); [by rewrite E|by rewrite E|]. cbv iota.
    eapply returns_pure_bind; [by apply Hf|]. rewrite Habs2. eapply returns_pure_bind; [done|].
    eapply (returns_sys_bind _ (Lstat (src ++ d)) _ _ _ (Some st) w); [by rewrite Hsrcst|by rewrite Hsrcst|]. cbv iota.
    rewrite Hk. change (bool_decide (DIR = LNK)) with false. change (bool_decide (DIR = DIR)) with true.
    eapply returns_pure_bind; [done|]. eapply returns_pure_bind; [exact Hstart|].
    eapply returns_sys_bind; [done|done|]. eapply returns_pure_bind; [exact Hstop|]. apply returns_ret.
Qed.

Lemma mirror_dirs_present m (p : path) n k (s : S) w :
  is_abspath p = true -> stack p = comps -> k + n = length comps ->
  is_enabled (get_timers s) AUDIT_FILE_COPYING = false ->
  present w dst -> (forall i, 0 < i <= k -> present w (dst ++ dn comps i)) ->
  exists tr w', returns h (forM (seq (Datatypes.S k) n) (mirror_dir m src dst p)) s w tr tt s w'
  /\ forall i, 0 < i <= length comps -> present w' (dst ++ dn comps i).
Proof.
  intros Ha Hst Hn Hoff. revert k w Hn; induction n as [|n IH]; intros k w Hn Hd Hk; simpl.
  { eexists _, _. split; [apply returns_ret|]. intros i Hi. apply Hk. lia. }
  destruct (mirror_dir_present m p k s w) as (t1 & w1 & Hr1 & Hp1 & Hkeep); [done|done|lia|done| |].
  { destruct k; [done|]. apply Hk. lia. }
  destruct (IH (Datatypes.S k) w1) as (t2 & w2 & Hr2 & Hp2); [lia|by apply Hkeep| |].
  { intros i Hi. destruct (decide (i = Datatypes.S k)) as [->|]; [done|]. apply Hkeep, Hk. lia. }
  eexists _, _. split; [eapply returns_bind; [exact Hr1|exact Hr2]|done].
Qed.
End Dirs.

(** C22.  [create_mirror_dirs] is "mkdir -p": where the directories of the source path are
    real ones and the destination exists, it returns, and every prefix of the path (all
    but the last component with [pop_one]) is then a directory below the destination. *)
Theorem create_mirror_dirs_creates {S} `{OkapiState S} {W} (h : forall c, W -> reply c * W)
    (src dst original_abspath : cstring) (pop_one : bool) (present : W -> cstring -> Prop)
    (cf fuel : nat) (s : S) (w : W) (comps := let l := resolve original_abspath in
       if pop_one then take (length l - 1) l else l)
    (Hl : mkdir_laws h src dst comps present)
    (Hdst : IS_ABSPATH dst = true) (Hsrc : src = [] \/ IS_ABSPATH src = true)
    (Habs : IS_ABSPATH original_abspath = true)
    (Hoff : is_enabled (get_timers s) AUDIT_FILE_COPYING = false) (Hw : present w dst) :
  exists tr w', returns h (create_mirror_dirs cf fuel original_abspath src dst pop_one) s w tr tt s w'
  /\ forall i, 0 < i <= length comps -> present w' (dst ++ dn comps i).
Proof.
  destruct (new_path_from_abspath_ok _ Habs) as (p & Hp & Hst & Ha & _).
  set (p' := if pop_one then path_pop p else p).
  assert (Hp' : is_abspath p' = true /\ stack p' = comps).
  { unfold p', comps, path_pop, depth. rewrite <- Hst. destruct pop_one; [|done].
    case_match eqn:E; simpl; [|done]. apply Nat.eqb_eq in E.
    rewrite (nil_length_inv _ E). done. }
  destruct Hp' as [Ha' Hst'].
  destruct (mirror_dirs_present h src dst comps present Hl Hdst Hsrc
    (create_mirror_symlink_and_target cf fuel) p' (length comps) 0 s w)
    as (tr & w' & Hr & Hpre); [done|done|done|done|done|lia|].
  exists tr, w'. split; [|done].
  unfold create_mirror_dirs, create_mirror_dirs_with. rewrite Habs, Hdst, Hp.
  do 3 (eapply returns_pure_bind; [done|]). fold p'. unfold depth. rewrite Hst'. exact Hr.
Qed.

(** The directories below /pkg; everything else is a directory already. *)
Definition dir_st : fstat := {| st_kind := DIR; st_mode := 16877; st_mtime := 0; st_size := 0; st_uid := 0; st_gid := 0 |}.
Definition dir_os (c : sys) (w : list cstring) : reply c * list cstring :=
  match c return reply c * list cstring with
  | Lstat p =>
    (if strncmp_eq p (lit "/pkg") 4 then if bool_decide (p ∈ w) then Some dir_st else None
     else Some dir_st, w)
  | Mkdir p _ => if bool_decide (dirname p ∈ w) then (0%Z, p :: w) else (2%Z, w)
  | c => (null_reply c, w)
  end.

Lemma dir_os_laws :
  mkdir_laws dir_os [] (lit "/pkg") [lit "usr"; lit "lib"] (fun w p => p ∈ w).
Proof.
  split; intros w i.
  - intros Hi. cbn -[dn lit]. split; [done|].
    change (strncmp_eq (lit "/pkg" ++ dn [lit "usr"; lit "lib"] (S i)) (lit "/pkg") 4) with true.
    case_bool_decide; split; try done; eauto.
  - intros Hi. exists dir_st. destruct i as [|[|i]]; [by split..|simpl in Hi; lia].
  - intros m Hi. cbn -[dn lit]. intros Hpar.
    assert (dirname (lit "/pkg" ++ dn [lit "usr"; lit "lib"] (S i)) ∈ w) as Hd.
    { destruct i as [|[|i]]; [exact Hpar..|simpl in Hi; lia]. }
    rewrite bool_decide_eq_true_2 by done. left.
  - intros m q Hi Hq. cbn -[dn lit]. case_bool_decide; [by right|done].
Qed.

Lemma create_mirror_dirs_creates_witness :
  exists tr w', returns dir_os (create_mirror_dirs 0 0 (lit "/usr/lib/libc.so") [] (lit "/pkg") true)
    timers_init [lit "/pkg"] tr tt timers_init w'
  /\ forall i, 0 < i <= 2 -> lit "/pkg" ++ dn [lit "usr"; lit "lib"] i ∈ w'.
Proof.
  apply (create_mirror_dirs_creates dir_os [] (lit "/pkg") (lit "/usr/lib/libc.so") true
    (fun w p => p ∈ w) 0 0 timers_init [lit "/pkg"] dir_os_laws); try reflexivity; [by left|left].
Defined.

(** ** Links that point to each other *)

Definition loop_target (p : cstring) : cstring := if strcmp_eq p (lit "/a") then lit "/b" else lit "/a".

(** /a and /b are links to each other. *)
Definition loop_contract : contract :=
  {| may := fun _ => True;
     rep c := match c return reply c -> Prop with
       | Lstat p => fun r => p = lit "/a" \/ p = lit "/b" -> exists st, r = Some st /\ st_kind st = LNK
       | Stat p => fun r => p = lit "/a" \/ p = lit "/b" -> r = None
       | Readlink p => fun r => p = lit "/a" \/ p = lit "/b" -> r = Some (loop_target p)
       | Realpath p => fun r => p = lit "/" -> r = Some (lit "/")
       | _ => fun _ => True
       end |}.

Section Loop.
Context {S : Type} `{OkapiState S} (s : S).
Context (Hoff : is_enabled (get_timers s) AUDIT_FILE_COPYING = false).
Let endless (e : stop) : Prop := e = OutOfFuel "symlinks".

Lemma wpM_mirror_symlink t p (Q : unit -> S -> Prop) :
  Q tt s -> wpM loop_contract (mirror_symlink t p) s Q endless.
Proof.
  intros HQ. destruct (timer_off s Hoff) as [Hstart Hstop].
  unfold mirror_symlink, warn. wp1. apply (wpM_pure _ _ _ _ _ _ _ Hstart). do 2 wp1; [done|].
  wp1. wp1; repeat (wp1; try done); by apply (wpM_pure _ _ _ _ _ _ _ Hstop).
Qed.

(** The directory of /a and /b is the root: there is nothing to make on the way. *)
Lemma wpM_no_dirs m q (Q : unit -> S -> Prop) :
  q = lit "/a" \/ q = lit "/b" -> Q tt s ->
  wpM loop_contract (create_mirror_dirs_with m q [] (lit "/pkg") true) s Q endless.
Proof. intros [->| ->] HQ; unfold create_mirror_dirs_with; exact HQ. Qed.

Lemma wpM_loop_link q (Q : cstring -> S -> Prop) :
  q = lit "/a" \/ q = lit "/b" -> Q (loop_target q) s ->
  wpM loop_contract (mirror_absolute_link (loop_target q) (lit "/") [] (lit "/pkg" ++ q)) s Q endless.
Proof.
  intros Hq HQ. unfold mirror_absolute_link.
  wp1. change (suffix_after [] (lit "/")) with (suffix_after (S := S) [] ([] ++ lit "/")).
  apply wpM_suffix_after; [done|].
  change (new_path_from_abspath (lit "/")) with (Some {| stacksize := 3; is_abspath := true; stack := [] |}).
  do 3 wp1. change (loop_target q) with ([] ++ loop_target q) at 1.
  apply wpM_suffix_after; [by destruct Hq as [->| ->]|].
  assert (Hlen : forall q, q = lit "/a" \/ q = lit "/b" -> length (munged_target 0 (loop_target q)) < MAXPATHLEN).
  { intros ? [->| ->]; apply Nat.ltb_lt; vm_compute; reflexivity. }
  specialize (Hlen q Hq). wp1. wp1; [|cbn [depth length stack] in *; simpl in *; lia].
  destruct Hq as [->| ->]; do 2 (wp1; wp1; [|done]); wp1; apply wpM_mirror_symlink; wp1; apply HQ.
Qed.

Lemma symlink_loop cf fuel q :
  q = lit "/a" \/ q = lit "/b" ->
  wpM loop_contract (create_mirror_symlink_and_target cf fuel q [] (lit "/pkg")) s (fun _ _ => False) endless.
Proof.
  revert q; induction fuel as [|fuel IH]; intros q Hq; [reflexivity|].
  assert (Hq' : loop_target q = lit "/a" \/ loop_target q = lit "/b")
    by (unfold loop_target; destruct (strcmp_eq _ _); auto).
  assert (Habs : IS_ABSPATH q = true) by by destruct Hq as [->| ->].
  assert (Habs' : IS_ABSPATH (loop_target q) = true) by by destruct Hq' as [->| ->].
  assert (Hdir : dirname q = lit "/") by by destruct Hq as [->| ->].
  cbn [create_mirror_symlink_and_target app]. set (rec := create_mirror_symlink_and_target cf fuel) in *.
  rewrite Habs. change (IS_ABSPATH (lit "/pkg")) with true.
  do 5 wp1. apply wpM_format_abs; [done|]. rewrite Habs. do 3 wp1. apply wpM_sys; [done|intros r1 H1].
  destruct (H1 Hq) as (st & -> & Hk). rewrite Hk.
  change (bool_decide (LNK = LNK)) with true. do 2 wp1.
  unfold readlink_strdup, realpath_strdup. do 2 wp1. apply wpM_sys; [done|intros r2 H2]. rewrite (H2 Hq). do 3 wp1.
  assert (Hne : negb (bool_decide (loop_target q = [])) = true) by by destruct Hq' as [->| ->].
  rewrite Hne. do 4 wp1. rewrite Hdir. apply wpM_sys; [done|intros r3 H3]. rewrite (H3 eq_refl). do 3 wp1.
  change (IS_ABSPATH (lit "/")) with true. do 3 wp1. apply wpM_format_abs; [done|].
  wp1. apply wpM_no_dirs; [done|]. wp1. rewrite Habs'. apply wpM_loop_link; [done|].
  unfold mirror_symlink_target. rewrite Habs'. do 2 wp1. wp1.
  apply (wpM_suffix_after _ [] (loop_target q)); [done|]. wp1. apply wpM_sys; [done|intros r4 H4].
  destruct (H4 Hq') as (st' & -> & Hk'). rewrite Hk'. by apply IH.
Qed.

Lemma file_loop cf fuel :
  wpM loop_contract (create_mirror_file cf fuel (lit "/a") [] (lit "/pkg")) s (fun _ _ => False) endless.
Proof.
  unfold create_mirror_file, warn.
  change (IS_ABSPATH (lit "/a")) with true. change (IS_ABSPATH (lit "/pkg")) with true.
  do 4 wp1. wp1. apply wpM_format_abs; [done|]. wp1. apply wpM_format_abs; [done|].
  change (IS_ABSPATH ([] ++ lit "/a")) with true. change (IS_ABSPATH (lit "/pkg" ++ lit "/a")) with true.
  do 5 wp1. apply wpM_sys; [done|intros r1 H1]. destruct H1 as (st & -> & Hk); [by left|].
  rewrite Hk. change (bool_decide (LNK = LNK)) with true. do 2 wp1. apply wpM_sys; [done|intros r2 H2].
  rewrite H2 by (by left). do 3 wp1.
  assert (Hend : wpM loop_contract (create_mirror_symlink_and_target cf fuel (lit "/a") [] (lit "/pkg")) s
    (fun _ _ => False) endless) by (apply symlink_loop; by left).
  wp1; repeat (wp1; try done); rewrite Hk in *; done.
Qed.
End Loop.

(** On two links that point to each other [create_mirror_file] does not end: for
    every fuel the recursion runs out of it (in C, of stack).  The "already exists" test
    that is there to prevent infinite loops guards the directories only. *)
Theorem symlink_cycle_endless {S} `{OkapiState S} {W} (h : forall c, W -> reply c * W) (s : S) (w : W)
    (Hh : forall c w, rep loop_contract c (h c w).1)
    (Hoff : is_enabled (get_timers s) AUDIT_FILE_COPYING = false) (cf fuel : nat) :
  outcome h (create_mirror_file cf fuel (lit "/a") [] (lit "/pkg") s) w = inr (OutOfFuel "symlinks").
Proof.
  destruct (wp_run loop_contract h _ _ _ w Hh (file_loop s Hoff cf fuel)) as [_ Ho].
  destruct (outcome _ _ _) as [[]|e]; [done|by rewrite Ho].
Qed.

Definition loop_os (c : sys) (w : unit) : reply c * unit :=
  match c return reply c * unit with
  | Lstat p => (Some {| st_kind := LNK; st_mode := 511; st_mtime := 0; st_size := 2; st_uid := 0; st_gid := 0 |}, tt)
  | Readlink p => (Some (loop_target p), tt)
  | Realpath p => (Some (lit "/"), tt)
  | c => (null_reply c, tt)
  end.

Lemma symlink_cycle_endless_witness :
  outcome loop_os (create_mirror_file 9 1000 (lit "/a") [] (lit "/pkg") timers_init) tt
  = inr (OutOfFuel "symlinks").
Proof.
  apply (symlink_cycle_endless loop_os); [|reflexivity].
  intros [] []; simpl; eauto.
Defined.

(** ** Existing copies *)

(** /f was changed (time 9) after it was copied into the package (time 5). *)
Definition stale_world : world :=
  with_fs (mk_tree ["/pkg"] [("/f", N_file (lit "new") 420 9); ("/pkg/f", N_file (lit "old") 420 5)])
    empty_world.

(** An older copy is found to be out of date, and then is not refreshed: the hard
    link fails with EEXIST, which the code takes for success. *)
Theorem stale_copy_kept :
  let r := run mem_os (create_mirror_file 9 9 (lit "/f") [] (lit "/pkg") timers_init) stale_world in
  In (Link (lit "/f") (lit "/pkg/f")) (map (@projT1 _ _) r.1.1)
  /\ r.1.2 = inl (tt, timers_init)
  /\ assoc [lit "pkg"; lit "f"] (fs r.2) = Some (N_file (lit "old") 420 5).
Proof. vm_compute. tauto. Qed.

(** The chain of links of an interpreter (Fedora's java): both links and the file
    are mirrored, with the directories they are in, and the first link of the package
    leads, inside the package, to the copy. *)
Definition java_world : world :=
  with_fs (mk_tree ["/usr"; "/usr/bin"; "/etc"; "/etc/alternatives"; "/usr/lib"; "/usr/lib/jvm"; "/pkg"]
    [("/usr/bin/java", N_link (lit "/etc/alternatives/java"));
     ("/etc/alternatives/java", N_link (lit "../../usr/lib/jvm/java"));
     ("/usr/lib/jvm/java", N_file (lit "ELF") 493 1)]) empty_world.

Example java_mirrored :
  let w := final mem_os (create_mirror_file 9 9 (lit "/usr/bin/java") [] (lit "/pkg") timers_init) java_world in
  at_path (fs w) true (lit "/pkg/usr/bin/java") = Some (split_slash (lit "pkg/usr/lib/jvm/java"))
  /\ get (fs w) true (lit "/pkg/usr/bin/java") = Some (N_file (lit "ELF") 493 1).
Proof. by vm_compute. Qed.
