(* ===== verification/Trie.v ===== *)
(** * The trie of cached file names (cde.c) *)
From S2P Require Import Prelude CString.

(** [children[128]] and [elt_is_present] *)
Inductive Trie := TrieNode (children : nat -> option Trie) (elt_is_present : bool).

Definition TrieNew : Trie := TrieNode (fun _ => None) false.

(** [None]: the assertion [idx < 128] fails. *)
Fixpoint TrieInsert (t : Trie) (ascii_string : cstring) : option Trie :=
  let 'TrieNode children present := t in
  match ascii_string with
  | [] => Some (TrieNode children true)
  | c :: rest =>
    let idx := code c in
    if idx <? 128 then
      t' ← TrieInsert (default TrieNew (children idx)) rest;
      Some (TrieNode (fun i => if i =? idx then Some t' else children i) present)
    else None
  end.

(** [None]: an access out of [children]. *)
Fixpoint TrieContains (t : Trie) (ascii_string : cstring) : option bool :=
  let 'TrieNode children present := t in
  match ascii_string with
  | [] => Some present
  | c :: rest =>
    let idx := code c in
    if idx <? 128 then
      match children idx with
      | None => Some false
      | Some t' => TrieContains t' rest
      end
    else None
  end.

(** ** The trie is a set of ASCII strings *)

Definition is_ascii (s : cstring) : bool := forallb (fun c => code c <? 128) s.

Lemma code_inj c d : code c = code d -> c = d.
Proof. intros H. by rewrite <- (ascii_nat_embedding c), <- (ascii_nat_embedding d); unfold code in H; rewrite H. Qed.

Lemma TrieContains_New s : is_ascii s = true -> TrieContains TrieNew s = Some false.
Proof. destruct s as [|c s]; simpl; [done|]. intros [-> _]%andb_true_iff. done. Qed.

Lemma TrieInsert_ascii t s : is_ascii s = true -> is_Some (TrieInsert t s).
Proof.
  revert t; induction s as [|c s IH]; intros [ch p]; simpl; [eauto|].
  intros [-> Hs]%andb_true_iff. destruct (IH (default TrieNew (ch (code c))) Hs) as [t' ->]. simpl. eauto.
Qed.

Lemma TrieContains_Insert t t' s q :
  TrieInsert t s = Some t' -> is_ascii q = true ->
  TrieContains t' q = if bool_decide (q = s) then Some true else TrieContains t q.
Proof.
  revert t t' q; induction s as [|c s IH]; intros [ch p] t' q; simpl.
  { intros [= <-]. by destruct q. }
  destruct (code c <? 128) eqn:Hc; [|done].
  destruct (TrieInsert _ s) as [t1|] eqn:Ht; [|done]. intros [= <-] Hq.
  destruct q as [|d q]; [done|]. simpl in *. apply andb_true_iff in Hq as [Hd Hq].
  destruct (code d <? 128) eqn:Hd'; [|done]. destruct (Nat.eqb_spec (code d) (code c)) as [E|E].
  - apply code_inj in E as ->. rewrite (IH _ _ _ Ht Hq).
    repeat case_bool_decide; try congruence.
    destruct (ch (code c)); [done|]. by rewrite TrieContains_New.
  - rewrite bool_decide_eq_false_2 by congruence. done.
Qed.

(** The trie after the given insertions. *)
Fixpoint TrieInserts (t : Trie) (l : list cstring) : option Trie :=
  match l with
  | [] => Some t
  | s :: l' => t' ← TrieInsert t s; TrieInserts t' l'
  end.

(** C35.  The cache of file names is a set: after any insertions of ASCII names, in any
    order, all of which succeed, exactly the inserted names are contained. *)
Theorem trie_is_a_set (l : list cstring) (q : cstring)
    (Hl : Forall (fun s => is_ascii s = true) l) (Hq : is_ascii q = true) :
  exists t, TrieInserts TrieNew l = Some t /\ TrieContains t q = Some (bool_decide (q ∈ l)).
Proof.
  assert (H : forall t b, TrieContains t q = Some b ->
    exists t', TrieInserts t l = Some t' /\ TrieContains t' q = Some (b || bool_decide (q ∈ l))).
  { induction Hl as [|s l Hs Hl IH]; intros t b Hb; simpl.
    { exists t. by rewrite orb_false_r. }
    destruct (TrieInsert_ascii t s Hs) as [t1 Ht1]. rewrite Ht1. simpl.
    pose proof (TrieContains_Insert _ _ _ q Ht1 Hq) as Hc. rewrite Hb in Hc.
    destruct (IH t1 (b || bool_decide (q = s))) as (t2 & -> & Ht2).
    { rewrite Hc. case_bool_decide; [by rewrite orb_true_r|by rewrite orb_false_r]. }
    exists t2. split; [done|]. rewrite Ht2, <- orb_assoc. do 2 f_equal.
    rewrite <- bool_decide_or. apply bool_decide_ext. rewrite elem_of_cons. done. }
  destruct (H TrieNew false) as (t & Ht & Hc); [by apply TrieContains_New|]. eauto.
Qed.

Lemma trie_is_a_set_witness :
  exists t, TrieInserts TrieNew [lit "/lib/libc.so"; lit "/lib"] = Some t
  /\ TrieContains t (lit "/lib/libc.so") = Some (bool_decide (lit "/lib/libc.so" ∈ [lit "/lib/libc.so"; lit "/lib"])).
Proof. apply trie_is_a_set; [repeat constructor|reflexivity]. Defined.
