(* ===== verification/State.v ===== *)
(** * The state of the tracer

    The globals of cde.c and provenance.c, and the [struct tcb] of the process whose
    system call is being handled, as records; the instances that give the components
    below (timers, limits, mirroring) their part of it. *)
From S2P Require Import Prelude CString Os PerfTimers SysLimits OkapiMirror Trie.
From coqutil Require Export Datatypes.RecordSetters.
Export DoubleBraceUpdate.

(** The tracer's build and the traced process: a 32-bit tracer, a 64-bit one with a
    64-bit process, a 64-bit one with a 32-bit process ([IS_32BIT_EMU]). *)
Inductive abi := I386 | X86_64 | X86_64_32BIT_EMU.
#[export] Instance abi_dec : EqDecision abi.
Proof. solve_decision. Defined.

(** [personality_wordsize[current_personality]] *)
Definition personality_wordsize (a : abi) : nat := match a with X86_64 => 8 | _ => 4 end.
(** [sizeof(long)] of the tracer *)
Definition sizeof_long (a : abi) : nat := match a with I386 => 4 | _ => 8 end.

(** [struct PI] *)
Record PI := {
  process_name : cstring;
  process_ignore_prefix_paths : list cstring;
}.

(** [struct tcb]: the fields that the modelled code uses *)
Record tcb := {
  flags : Z;
  pid : Z;
  u_arg : list Z;
  u_error : Z;
  u_rval : Z;
  current_dir : option cstring;
  perceived_program_fullpath : option cstring;
  shmid : Z;
  localshm : option Z;
  childshm : Z;
  saved_regs : regs;
  savedword : Z;
  savedaddr : Z;
  setting_up_shm : bool;
  p_ignores : option PI;
  current_repo_ind : Z;
  opened_file_paths : list (option cstring);
}.

(** The flags of a tcb *)
Definition TCB_STARTUP : Z := 1.
Definition TCB_INUSE : Z := 2.
Definition TCB_INSYSCALL : Z := 4.
Definition TCB_ATTACHED : Z := 8.
Definition TCB_EXITING : Z := 16.
Definition TCB_SUSPENDED : Z := 32.
Definition TCB_BPTSET : Z := 64.
Definition TCB_SIGTRAPPED : Z := 128.
Definition TCB_FOLLOWFORK : Z := 256.
Definition TCB_REPRINT : Z := 512.
Definition TCB_CLONE_THREAD : Z := 4096.
Definition TCB_GROUP_EXITING : Z := 8192.

(** An element of the table of processes: the tcb, and the fields that only strace's own
    code uses.  A pointer to a tcb is its index in the table. *)
Record slot := {
  tcb_ : tcb;
  scno : Z;
  u_nargs : Z;
  parent_ix : option nat;
  nchildren : Z;
  waitpid : Z;
  nzombies : Z;
  nclone_threads : Z;
  nclone_waiting : Z;
  inst : Z * Z;
  ptrace_errno : Z;
}.

(** The globals of strace.c and syscall.c; [rax] is the static variable of syscall.c. *)
Record strace := {
  tcbtab : list slot;
  nprocs : Z;
  tcp_last : option nat;
  strace_child : Z;
  exit_code : Z;
  followfork : bool;
  ptrace_setoptions : Z;
  wait4_wall : bool;                (** [wait4_options & __WALL] *)
  qual_flags0 : list Z;
  qual_flags1 : list Z;
  rax : Z;
}.

(** The mode of the run and the directories, set when PTU starts *)
Record config := {
  Cde_verbose_mode : bool;
  Cde_exec_mode : bool;
  Cde_app_dir : cstring;
  cde_cderoot_dir : cstring;
  local_network_settings : bool;
  CDE_ROOT_NAME : option cstring;
  CDE_PACKAGE_DIR : option cstring;
  CDE_ROOT_DIR : option cstring;
  CDE_IMG_DIR : option cstring;
  CDE_proc_self_exe : cstring;
  CDE_block_net_access : bool;
  CDE_exec_streaming_mode : bool;
  CDE_use_linker_from_package : bool;
  cde_exec_from_outside_cderoot : bool;
  CDE_copied_files_logfile : option Z;
  cde_options_initialized : bool;
  cde_starting_pwd : cstring;
  cde_remote_root_dir : option cstring;
  cached_files_fp : option Z;
  personality : abi;
  xflag : nat;                      (** options of strace: -x *)
  max_strlen : nat;                 (** -s *)
  abbrev : bool;                    (** -e abbrev, for execve *)
}.

(** The directives of cde.options: arrays with a fixed capacity *)
Record options := {
  ignore_exact_paths : list cstring;
  ignore_prefix_paths : list cstring;
  ignore_substr_paths : list cstring;
  redirect_exact_paths : list cstring;
  redirect_prefix_paths : list cstring;
  redirect_substr_paths : list cstring;
  ignore_envvars : list (cstring * option cstring);   (** with [ignore_envvars_values] *)
  process_ignores : list PI;
  multi_repo_paths : list cstring;
}.

(** The globals of provenance.c *)
Record provenance := {
  Prov_prov_mode : bool;
  Prov_no_app_capture : bool;
  prov_logfile : option Z;
  pidlist : list Z;                 (** [pv[0 .. pc - 1]] *)
  str_buf : cstring;                (** the static buffer of [get_str_prov] *)
}.

Record state := {
  cfg : config;
  opts : options;
  prov : provenance;
  procs : strace;
  tcp_ix : nat;                     (** [tcp], as an index in [tcbtab] *)
  cur : tcb;                        (** the tcb of [tcp] while its hook runs *)
  parent : option tcb;              (** [tcp->parent] *)
  cached_files_trie : Trie;
  timers_ : timers;
  max_open_ : Z;
  heap_junk : cstring;              (** what follows a block in the tracer's memory *)
}.

#[export] Instance state_timers : HasTimers state :=
  {| get_timers := timers_; put_timers t s := s {{ timers_ := t }}; get_put_timers _ _ := eq_refl |}.

#[export] Instance state_max_open : HasMaxOpen state :=
  {| max_open := max_open_; set_max_open v s := s {{ max_open_ := v }}; max_open_set _ _ := eq_refl |}.

(** [OKAPI_VERBOSE] is set to 0 by [CDE_init] and never set again. *)
#[export] Instance state_okapi : OkapiState state :=
  {| okapi_timers := state_timers; OKAPI_VERBOSE _ := false |}.

(** A bound on the loops and recursions that need one. *)
Class Fuel := fuel : nat.

(** ** Access *)

Definition conf {A} (f : config -> A) : M state A := gets (fun s => f (cfg s)).
Definition opt {A} (f : options -> A) : M state A := gets (fun s => f (opts s)).
Definition tcp {A} (f : tcb -> A) : M state A := gets (fun s => f (cur s)).
Definition prv {A} (f : provenance -> A) : M state A := gets (fun s => f (prov s)).
Definition arg (i : nat) : M state Z := tcp (fun t => nth i (u_arg t) 0%Z).
(** A string global or field that is used as a string. *)
Definition conf_str (f : config -> option cstring) : M state cstring :=
  let* o := conf f in deref o.
Definition tcp_str (f : tcb -> option cstring) : M state cstring :=
  let* o := tcp f in deref o.

(** [if (Cde_verbose_mode) vbprintf(...)] *)
Definition vbprintf (fmt : string) (args : list parg) : M state unit :=
  let* v := conf Cde_verbose_mode in
  when v (let* _ := sysM (Eprintf fmt args) in skip).
Arguments vbprintf _%_string_scope _.
Definition eprintf (fmt : string) (args : list parg) : M state unit :=
  let* _ := sysM (Eprintf fmt args) in skip.
Arguments eprintf _%_string_scope _.

(** The state of a tracer before [main] runs, on a 64-bit machine. *)
Definition tcb0 : tcb := {|
  flags := 0; pid := 0; u_arg := repeat 0%Z 32; u_error := 0; u_rval := 0; current_dir := None;
  perceived_program_fullpath := None; shmid := 0; localshm := None; childshm := 0;
  saved_regs := fun _ => 0%Z; savedword := 0; savedaddr := 0; setting_up_shm := false;
  p_ignores := None; current_repo_ind := -1; opened_file_paths := [] |}.
Definition slot0 : slot := {|
  tcb_ := tcb0; scno := 0; u_nargs := 0; parent_ix := None; nchildren := 0; waitpid := 0; nzombies := 0;
  nclone_threads := 0; nclone_waiting := 0; inst := (0, 0)%Z; ptrace_errno := 0 |}.
Definition MAX_QUALS : nat := Z.to_nat 2048.
Definition strace0 : strace := {|
  tcbtab := []; nprocs := 0; tcp_last := None; strace_child := 0; exit_code := 0; followfork := true;
  ptrace_setoptions := 0; wait4_wall := true; qual_flags0 := repeat 0%Z MAX_QUALS; qual_flags1 := repeat 0%Z MAX_QUALS; rax := 0 |}.
Definition config0 : config := {|
  Cde_verbose_mode := false; Cde_exec_mode := false; Cde_app_dir := []; cde_cderoot_dir := [];
  local_network_settings := true; CDE_ROOT_NAME := None; CDE_PACKAGE_DIR := None;
  CDE_ROOT_DIR := None; CDE_IMG_DIR := None; CDE_proc_self_exe := []; CDE_block_net_access := false;
  CDE_exec_streaming_mode := false; CDE_use_linker_from_package := true;
  cde_exec_from_outside_cderoot := false; CDE_copied_files_logfile := None;
  cde_options_initialized := false; cde_starting_pwd := []; cde_remote_root_dir := None;
  cached_files_fp := None; personality := X86_64; xflag := 0; max_strlen := Z.to_nat 10240; abbrev := true |}.
Definition options0 : options := {|
  ignore_exact_paths := []; ignore_prefix_paths := []; ignore_substr_paths := [];
  redirect_exact_paths := []; redirect_prefix_paths := []; redirect_substr_paths := [];
  ignore_envvars := []; process_ignores := []; multi_repo_paths := [] |}.
Definition provenance0 : provenance := {|
  Prov_prov_mode := false; Prov_no_app_capture := false; prov_logfile := None; pidlist := [];
  str_buf := repeat NUL (Z.to_nat 10241) |}.
Definition state0 : state := {|
  cfg := config0; opts := options0; prov := provenance0; procs := strace0; tcp_ix := 0; cur := tcb0; parent := None;
  cached_files_trie := TrieNew; timers_ := timers_init; max_open_ := 0; heap_junk := [] |}.
