(* ===== verification/Environ.v ===== *)
(** * The environment of the audited program (cde.c)

    In exec mode the environment saved in the package, a copy of /proc/self/environ,
    replaces the tracer's own before the program is started. *)
From S2P Require Import Prelude CString Os OkapiMirror Trie State.

(** [setenv(name, value, 0)] for one variable, or what cde.options says for it. *)
Definition load_one_envvar (name val : cstring) : M state unit :=
  let* ignored := opt ignore_envvars in
  match List.find (fun e => strcmp_eq name e.1) ignored with
  | Some (_, value) =>
    match value with
    | Some v => let* _ := sysM (Setenv name v false) in skip
    | None => skip
    end ;;;
    vbprintf "ignored envvar '%s' => '%s'" [PS name; PS val]
  | None => let* _ := sysM (Setenv name val false) in skip
  end.

(** [environ_str] is the memory from the pointer on.  The loop ends at an empty string; a
    variable without a name is skipped; reading past the mapping is a fault. *)
Fixpoint environ_loop (n : nat) (environ_str : cstring) : M state unit :=
  match n with
  | O => stopM (OutOfFuel "load_environment_vars")
  | S n' =>
    match strchr environ_str NUL with
    | None => stopM Segv
    | Some 0 => skip
    | Some len =>
      let str := take len environ_str in
      match strchr str "="%char with
      | None | Some 0 => skip
      | Some sp => load_one_envvar (take sp str) (drop (sp + 1) str)
      end ;;;
      environ_loop n' (drop (len + 1) environ_str)
    end
  end.
Definition load_environment_vars_from_mem (environ_start : cstring) : M state unit :=
  environ_loop (S (length environ_start)) environ_start.

Definition full_environment_path (root : cstring) (repo_name : option cstring) : cstring :=
  root ++ lit "/../cde.full-environment." ++ default (lit "(null)") repo_name.

Definition CDE_load_environment_vars (repo_name : option cstring) : M state unit :=
  let* root := conf cde_cderoot_dir in
  let* path := strbuf MAXPATHLEN (full_environment_path root repo_name) in
  let* st := sysM (Stat path) in
  match st with
  | None => eprintf "%s" [PS path] ;;; stopM (Exit 1)
  | Some st =>
    let* fd := sysM (Open_read path) in
    let* environ_start := sysM (Mmap (default (-1)%Z fd) (st_size st)) in
    let* _ := sysM Clearenv in
    let* environ_start := deref environ_start in
    load_environment_vars_from_mem environ_start ;;;
    let* _ := sysM (Munmap (st_size st)) in
    let* _ := sysM (Close (default (-1)%Z fd)) in
    skip
  end.
