(* ===== verification/EnvironSpec.v ===== *)
(** * The environment a packaged program gets

    The saved environment, loaded, is the audited program's environment, but for the
    variables that cde.options says to ignore. *)
From stdpp Require Import gmap.
From S2P Require Import Prelude CString Os OkapiMirror Trie State Environ.

Definition env_entry : Type := cstring * cstring.
(** /proc/self/environ *)
Definition print_environ (l : list env_entry) : cstring :=
  concat (map (fun e => e.1 ++ lit "=" ++ e.2 ++ [NUL]) l).
Definition env_entry_ok (e : env_entry) : Prop := e.1 <> [] /\ ("="%char ∉ e.1) /\ (NUL ∉ e.1) /\ (NUL ∉ e.2).

(** What cde.options says about a name. *)
Definition ignored (ign : list (cstring * option cstring)) (n : cstring) : option (cstring * option cstring) :=
  List.find (fun e => strcmp_eq n e.1) ign.
(** The value of a name after the variables of [l] have been loaded in an empty environment. *)
Definition loaded (ign : list (cstring * option cstring)) (l : list env_entry) (n : cstring) : option cstring :=
  match List.find (fun e => strcmp_eq n e.1) l, ignored ign n with
  | None, _ => None
  | Some e, None => Some e.2
  | Some _, Some (_, v) => v
  end.

(** The environment of the tracer, in the world. *)
Record env_os {W} (h : forall c, W -> reply c * W) (env : W -> gmap cstring cstring) : Prop := {
  eo_clear : forall w, env (h Clearenv w).2 = ∅;
  eo_set : forall n v w, env (h (Setenv n v false) w).2 =
    match env w !! n with Some _ => env w | None => <[n:=v]> (env w) end;
  eo_close : forall fd w, env (h (Close fd) w).2 = env w;
  eo_munmap : forall n w, env (h (Munmap n) w).2 = env w;
}.

Lemma print_environ_cons x v l k :
  print_environ ((x, v) :: l) ++ k = (x ++ lit "=" ++ v) ++ NUL :: (print_environ l ++ k).
Proof. unfold print_environ. simpl. by rewrite <- !app_assoc; simpl; rewrite <- app_assoc. Qed.

Lemma strchr_entry (n v rest : cstring) : (NUL ∉ n) -> (NUL ∉ v) ->
  strchr ((n ++ lit "=" ++ v) ++ NUL :: rest) NUL = Some (length (n ++ lit "=" ++ v)).
Proof.
  intros Hn Hv. apply strchr_Some. exists (n ++ lit "=" ++ v), rest.
  split_and!; [done| |done]. simpl. set_solver.
Qed.

(** One turn of the loop. *)
Lemma environ_loop_entry x v l n k : env_entry_ok (x, v) ->
  environ_loop (S n) (print_environ ((x, v) :: l) ++ k) = (load_one_envvar x v ;;; environ_loop n (print_environ l ++ k)).
Proof.
  intros (Hne & Heq & Hx & Hv). simpl in Hne, Heq, Hx, Hv.
  cbn [environ_loop]. rewrite print_environ_cons, strchr_entry by done.
  destruct (length (x ++ lit "=" ++ v)) as [|len] eqn:El; [rewrite length_app in El; simpl in El; lia|]. rewrite <- El.
  rewrite take_app_exact. cbv zeta.
  assert (Hsp : strchr (x ++ lit "=" ++ v) "="%char = Some (length x)) by (apply strchr_Some; by exists x, v).
  rewrite Hsp. destruct (length x) as [|m] eqn:Ek; [by destruct x|]. rewrite <- Ek.
  by rewrite take_app_exact, <- !drop_drop, !drop_app_exact.
Qed.

Section Loading.
Context {W : Type} (h : forall c, W -> reply c * W) (env : W -> gmap cstring cstring) (He : env_os h env).
Context (s : state) (Hq : Cde_verbose_mode (cfg s) = false).
Let ign := ignore_envvars (opts s).

Lemma setenv_lookup n v w k :
  env (h (Setenv n v false) w).2 !! k
  = match env w !! k with Some x => Some x | None => if decide (k = n) then Some v else None end.
Proof.
  rewrite (eo_set _ _ He). destruct (env w !! n) eqn:E.
  - destruct (decide (k = n)) as [->|]; [by rewrite E|by destruct (env w !! k)].
  - destruct (decide (k = n)) as [->|Hk]; [by rewrite E, lookup_insert_eq|].
    rewrite lookup_insert_ne by done. by destruct (env w !! k).
Qed.

Lemma quiet_run fmt args w : returns h (vbprintf fmt args) s w [] tt s w.
Proof. unfold returns, vbprintf, bindM, conf, gets. simpl. by rewrite Hq. Qed.

Lemma load_one_returns n v w : exists tr w', returns h (load_one_envvar n v) s w tr tt s w'
  /\ forall k, env w' !! k = match env w !! k with Some x => Some x | None =>
       if decide (k = n) then match ignored ign n with None => Some v | Some (_, o) => o end else None end.
Proof.
  unfold load_one_envvar. destruct (ignored ign n) as [[m [x|]]|] eqn:E; unfold ignored in E.
  - eexists _, _. split.
    + eapply returns_pure_bind; [reflexivity|]. fold ign. rewrite E. eapply returns_bind; [|apply quiet_run].
      eapply (returns_sys_bind h (Setenv n x false)); [reflexivity|reflexivity|apply returns_ret].
    + intros k. apply setenv_lookup.
  - exists [], w. split.
    + eapply returns_pure_bind; [reflexivity|]. fold ign. rewrite E. eapply returns_pure_bind; [reflexivity|]. apply quiet_run.
    + intros k. destruct (env w !! k); [done|]. by destruct (decide _).
  - eexists _, _. split.
    + eapply returns_pure_bind; [reflexivity|]. fold ign. rewrite E.
      eapply (returns_sys_bind h (Setenv n v false)); [reflexivity|reflexivity|apply returns_ret].
    + intros k. apply setenv_lookup.
Qed.

Lemma environ_loop_loads l rest n w : Forall env_entry_ok l -> length l < n ->
  exists tr w', returns h (environ_loop n (print_environ l ++ NUL :: rest)) s w tr tt s w'
  /\ forall k, env w' !! k = match env w !! k with Some x => Some x | None => loaded ign l k end.
Proof.
  revert n w; induction l as [|[x v] l IH]; intros n w Hl Hn; (destruct n as [|n]; [lia|]).
  - exists [], w. split; [apply returns_ret|]. intros k. by destruct (env w !! k).
  - apply Forall_cons in Hl as [Hok Hl].
    destruct (load_one_returns x v w) as (t1 & w1 & Hr1 & H1).
    destruct (IH n w1 Hl ltac:(simpl in Hn; lia)) as (t2 & w2 & Hr2 & H2).
    exists (t1 ++ t2), w2. split.
    + unfold returns. rewrite environ_loop_entry by done. eapply returns_bind; [exact Hr1|exact Hr2].
    + intros k. rewrite H2, H1. destruct (env w !! k); [done|]. unfold loaded. simpl.
      destruct (decide (k = x)) as [->|Hk].
      * rewrite (proj2 (strcmp_eq_spec x x) eq_refl). destruct (ignored ign x) as [[? [?|]]|]; [done| |done].
        by case_match.
      * destruct (strcmp_eq k x) eqn:E; [by apply strcmp_eq_spec in E|done].
Qed.

Lemma environ_loop_faults l n w : Forall env_entry_ok l -> length l < n ->
  outcome h (environ_loop n (print_environ l) s) w = inr Segv.
Proof.
  revert n w; induction l as [|[x v] l IH]; intros n w Hl Hn; (destruct n as [|n]; [lia|]); [done|].
  apply Forall_cons in Hl as [Hok Hl].
  destruct (load_one_returns x v w) as (t1 & w1 & Hr1 & _).
  rewrite <- (app_nil_r (print_environ _)), environ_loop_entry by done. rewrite app_nil_r.
  unfold outcome, bindM. rewrite run_bind. unfold returns in Hr1. rewrite Hr1.
  specialize (IH n w1 Hl ltac:(simpl in Hn; lia)). unfold outcome in IH.
  by destruct (run h (environ_loop n (print_environ l) s) w1) as [[? ?] ?].
Qed.
End Loading.

Lemma print_environ_length l : length l <= length (print_environ l).
Proof.
  induction l as [|[x v] l IH]; [done|]. rewrite <- (app_nil_r (print_environ _)), print_environ_cons, app_nil_r.
  rewrite length_app. simpl. lia.
Qed.

(** C31.  The environment comes back.  If the file of the package holds the environment
    [l] (as /proc/self/environ shows it) and its last page is filled with zeros, then
    [CDE_load_environment_vars] returns, and afterwards the tracer's environment, which the
    program inherits, has exactly the variables of [l] with their first value, whatever it
    held before; a variable that cde.options ignores has this machine's value instead, or
    is left out if this machine has none. *)
Theorem environment_restored {W} (h : forall c, W -> reply c * W) (env : W -> gmap cstring cstring) (s : state) (w : W)
    repo fd st (l : list env_entry) rest
    (He : env_os h env) (Hq : Cde_verbose_mode (cfg s) = false) (Hl : Forall env_entry_ok l)
    (Hpath : length (full_environment_path (cde_cderoot_dir (cfg s)) repo) < MAXPATHLEN)
    (Hstat : (h (Stat (full_environment_path (cde_cderoot_dir (cfg s)) repo)) w).1 = Some st)
    (Hopen : forall w, (h (Open_read (full_environment_path (cde_cderoot_dir (cfg s)) repo)) w).1 = Some fd)
    (Hmap : forall w, (h (Mmap fd (st_size st)) w).1 = Some (print_environ l ++ NUL :: rest)) :
  exists tr w', returns h (CDE_load_environment_vars repo) s w tr tt s w'
  /\ forall n, env w' !! n = loaded (ignore_envvars (opts s)) l n.
Proof.
  set (path := full_environment_path (cde_cderoot_dir (cfg s)) repo) in *.
  set (w1 := (h (Stat path) w).2). set (w2 := (h (Open_read path) w1).2). set (w3 := (h (Mmap fd (st_size st)) w2).2).
  destruct (environ_loop_loads h env He s Hq l rest (S (length (print_environ l ++ NUL :: rest))) (h Clearenv w3).2 Hl)
    as (t & w4 & Hr & H4).
  { rewrite length_app. pose proof (print_environ_length l). lia. }
  eexists _, _. split.
  - unfold CDE_load_environment_vars. eapply returns_pure_bind; [reflexivity|].
    eapply returns_pure_bind; [unfold strbuf; fold path; by rewrite (proj2 (Nat.ltb_lt _ _) Hpath)|]. fold path.
    eapply (returns_sys_bind h (Stat path)); [exact Hstat|reflexivity|]. cbv iota. fold w1.
    eapply (returns_sys_bind h (Open_read path)); [apply Hopen|reflexivity|]. cbn [default from_option id]. fold w2.
    eapply (returns_sys_bind h (Mmap fd (st_size st))); [apply Hmap|reflexivity|]. fold w3.
    eapply (returns_sys_bind h Clearenv); [reflexivity|reflexivity|].
    eapply returns_pure_bind; [reflexivity|]. eapply returns_bind; [exact Hr|].
    eapply (returns_sys_bind h (Munmap (st_size st))); [reflexivity|reflexivity|].
    eapply (returns_sys_bind h (Close fd)); [reflexivity|reflexivity|apply returns_ret].
  - intros n. rewrite (eo_close _ _ He), (eo_munmap _ _ He), H4, (eo_clear _ _ He). by rewrite lookup_empty.
Qed.

(** The audited program had HOME and DISPLAY; DISPLAY is ignored and is :1 here. *)
Definition alice_environ : list env_entry :=
  [(lit "HOME", lit "/home/alice"); (lit "DISPLAY", lit ":0"); (lit "PS1", lit "a=b")].
Definition env_handler (c : sys) (w : gmap cstring cstring) : reply c * gmap cstring cstring :=
  match c return reply c * gmap cstring cstring with
  | Stat _ => (Some {| st_kind := REG; st_mode := 438; st_mtime := 0; st_size := 40; st_uid := 0; st_gid := 0 |}, w)
  | Open_read _ => (Some 4%Z, w)
  | Mmap _ _ => (Some (print_environ alice_environ ++ NUL :: repeat NUL 7), w)
  | Clearenv => (tt, ∅)
  | Setenv n v false => (tt, match w !! n with Some _ => w | None => <[n:=v]> w end)
  | c => (null_reply c, w)
  end.
Definition env_state : state := state0 {{ cfg -> cde_cderoot_dir := lit "/home/bob/pkg/cde-root";
  opts -> ignore_envvars := [(lit "DISPLAY", Some (lit ":1"))] }}.

Lemma environment_restored_witness :
  exists tr w', returns env_handler (CDE_load_environment_vars (Some (lit "cde-root"))) env_state {[lit "USER" := lit "bob"]} tr tt env_state w'
  /\ forall n, w' !! n = loaded [(lit "DISPLAY", Some (lit ":1"))] alice_environ n.
Proof.
  apply (environment_restored env_handler (fun w => w) env_state {[lit "USER" := lit "bob"]} (Some (lit "cde-root")) 4
    {| st_kind := REG; st_mode := 438; st_mtime := 0; st_size := 40; st_uid := 0; st_gid := 0 |} alice_environ (repeat NUL 7)).
  - by split.
  - reflexivity.
  - repeat constructor; by apply (bool_decide_eq_true_1 _).
  - apply Nat.ltb_lt. reflexivity.
  - reflexivity.
  - reflexivity.
  - reflexivity.
Defined.

Example display_replaced : map (loaded (ignore_envvars (opts env_state)) alice_environ) [lit "HOME"; lit "DISPLAY"; lit "PS1"; lit "USER"]
  = [Some (lit "/home/alice"); Some (lit ":1"); Some (lit "a=b"); None].
Proof. reflexivity. Qed.

(** A file whose size is a whole number of pages has no zero after it: the loop runs off
    the end of the mapping. *)
Lemma full_page_faults {W} (h : forall c, W -> reply c * W) (env : W -> gmap cstring cstring) (s : state) (w : W) l :
  env_os h env -> Cde_verbose_mode (cfg s) = false -> Forall env_entry_ok l ->
  outcome h (load_environment_vars_from_mem (print_environ l) s) w = inr Segv.
Proof.
  intros He Hq Hl. apply environ_loop_faults with env; try done. pose proof (print_environ_length l). lia.
Qed.
