(* ===== verification/CdeOptions.v ===== *)
(** * cde.options: the ignore and redirect directives (cde.c)

    The arrays of directives with their capacities, the parser of the file and, at the
    end, what it accepts. *)
From S2P Require Import Prelude CString Os StrUtils PerfTimers OkapiPath OkapiMirror Trie State.

Definition CDE_OPTIONS_VERSION_NUM : cstring := lit "# cde.options v1".

Section Options.
Context {Fu : Fuel}.

(** [_add_to_array_internal]: the array has 100 slots, those after the entries are NULL. *)
Definition _add_to_array_internal (my_array : list cstring) (p : cstring) (array_name : string)
  : M state (list cstring) :=
  if length my_array <? 100 then
    vbprintf "%s[%d] = '%s'" [PS (lit array_name); PZ (Z.of_nat (length my_array)); PS p] ;;;
    let my_array := my_array ++ [p] in
    (if 100 <=? length my_array then
       eprintf "Fatal error: more than 100 entries in %s" [PS (lit array_name)] ;;; stopM (Exit 1)
     else skip) ;;;
    retM my_array
  else stopM Segv.
#[global] Arguments _add_to_array_internal _ _ _%_string_scope.

Definition CDE_add_ignore_exact_path (p : cstring) : M state unit :=
  let* a := opt ignore_exact_paths in
  let* a := _add_to_array_internal a p "ignore_exact_paths" in
  modM (fun s => s {{ opts -> ignore_exact_paths := a }}).
Definition CDE_add_ignore_prefix_path (p : cstring) : M state unit :=
  let* a := opt ignore_prefix_paths in
  let* a := _add_to_array_internal a p "ignore_prefix_paths" in
  modM (fun s => s {{ opts -> ignore_prefix_paths := a }}).
Definition CDE_add_ignore_substr_path (p : cstring) : M state unit :=
  let* a := opt ignore_substr_paths in
  let* a := _add_to_array_internal a p "ignore_substr_paths" in
  modM (fun s => s {{ opts -> ignore_substr_paths := a }}).
Definition CDE_add_redirect_exact_path (p : cstring) : M state unit :=
  let* a := opt redirect_exact_paths in
  let* a := _add_to_array_internal a p "redirect_exact_paths" in
  modM (fun s => s {{ opts -> redirect_exact_paths := a }}).
Definition CDE_add_redirect_prefix_path (p : cstring) : M state unit :=
  let* a := opt redirect_prefix_paths in
  let* a := _add_to_array_internal a p "redirect_prefix_paths" in
  modM (fun s => s {{ opts -> redirect_prefix_paths := a }}).
Definition CDE_add_redirect_substr_path (p : cstring) : M state unit :=
  let* a := opt redirect_substr_paths in
  let* a := _add_to_array_internal a p "redirect_substr_paths" in
  modM (fun s => s {{ opts -> redirect_substr_paths := a }}).

(** The loop over [ignore_envvars]: the values are read again at each addition. *)
Fixpoint load_ignore_values (l : list (cstring * option cstring)) : M state (list (cstring * option cstring)) :=
  match l with
  | [] => retM []
  | (name, value) :: l' =>
    let* vp := sysM (Getenv name) in
    let value := match vp with Some v => Some v | None => value end in
    let* l' := load_ignore_values l' in
    retM ((name, value) :: l')
  end.

Definition CDE_add_ignore_envvar (p : cstring) : M state unit :=
  let* a := opt ignore_envvars in
  let* names := _add_to_array_internal (map fst a) p "ignore_envvars" in
  let* a := load_ignore_values (zip names (map snd a ++ [None])) in
  modM (fun s => s {{ opts -> ignore_envvars := a }}).

Definition CDE_add_ignore_process (p : cstring) : M state unit :=
  let* a := opt process_ignores in
  if length a <? 50 then
    let a := a ++ [{| process_name := p; process_ignore_prefix_paths := [] |}] in
    modM (fun s => s {{ opts -> process_ignores := a }}) ;;;
    when (50 <=? length a)
      (eprintf "Fatal error in cde.options: more than 50 'ignore_process' entries" [] ;;; stopM (Exit 1))
  else stopM Segv.

Definition CDE_add_multi_repo_path (p : cstring) : M state unit :=
  let* app := conf Cde_app_dir in
  let* tmp := format (app ++ slash :: p) in
  let* a := opt multi_repo_paths in
  let* a := _add_to_array_internal a tmp "multi_repo_paths" in
  modM (fun s => s {{ opts -> multi_repo_paths := a }}).

(** Case 100 of the switch: a prefix for the latest process. *)
Definition add_process_ignore_prefix (p : cstring) : M state unit :=
  let* a := opt process_ignores in
  let* cur := assert_some (last a) in
  let l := process_ignore_prefix_paths cur in
  if length l <? 20 then
    let cur := {| process_name := process_name cur; process_ignore_prefix_paths := l ++ [p] |} in
    modM (fun s => s {{ opts -> process_ignores := take (length a - 1) a ++ [cur] }}) ;;;
    when (20 <=? length (l ++ [p]))
      (eprintf "Fatal error in cde.options: more than 20 'process_ignore_prefix' entries" [] ;;;
       stopM (Exit 1))
  else stopM Segv.

(** The directive names with their [set_id]. *)
Definition directives : list (cstring * Z) :=
  [(lit "ignore_exact", 1%Z); (lit "ignore_prefix", 2%Z); (lit "ignore_environment_var", 3%Z);
   (lit "redirect_exact", 4%Z); (lit "redirect_prefix", 5%Z); (lit "ignore_substr", 6%Z);
   (lit "redirect_substr", 7%Z); (lit "ignore_process", 8%Z); (lit "multi_repo_path", 9%Z);
   (lit "process_ignore_prefix", 100%Z)].

Fixpoint set_id_of (p : cstring) (l : list (cstring * Z)) : option Z :=
  match l with
  | [] => None
  | (name, id) :: l' => if strcmp_eq p name then Some id else set_id_of p l'
  end.

Definition first_token (in_braces : bool) (p : cstring) : M state Z :=
  let* set_id :=
    match set_id_of p directives with
    | Some id =>
      if (id =? 100)%Z && negb in_braces then
        eprintf "Fatal error in cde.options: 'process_ignore_prefix' must be enclosed in { } after an 'ignore_process' directive" [] ;;;
        stopM (Exit 1)
      else retM id
    | None =>
      eprintf "Fatal error in cde.options: unrecognized token '%s'" [PS p] ;;; stopM (Exit 1)
    end in
  (if in_braces && negb (set_id =? 100)%Z then
     eprintf "Fatal error in cde.options: Only 'process_ignore_prefix' is allowed within { } after an 'ignore_process' directive" [] ;;;
     stopM (Exit 1)
   else skip) ;;;
  retM set_id.

Definition second_token (set_id : Z) (p : cstring) : M state unit :=
  match set_id with
  | 1 => CDE_add_ignore_exact_path p
  | 2 => CDE_add_ignore_prefix_path p
  | 3 => CDE_add_ignore_envvar p
  | 4 => CDE_add_redirect_exact_path p
  | 5 => CDE_add_redirect_prefix_path p
  | 6 => CDE_add_ignore_substr_path p
  | 7 => CDE_add_redirect_substr_path p
  | 8 => CDE_add_ignore_process p
  | 9 => CDE_add_multi_repo_path p
  | 100 => add_process_ignore_prefix p
  | _ => stopM AssertFailed
  end%Z.

(** [for (p = strtok(line, "="); p; p = strtok(NULL, "="))]: the second token ends it. *)
Definition option_tokens (in_braces : bool) (line : cstring) : M state unit :=
  match strtok "="%char line with
  | [] => skip
  | p :: rest =>
    let* set_id := first_token in_braces p in
    match rest with
    | [] => skip
    | p2 :: _ => second_token set_id p2
    end
  end.

(** The newline cut, leading spaces skipped, trailing ones cut. *)
Definition strip_line (line : cstring) : cstring :=
  str_rstrip (drop_while isspace (take (length line - 1) line)).

(** The body of the loop for a stripped line after the first; the new [in_braces]. *)
Definition option_line (in_braces : bool) (line : cstring) : M state bool :=
  match line with
  | [] => retM in_braces
  | c :: _ =>
    if bool_decide (c = "#"%char) then retM in_braces
    else if bool_decide (c = "{"%char) then
      let* a := opt process_ignores in
      assertM (0 <? length a) ;;; retM true
    else if bool_decide (c = "}"%char) then retM false
    else option_tokens in_braces line ;;; retM in_braces
  end.

Fixpoint options_loop (n : nat) (f : Z) (is_first_line in_braces : bool) : M state unit :=
  match n with
  | O => stopM (OutOfFuel "options")
  | S n' =>
    let* r := sysM (Getline f) in
    match r with
    | None => skip
    | Some line =>
      assertM (bool_decide (last line = Some newline)) ;;;
      let line := strip_line line in
      if is_first_line then
        if strncmp_eq line CDE_OPTIONS_VERSION_NUM (length CDE_OPTIONS_VERSION_NUM)
        then options_loop n' f false in_braces
        else
          eprintf "Error: cde.options file incompatible with this version of cde ('%s')"
                  [PS CDE_OPTIONS_VERSION_NUM] ;;;
          stopM (Exit 1)
      else
        let* in_braces := option_line in_braces line in
        options_loop n' f false in_braces
    end
  end.

(** Opening the file: in the package, or in the current directory, from where it is
    moved into the package. *)
Definition open_options : M state Z :=
  let* e := conf Cde_exec_mode in
  if e then
    let* root := conf cde_cderoot_dir in
    assertM (negb (bool_decide (root = []))) ;;;
    let* options_file := format (root ++ lit "/../cde.options") in
    let* f := sysM (Fopen options_file F_read) in
    match f with
    | Some f => retM f
    | None =>
      eprintf "Fatal error: missing cde.options file" [] ;;;
      eprintf "(trying to locate file at %s)" [PS options_file] ;;;
      stopM (Exit 1)
    end
  else
    let* f := sysM (Fopen (lit "cde.options") F_read) in
    match f with
    | Some f =>
      let* pkg := conf_str CDE_PACKAGE_DIR in
      let* fn := format (pkg ++ lit "/cde.options") in
      okapi_copy_file fuel (lit "cde.options") fn 438 ;;;
      let* _ := sysM (Unlink (lit "cde.options")) in
      retM f
    | None => eprintf "Fatal error: missing cde.options file" [] ;;; stopM (Exit 1)
    end.

Definition CDE_init_options : M state unit :=
  let* f := open_options in
  options_loop fuel f true false ;;;
  let* _ := sysM (Fclose f) in
  modM (fun s => s {{ cfg -> cde_options_initialized := true }}).
End Options.
