(* ===== verification/CdeOptionsSpec.v ===== *)
(** * What cde.options accepts

    The parser reads back every list of directives written in the documented grammar, up
    to the capacities of the arrays; the cde.options file that PTU writes by default is
    not in that grammar. *)
From S2P Require Import Prelude CString Os StrUtils PerfTimers OkapiPath OkapiMirror Trie State CdeOptions.

(** ** The documented grammar *)

Inductive path_kind := IgnoreExact | IgnorePrefix | IgnoreSubstr | RedirectExact | RedirectPrefix
  | RedirectSubstr | MultiRepo.
Inductive directive :=
| Path (k : path_kind) (v : cstring)
| IgnoreEnvvar (name : cstring)
| IgnoreProcess (name : cstring) (prefixes : list cstring).

Definition keyword (k : path_kind) : cstring :=
  match k with
  | IgnoreExact => lit "ignore_exact" | IgnorePrefix => lit "ignore_prefix"
  | IgnoreSubstr => lit "ignore_substr" | RedirectExact => lit "redirect_exact"
  | RedirectPrefix => lit "redirect_prefix" | RedirectSubstr => lit "redirect_substr"
  | MultiRepo => lit "multi_repo_path"
  end.

Definition assign (name v : cstring) : cstring := name ++ "="%char :: v.
Definition text (d : directive) : list cstring :=
  match d with
  | Path k v => [assign (keyword k) v]
  | IgnoreEnvvar v => [assign (lit "ignore_environment_var") v]
  | IgnoreProcess name prefixes =>
    assign (lit "ignore_process") name :: lit "{" ::
      (assign (lit "process_ignore_prefix") <$> prefixes) ++ [lit "}"]
  end.
Definition with_newline (l : cstring) : cstring := l ++ [newline].

(** A value: not empty, without "=", and without white space at its ends. *)
Record value (v : cstring) : Prop := {
  value_eq : "="%char ∉ v;
  value_head : exists c v', v = c :: v';
  value_last : exists v' c, v = v' ++ [c] /\ isspace c = false;
}.
Definition values (d : directive) : Prop :=
  match d with
  | Path _ v | IgnoreEnvvar v => value v
  | IgnoreProcess name prefixes => value name /\ Forall value prefixes
  end.

(** ** What a directive means *)

Section Meaning.
Context (app_dir : cstring) (getenv : cstring -> option cstring).

Definition refresh (e : cstring * option cstring) : cstring * option cstring :=
  (e.1, match getenv e.1 with Some v => Some v | None => e.2 end).

Definition apply_directive (o : options) (d : directive) : options :=
  match d with
  | Path IgnoreExact v => o {{ ignore_exact_paths ::= fun l => l ++ [v] }}
  | Path IgnorePrefix v => o {{ ignore_prefix_paths ::= fun l => l ++ [v] }}
  | Path IgnoreSubstr v => o {{ ignore_substr_paths ::= fun l => l ++ [v] }}
  | Path RedirectExact v => o {{ redirect_exact_paths ::= fun l => l ++ [v] }}
  | Path RedirectPrefix v => o {{ redirect_prefix_paths ::= fun l => l ++ [v] }}
  | Path RedirectSubstr v => o {{ redirect_substr_paths ::= fun l => l ++ [v] }}
  | Path MultiRepo v => o {{ multi_repo_paths ::= fun l => l ++ [app_dir ++ slash :: v] }}
  | IgnoreEnvvar v => o {{ ignore_envvars ::= fun l => refresh <$> (l ++ [(v, None)]) }}
  | IgnoreProcess name prefixes =>
    o {{ process_ignores ::= fun l =>
           l ++ [{| process_name := name; process_ignore_prefix_paths := prefixes |}] }}
  end.

(** The capacities: the code stops when an array gets its last entry. *)
Record fits (o : options) : Prop := {
  fit1 : length (ignore_exact_paths o) < 100; fit2 : length (ignore_prefix_paths o) < 100;
  fit3 : length (ignore_substr_paths o) < 100; fit4 : length (redirect_exact_paths o) < 100;
  fit5 : length (redirect_prefix_paths o) < 100; fit6 : length (redirect_substr_paths o) < 100;
  fit7 : length (multi_repo_paths o) < 100; fit8 : length (ignore_envvars o) < 100;
  fit9 : length (process_ignores o) < 50;
}.
Definition small (d : directive) : Prop :=
  match d with IgnoreProcess _ prefixes => length prefixes < 20 | _ => True end.

(** Every array fits after every directive. *)
Fixpoint all_fit (o : options) (ds : list directive) : Prop :=
  match ds with
  | [] => True
  | d :: ds' => small d /\ fits (apply_directive o d) /\ all_fit (apply_directive o d) ds'
  end.
End Meaning.

(** ** Lines *)

Lemma strip_line_value l c :
  (exists x l', l ++ [c] = x :: l' /\ isspace x = false) -> isspace c = false ->
  strip_line (with_newline (l ++ [c])) = l ++ [c].
Proof.
  intros (x & l' & E & Hx) Hc. unfold strip_line, with_newline.
  rewrite length_app. simpl. rewrite Nat.add_sub, take_app_exact.
  rewrite drop_while_none; [|intros y; rewrite E; simpl; congruence].
  by rewrite str_rstrip_snoc, Hc.
Qed.

Lemma strtok_assign name v :
  "="%char ∉ name -> name <> [] -> value v -> strtok "="%char (assign name v) = [name; v].
Proof.
  intros Hn Hne [Hv (c & v' & ->) _]. unfold strtok, assign.
  rewrite strtok_aux_cut by done. by rewrite strtok_aux_free.
Qed.

Lemma strip_assign name v :
  (exists x l, name = x :: l /\ isspace x = false) -> value v ->
  strip_line (with_newline (assign name v)) = assign name v.
Proof.
  intros (x & l & -> & Hx) [_ _ (v' & c & -> & Hc)].
  assert (E : assign (x :: l) (v' ++ [c]) = ((x :: l) ++ "="%char :: v') ++ [c])
    by (unfold assign; by rewrite <- app_assoc).
  rewrite E. apply strip_line_value; [|done]. simpl. eauto.
Qed.

(** ** The parser on a system that serves the lines of the file *)

Section Parse.
Context {Fu : Fuel} {W : Type} (h : forall c, W -> reply c * W).
Context (f : Z) (left : W -> list cstring) (getenv : cstring -> option cstring) (app_dir : cstring).

(** Reading [f] takes the next line; the other calls of the parser leave the file alone. *)
Record serves : Prop := {
  sv_line : forall w, (h (Getline f) w).1 = head (left w)
    /\ left (h (Getline f) w).2 = tail (left w);
  sv_env : forall n w, (h (Getenv n) w).1 = getenv n /\ left (h (Getenv n) w).2 = left w;
  sv_print : forall fmt args w, left (h (Eprintf fmt args) w).2 = left w;
}.
Context (Hs : serves).

Let R (w w' : W) : Prop := left w' = left w.
#[local] Instance R_refl : Reflexive R.
Proof. by intros w. Qed.
#[local] Instance R_trans : Transitive R.
Proof. intros w1 w2 w3 H1 H2. unfold R in *. congruence. Qed.

Lemma runs_vbprintf fmt args s : runs h R (vbprintf fmt args) s tt s.
Proof.
  unfold vbprintf, conf. eapply (runs_pure_bind h R); [done|].
  destruct (Cde_verbose_mode (cfg s)); simpl; [|by apply (runs_pure h R)].
  apply (runs_ignore_bind h R); [apply (sv_print Hs)|]. intros r. by apply (runs_pure h R).
Qed.

Lemma runs_add a p name s :
  length a + 1 < 100 -> runs h R (_add_to_array_internal a p name) s (a ++ [p]) s.
Proof.
  intros Ha. unfold _add_to_array_internal.
  rewrite (proj2 (Nat.ltb_lt (length a) 100)) by lia.
  eapply (runs_bind h R); [apply runs_vbprintf|].
  rewrite (proj2 (Nat.leb_gt 100 (length (a ++ [p])))) by (rewrite length_app; simpl; lia).
  by apply (runs_pure h R).
Qed.

Lemma runs_load_values l s :
  runs h R (load_ignore_values l) s (refresh getenv <$> l) s.
Proof.
  induction l as [|[n v] l IH]; simpl; [by apply (runs_pure h R)|].
  eapply (runs_sys_bind h R); [apply (sv_env Hs)|].
  eapply (runs_bind h R); [exact IH|]. by apply (runs_pure h R).
Qed.

Definition set_id (k : path_kind) : Z :=
  match k with
  | IgnoreExact => 1 | IgnorePrefix => 2 | RedirectExact => 4 | RedirectPrefix => 5
  | IgnoreSubstr => 6 | RedirectSubstr => 7 | MultiRepo => 9
  end.

Lemma runs_path k v s :
  Cde_app_dir (cfg s) = app_dir -> fits (apply_directive app_dir getenv (opts s) (Path k v)) ->
  runs h R (second_token (set_id k) v) s tt
    (s {{ opts ::= fun o => apply_directive app_dir getenv o (Path k v) }}).
Proof.
  destruct s as [cf [] pv ps ix cu pa tr ti mo hj]. set (s := Build_state _ _ _ _ _ _ _ _ _ _ _).
  intros <- [F1 F2 F3 F4 F5 F6 F7 _ _].
  assert (Hf : forall a : cstring, format (a ++ slash :: v) s = Ret (a ++ slash :: v, s)) by by intros [].
  destruct k; cbn in F1, F2, F3, F4, F5, F6, F7; 
    repeat match goal with H : context [length (_ ++ _)] |- _ => rewrite length_app in H; cbn in H end.
  7: eapply (runs_pure_bind h R); [done|]; eapply (runs_pure_bind h R); [apply Hf|].
  all: eapply (runs_pure_bind h R); [done|];
    eapply (runs_bind h R); [apply runs_add; cbn; lia|]; by apply (runs_pure h R).
Qed.

Lemma runs_option_tokens (b : bool) name id v s s' :
  "="%char ∉ name -> name <> [] -> value v -> set_id_of name directives = Some id ->
  (if b then id = 100%Z else id <> 100%Z) ->
  runs h R (second_token id v) s tt s' -> runs h R (option_tokens b (assign name v)) s tt s'.
Proof.
  intros Hn Hne Hv Hid Hb Hr. unfold option_tokens. rewrite strtok_assign by done.
  eapply (runs_pure_bind h R); [|exact Hr].
  unfold first_token. rewrite Hid. destruct b; [by subst|].
  by rewrite (proj2 (Z.eqb_neq id 100)).
Qed.

(** From [w], reading [k] lines takes the loop to [b'], [s1] with [rest] to read. *)
Definition reads (k : nat) (b : bool) (s : state) (w : W) (b' : bool) (s1 : state) (rest : list cstring) : Prop :=
  exists tr w1, left w1 = rest /\
  forall n sn wn tr2, returns h (options_loop n f false b') s1 w1 tr2 tt sn wn ->
    returns h (options_loop (k + n) f false b) s w (tr ++ tr2) tt sn wn.

Lemma reads_trans k1 k2 b s w b1 s1 rest1 b2 s2 rest2 :
  reads k1 b s w b1 s1 rest1 ->
  (forall w1, left w1 = rest1 -> reads k2 b1 s1 w1 b2 s2 rest2) -> reads (k1 + k2) b s w b2 s2 rest2.
Proof.
  intros (t1 & w1 & Hw1 & H1) H2. destruct (H2 w1 Hw1) as (t2 & w2 & Hw2 & H3).
  exists (t1 ++ t2), w2. split; [done|]. intros n sn wn tr Hr.
  rewrite <- Nat.add_assoc, <- app_assoc. by apply H1, H3.
Qed.

Lemma reads_line b b' l rest s s1 w :
  left w = with_newline l :: rest ->
  runs h R (option_line b (strip_line (with_newline l))) s b' s1 ->
  reads 1 b s w b' s1 rest.
Proof.
  intros Hw Hrun. destruct (sv_line Hs w) as [Hr Hl]. rewrite Hw in Hr, Hl. simpl in Hr, Hl.
  set (w0 := (h (Getline f) w).2) in *. destruct (Hrun w0) as (t1 & w1 & Hret & HR).
  exists (existT (Getline f) (Some (with_newline l)) :: t1), w1. split; [by rewrite HR|].
  intros n sn wn tr2 Hn. cbn [Nat.add options_loop].
  eapply returns_sys_bind; [exact Hr|reflexivity|]. cbv iota.
  assert (E : bool_decide (last (with_newline l) = Some newline) = true)
    by (apply bool_decide_eq_true_2; apply last_snoc).
  rewrite E. eapply returns_pure_bind; [done|]. cbv zeta. eapply returns_bind; [exact Hret|exact Hn].
Qed.

Lemma option_line_assign b name v s s' :
  (exists x l, name = x :: l /\ isspace x = false /\ x ∉ lit "#{}") -> value v ->
  runs h R (option_tokens b (assign name v)) s tt s' ->
  runs h R (option_line b (strip_line (with_newline (assign name v)))) s b s'.
Proof.
  intros (x & l & -> & Hx & Hn) Hv Hr. rewrite strip_assign by eauto.
  unfold lit in Hn. simpl in Hn. rewrite !not_elem_of_cons in Hn. destruct Hn as (H1 & H2 & H3 & _).
  unfold option_line. unfold assign at 1. simpl app. cbv iota.
  rewrite !bool_decide_eq_false_2 by done.
  eapply (runs_bind h R); [exact Hr|]. by apply (runs_pure h R).
Qed.

Lemma reads_assign (b : bool) name id v rest s s' w :
  (exists x l, name = x :: l /\ isspace x = false /\ x ∉ lit "#{}") ->
  "="%char ∉ name -> value v -> set_id_of name directives = Some id ->
  (if b then id = 100%Z else id <> 100%Z) ->
  left w = with_newline (assign name v) :: rest ->
  runs h R (second_token id v) s tt s' -> reads 1 b s w b s' rest.
Proof.
  intros Hx Hn Hv Hid Hb Hw Hr. eapply reads_line; [exact Hw|].
  apply option_line_assign; [done|done|]. eapply runs_option_tokens; try done.
  by destruct Hx as (? & ? & -> & _).
Qed.

(** The lines of one process: its name is there, the prefixes follow one by one. *)
Definition with_process (l : list PI) (name : cstring) (ps : list cstring) (s : state) : state :=
  s {{ opts -> process_ignores := l ++ [{| process_name := name; process_ignore_prefix_paths := ps |}] }}.

Lemma runs_prefix l name ps v s :
  length ps + 1 < 20 ->
  runs h R (second_token 100 v) (with_process l name ps s) tt (with_process l name (ps ++ [v]) s).
Proof.
  intros Hps. unfold second_token, add_process_ignore_prefix.
  eapply (runs_pure_bind h R); [done|].
  assert (Ep : process_ignores (opts (with_process l name ps s))
    = l ++ [{| process_name := name; process_ignore_prefix_paths := ps |}]) by by destruct s as [? [] ? ? ? ? ? ? ?].
  rewrite Ep, last_snoc. eapply (runs_pure_bind h R); [done|]. cbv zeta. cbn [process_ignore_prefix_paths process_name].
  rewrite (proj2 (Nat.ltb_lt (length ps) 20)) by lia.
  eapply (runs_pure_bind h R); [done|].
  rewrite (proj2 (Nat.leb_gt 20 (length (ps ++ [v])))) by (rewrite length_app; simpl; lia).
  rewrite length_app, Nat.add_sub, take_app_exact.
  apply (runs_pure h R). by destruct s as [? [] ? ? ? ? ? ? ?].
Qed.

Lemma reads_prefixes l name ps vs rest s w :
  Forall value vs -> length (ps ++ vs) < 20 ->
  left w = map with_newline (assign (lit "process_ignore_prefix") <$> vs) ++ rest ->
  reads (length vs) true (with_process l name ps s) w true (with_process l name (ps ++ vs) s) rest.
Proof.
  intros Hvs; revert ps w; induction Hvs as [|v vs Hv Hvs IH]; intros ps w Hlen Hw.
  { rewrite app_nil_r. exists [], w. split; [done|]. intros n sn wn tr2 Hr. exact Hr. }
  rewrite length_app in Hlen. simpl in Hlen, Hw.
  apply (reads_trans 1 (length vs)) with (b1 := true) (s1 := with_process l name (ps ++ [v]) s)
    (rest1 := map with_newline (assign (lit "process_ignore_prefix") <$> vs) ++ rest).
  - apply (reads_assign true (lit "process_ignore_prefix") 100 v); [|vm_compute; set_solver|done|done|done|done|apply runs_prefix; lia].
    eexists _, _. split; [reflexivity|]. split; [done|]. vm_compute. set_solver.
  - intros w1 Hw1. replace (ps ++ v :: vs) with ((ps ++ [v]) ++ vs) by by rewrite <- app_assoc.
    apply IH; [|done]. rewrite !length_app. simpl. lia.
Qed.
Lemma runs_envvar v s :
  length (ignore_envvars (opts s)) + 1 < 100 ->
  runs h R (second_token 3 v) s tt (s {{ opts ::= fun o => apply_directive app_dir getenv o (IgnoreEnvvar v) }}).
Proof.
  intros Hlen. unfold second_token, CDE_add_ignore_envvar.
  eapply (runs_pure_bind h R); [done|].
  eapply (runs_bind h R); [apply runs_add; by rewrite length_map|].
  assert (E : zip (map fst (ignore_envvars (opts s)) ++ [v]) (map snd (ignore_envvars (opts s)) ++ [None])
    = ignore_envvars (opts s) ++ [(v, None)]).
  { generalize (ignore_envvars (opts s)) as l. induction l as [|[x y] l IH]; [done|]. simpl. by rewrite IH. }
  rewrite E. eapply (runs_bind h R); [apply runs_load_values|]. apply (runs_pure h R).
  by destruct s as [? [] ? ? ? ? ? ? ?].
Qed.

Lemma runs_process v s :
  length (process_ignores (opts s)) + 1 < 50 ->
  runs h R (second_token 8 v) s tt (with_process (process_ignores (opts s)) v [] s).
Proof.
  intros Hlen. unfold second_token, CDE_add_ignore_process.
  eapply (runs_pure_bind h R); [done|].
  rewrite (proj2 (Nat.ltb_lt (length (process_ignores (opts s))) 50)) by lia. cbv zeta.
  eapply (runs_pure_bind h R); [done|].
  rewrite (proj2 (Nat.leb_gt 50 _)) by (rewrite length_app; simpl; lia).
  by apply (runs_pure h R).
Qed.

Ltac keyword_start := eexists _, _; split; [reflexivity|]; split; [done|]; vm_compute; set_solver.

Lemma reads_brace b' c rest s w :
  (c = "{"%char /\ b' = true /\ 0 < length (process_ignores (opts s)) \/ c = "}"%char /\ b' = false) ->
  left w = with_newline [c] :: rest -> reads 1 (negb b') s w b' s rest.
Proof.
  intros H Hw. eapply reads_line; [exact Hw|]. destruct H as [(-> & -> & H)|(-> & ->)].
  - change (strip_line (with_newline ["{"%char])) with ["{"%char]. unfold option_line.
    rewrite bool_decide_eq_false_2, bool_decide_eq_true_2 by done.
    eapply (runs_pure_bind h R); [done|]. rewrite (proj2 (Nat.ltb_lt 0 _)) by done.
    eapply (runs_pure_bind h R); [done|]. by apply (runs_pure h R).
  - by apply (runs_pure h R).
Qed.

Lemma reads_directive d rest s w :
  values d -> small d -> Cde_app_dir (cfg s) = app_dir ->
  fits (apply_directive app_dir getenv (opts s) d) ->
  left w = map with_newline (text d) ++ rest ->
  reads (length (text d)) false s w false (s {{ opts ::= fun o => apply_directive app_dir getenv o d }}) rest.
Proof.
  intros Hv Hsm Ha Hf Hw. destruct d as [k v|v|name ps]; simpl in Hv, Hsm, Hw.
  - apply (reads_assign false (keyword k) (set_id k) v rest); [|by destruct k; vm_compute; set_solver|done|by destruct k|by destruct k|done|by apply runs_path].
    destruct k; keyword_start.
  - apply (reads_assign false (lit "ignore_environment_var") 3 v rest); [keyword_start|vm_compute; set_solver|done|done|done|done|].
    apply runs_envvar. destruct Hf as [_ _ _ _ _ _ _ H _], s as [? [] ? ? ? ? ? ? ?]; cbn in *.
    rewrite length_fmap, length_app in H. done.
  - set (l := process_ignores (opts s)).
    assert (Hl : length l + 1 < 50).
    { destruct Hf as [_ _ _ _ _ _ _ _ H]. unfold l. destruct s as [? [] ? ? ? ? ? ? ?]; cbn in *.
      by rewrite length_app in H. }
    destruct Hv as [Hname Hps]. rewrite map_app in Hw. simpl in Hw.
    replace (length (text (IgnoreProcess name ps))) with (1 + (1 + (length ps + 1)))
      by (simpl; rewrite length_app, length_fmap; done).
    eapply reads_trans.
    { apply (reads_assign false (lit "ignore_process") 8 name); [keyword_start|vm_compute; set_solver|done|done|done|exact Hw|by apply runs_process]. }
    intros w1 Hw1. eapply reads_trans.
    { eapply (reads_brace true); [left; split; [done|]; split; [done|]|exact Hw1].
      destruct s as [? [] ? ? ? ? ? ? ?]; cbn. rewrite length_app. simpl. lia. }
    intros w2 Hw2. rewrite <- app_assoc in Hw2. eapply reads_trans.
    { apply (reads_prefixes _ _ [] ps); [done|done|exact Hw2]. }
    intros w3 Hw3. destruct s as [? [] ? ? ? ? ? ? ?].
    eapply (reads_brace false); [by right|exact Hw3].
Qed.
Lemma returns_directives ds n s w :
  Forall values ds -> Cde_app_dir (cfg s) = app_dir -> all_fit app_dir getenv (opts s) ds ->
  left w = map with_newline (flat_map text ds) -> length (flat_map text ds) < n ->
  exists tr w', returns h (options_loop n f false false) s w tr tt
    (s {{ opts ::= fun o => foldl (apply_directive app_dir getenv) o ds }}) w'.
Proof.
  intros Hv; revert n s w; induction Hv as [|d ds Hd Hv IH]; intros n s w Ha Hf Hw Hn; simpl in Hf, Hw, Hn.
  - destruct n as [|n]; [lia|]. destruct (sv_line Hs w) as [Hr _]. rewrite Hw in Hr.
    eexists _, _. cbn [options_loop]. eapply returns_sys_bind; [exact Hr|reflexivity|].
    destruct s. apply returns_ret.
  - destruct Hf as (Hsm & Hf & Hfs). rewrite map_app in Hw. rewrite length_app in Hn.
    destruct (reads_directive d _ s w Hd Hsm Ha Hf Hw) as (t1 & w1 & Hw1 & H1).
    destruct (IH (n - length (text d)) (s {{ opts ::= fun o => apply_directive app_dir getenv o d }}) w1)
      as (t2 & w2 & H2); [by destruct s..|done|lia|].
    apply H1 in H2. replace (length (text d) + (n - length (text d))) with n in H2 by lia.
    exists (t1 ++ t2), w2. by destruct s.
Qed.
End Parse.

(** C20.  The round trip of cde.options.  A file with the version line and then the text
    of any directives, in the documented grammar, is read, in exec mode, as exactly the
    meaning of these directives in their order, provided no array gets as long as its
    capacity: at most 99 entries, 49 processes, 19 prefixes per process. *)
Theorem options_roundtrip {Fu : Fuel} {W} (h : forall c, W -> reply c * W) (f : Z)
    (left : W -> list cstring) (getenv : cstring -> option cstring)
    (ds : list directive) (s : state) (w : W) (root : cstring)
    (Hs : serves h f left getenv) (Hex : Cde_exec_mode (cfg s) = true)
    (Hroot : cde_cderoot_dir (cfg s) = root) (Hne : root <> [])
    (Hopen : (h (Fopen (root ++ lit "/../cde.options") F_read) w).1 = Some f)
    (Hfile : left (h (Fopen (root ++ lit "/../cde.options") F_read) w).2 =
      map with_newline (CDE_OPTIONS_VERSION_NUM :: flat_map text ds))
    (Hv : Forall values ds) (Hfit : all_fit (Cde_app_dir (cfg s)) getenv (opts s) ds)
    (Hfuel : length (flat_map text ds) + 1 < fuel) :
  exists tr w', returns h CDE_init_options s w tr tt
    (s {{ opts ::= fun o => foldl (apply_directive (Cde_app_dir (cfg s)) getenv) o ds }}
       {{ cfg -> cde_options_initialized := true }}) w'.
Proof.
  set (w0 := (h (Fopen (root ++ lit "/../cde.options") F_read) w).2) in *.
  destruct (sv_line _ _ _ _ Hs w0) as [Hr Hl]. rewrite Hfile in Hr, Hl. simpl in Hr, Hl.
  destruct fuel as [|n] eqn:En; [lia|].
  destruct (returns_directives h f left getenv (Cde_app_dir (cfg s)) Hs ds n s
    (h (Getline f) w0).2) as (tr & w' & Hret); [done|done|done|done|lia|].
  eexists _, _. unfold CDE_init_options. eapply returns_bind.
  { unfold open_options. eapply returns_pure_bind; [done|]. rewrite Hex.
    eapply returns_pure_bind; [done|]. rewrite Hroot, bool_decide_eq_false_2 by done.
    eapply returns_pure_bind; [done|].
    eapply returns_pure_bind; [by destruct root|].
    eapply returns_sys_bind; [exact Hopen|reflexivity|]. apply returns_ret. }
  fold w0. eapply returns_bind.
  { rewrite En. cbn [options_loop]. eapply returns_sys_bind; [exact Hr|reflexivity|]. cbv iota.
    change (bool_decide (last (with_newline CDE_OPTIONS_VERSION_NUM) = Some newline)) with true.
    eapply returns_pure_bind; [done|]. cbv zeta.
    change (strip_line (with_newline CDE_OPTIONS_VERSION_NUM)) with CDE_OPTIONS_VERSION_NUM.
    change (strncmp_eq CDE_OPTIONS_VERSION_NUM CDE_OPTIONS_VERSION_NUM (length CDE_OPTIONS_VERSION_NUM)) with true.
    cbv iota. exact Hret. }
  eapply returns_sys_bind; [reflexivity|reflexivity|]. done.
Qed.

(** A file with a path, a variable and a process with two prefixes; the world is what is
    left to read. *)
Definition sample_directives : list directive :=
  [Path IgnorePrefix (lit "/proc"); IgnoreEnvvar (lit "DISPLAY");
   IgnoreProcess (lit "/usr/bin/ssh") [lit "/home"; lit "/etc"]; Path RedirectExact (lit "/dev/x")].
Definition sample_os (c : sys) (w : list cstring) : reply c * list cstring :=
  match c return reply c * list cstring with
  | Fopen _ _ => (Some 3%Z, map with_newline (CDE_OPTIONS_VERSION_NUM :: flat_map text sample_directives))
  | Getline _ => (head w, tail w)
  | Getenv n => (if strcmp_eq n (lit "DISPLAY") then Some (lit ":0") else None, w)
  | c => (null_reply c, w)
  end.
Definition exec_state0 : state :=
  state0 {{ cfg -> Cde_exec_mode := true; cfg -> cde_cderoot_dir := lit "/home/bob/pkg/cde-root";
            cfg -> Cde_app_dir := lit "/home/bob/pkg" }}.

Lemma options_roundtrip_witness :
  exists tr w', returns sample_os (@CDE_init_options 20) exec_state0 [] tr tt
    (exec_state0 {{ opts := {|
         ignore_exact_paths := []; ignore_prefix_paths := [lit "/proc"]; ignore_substr_paths := [];
         redirect_exact_paths := [lit "/dev/x"]; redirect_prefix_paths := []; redirect_substr_paths := [];
         ignore_envvars := [(lit "DISPLAY", Some (lit ":0"))];
         process_ignores := [{| process_name := lit "/usr/bin/ssh";
                                process_ignore_prefix_paths := [lit "/home"; lit "/etc"] |}];
         multi_repo_paths := [] |} }}
       {{ cfg -> cde_options_initialized := true }}) w'.
Proof.
  assert (Hval : forall v, bool_decide ("="%char ∉ v) = true ->
    match v with [] => false | _ => negb (isspace (default " "%char (last v))) end = true -> value v).
  { intros v H1%bool_decide_eq_true H2. destruct v as [|c v]; [done|].
    split; [done|eauto|]. destruct (last (c :: v)) as [d|] eqn:E; simpl in H2; [|done].
    apply last_snoc_inv in E as [k ->]. exists k, d. split; [done|]. by apply negb_true_iff. }
  apply (@options_roundtrip 20 _ sample_os 3 (fun w => w)
    (fun n => if strcmp_eq n (lit "DISPLAY") then Some (lit ":0") else None) sample_directives
    exec_state0 [] (lit "/home/bob/pkg/cde-root")); try reflexivity.
  - by split.
  - done.
  - repeat constructor; by apply Hval.
  - repeat split; cbn; lia.
  - apply Nat.ltb_lt. reflexivity.
Defined.
