(* ===== verification/ChildMem.v ===== *)
(** * The memory of the traced process (util.c, cde.c)

    [umoven] and [umovestr] read it word by word with PTRACE_PEEKDATA,
    [strcpy_from_child] makes a string of it, [memcpy_to_child] writes to it.  A word has
    [sizeof(long)] bytes of the tracer, least significant first. *)
From S2P Require Import Prelude CString Os PerfTimers OkapiMirror Trie State.

Definition byte_of (w : Z) (i : nat) : ascii :=
  ascii_of_N (Z.to_N (Z.land (Z.shiftr w (8 * Z.of_nat i)) 255)).
(** [u.x] of the union of a long and its bytes *)
Definition word_bytes (ws : nat) (w : Z) : cstring := map (byte_of w) (seq 0 ws).
Definition word_of (bytes : cstring) : Z :=
  foldr (fun c acc => Z.of_nat (code c) + 256 * acc)%Z 0%Z bytes.

Definition word_size : M state nat := let* a := conf personality in retM (sizeof_long a).

(** The message for an address that is not zero, unless it is not mapped. *)
Definition perror_ptrace (who : string) (addr errno : Z) : M state unit :=
  when (negb (addr =? 0)%Z && negb (errno =? EIO)%Z && negb (errno =? ESRCH)%Z)
    (eprintf "%s" [PS (lit who)]).
#[global] Arguments perror_ptrace _%_string_scope _ _.

(** The loop of [umoven] on aligned words.  The result is what was copied to [laddr], or
    [None] for -1. *)
Fixpoint umoven_loop (n : nat) (started : bool) (addr : Z) (len : nat) (laddr : cstring)
  : M state (option cstring) :=
  match n with
  | O => stopM (OutOfFuel "umoven")
  | S n' =>
    if len =? 0 then retM (Some laddr)
    else
      let* ws := word_size in
      let* p := tcp pid in
      let* r := sysM (Peekdata p addr) in
      match r with
      | inr errno =>
        if started && ((errno =? EPERM)%Z || (errno =? EIO)%Z) then retM (Some laddr)
        else perror_ptrace "ptrace: umoven" addr errno ;;; retM None
      | inl val =>
        let m := min ws len in
        umoven_loop n' true (addr + Z.of_nat ws) (len - m) (laddr ++ take m (word_bytes ws val))
      end
  end.

Definition umoven (addr : Z) (len : nat) : M state (option cstring) :=
  let* ws := word_size in
  let n := Z.to_nat (addr mod Z.of_nat ws) in
  if n =? 0 then umoven_loop (S len) false addr len []
  else
    let addr := (addr - Z.of_nat n)%Z in
    let* p := tcp pid in
    let* r := sysM (Peekdata p addr) in
    match r with
    | inr errno => perror_ptrace "ptrace: umoven" addr errno ;;; retM None
    | inl val =>
      let m := min (ws - n) len in
      umoven_loop (S len) true (addr + Z.of_nat ws) (len - m) (take m (drop n (word_bytes ws val)))
    end.

Definition has_nul (b : cstring) : bool := match strchr b NUL with Some _ => true | None => false end.

Fixpoint umovestr_loop (n : nat) (started : bool) (addr : Z) (len : nat) (laddr : cstring)
  : M state (option cstring) :=
  match n with
  | O => stopM (OutOfFuel "umovestr")
  | S n' =>
    if len =? 0 then retM (Some laddr)
    else
      let* ws := word_size in
      let* p := tcp pid in
      let* r := sysM (Peekdata p addr) in
      match r with
      | inr errno =>
        if started && ((errno =? EPERM)%Z || (errno =? EIO)%Z) then retM (Some laddr)
        else perror_ptrace "umovestr" addr errno ;;; retM None
      | inl val =>
        let m := min ws len in
        let laddr := laddr ++ take m (word_bytes ws val) in
        if has_nul (word_bytes ws val) then retM (Some laddr)
        else umovestr_loop n' true (addr + Z.of_nat ws) (len - m) laddr
      end
  end.

Definition umovestr (addr : Z) (len : nat) : M state (option cstring) :=
  let* ws := word_size in
  let n := Z.to_nat (addr mod Z.of_nat ws) in
  if n =? 0 then umovestr_loop (S len) false addr len []
  else
    let addr := (addr - Z.of_nat n)%Z in
    let* p := tcp pid in
    let* r := sysM (Peekdata p addr) in
    match r with
    | inr errno => perror_ptrace "umovestr" addr errno ;;; retM None
    | inl val =>
      let m := min (ws - n) len in
      let laddr := take m (drop n (word_bytes ws val)) in
      if has_nul (drop n (word_bytes ws val)) then retM (Some laddr)
      else umovestr_loop (S len) true (addr + Z.of_nat ws) (len - m) laddr
    end.

(** [strdup] of a buffer: without a NUL it reads past what was copied. *)
Definition strdup_buffer (b : cstring) : M state cstring :=
  match strchr b NUL with
  | Some i => retM (take i b)
  | None => stopM Segv
  end.

Definition strcpy_from_child_or_null (addr : Z) : M state (option cstring) :=
  let* r := umovestr addr MAXPATHLEN in
  match r with
  | None => retM None
  | Some path => let* s := strdup_buffer path in retM (Some s)
  end.

Definition strcpy_from_child (addr : Z) : M state cstring :=
  let* ret := strcpy_from_child_or_null addr in
  match ret with
  | Some s => retM s
  | None => EXITIF true ;;; stopM (Exit 1)
  end.

(** The long read at an offset of a block of the tracer's memory: past the end of the
    block are the unknown bytes [heap_junk]. *)
Definition load_long (ws : nat) (junk src : cstring) (off : nat) : Z :=
  word_of (take ws (drop off (src ++ junk ++ repeat NUL 8))).

(** 4 bytes ([sizeof(int)]) further at each turn, a word ([sizeof(long)]) written. *)
Fixpoint memcpy_loop (n : nat) (p dst_child : Z) (src : cstring) (off size : nat) : M state unit :=
  let* ws := word_size in
  let* junk := gets heap_junk in
  match n with
  | O => stopM (OutOfFuel "memcpy_to_child")
  | S n' =>
    if 4 <=? size then
      let* r := sysM (Pokedata p dst_child (load_long ws junk src off)) in
      EXITIF (r <? 0)%Z ;;;
      memcpy_loop n' p (dst_child + 4) src (off + 4) (size - 4)
    else if size =? 0 then skip
    else
      let* r := sysM (Peekdata p dst_child) in
      match r with
      | inr errno => EXITIF true
      | inl dw =>
        let sw := word_bytes ws (load_long ws junk src off) in
        let l := word_of (take size sw ++ drop size (word_bytes ws dw)) in
        let* r := sysM (Pokedata p dst_child l) in
        EXITIF (r <? 0)%Z
      end
  end.

Definition memcpy_to_child (p dst_child : Z) (src : cstring) (size : nat) : M state unit :=
  memcpy_loop (S size) p dst_child src 0 size.

(** ** Words and bytes *)

Lemma word_bytes_length ws w : length (word_bytes ws w) = ws.
Proof. unfold word_bytes. by rewrite length_map, length_seq. Qed.

Lemma code_bound c : (0 <= Z.of_nat (code c) < 256)%Z.
Proof. pose proof (nat_ascii_bounded c). unfold code. lia. Qed.

Lemma byte_of_word c w : byte_of (Z.of_nat (code c) + 256 * w) 0 = c.
Proof.
  unfold byte_of. simpl. rewrite Z.shiftr_0_r.
  change 255%Z with (Z.ones 8). rewrite Z.land_ones by lia. change (2 ^ 8)%Z with 256%Z.
  pose proof (code_bound c). rewrite (Z.mul_comm 256), Z_mod_plus_full, Z.mod_small by lia.
  unfold code. rewrite <- (ascii_N_embedding c) at 2. f_equal.
  unfold nat_of_ascii. by rewrite N_nat_Z, N2Z.id.
Qed.

Lemma byte_of_word_S c w i : byte_of (Z.of_nat (code c) + 256 * w) (S i) = byte_of w i.
Proof.
  unfold byte_of. do 3 f_equal.
  replace (8 * Z.of_nat (S i))%Z with (8 + 8 * Z.of_nat i)%Z by lia.
  rewrite <- Z.shiftr_shiftr by lia. f_equal.
  rewrite Z.shiftr_div_pow2 by lia. change (2 ^ 8)%Z with 256%Z.
  pose proof (code_bound c). rewrite (Z.mul_comm 256), Z.div_add, Z.div_small by lia. done.
Qed.

Lemma word_bytes_of b : word_bytes (length b) (word_of b) = b.
Proof.
  unfold word_bytes. induction b as [|c b IH]; [done|].
  cbn [length seq map word_of foldr]. rewrite byte_of_word. f_equal.
  rewrite <- seq_shift, map_map. rewrite <- IH at 2. apply map_ext. intros i. apply byte_of_word_S.
Qed.

(** ** The memory as a function from addresses to bytes *)

Definition read_mem (m : Z -> ascii) (a : Z) (n : nat) : cstring :=
  map (fun i => m (a + Z.of_nat i)%Z) (seq 0 n).

(** [mem]: the bytes of the process [p], words of [ws] bytes at the addresses in
    [mapped]. *)
Record child_memory {W} (h : forall c, W -> reply c * W) (ws : nat) (p : Z) (mapped : Z -> Prop)
    (mem : W -> Z -> ascii) : Prop := {
  cm_peek : forall a w, mapped a ->
    exists x, h (Peekdata p a) w = (inl x, w) /\ word_bytes ws x = read_mem (mem w) a ws;
  cm_poke : forall a v w, mapped a ->
    (h (Pokedata p a v) w).1 = 0%Z /\
    forall b, mem (h (Pokedata p a v) w).2 b =
      if ((a <=? b) && (b <? a + Z.of_nat ws))%Z
      then nth (Z.to_nat (b - a)) (word_bytes ws v) NUL else mem w b;
}.

Lemma read_mem_length m a n : length (read_mem m a n) = n.
Proof. unfold read_mem. by rewrite length_map, length_seq. Qed.

Lemma read_mem_nth m a n i : i < n -> nth i (read_mem m a n) NUL = m (a + Z.of_nat i)%Z.
Proof.
  intros Hi. unfold read_mem.
  rewrite (nth_indep _ NUL (m (a + Z.of_nat 0)%Z)) by (rewrite length_map, length_seq; lia).
  rewrite (map_nth (fun i => m (a + Z.of_nat i)%Z)). by rewrite seq_nth.
Qed.

Lemma nth_ext_nul (l k : cstring) :
  length l = length k -> (forall i, i < length l -> nth i l NUL = nth i k NUL) -> l = k.
Proof. intros. by apply (nth_ext l k NUL NUL). Qed.

(** The string at [a] and its NUL. *)
Definition string_at (m : Z -> ascii) (a : Z) (s : cstring) : Prop :=
  read_mem m a (length s + 1) = s ++ [NUL].

Lemma string_at_nth m a s i : string_at m a s -> i <= length s ->
  m (a + Z.of_nat i)%Z = nth i (s ++ [NUL]) NUL.
Proof. intros H Hi. rewrite <- H. symmetry. apply read_mem_nth. lia. Qed.

Lemma strchr_nul (s b : cstring) : NUL ∉ s -> strchr (s ++ NUL :: b) NUL = Some (length s).
Proof. intros H. apply strchr_Some. by exists s, b. Qed.

Lemma read_mem_take m a k n : k <= n -> take k (read_mem m a n) = read_mem m a k.
Proof.
  intros H. apply nth_ext_nul; rewrite ?length_take, !read_mem_length; [lia|]. intros i Hi.
  rewrite nth_firstn, (proj2 (Nat.ltb_lt i k)), !read_mem_nth by lia. done.
Qed.

Lemma read_mem_drop m a k n : drop k (read_mem m a n) = read_mem m (a + Z.of_nat k) (n - k).
Proof.
  apply nth_ext_nul; rewrite ?length_drop, !read_mem_length; [done|]. intros i Hi.
  rewrite nth_skipn, !read_mem_nth by lia. f_equal. lia.
Qed.

Lemma string_at_drop m a s k : k <= length s -> string_at m a s -> string_at m (a + Z.of_nat k) (drop k s).
Proof.
  unfold string_at. intros Hk H. rewrite length_drop.
  replace (length s - k + 1) with (length s + 1 - k) by lia.
  rewrite <- read_mem_drop, H. rewrite skipn_app. f_equal.
  by replace (k - length s) with 0 by lia.
Qed.

(** A word that holds the end of the string, and one that does not. *)
Lemma word_ends m a s ws : string_at m a s -> length s < ws ->
  exists rest, read_mem m a ws = s ++ NUL :: rest.
Proof.
  intros H Hs. exists (drop (length s + 1) (read_mem m a ws)).
  rewrite <- (take_drop (length s + 1) (read_mem m a ws)) at 1.
  rewrite read_mem_take, H, <- app_assoc by lia. done.
Qed.

Lemma word_inside m a s ws : string_at m a s -> ws <= length s -> read_mem m a ws = take ws s.
Proof.
  intros H Hs. rewrite <- (read_mem_take m a ws (length s + 1)) by lia.
  rewrite H, take_app_le by done. done.
Qed.

Lemma has_nul_app s rest : has_nul (s ++ NUL :: rest) = true.
Proof.
  unfold has_nul. destruct (strchr _ _) eqn:E; [done|]. apply strchr_None in E. set_solver.
Qed.
Lemma has_nul_false s : NUL ∉ s -> has_nul s = false.
Proof. intros H. unfold has_nul. by apply strchr_None in H as ->. Qed.

Section ReadString.
Context {W : Type} (h : forall c, W -> reply c * W) (s : state).
Let ws := sizeof_long (personality (cfg s)).
Let p := pid (cur s).
Context (mapped : Z -> Prop) (mem : W -> Z -> ascii) (Hm : child_memory h ws p mapped mem).

Lemma ws_pos : 0 < ws.
Proof. unfold ws. destruct (personality _); simpl; lia. Qed.

(** The aligned words that hold the bytes from [a] to [b] are mapped. *)
Definition mapped_range (a b : Z) : Prop :=
  forall x, (a <= x <= b)%Z -> mapped (x - x mod Z.of_nat ws)%Z.

Lemma umovestr_loop_reads n started a len acc t w :
  (a mod Z.of_nat ws = 0)%Z -> mapped_range a (a + Z.of_nat (length t)) ->
  string_at (mem w) a t -> (NUL ∉ t) -> length t < len -> length t < n ->
  exists tr rest, returns h (umovestr_loop n started a len acc) s w tr (Some (acc ++ t ++ NUL :: rest)) s w.
Proof.
  pose proof ws_pos as Hws.
  revert started a len acc t; induction n as [|n IH]; intros started a len acc t Ha Hmap Ht Hnul Hlen Hn; [lia|].
  cbn [umovestr_loop]. rewrite (proj2 (Nat.eqb_neq len 0)) by lia.
  assert (Hma : mapped a).
  { replace a with (a - a mod Z.of_nat ws)%Z by lia. apply Hmap. lia. }
  destruct (cm_peek _ _ _ _ _ Hm a w Hma) as (x & Hx & Hb).
  destruct (Nat.lt_ge_cases (length t) ws) as [Hl|Hl].
  - destruct (word_ends _ _ _ _ Ht Hl) as [rest Hrest]. rewrite Hrest in Hb.
    exists [existT (Peekdata p a) (inl x)], (take (pred (min ws len - length t)) rest).
    eapply returns_pure_bind; [done|]. eapply returns_pure_bind; [done|].
    eapply (returns_sys_bind h (Peekdata p a) _ _ _ (inl x) w); [by rewrite Hx|by rewrite Hx|].
    cbv iota. fold ws. rewrite Hb, has_nul_app.
    rewrite take_app_ge by lia.
    destruct (min ws len - length t) as [|k] eqn:Ek; [lia|]. apply returns_ret.
  - rewrite (word_inside _ _ _ _ Ht Hl) in Hb.
    destruct (IH true (a + Z.of_nat ws)%Z (len - ws) (acc ++ take ws t) (drop ws t)) as (tr & rest & Hr).
    + rewrite Z.add_mod, Ha, Z_mod_same_full, Z.mod_0_l by lia. done.
    + intros y Hy. apply Hmap. rewrite length_drop in Hy. lia.
    + by apply string_at_drop.
    + intros Hin. apply Hnul. eapply subseteq_drop; exact Hin.
    + rewrite length_drop. lia.
    + rewrite length_drop. lia.
    + exists (existT (Peekdata p a) (inl x) :: tr), rest.
      eapply returns_pure_bind; [done|]. eapply returns_pure_bind; [done|].
      eapply (returns_sys_bind h (Peekdata p a) _ _ _ (inl x) w); [by rewrite Hx|by rewrite Hx|].
      cbv iota. fold ws. rewrite Hb, has_nul_false.
      2: { intros Hin. apply Hnul. eapply subseteq_take; exact Hin. }
      rewrite Nat.min_l by lia. rewrite take_take, Nat.min_id.
      rewrite <- app_assoc in Hr. rewrite (app_assoc (take ws t)), take_drop in Hr. exact Hr.
Qed.

Lemma umovestr_reads a len t w :
  mapped_range a (a + Z.of_nat (length t)) -> string_at (mem w) a t -> (NUL ∉ t) -> length t < len ->
  exists tr rest, returns h (umovestr a len) s w tr (Some (t ++ NUL :: rest)) s w.
Proof.
  pose proof ws_pos as Hws. intros Hmap Ht Hnul Hlen.
  set (r := (a mod Z.of_nat ws)%Z).
  assert (Hr : (0 <= r < Z.of_nat ws)%Z) by (apply Z.mod_pos_bound; lia).
  destruct (decide (r = 0%Z)) as [Hr0|Hr0].
  { destruct (umovestr_loop_reads (S len) false a len [] t w) as (tr & rest & Hret);
      [done|done|done|done|done|lia|].
    exists tr, rest. unfold umovestr. eapply (returns_pure_bind h word_size _ s s ws); [reflexivity|]. cbv zeta. fold r.
    by rewrite Hr0. }
  set (n := Z.to_nat r). set (a' := (a - Z.of_nat n)%Z).
  assert (Hn : Z.of_nat n = r) by (unfold n; lia).
  assert (Hma : mapped a').
  { unfold a'. rewrite Hn. apply Hmap. lia. }
  destruct (cm_peek _ _ _ _ _ Hm a' w Hma) as (x & Hx & Hb).
  assert (Hdrop : drop n (word_bytes ws x) = read_mem (mem w) a (ws - n)).
  { rewrite Hb, read_mem_drop. f_equal. unfold a'. lia. }
  assert (Hgo : forall tr rest,
    returns h (let m := min (ws - n) len in
      let laddr := take m (drop n (word_bytes ws x)) in
      if has_nul (drop n (word_bytes ws x)) then retM (Some laddr)
      else umovestr_loop (S len) true (a' + Z.of_nat ws) (len - m) laddr) s w tr (Some (t ++ NUL :: rest)) s w ->
    exists tr rest, returns h (umovestr a len) s w tr (Some (t ++ NUL :: rest)) s w).
  { intros tr rest Hret. exists (existT (Peekdata p a') (inl x) :: tr), rest.
    unfold umovestr. eapply (returns_pure_bind h word_size _ s s ws); [reflexivity|]. cbv zeta. fold r. fold n. fold a'.
    rewrite (proj2 (Nat.eqb_neq n 0)) by lia.
    eapply returns_pure_bind; [done|].
    eapply (returns_sys_bind h (Peekdata p a') _ _ _ (inl x) w); [by rewrite Hx|by rewrite Hx|]. exact Hret. }
  destruct (Nat.lt_ge_cases (length t) (ws - n)) as [Hl|Hl].
  - destruct (word_ends _ _ _ _ Ht Hl) as [rest Hrest].
    apply (Hgo [] (take (pred (min (ws - n) len - length t)) rest)).
    cbv zeta. rewrite Hdrop, Hrest, has_nul_app, take_app_ge by lia.
    destruct (min (ws - n) len - length t) as [|k] eqn:Ek; [lia|]. apply returns_ret.
  - destruct (umovestr_loop_reads (S len) true (a' + Z.of_nat ws)%Z (len - (ws - n)) (take (ws - n) t) (drop (ws - n) t) w)
      as (tr & rest & Hret).
    + unfold a', n. rewrite Z2Nat.id by lia. unfold r.
      rewrite Z.add_mod, Z_mod_same_full, Z.add_0_r, Z.mod_mod by lia.
      rewrite Zminus_mod_idemp_r, Z.sub_diag. apply Z.mod_0_l. lia.
    + intros y Hy. apply Hmap. rewrite length_drop in Hy. unfold a' in Hy. lia.
    + replace (a' + Z.of_nat ws)%Z with (a + Z.of_nat (ws - n))%Z by (unfold a'; lia).
      by apply string_at_drop.
    + intros Hin. apply Hnul. eapply subseteq_drop; exact Hin.
    + rewrite length_drop. lia.
    + rewrite length_drop. lia.
    + rewrite app_assoc, take_drop in Hret. apply (Hgo tr rest).
      cbv zeta. rewrite Hdrop, (word_inside _ _ _ _ Ht Hl), has_nul_false.
      2: { intros Hin. apply Hnul. eapply subseteq_take; exact Hin. }
      rewrite Nat.min_l, take_take, Nat.min_id by lia. exact Hret.
Qed.

Lemma read_mem_split m a k n : k <= n -> read_mem m a n = read_mem m a k ++ read_mem m (a + Z.of_nat k) (n - k).
Proof. intros H. by rewrite <- (read_mem_take m a k n), <- read_mem_drop, take_drop. Qed.

(** The aligned words that hold [n] bytes at [a] are mapped. *)
Definition mapped_bytes (a : Z) (n : nat) : Prop :=
  forall x, (a <= x < a + Z.of_nat n)%Z -> mapped (x - x mod Z.of_nat ws)%Z.

Lemma aligned_next a : (a mod Z.of_nat ws = 0)%Z -> ((a + Z.of_nat ws) mod Z.of_nat ws = 0)%Z.
Proof. pose proof ws_pos. intros Ha. rewrite Z.add_mod, Ha, Z_mod_same_full, Z.mod_0_l by lia. done. Qed.

Lemma umoven_loop_reads n started a len acc w :
  (a mod Z.of_nat ws = 0)%Z -> mapped_bytes a len -> len < n ->
  exists tr, returns h (umoven_loop n started a len acc) s w tr (Some (acc ++ read_mem (mem w) a len)) s w.
Proof.
  pose proof ws_pos as Hws.
  revert started a len acc; induction n as [|n IH]; intros started a len acc Ha Hmap Hn; [lia|].
  cbn [umoven_loop]. destruct (Nat.eqb_spec len 0) as [->|Hl].
  { exists []. simpl. rewrite app_nil_r. apply returns_ret. }
  assert (Hma : mapped a) by (replace a with (a - a mod Z.of_nat ws)%Z by lia; apply Hmap; lia).
  destruct (cm_peek _ _ _ _ _ Hm a w Hma) as (x & Hx & Hb).
  destruct (IH true (a + Z.of_nat ws)%Z (len - min ws len) (acc ++ take (min ws len) (word_bytes ws x))) as (tr & Hr).
  { by apply aligned_next. }
  { intros y Hy. apply Hmap. lia. }
  { lia. }
  exists (existT (Peekdata p a) (inl x) :: tr).
  eapply returns_pure_bind; [done|]. eapply returns_pure_bind; [done|].
  eapply (returns_sys_bind h (Peekdata p a) _ _ _ (inl x) w); [by rewrite Hx|by rewrite Hx|].
  cbv iota zeta. fold ws. rewrite (read_mem_split _ a (min ws len) len) by lia.
  rewrite Hb, read_mem_take, <- app_assoc in Hr by lia. rewrite Hb, read_mem_take by lia.
  destruct (Nat.le_ge_cases ws len) as [Hle|Hle].
  - rewrite (Nat.min_l ws len) in Hr |- * by done. exact Hr.
  - rewrite (Nat.min_r ws len), Nat.sub_diag in Hr |- * by done. exact Hr.
Qed.

Lemma umoven_reads a len w : mapped_bytes a len -> 0 < len ->
  exists tr, returns h (umoven a len) s w tr (Some (read_mem (mem w) a len)) s w.
Proof.
  pose proof ws_pos as Hws. intros Hmap Hlen. set (r := (a mod Z.of_nat ws)%Z).
  assert (Hr : (0 <= r < Z.of_nat ws)%Z) by (apply Z.mod_pos_bound; lia).
  destruct (decide (r = 0%Z)) as [Hr0|Hr0].
  { destruct (umoven_loop_reads (S len) false a len [] w) as (tr & Hret); [done|done|lia|].
    exists tr. unfold umoven. eapply (returns_pure_bind h word_size _ s s ws); [reflexivity|]. cbv zeta. fold r.
    by rewrite Hr0. }
  set (n := Z.to_nat r). set (a' := (a - Z.of_nat n)%Z).
  assert (Hn : Z.of_nat n = r) by (unfold n; lia).
  assert (Hma : mapped a') by (unfold a'; rewrite Hn; apply Hmap; lia).
  destruct (cm_peek _ _ _ _ _ Hm a' w Hma) as (x & Hx & Hb).
  destruct (umoven_loop_reads (S len) true (a' + Z.of_nat ws)%Z (len - min (ws - n) len)
    (take (min (ws - n) len) (drop n (word_bytes ws x))) w) as (tr & Hret).
  { apply aligned_next. unfold a'. rewrite Hn. unfold r. rewrite Zminus_mod_idemp_r, Z.sub_diag. apply Z.mod_0_l. lia. }
  { intros y Hy. apply Hmap. unfold a' in Hy. lia. }
  { lia. }
  exists (existT (Peekdata p a') (inl x) :: tr).
  unfold umoven. eapply (returns_pure_bind h word_size _ s s ws); [reflexivity|]. cbv zeta. fold r. fold n. fold a'.
  rewrite (proj2 (Nat.eqb_neq n 0)) by lia. eapply returns_pure_bind; [done|].
  eapply (returns_sys_bind h (Peekdata p a') _ _ _ (inl x) w); [by rewrite Hx|by rewrite Hx|]. cbv iota beta.
  assert (Ha' : (a' + Z.of_nat n)%Z = a) by (unfold a'; lia).
  assert (Haw : (a' + Z.of_nat ws)%Z = (a + Z.of_nat (ws - n))%Z) by (unfold a'; lia).
  rewrite Hb, read_mem_drop, Ha', read_mem_take in Hret |- * by lia.
  rewrite (read_mem_split _ a (min (ws - n) len) len) by lia.
  destruct (Nat.le_ge_cases (ws - n) len) as [Hle|Hle].
  - rewrite (Nat.min_l (ws - n) len), Haw in Hret |- * by done. exact Hret.
  - rewrite (Nat.min_r (ws - n) len), Nat.sub_diag in Hret |- * by done. exact Hret.
Qed.
End ReadString.

Lemma strcpy_from_child_reads {W} (h : forall c, W -> reply c * W) (s : state)
    (mapped : Z -> Prop) (mem : W -> Z -> ascii) (w : W) (a : Z) (t : cstring) :
  child_memory h (sizeof_long (personality (cfg s))) (pid (cur s)) mapped mem ->
  mapped_range s mapped a (a + Z.of_nat (length t)) ->
  string_at (mem w) a t -> (NUL ∉ t) -> length t < MAXPATHLEN ->
  exists tr, returns h (strcpy_from_child a) s w tr t s w.
Proof.
  intros Hm Hmap Ht Hnul Hlen.
  destruct (umovestr_reads h s mapped mem Hm a MAXPATHLEN t w) as (tr & rest & Hret); [done..|].
  eexists. unfold strcpy_from_child, strcpy_from_child_or_null.
  eapply returns_bind.
  { eapply returns_bind; [exact Hret|]. cbv iota. unfold strdup_buffer.
    rewrite strchr_nul, take_app_exact by done. apply returns_ret. }
  apply returns_ret.
Qed.

(** C24.  [strcpy_from_child] returns the NUL-terminated string at the address, wherever
    it starts in its word and however many words it spans, provided the words that hold
    it are mapped and it is shorter than MAXPATHLEN; it changes nothing. *)
Theorem strcpy_from_child_correct {W} (h : forall c, W -> reply c * W) (s : state)
    (mapped : Z -> Prop) (mem : W -> Z -> ascii) (w : W) (a : Z) (t : cstring)
    (Hm : child_memory h (sizeof_long (personality (cfg s))) (pid (cur s)) mapped mem)
    (Hmap : mapped_range s mapped a (a + Z.of_nat (length t)))
    (Ht : string_at (mem w) a t) (Hnul : NUL ∉ t) (Hlen : length t < MAXPATHLEN) :
  exists tr, returns h (strcpy_from_child a) s w tr t s w.
Proof. by apply (strcpy_from_child_reads h s mapped mem). Qed.

(** A process whose whole address space is mapped: the world is its memory. *)
Definition byte_os (ws : nat) (c : sys) (m : Z -> ascii) : reply c * (Z -> ascii) :=
  match c return reply c * (Z -> ascii) with
  | Peekdata _ a => (inl (word_of (read_mem m a ws)), m)
  | Pokedata _ a v =>
    (0%Z, fun b => if ((a <=? b) && (b <? a + Z.of_nat ws))%Z
                   then nth (Z.to_nat (b - a)) (word_bytes ws v) NUL else m b)
  | c => (null_reply c, m)
  end.

Lemma byte_os_memory ws p : child_memory (byte_os ws) ws p (fun _ => True) (fun m => m).
Proof.
  split; [|done]. intros a m _. eexists. split; [reflexivity|].
  rewrite <- (word_bytes_of (read_mem m a ws)) at 2. by rewrite read_mem_length.
Qed.

(** Memory that holds a block at an address. *)
Definition memory_with (a : Z) (b : cstring) (x : Z) : ascii :=
  if (a <=? x)%Z then nth (Z.to_nat (x - a)) b NUL else NUL.

Lemma strcpy_from_child_correct_witness :
  exists tr, returns (byte_os 8) (strcpy_from_child 1003) state0 (memory_with 1000 (lit "xyz/usr/lib/libc.so")) tr
    (lit "/usr/lib/libc.so") state0 (memory_with 1000 (lit "xyz/usr/lib/libc.so")).
Proof.
  apply (strcpy_from_child_correct (byte_os 8) state0 (fun _ => True) (fun m => m)).
  - apply byte_os_memory.
  - by intros x _.
  - reflexivity.
  - apply (bool_decide_eq_true_1 _). reflexivity.
  - apply Nat.ltb_lt. reflexivity.
Defined.

(** ** Writing *)

(** The bytes the pokes of [memcpy_to_child] cover: whole words, one every 4 bytes. *)
Definition poked (ws size : nat) : nat :=
  if (4 <? ws) && (4 <=? size) then 4 * (size / 4) + 4 else size.

(** What is in the tracer's memory from [src] on. *)
Definition source (s : state) (src : cstring) : cstring := src ++ heap_junk s ++ repeat NUL 8.

Lemma poked_step ws size : (ws = 4 \/ ws = 8) -> 4 <= size ->
  poked ws size = max ws (4 + poked ws (size - 4)).
Proof.
  intros Hws Hs. unfold poked.
  assert (Hd : size / 4 = S ((size - 4) / 4)).
  { replace size with ((size - 4) + 1 * 4) at 1 by lia. rewrite Nat.div_add by lia. lia. }
  rewrite (proj2 (Nat.leb_le 4 size)) by done. rewrite Hd.
  pose proof (Nat.div_mod (size - 4) 4). pose proof (Nat.mod_upper_bound (size - 4) 4).
  destruct (Nat.leb_spec 4 (size - 4)).
  - destruct Hws as [->| ->]; simpl; lia.
  - rewrite (Nat.div_small (size - 4)) by lia. destruct Hws as [->| ->]; simpl; lia.
Qed.

Lemma in_range (a b : Z) (n : nat) :
  ((a <=? b) && (b <? a + Z.of_nat n))%Z = true <-> (a <= b < a + Z.of_nat n)%Z.
Proof. rewrite andb_true_iff, Z.leb_le, Z.ltb_lt. lia. Qed.

Lemma in_range_dec (a b : Z) (n : nat) :
  {(a <= b < a + Z.of_nat n)%Z /\ ((a <=? b) && (b <? a + Z.of_nat n))%Z = true}
  + {~ (a <= b < a + Z.of_nat n)%Z /\ ((a <=? b) && (b <? a + Z.of_nat n))%Z = false}.
Proof.
  destruct ((a <=? b) && (b <? a + Z.of_nat n))%Z eqn:E; [left|right]; split; try done.
  - by apply in_range.
  - intros H%in_range. congruence.
Qed.

Section Write.
Context {W : Type} (h : forall c, W -> reply c * W) (s : state).
Let ws := sizeof_long (personality (cfg s)).
Context (p : Z) (mem : W -> Z -> ascii) (Hm : child_memory h ws p (fun _ => True) mem).
Context (src : cstring).
(** What the pokes keep. *)
Context (R : W -> W -> Prop) (HR : Reflexive R) (HT : Transitive R) (Hpoke : forall a v w, R w (h (Pokedata p a v) w).2).

Lemma ws_4_8 : ws = 4 \/ ws = 8.
Proof. unfold ws. destruct (personality _); simpl; auto. Qed.

Lemma load_long_bytes off : off < length src ->
  word_bytes ws (load_long ws (heap_junk s) src off) = take ws (drop off (source s src)).
Proof.
  intros H. unfold load_long, source. set (b := take ws _).
  rewrite <- (word_bytes_of b) at 2. f_equal. unfold b.
  rewrite length_take, length_drop, !length_app, repeat_length. destruct ws_4_8; lia.
Qed.

Lemma nth_source i k : i < ws -> nth i (take ws (drop k (source s src))) NUL = nth (k + i) (source s src) NUL.
Proof. intros H. rewrite nth_firstn, (proj2 (Nat.ltb_lt i ws)) by done. by rewrite nth_skipn. Qed.

(** The memory after [size] bytes from offset [off] have been written at [a]. *)
Definition after_copy (m m' : Z -> ascii) (a : Z) (off size : nat) : Prop :=
  forall b, m' b = if ((a <=? b) && (b <? a + Z.of_nat (poked ws size)))%Z
    then nth (off + Z.to_nat (b - a)) (source s src) NUL else m b.

Lemma after_step m m1 m2 a off size : 4 <= size ->
  (forall b, m1 b = if ((a <=? b) && (b <? a + Z.of_nat ws))%Z
     then nth (Z.to_nat (b - a)) (take ws (drop off (source s src))) NUL else m b) ->
  after_copy m1 m2 (a + 4) (off + 4) (size - 4) -> after_copy m m2 a off size.
Proof.
  intros Hsz H1 H2 b. rewrite (H2 b), (H1 b), (poked_step ws size) by (done || apply ws_4_8).
  set (k := poked ws (size - 4)).
  destruct (in_range_dec (a + 4) b k) as [[H E]|[H E]], (in_range_dec a b ws) as [[H' E']|[H' E']],
    (in_range_dec a b (max ws (4 + k))) as [[H'' E'']|[H'' E'']];
    rewrite E, E''; rewrite ?E'; try (f_equal; lia); try (rewrite nth_source by lia; f_equal; lia); try done; exfalso; destruct ws_4_8; lia.
Qed.

Lemma memcpy_loop_copies n a off size w :
  size < n -> off + size <= length src ->
  exists tr w', returns h (memcpy_loop n p a src off size) s w tr tt s w'
  /\ after_copy (mem w) (mem w') a off size /\ R w w'.
Proof.
  revert a off size w; induction n as [|n IH]; intros a off size w Hn Hoff; [lia|].
  cbn [memcpy_loop].
  assert (Hgo : forall (m : nat -> cstring -> M state unit) tr w', returns h (m ws (heap_junk s)) s w tr tt s w' ->
    returns h (let* ws := word_size in let* junk := gets heap_junk in m ws junk) s w tr tt s w').
  { intros m tr w' Hr. eapply (returns_pure_bind h word_size _ s s ws); [reflexivity|].
    eapply returns_pure_bind; [reflexivity|]. exact Hr. }
  destruct (Nat.leb_spec 4 size) as [Hsz|Hsz].
  - destruct (cm_poke _ _ _ _ _ Hm a (load_long ws (heap_junk s) src off) w Logic.I) as [Hr Hmem].
    rewrite load_long_bytes in Hmem by lia.
    set (w1 := (h (Pokedata p a (load_long ws (heap_junk s) src off)) w).2) in *.
    destruct (IH (a + 4)%Z (off + 4) (size - 4) w1) as (tr & w' & Hret & Hafter & HR1); [lia|lia|].
    eexists _, w'. split; [|split; [by eapply after_step|transitivity w1; [apply Hpoke|done]]].
    apply Hgo. eapply returns_sys_bind; [exact Hr|reflexivity|].
    eapply returns_pure_bind; [reflexivity|]. exact Hret.
  - destruct (Nat.eqb_spec size 0) as [->|Hne].
    { eexists _, w. split; [apply Hgo, returns_ret|]. split; [|done]. intros b.
      replace (poked ws 0) with 0 by (unfold poked; by rewrite andb_false_r).
      destruct (in_range_dec a b 0) as [[? ->]|[? ->]]; [lia|done]. }
    destruct (cm_peek _ _ _ _ _ Hm a w Logic.I) as (dw & Hpeek & Hdw).
    pose proof (load_long_bytes off ltac:(lia)) as Hsw.
    set (l := take size (word_bytes ws (load_long ws (heap_junk s) src off)) ++ drop size (word_bytes ws dw)).
    assert (Hl : length l = ws).
    { unfold l. rewrite length_app, length_take, length_drop, !word_bytes_length. destruct ws_4_8; lia. }
    destruct (cm_poke _ _ _ _ _ Hm a (word_of l) w Logic.I) as [Hr Hmem].
    assert (Hwl : word_bytes ws (word_of l) = l) by (rewrite <- Hl; apply word_bytes_of).
    rewrite Hwl in Hmem.
    eexists _, _. split; [|split; [|apply Hpoke]].
    + apply Hgo. eapply (returns_sys_bind h (Peekdata p a) _ _ _ (inl dw) w); [by rewrite Hpeek|by rewrite Hpeek|].
      cbv iota zeta. eapply returns_sys_bind; [exact Hr|reflexivity|]. apply returns_ret.
    + intros b. rewrite Hmem. unfold poked. rewrite (proj2 (Nat.leb_gt 4 size)), andb_false_r by lia.
      destruct (in_range_dec a b ws) as [[Hb ->]|[Hb ->]], (in_range_dec a b size) as [[Hb' ->]|[Hb' ->]]; try done;
        [| |exfalso; destruct ws_4_8; lia].
      * unfold l. rewrite app_nth1 by (rewrite length_take, word_bytes_length; lia).
        rewrite nth_firstn, (proj2 (Nat.ltb_lt _ _)), Hsw by lia. apply nth_source. lia.
      * unfold l. rewrite app_nth2 by (rewrite length_take, word_bytes_length; destruct ws_4_8; lia).
        rewrite length_take, word_bytes_length, Nat.min_l by (destruct ws_4_8; lia).
        rewrite nth_skipn, Hdw, read_mem_nth by lia. f_equal. lia.
Qed.
End Write.

(** C36.  [memcpy_to_child], exactly.  The bytes from the destination on become those in
    the tracer's memory from the source on, for [poked] bytes: on a 32-bit tracer this is
    the size that was asked for; on a 64-bit tracer, which writes an 8-byte word every
    [sizeof(int)] bytes, it is up to 4 bytes more: the process's memory past the buffer is
    overwritten with bytes of the tracer's memory past the string. *)
Theorem memcpy_to_child_exact {W} (h : forall c, W -> reply c * W) (s : state) (p : Z)
    (mem : W -> Z -> ascii) (w : W) (a : Z) (src : cstring)
    (Hm : child_memory h (sizeof_long (personality (cfg s))) p (fun _ => True) mem) :
  exists tr w', returns h (memcpy_to_child p a src (length src)) s w tr tt s w'
  /\ forall b, mem w' b =
     if ((a <=? b) && (b <? a + Z.of_nat (poked (sizeof_long (personality (cfg s))) (length src))))%Z
     then nth (Z.to_nat (b - a)) (source s src) NUL else mem w b.
Proof.
  destruct (memcpy_loop_copies h s p mem Hm src (fun _ _ => True) ltac:(done) ltac:(done) ltac:(done)
    (S (length src)) a 0 (length src) w) as (tr & w' & Hret & Hafter & _); [lia|lia|].
  exists tr, w'. split; [exact Hret|exact Hafter].
Qed.

(** "/tmp" and its NUL written at 4096 by a 64-bit tracer: the bytes 5 to 7 change too. *)
Lemma memcpy_to_child_exact_witness :
  exists tr w', returns (byte_os 8) (memcpy_to_child 7 4096 (lit "/tmp" ++ [NUL]) 5)
    (state0 {{ heap_junk := lit "JUNK" }}) (memory_with 4096 (lit "0123456789")) tr tt
    (state0 {{ heap_junk := lit "JUNK" }}) w'
  /\ forall b, w' b = if ((4096 <=? b) && (b <? 4096 + Z.of_nat 8))%Z
     then nth (Z.to_nat (b - 4096)) (lit "/tmp" ++ NUL :: lit "JUNK" ++ repeat NUL 8) NUL
     else memory_with 4096 (lit "0123456789") b.
Proof.
  exact (memcpy_to_child_exact (byte_os 8) (state0 {{ heap_junk := lit "JUNK" }}) 7 (fun m => m)
    (memory_with 4096 (lit "0123456789")) 4096 (lit "/tmp" ++ [NUL]) (byte_os_memory 8 7)).
Defined.
