(* ===== verification/Redirect.v ===== *)
(** * Redirecting paths into the package (cde.c)

    Which paths are ignored, where a path of the traced program is in the package, and
    what of a directory of the package the program sees: [ignore_path],
    [create_abspath_within_cderoot], [extract_sandboxed_pwd],
    [redirect_filename_into_cderoot], [copy_file_into_cde_root]. *)
From S2P Require Import Prelude CString Os StrUtils PerfTimers OkapiPath OkapiMirror Trie State.

Section Redirect.
Context {Fu : Fuel}.

(** The index of the first repository that is a prefix of the path. *)
Fixpoint repo_search (i : Z) (repos : list cstring) (path : cstring) : Z :=
  match repos with
  | [] => (-1)%Z
  | r :: repos' =>
    if strncmp_eq path r (length r) && (length r <=? length path) then i
    else repo_search (i + 1)%Z repos' path
  end.

Definition get_repo_path_id (path : cstring) : M state Z :=
  let* repos := opt multi_repo_paths in
  retM (repo_search 0 repos path).

Definition is_in_another_repo (path : cstring) : M state bool :=
  let* id := get_repo_path_id path in
  let* cur := tcp current_repo_ind in
  retM ((0 <=? id)%Z && negb (id =? cur)%Z).

Definition create_mirror_file_in_cde_package (filename_abspath src_prefix dst_prefix : cstring)
  : M state unit :=
  let* nocap := prv Prov_no_app_capture in
  when (negb nocap) (create_mirror_file fuel fuel filename_abspath src_prefix dst_prefix) ;;;
  vbprintf "  mirror_f: %s, %s, %s" [PS filename_abspath; PS src_prefix; PS dst_prefix].

Definition make_mirror_dirs_in_cde_package (original_abspath : cstring) (pop_one : bool) : M state unit :=
  let* nocap := prv Prov_no_app_capture in
  when (negb nocap)
    (let* root := conf_str CDE_ROOT_DIR in
     create_mirror_dirs fuel fuel original_abspath [] root pop_one) ;;;
  let* root := conf CDE_ROOT_DIR in
  vbprintf "  mirror_d: %s, %s" [PS original_abspath; PS (default [] root)].

Definition prepend_cderoot (path : cstring) : M state cstring :=
  assertM (IS_ABSPATH path) ;;;
  let* root := conf_str CDE_ROOT_DIR in
  format (root ++ path).

(** Streaming mode: a file that is not in the cache is fetched and entered. *)
Definition fetch_remote (path : cstring) : M state unit :=
  let* t := gets cached_files_trie in
  let* hit := deref (TrieContains t path) in
  if hit then skip
  else
    let* _ := sysM (Printf "Accessing remote file: '%s'" [PS path]) in
    let* remote := conf_str cde_remote_root_dir in
    let* root := conf cde_cderoot_dir in
    create_mirror_file_in_cde_package path remote root ;;;
    let* t := gets cached_files_trie in
    let* t' := assert_some (TrieInsert t path) in
    modM (fun s => s {{ cached_files_trie := t' }}) ;;;
    let* fp := conf cached_files_fp in
    match fp with
    | Some fp => let* _ := sysM (Fputs fp (path ++ [newline])) in skip
    | None => skip
    end.

Definition create_abspath_within_cderoot (path : cstring) : M state cstring :=
  assertM (IS_ABSPATH path) ;;;
  let* exec := conf Cde_exec_mode in
  if exec then
    let* root := conf cde_cderoot_dir in
    if strncmp_eq path root (length root) then retM path
    else
      let* streaming := conf CDE_exec_streaming_mode in
      when streaming (fetch_remote path) ;;;
      format (root ++ path)
  else
    let* path_within_cde_root := prepend_cderoot path in
    let* start := conf cde_starting_pwd in
    let* ret := assert_some (canonicalize_path path_within_cde_root start) in
    assertM (IS_ABSPATH ret) ;;;
    retM ret.

(** [strncmp(filename, p, strlen(p)) == 0] *)
Definition starts_with (filename p : cstring) : bool := strncmp_eq filename p (length p).
(** [strstr(filename, p)] *)
Definition has_substr (filename p : cstring) : bool :=
  match strstr filename p with Some _ => true | None => false end.

(** The process-specific part: [tcp->p_ignores]. *)
Definition process_ignores_path (filename : cstring) (p : PI) : M state bool :=
  if strcmp_eq filename (process_name p) then
    vbprintf "IGNORED '%s' (process=%s)" [PS filename; PS (process_name p)] ;;; retM true
  else
    match List.find (starts_with filename) (process_ignore_prefix_paths p) with
    | Some pre =>
      vbprintf "IGNORED '%s' [%s] (process=%s)" [PS filename; PS pre; PS (process_name p)] ;;; retM true
    | None => retM false
    end.

(** [use_tcp]: the argument [tcp] is given. *)
Definition ignore_path (filename : cstring) (use_tcp : bool) : M state bool :=
  let* init := conf cde_options_initialized in
  assertM init ;;;
  if bool_decide (filename = []) then retM true
  else
    assertM (IS_ABSPATH filename) ;;;
    let* pi := tcp p_ignores in
    let* by_process :=
      match pi with
      | Some p => if use_tcp then process_ignores_path filename p else retM false
      | None => retM false
      end in
    if by_process then retM true
    else
      let* o := gets opts in
      if existsb (strcmp_eq filename) (redirect_exact_paths o) then retM false
      else if existsb (starts_with filename) (redirect_prefix_paths o) then retM false
      else if existsb (has_substr filename) (redirect_substr_paths o) then retM false
      else if existsb (strcmp_eq filename) (ignore_exact_paths o) then retM true
      else if existsb (starts_with filename) (ignore_prefix_paths o) then retM true
      else if existsb (has_substr filename) (ignore_substr_paths o) then retM true
      else
        let* outside := conf cde_exec_from_outside_cderoot in
        if outside then
          let* redirected_filename := create_abspath_within_cderoot filename in
          let* st := sysM (Stat redirected_filename) in
          retM (match st with Some _ => false | None => true end)
        else retM false.

Definition extract_sandboxed_pwd (real_pwd : cstring) (use_tcp : bool) : M state cstring :=
  let* exec := conf Cde_exec_mode in
  assertM exec ;;;
  let* root := conf cde_cderoot_dir in
  let within := (length root <=? length real_pwd) && strncmp_eq real_pwd root (length root) in
  let* ign := ignore_path real_pwd use_tcp in
  if ign && negb within then retM real_pwd
  else if negb within then
    let* outside := conf cde_exec_from_outside_cderoot in
    let* id := get_repo_path_id real_pwd in
    if outside || (0 <=? id)%Z then retM real_pwd
    else
      eprintf "Fatal error: '%s' is outside of cde-root/ and NOT being ignored." [PS real_pwd] ;;;
      stopM (Exit 1)
  else
    let sandboxed_pwd := drop (length root) real_pwd in
    retM (if length sandboxed_pwd =? 0 then [slash] else sandboxed_pwd).

(** The result [None] is NULL: the path is not redirected. *)
Definition redirect_filename_into_cderoot (filename : cstring) (child_current_pwd : option cstring)
    (use_tcp : bool) : M state (option cstring) :=
  let* pwd := assert_some child_current_pwd in
  let* exec := conf Cde_exec_mode in
  let* filename_abspath :=
    if exec then
      let* sandboxed := extract_sandboxed_pwd pwd use_tcp in
      assert_some (canonicalize_path filename sandboxed)
    else assert_some (canonicalize_path filename pwd) in
  let* id := get_repo_path_id filename_abspath in
  if (0 <=? id)%Z then retM (Some filename_abspath)
  else if is_cde_binary (Some filename_abspath) then retM None
  else
    let* ign := ignore_path filename_abspath use_tcp in
    if ign then retM None
    else
      let* ret := create_abspath_within_cderoot filename_abspath in
      vbprintf "redirect '%s' => '%s'" [PS filename; PS ret] ;;;
      retM (Some ret).

Definition copy_file_into_cde_root (filename : cstring) (child_current_pwd : option cstring) : M state unit :=
  let* exec := conf Cde_exec_mode in
  assertM (negb exec) ;;;
  let* filename_abspath := assert_some (canonicalize_path filename (default [] child_current_pwd)) in
  let* ign := ignore_path filename_abspath false in
  if ign then skip
  else
    let* id := get_repo_path_id filename_abspath in
    if (0 <=? id)%Z then skip
    else
      let* log := conf CDE_copied_files_logfile in
      match log with
      | Some f => let* _ := sysM (Fputs f (filename_abspath ++ [newline])) in skip
      | None => skip
      end ;;;
      let* root := conf_str CDE_ROOT_DIR in
      create_mirror_file_in_cde_package filename_abspath [] root.

Definition strcpy_redirected_cderoot (src : cstring) : M state cstring :=
  let* exec := conf Cde_exec_mode in
  assertM exec ;;;
  let* start := conf cde_starting_pwd in
  let* r := redirect_filename_into_cderoot src (Some start) false in
  retM (default src r).
End Redirect.
