(* ===== verification/RedirectSpec.v ===== *)
(** * What redirection guarantees

    The precedence of the ignore and redirect directives, where a path of the traced
    program ends up, and that the program cannot name a file outside of the package:
    [..] is resolved against the package's root, not against the real one. *)
From S2P Require Import Prelude CString Os StrUtils PerfTimers OkapiPath OkapiMirror OkapiContain Trie State Redirect.

(** ** The decisions as functions of the state *)

Definition redirected (o : options) (f : cstring) : bool :=
  existsb (strcmp_eq f) (redirect_exact_paths o) || existsb (starts_with f) (redirect_prefix_paths o)
  || existsb (has_substr f) (redirect_substr_paths o).
Definition ignored_globally (o : options) (f : cstring) : bool :=
  existsb (strcmp_eq f) (ignore_exact_paths o) || existsb (starts_with f) (ignore_prefix_paths o)
  || existsb (has_substr f) (ignore_substr_paths o).
Definition ignored_by_process (pi : option PI) (f : cstring) : bool :=
  match pi with
  | Some p => strcmp_eq f (process_name p) || existsb (starts_with f) (process_ignore_prefix_paths p)
  | None => false
  end.
(** The process's own directives first, then redirect, then ignore. *)
Definition ignored (o : options) (pi : option PI) (f : cstring) : bool :=
  ignored_by_process pi f || (negb (redirected o f) && ignored_globally o f).

Definition in_repo (repos : list cstring) (p : cstring) : bool := existsb (starts_with p) repos.

Lemma starts_with_spec f p : starts_with f p = true <-> p `prefix_of` f.
Proof. apply strncmp_prefix. Qed.

Lemma repo_search_nonneg i repos p : (0 <= i)%Z -> (0 <=? repo_search i repos p)%Z = in_repo repos p.
Proof.
  revert i; induction repos as [|r repos IH]; intros i Hi; simpl; [done|].
  unfold starts_with. destruct (strncmp_eq p r (length r)) eqn:E; simpl.
  - apply strncmp_prefix, prefix_length in E. rewrite (proj2 (Nat.leb_le _ _)) by done.
    by apply Z.leb_le.
  - apply IH. lia.
Qed.

(** ** Calls *)

(** A contract that allows messages. *)
Definition may_print (K : contract) : Prop := forall fmt args, may K (Eprintf fmt args).

Lemma wpM_vbprintf K fmt args s (Q : unit -> state -> Prop) E :
  may_print K -> Q tt s -> wpM K (vbprintf fmt args) s Q E.
Proof. intros HK HQ. unfold vbprintf, conf. repeat (wp1; try done). Qed.
Lemma wpM_conf {A} K (f : config -> A) s (Q : A -> state -> Prop) E : Q (f (cfg s)) s -> wpM K (conf f) s Q E.
Proof. done. Qed.
Lemma wpM_opt {A} K (f : options -> A) s (Q : A -> state -> Prop) E : Q (f (opts s)) s -> wpM K (opt f) s Q E.
Proof. done. Qed.
Lemma wpM_tcp {A} K (f : tcb -> A) s (Q : A -> state -> Prop) E : Q (f (cur s)) s -> wpM K (tcp f) s Q E.
Proof. done. Qed.

Lemma wpM_repo K p s (Q : Z -> state -> Prop) E :
  Q (repo_search 0 (multi_repo_paths (opts s)) p) s -> wpM K (get_repo_path_id p) s Q E.
Proof. done. Qed.

Section Decide.
Context {Fu : Fuel} (K : contract) (HK : may_print K).

Lemma find_existsb {A} (f : A -> bool) l :
  match List.find f l with Some _ => true | None => false end = existsb f l.
Proof. induction l as [|x l IH]; simpl; [done|]. destruct (f x); [done|exact IH]. Qed.

Lemma wpM_process_ignores f p s (Q : bool -> state -> Prop) E :
  Q (ignored_by_process (Some p) f) s -> wpM K (process_ignores_path f p) s Q E.
Proof.
  unfold process_ignores_path, ignored_by_process. rewrite <- find_existsb.
  destruct (strcmp_eq f (process_name p)); simpl; intros HQ.
  - wp1. by apply wpM_vbprintf.
  - destruct (List.find _ _); [wp1; by apply wpM_vbprintf|done].
Qed.

(** In a run from within the package (not the union file system of a run from
    outside), [ignore_path] decides [ignored] and changes nothing. *)
Lemma wpM_ignore_path f (use_tcp : bool) s (Q : bool -> state -> Prop) E :
  cde_options_initialized (cfg s) = true -> cde_exec_from_outside_cderoot (cfg s) = false ->
  f = [] \/ IS_ABSPATH f = true ->
  Q (bool_decide (f = []) || ignored (opts s) (if use_tcp then p_ignores (cur s) else None) f) s ->
  wpM K (ignore_path f use_tcp) s Q E.
Proof.
  intros Hinit Hout Hf HQ. unfold ignore_path. wp1. apply wpM_conf. rewrite Hinit. do 2 wp1.
  case_bool_decide as Hne; [done|]. destruct Hf as [|Hf]; [done|]. rewrite Hf. do 3 wp1.
  apply wpM_tcp. wp1. simpl in HQ. unfold ignored in HQ.
  assert (Hrest : Q (negb (redirected (opts s) f) && ignored_globally (opts s) f) s ->
    wpM K (if false then retM true else
      let* o := gets opts in
      if existsb (strcmp_eq f) (redirect_exact_paths o) then retM false
      else if existsb (starts_with f) (redirect_prefix_paths o) then retM false
      else if existsb (has_substr f) (redirect_substr_paths o) then retM false
      else if existsb (strcmp_eq f) (ignore_exact_paths o) then retM true
      else if existsb (starts_with f) (ignore_prefix_paths o) then retM true
      else if existsb (has_substr f) (ignore_substr_paths o) then retM true
      else
        let* outside := conf cde_exec_from_outside_cderoot in
        if outside then
          let* redirected_filename := create_abspath_within_cderoot f in
          let* st := sysM (Stat redirected_filename) in
          retM (match st with Some _ => false | None => true end)
        else retM false) s Q E).
  { unfold redirected, ignored_globally. intros HQ'. do 2 wp1.
    destruct (existsb (strcmp_eq f) (redirect_exact_paths (opts s))); [done|].
    destruct (existsb (starts_with f) (redirect_prefix_paths (opts s))); [done|].
    destruct (existsb (has_substr f) (redirect_substr_paths (opts s))); [done|].
    destruct (existsb (strcmp_eq f) (ignore_exact_paths (opts s))); [done|].
    destruct (existsb (starts_with f) (ignore_prefix_paths (opts s))); [done|].
    destruct (existsb (has_substr f) (ignore_substr_paths (opts s))); [done|].
    wp1. apply wpM_conf. by rewrite Hout. }
  destruct (p_ignores (cur s)) as [p|] eqn:Ep; destruct use_tcp; try (by apply Hrest).
  apply wpM_process_ignores. destruct (ignored_by_process (Some p) f); [done|]. by apply Hrest.
Qed.

Lemma wpM_extract s root sub (use_tcp : bool) (Q : cstring -> state -> Prop) E :
  Cde_exec_mode (cfg s) = true -> cde_options_initialized (cfg s) = true ->
  cde_exec_from_outside_cderoot (cfg s) = false -> cde_cderoot_dir (cfg s) = root ->
  IS_ABSPATH root = true -> Q (if bool_decide (sub = []) then [slash] else sub) s ->
  wpM K (extract_sandboxed_pwd (root ++ sub) use_tcp) s Q E.
Proof.
  intros Hex Hinit Hout Hroot Habs HQ. unfold extract_sandboxed_pwd.
  wp1. apply wpM_conf. rewrite Hex. do 2 wp1. wp1. apply wpM_conf. rewrite Hroot.
  assert (Hw : (length root <=? length (root ++ sub)) && strncmp_eq (root ++ sub) root (length root) = true).
  { rewrite (proj2 (Nat.leb_le _ _)) by (rewrite length_app; lia). apply strncmp_prefix. by exists sub. }
  rewrite Hw. wp1. apply wpM_ignore_path; [done|done|right; by apply IS_ABSPATH_app|].
  rewrite andb_false_r, drop_app_exact. simpl. wp1. by destruct sub.
Qed.
End Decide.

(** ** Paths *)

(** The path that [filename] names for a program in the directory [pwd]. *)
Definition program_path (pwd filename : cstring) : cstring :=
  render (if IS_ABSPATH filename then resolve filename else walk (resolve pwd) filename).

(** Where the call is redirected in exec mode; [None]: it is left alone. *)
Definition redirect_spec (o : options) (pi : option PI) (root pwd filename : cstring) : option cstring :=
  let p := program_path pwd filename in
  if in_repo (multi_repo_paths o) p then Some p
  else if is_cde_binary (Some p) || ignored o pi p then None
  else Some (if starts_with p root then p else root ++ p).

Lemma program_path_abs pwd f : IS_ABSPATH (program_path pwd f) = true.
Proof. apply IS_ABSPATH_render. Qed.
Lemma program_path_normal pwd f : exists l, program_path pwd f = render l /\ Forall normal l.
Proof. eexists. split; [reflexivity|]. destruct (IS_ABSPATH f); auto with ptu. Qed.

Definition prints : contract :=
  {| may c := match c with Eprintf _ _ => True | _ => False end; rep _ _ := True |}.
Lemma prints_may : may_print prints.
Proof. done. Qed.

(** An exec run from within the package. *)
Record exec_run (s : state) (root : cstring) : Prop := {
  er_exec : Cde_exec_mode (cfg s) = true;
  er_init : cde_options_initialized (cfg s) = true;
  er_inside : cde_exec_from_outside_cderoot (cfg s) = false;
  er_stream : CDE_exec_streaming_mode (cfg s) = false;
  er_root : cde_cderoot_dir (cfg s) = root;
  er_abs : IS_ABSPATH root = true;
}.

Section Exec.
Context {Fu : Fuel} (K : contract) (HK : may_print K) (s : state) (root : cstring) (Hrun : exec_run s root).

Lemma wpM_create_abspath p (Q : cstring -> state -> Prop) E :
  IS_ABSPATH p = true -> Q (if starts_with p root then p else root ++ p) s ->
  wpM K (create_abspath_within_cderoot p) s Q E.
Proof.
  destruct Hrun as [Hex _ _ Hst Hroot Habs]. intros Hp HQ.
  unfold create_abspath_within_cderoot. rewrite Hp. do 2 wp1. wp1. apply wpM_conf. rewrite Hex.
  wp1. apply wpM_conf. rewrite Hroot. unfold starts_with in HQ.
  destruct (strncmp_eq p root (length root)); [done|].
  wp1. apply wpM_conf. rewrite Hst. wp1. wp1; [done|].
  destruct (root ++ p) eqn:E1; [by destruct root|]. exact HQ.
Qed.

Lemma wpM_redirect filename sub (use_tcp : bool) (Q : option cstring -> state -> Prop) E :
  sub = [] \/ IS_ABSPATH sub = true ->
  Q (redirect_spec (opts s) (if use_tcp then p_ignores (cur s) else None) root
       (if bool_decide (sub = []) then [slash] else sub) filename) s ->
  wpM K (redirect_filename_into_cderoot filename (Some (root ++ sub)) use_tcp) s Q E.
Proof.
  destruct Hrun as [Hex Hinit Hin _ Hroot Habs]. intros Hsub HQ.
  unfold redirect_filename_into_cderoot. do 2 wp1. wp1. apply wpM_conf. rewrite Hex. wp1.
  wp1. eapply wpM_extract; [done..|].
  set (pwd := if bool_decide (sub = []) then [slash] else sub) in *.
  assert (Hpwd : IS_ABSPATH pwd = true).
  { unfold pwd. case_bool_decide; [done|]. by destruct Hsub. }
  rewrite (canonicalize_path_ok filename pwd Hpwd). fold (program_path pwd filename). wp1.
  wp1. apply wpM_repo. rewrite repo_search_nonneg by lia.
  unfold redirect_spec in HQ. destruct (in_repo _ _); [done|].
  destruct (is_cde_binary _); [done|]. simpl in HQ.
  pose proof (program_path_abs pwd filename) as Hp.
  wp1. apply wpM_ignore_path; [done|done|done|by right|].
  assert (Hne : bool_decide (program_path pwd filename = []) = false) by by apply bool_decide_eq_false_2; intros E1; rewrite E1 in Hp.
  rewrite Hne. simpl. destruct (ignored _ _ _); [done|].
  wp1. apply wpM_create_abspath; [done|]. wp1. by apply wpM_vbprintf.
Qed.
End Exec.

(** C8.  Redirection in a run of ptu-exec from inside of the package ([exec_run]: not the
    union of both file systems of a run from outside, and without -s).  For a program in a
    directory of the package, a path is resolved against the directory the program sees,
    and then, in this order: a path that starts, as text, with that of another repository
    stays itself; it is left alone if it is of PTU's own binaries or ignored (the process's
    directives first, then redirect over ignore); a path that starts, as text, with that of
    the package's root stays itself, whether or not it is below it
    ([sibling_not_redirected]); any other becomes the one below the root.  Nothing but
    messages is done, and no assertion fails. *)
Theorem redirect_exec_correct {Fu : Fuel} (s : state) (root sub filename : cstring) (use_tcp : bool)
    (Hrun : exec_run s root) (Hsub : sub = [] \/ IS_ABSPATH sub = true) :
  wpM prints (redirect_filename_into_cderoot filename (Some (root ++ sub)) use_tcp) s
    (fun r s' => s' = s /\ r = redirect_spec (opts s) (if use_tcp then p_ignores (cur s) else None) root
       (if bool_decide (sub = []) then [slash] else sub) filename)
    (fun _ => False).
Proof. by eapply wpM_redirect. Qed.

Definition exec_state : state :=
  state0 {{ cfg -> Cde_exec_mode := true; cfg -> cde_options_initialized := true;
            cfg -> cde_cderoot_dir := lit "/home/bob/pkg/cde-root";
            opts -> ignore_prefix_paths := [lit "/proc"]; opts -> redirect_exact_paths := [lit "/proc/cpuinfo"];
            cur -> current_dir := Some (lit "/home/bob/pkg/cde-root/home/alice/exp") }}.
Lemma exec_state_run : exec_run exec_state (lit "/home/bob/pkg/cde-root").
Proof. by split. Qed.

Lemma redirect_exec_correct_witness :
  wpM prints (@redirect_filename_into_cderoot 0 (lit "../data/../../../../../etc/passwd")
      (Some (lit "/home/bob/pkg/cde-root" ++ lit "/home/alice/exp")) true) exec_state
    (fun r s' => s' = exec_state /\ r = Some (lit "/home/bob/pkg/cde-root/etc/passwd")) (fun _ => False).
Proof.
  exact (@redirect_exec_correct 0 exec_state (lit "/home/bob/pkg/cde-root") (lit "/home/alice/exp")
    (lit "../data/../../../../../etc/passwd") true exec_state_run (or_intror eq_refl)).
Defined.

(** The directory a program sees is the inverse of redirection: a canonical path
    that is redirected below the root is seen again as itself. *)
Theorem sandbox_roundtrip {Fu : Fuel} (s : state) (root : cstring) (l : list cstring) (use_tcp : bool)
    (Hrun : exec_run s root) (Hl : Forall normal l) (Hout : starts_with (render l) root = false) :
  wpM prints (let* q := create_abspath_within_cderoot (render l) in extract_sandboxed_pwd q use_tcp) s
    (fun r s' => s' = s /\ r = render l) (fun _ => False).
Proof.
  wp1. eapply wpM_create_abspath; [done..|]. rewrite Hout.
  destruct Hrun. by apply wpM_extract.
Qed.

Lemma sandbox_roundtrip_witness :
  wpM prints (let* q := @create_abspath_within_cderoot 0 (render [lit "usr"; lit "lib"]) in
              @extract_sandboxed_pwd 0 q true) exec_state
    (fun r s' => s' = exec_state /\ r = lit "/usr/lib") (fun _ => False).
Proof.
  apply (@sandbox_roundtrip 0 exec_state (lit "/home/bob/pkg/cde-root") [lit "usr"; lit "lib"] true exec_state_run).
  - repeat constructor; try done; intros H; vm_compute in H; set_solver.
  - reflexivity.
Defined.

(** The test for a path that is in the package already compares characters, not
    components: a path of a sibling of the root whose name the root's is a prefix of is
    taken to be in the package, and is not redirected. *)
Theorem sibling_not_redirected :
  forall w, outcome (W := unit) (fun c w => (null_reply c, w))
    (@redirect_filename_into_cderoot 0 (lit "/home/bob/pkg/cde-root.old/secret")
       (Some (lit "/home/bob/pkg/cde-root")) true exec_state) w
  = inl (Some (lit "/home/bob/pkg/cde-root.old/secret"), exec_state)
  /\ file_is_within_dir (lit "/home/bob/pkg/cde-root.old/secret") (lit "/home/bob/pkg/cde-root") (lit "/") = Some false.
Proof. intros []. split; vm_compute; reflexivity. Qed.
