(* ===== verification/Shm.v ===== *)
(** * Shared memory with the traced process, and rewriting its arguments (cde.c)

    In exec mode a path argument of a system call is replaced: the redirected path is
    put in a segment of shared memory that the process was made to attach
    ([begin_setup_shmat], [finish_setup_shmat]), and the register of the argument is
    pointed to it ([modify_syscall_...]). *)
From S2P Require Import Prelude CString Os StrUtils PerfTimers SysLimits OkapiPath OkapiMirror Trie State.
From S2P Require Import ChildMem Redirect.

Definition shared_page_size : nat := MAXPATHLEN * 4.
Definition PROT_READ : Z := 1.
Definition PROT_WRITE : Z := 2.
Definition PROT_EXEC : Z := 4.
Definition FILEBACK : Z := 8.
Definition NR_ipc : Z := 117.
Definition SHMAT : Z := 21.
Definition NR_shmat : Z := 30.

Section Shm.
Context {Fu : Fuel}.

(** ** The fields of a tcb *)

(** Random keys are tried while the key exists already. *)
Fixpoint shmget_loop (n : nat) : M state Z :=
  match n with
  | O => stopM (OutOfFuel "shmget")
  | S n' =>
    let* key := sysM Rand in
    let* r := sysM (Shmget key) in
    match r with
    | inl id => retM id
    | inr errno => if (errno =? EEXIST)%Z then shmget_loop n' else retM (-1)%Z
    end
  end.

Definition alloc_tcb_cde_fields : M state unit :=
  modM (fun s => s {{ cur -> localshm := None; cur -> childshm := 0%Z; cur -> setting_up_shm := false }}) ;;;
  let* id := shmget_loop fuel in
  modM (fun s => s {{ cur -> shmid := id }}) ;;;
  let* a := sysM (Shmat id) in
  match a with
  | None => eprintf "%s" [PS (lit "shmat")] ;;; stopM (Exit 1)
  | Some a =>
    modM (fun s => s {{ cur -> localshm := Some a }}) ;;;
    let* r := sysM (Shmctl_rmid id) in
    (if (r =? -1)%Z then eprintf "%s" [PS (lit "shmctl(IPC_RMID)")] ;;; stopM (Exit 1) else skip) ;;;
    assertM (negb (a =? 0)%Z) ;;;
    let* maxof := max_open_files in
    modM (fun s => s {{ cur -> opened_file_paths := repeat None (Z.to_nat maxof);
                        cur -> current_dir := None; cur -> p_ignores := None;
                        cur -> current_repo_ind := (-1)%Z }})
  end.

Definition free_tcb_cde_fields : M state unit :=
  let* l := tcp localshm in
  match l with
  | Some a => let* _ := sysM (Shmdt a) in skip
  | None => skip
  end ;;;
  modM (fun s => s {{ cur -> localshm := None; cur -> childshm := 0%Z; cur -> setting_up_shm := false;
                      cur -> p_ignores := None }}) ;;;
  let* maxof := max_open_files in
  let* paths := tcp opened_file_paths in
  (if (Z.of_nat (length paths) <? maxof)%Z then stopM Segv else skip) ;;;
  modM (fun s => s {{ cur -> current_dir := None; cur -> current_repo_ind := (-1)%Z }}).

Definition CDE_init_tcb_dir_fields : M state unit :=
  let* d := tcp current_dir in
  assertM (bool_decide (d = None)) ;;;
  let* par := gets parent in
  match par with
  | Some par =>
    let* pd := assert_some (current_dir par) in
    modM (fun s => s {{ cur -> current_dir := Some pd; cur -> current_repo_ind := current_repo_ind par;
                        cur -> p_ignores := p_ignores par }})
  | None =>
    let* d := sysM Getcwd in
    let* id := get_repo_path_id d in
    modM (fun s => s {{ cur -> current_dir := Some d; cur -> current_repo_ind := id }})
  end ;;;
  let* full := tcp perceived_program_fullpath in
  match full, par with
  | None, Some par => modM (fun s => s {{ cur -> perceived_program_fullpath := perceived_program_fullpath par }})
  | _, _ => skip
  end.

(** ** Free memory of the process, from /proc/<pid>/maps *)

(** [sscanf(s, "%lx-%lx %c%c%c%c %*x %x:%x", ...)]: the values found so far. *)
Record map_line := { cstart : Z; cend : Z; mr : ascii; mw : ascii; mx : ascii; mp : ascii; major : Z; minor : Z }.

Definition hex_digit (c : ascii) : option Z :=
  let n := code c in
  if (48 <=? n) && (n <=? 57) then Some (Z.of_nat n - 48)%Z
  else if (97 <=? n) && (n <=? 102) then Some (Z.of_nat n - 87)%Z
  else if (65 <=? n) && (n <=? 70) then Some (Z.of_nat n - 55)%Z
  else None.
Fixpoint scan_hex_digits (acc : option Z) (s : cstring) : option (Z * cstring) :=
  match s with
  | c :: s' =>
    match hex_digit c with
    | Some d => scan_hex_digits (Some (16 * default 0 acc + d)%Z) s'
    | None => n ← acc; Some (n, s)
    end
  | [] => n ← acc; Some (n, s)
  end.
Definition scan_hex (s : cstring) : option (Z * cstring) := scan_hex_digits None (drop_while isspace s).
Definition scan_lit (c : ascii) (s : cstring) : option cstring :=
  match s with x :: s' => if bool_decide (x = c) then Some s' else None | [] => None end.
Definition scan_char (s : cstring) : option (ascii * cstring) :=
  match s with x :: s' => Some (x, s') | [] => None end.

Definition sscanf_maps (s : cstring) : option map_line :=
  '(a, s) ← scan_hex s;
  s ← scan_lit "-"%char s;
  '(b, s) ← scan_hex s;
  let s := drop_while isspace s in
  '(r, s) ← scan_char s; '(w, s) ← scan_char s; '(x, s) ← scan_char s; '(p, s) ← scan_char s;
  '(_, s) ← scan_hex s;
  '(ma, s) ← scan_hex s;
  s ← scan_lit ":"%char s;
  '(mi, _) ← scan_hex s;
  Some {| cstart := a; cend := b; mr := r; mw := w; mx := x; mp := p; major := ma; minor := mi |}.

(** [prot & f] *)
Definition has_flag (prot f : Z) : bool := negb (Z.land prot f =? 0)%Z.

(** A mapping that is large enough, anonymous unless FILEBACK, private, with the rights. *)
Definition mapping_fits (prot size : Z) (m : map_line) : bool :=
  negb ((cend m - cstart m) mod 2 ^ 64 <? size)%Z
  && negb (negb (has_flag prot FILEBACK) && (negb (major m =? 0)%Z || negb (minor m =? 0)%Z))
  && bool_decide (mp m = "p"%char)
  && negb (has_flag prot PROT_READ && negb (bool_decide (mr m = "r"%char)))
  && negb (has_flag prot PROT_EXEC && negb (bool_decide (mx m = "x"%char)))
  && negb (has_flag prot PROT_WRITE && negb (bool_decide (mw m = "w"%char))).

(** A line that does not have the format leaves (some of) the variables as they were:
    the model stops there. *)
Fixpoint maps_loop (n : nat) (f prot size : Z) : M state Z :=
  match n with
  | O => stopM (OutOfFuel "maps")
  | S n' =>
    let* r := sysM (Fgets f 80) in
    match r with
    | None => let* _ := sysM (Fclose f) in retM 0%Z
    | Some s =>
      let* m := deref (sscanf_maps s) in
      if mapping_fits prot size m then let* _ := sysM (Fclose f) in retM (cstart m)
      else maps_loop n' f prot size
    end
  end.

Definition find_free_addr (p prot size : Z) : M state Z :=
  let* filename := strbuf 20 (lit "/proc/" ++ itoa p ++ lit "/maps") in
  let* f := sysM (Fopen filename F_read) in
  match f with
  | None => eprintf "Can not find a free address in pid %d: %s" [PZ p] ;;; stopM Segv
  | Some f => maps_loop fuel f prot size
  end.

(** ** Attaching the segment in the process *)

Definition getregs : M state regs :=
  let* p := tcp pid in
  let* r := sysM (Getregs p) in
  match r with Some rs => retM rs | None => EXITIF true ;;; stopM (Exit 1) end.
Definition setregs (rs : regs) : M state unit :=
  let* p := tcp pid in
  let* _ := sysM (Setregs p rs) in skip.
Definition setregs_or_exit (rs : regs) : M state unit :=
  let* p := tcp pid in
  let* r := sysM (Setregs p rs) in EXITIF (r <? 0)%Z.

(** The 32-bit [ipc(SHMAT, shmid, 0, savedaddr, NULL, 0)]: the address comes back in a
    word of the process's memory, which is saved. *)
Definition shmat_by_ipc (cur_regs : regs) : M state regs :=
  let* p := tcp pid in
  let* a := find_free_addr p (Z.lor PROT_READ PROT_WRITE) 4 in
  modM (fun s => s {{ cur -> savedaddr := a }}) ;;;
  let* r := sysM (Peekdata p a) in
  match r with
  | inr errno => EXITIF true ;;; stopM (Exit 1)
  | inl w =>
    modM (fun s => s {{ cur -> savedword := w }}) ;;;
    let* id := tcp shmid in
    retM (set_reg RBP 0 (set_reg RDI 0 (set_reg RSI a (set_reg RDX 0 (set_reg RCX id
           (set_reg RBX SHMAT (set_reg ORIG_RAX NR_ipc cur_regs)))))))%Z
  end.

Definition begin_setup_shmat : M state unit :=
  let* l := tcp localshm in
  assertM (match l with Some _ => true | None => false end) ;;;
  let* c := tcp childshm in
  assertM (c =? 0)%Z ;;;
  let* cur_regs := getregs in
  modM (fun s => s {{ cur -> saved_regs := cur_regs }}) ;;;
  let* a := conf personality in
  let* cur_regs :=
    match a with
    | I386 | X86_64_32BIT_EMU => shmat_by_ipc cur_regs
    | X86_64 =>
      let* id := tcp shmid in
      retM (set_reg RDX 0 (set_reg RSI 0 (set_reg RDI id (set_reg ORIG_RAX NR_shmat cur_regs))))%Z
    end in
  setregs_or_exit cur_regs ;;;
  modM (fun s => s {{ cur -> setting_up_shm := true }}).

(** [ptrace(PTRACE_PEEKDATA)], [EXITIF(errno)] *)
Definition peek_or_exit (p a : Z) : M state Z :=
  let* r := sysM (Peekdata p a) in
  match r with inl w => retM w | inr _ => EXITIF true ;;; stopM (Exit 1) end.

(** The address is in the saved word, which gets its contents back; [mask] keeps the low
    32 bits of what a 64-bit tracer reads. *)
Definition shmat_result_by_ipc (mask : bool) (cur_regs : regs) : M state Z :=
  assertM (cur_regs ORIG_RAX =? NR_ipc)%Z ;;;
  assertM (cur_regs RAX =? 0)%Z ;;;
  let* p := tcp pid in
  let* a := tcp savedaddr in
  let* v := peek_or_exit p a in
  let* w := tcp savedword in
  let* r := sysM (Pokedata p a w) in
  EXITIF (negb (r =? 0)%Z) ;;;
  retM (if mask then Z.land v 4294967295 else v)%Z.

Definition finish_setup_shmat : M state unit :=
  let* cur_regs := getregs in
  let* a := conf personality in
  let* v :=
    match a with
    | I386 => shmat_result_by_ipc false cur_regs
    | X86_64_32BIT_EMU => shmat_result_by_ipc true cur_regs
    | X86_64 => assertM (cur_regs ORIG_RAX =? NR_shmat)%Z ;;; retM (cur_regs RAX)
    end in
  modM (fun s => s {{ cur -> childshm := v }}) ;;;
  let* saved := tcp saved_regs in
  let saved := set_reg RAX (saved ORIG_RAX) saved in
  let saved := set_reg RIP (saved RIP - 2)%Z saved in
  modM (fun s => s {{ cur -> saved_regs := saved }}) ;;;
  setregs_or_exit saved ;;;
  assertM (negb (v =? 0)%Z) ;;;
  modM (fun s => s {{ cur -> setting_up_shm := false }}).

(** ** Rewriting arguments *)

(** [strcpy(tcp->localshm + off, s)]; past the segment is undefined behaviour. *)
Definition shm_strcpy (off : nat) (s : cstring) : M state unit :=
  let* l := tcp localshm in
  let* _ := deref l in
  let* id := tcp shmid in
  if off + length s + 1 <=? shared_page_size
  then let* _ := sysM (Shm_store id off (s ++ [NUL])) in skip
  else stopM Segv.

(** The register the sources set for the [n]-th argument (from 1) of a system call. *)
Definition arg_reg (a : abi) (n : nat) : reg :=
  match a with
  | I386 | X86_64_32BIT_EMU =>
    match n with 1 => RBX | 2 => RCX | 3 => RDX | _ => RSI end
  | X86_64 =>
    match n with 1 => RDI | 2 => RSI | 3 => RDX | _ => RCX end
  end.

(** [cur_regs.<reg> = (long)tcp->childshm + off], for each of the pairs. *)
Definition point_args (l : list (nat * nat)) : M state unit :=
  let* cur_regs := getregs in
  let* a := conf personality in
  let* c := tcp childshm in
  setregs (foldl (fun rs '(n, off) => set_reg (arg_reg a n) (c + Z.of_nat off)%Z rs) cur_regs l).

Definition modify_syscall_single_arg (arg_num : nat) (filename : cstring) : M state unit :=
  let* e := conf Cde_exec_mode in
  assertM e ;;;
  let* d := tcp current_dir in
  let* redirected_filename := redirect_filename_into_cderoot filename d true in
  match redirected_filename with
  | None => skip
  | Some redirected_filename =>
    let* c := tcp childshm in
    if (c =? 0)%Z then begin_setup_shmat
    else
      shm_strcpy 0 redirected_filename ;;;
      (if arg_num =? 1 then skip else assertM (arg_num =? 2)) ;;;
      point_args [(arg_num, 0)]
  end.

(** Two arguments: the second path follows the first one in the segment. *)
Definition redirect_two (n1 n2 : nat) : M state unit :=
  let* e := conf Cde_exec_mode in
  assertM e ;;;
  let* c := tcp childshm in
  if (c =? 0)%Z then begin_setup_shmat
  else
    let* d := tcp current_dir in
    let* a1 := arg (n1 - 1) in
    let* filename1 := strcpy_from_child a1 in
    let* redirected_filename1 := redirect_filename_into_cderoot filename1 d true in
    let* a2 := arg (n2 - 1) in
    let* filename2 := strcpy_from_child a2 in
    let* redirected_filename2 := redirect_filename_into_cderoot filename2 d true in
    match redirected_filename1, redirected_filename2 with
    | Some r1, Some r2 =>
      shm_strcpy 0 r1 ;;;
      let len1 := length r1 in
      shm_strcpy (len1 + 1) r2 ;;;
      point_args [(n1, 0); (n2, len1 + 1)]
    | Some r1, None => shm_strcpy 0 r1 ;;; point_args [(n1, 0)]
    | None, Some r2 => shm_strcpy 0 r2 ;;; point_args [(n2, 0)]
    | None, None => skip
    end.

Definition modify_syscall_two_args : M state unit := redirect_two 1 2.
Definition modify_syscall_second_and_fourth_args : M state unit := redirect_two 2 4.
Definition modify_syscall_first_and_third_args : M state unit := redirect_two 1 3.
End Shm.
