(* ===== verification/Sysent.v ===== *)
(** * The tables of system calls (syscall.c, linux/x86_64/syscallent.h, linux/i386/syscallent.h)

    For each system call of a personality, the number of its arguments, its classes, the
    function that handles it (by name) and its name; the number that the tracer's own
    architecture gives the call, where the code compares it. *)
From S2P Require Import Prelude CString State.

(** [struct sysent] *)
Record sysent_entry := E { nargs : Z; sys_flags : Z; func_name : string; sys_name : string; native_scno : Z }.
Arguments E _%_Z _%_Z _%_string_scope _%_string_scope _%_Z.

(** The classes of calls *)
Definition TF : Z := 1.
Definition TI : Z := 2.
Definition TN : Z := 4.
Definition TP : Z := 8.
Definition TS : Z := 16.
Definition TD : Z := 32.
Definition NF : Z := 64.
#[local] Infix "|||" := Z.lor (at level 50, left associativity).

(** linux/x86_64/syscallent.h, calls 0 to 149 *)
Definition syscallent_x86_64_0 : list sysent_entry := [
  E 3 TD "sys_read" "read" 0;
  E 3 TD "sys_write" "write" 0;
  E 3 (TD ||| TF) "sys_open" "open" 0;
  E 1 TD "sys_close" "close" 0;
  E 2 TF "sys_stat" "stat" 0;
  E 2 TD "sys_fstat" "fstat" 0;
  E 2 TF "sys_lstat" "lstat" 0;
  E 3 TD "sys_poll" "poll" 0;
  E 3 TD "sys_lseek" "lseek" 0;
  E 6 TD "sys_mmap" "mmap" 0;
  E 3 0 "sys_mprotect" "mprotect" 0;
  E 2 0 "sys_munmap" "munmap" 0;
  E 1 0 "sys_brk" "brk" 0;
  E 4 TS "sys_rt_sigaction" "rt_sigaction" 0;
  E 4 TS "sys_rt_sigprocmask" "rt_sigprocmask" 0;
  E 1 TS "printargs" "rt_sigreturn" 0;
  E 3 TD "sys_ioctl" "ioctl" 0;
  E 5 TD "sys_pread" "pread" 0;
  E 5 TD "sys_pwrite" "pwrite" 0;
  E 3 TD "sys_readv" "readv" 0;
  E 3 TD "sys_writev" "writev" 0;
  E 2 TF "sys_access" "access" 0;
  E 1 TD "sys_pipe" "pipe" 0;
  E 5 TD "sys_select" "select" 0;
  E 0 0 "sys_sched_yield" "sched_yield" 0;
  E 5 0 "sys_mremap" "mremap" 0;
  E 3 0 "sys_msync" "msync" 0;
  E 3 0 "sys_mincore" "mincore" 0;
  E 3 0 "sys_madvise" "madvise" 0;
  E 4 TI "sys_shmget" "shmget" 0;
  E 4 TI "sys_shmat" "shmat" 0;
  E 4 TI "sys_shmctl" "shmctl" 0;
  E 1 TD "sys_dup" "dup" 0;
  E 2 TD "sys_dup2" "dup2" 0;
  E 0 TS "sys_pause" "pause" 0;
  E 2 0 "sys_nanosleep" "nanosleep" 0;
  E 2 0 "sys_getitimer" "getitimer" 0;
  E 1 0 "sys_alarm" "alarm" 0;
  E 3 0 "sys_setitimer" "setitimer" 0;
  E 0 0 "sys_getpid" "getpid" 0;
  E 4 (TD ||| TN) "sys_sendfile" "sendfile" 0;
  E 3 TN "sys_socket" "socket" 0;
  E 3 TN "sys_connect" "connect" 0;
  E 3 TN "sys_accept" "accept" 0;
  E 6 TN "sys_sendto" "sendto" 0;
  E 6 TN "sys_recvfrom" "recvfrom" 0;
  E 5 TN "sys_sendmsg" "sendmsg" 0;
  E 5 TN "sys_recvmsg" "recvmsg" 0;
  E 2 TN "sys_shutdown" "shutdown" 0;
  E 3 TN "sys_bind" "bind" 0;
  E 2 TN "sys_listen" "listen" 0;
  E 3 TN "sys_getsockname" "getsockname" 0;
  E 3 TN "sys_getpeername" "getpeername" 0;
  E 4 TN "sys_socketpair" "socketpair" 0;
  E 5 TN "sys_setsockopt" "setsockopt" 0;
  E 5 TN "sys_getsockopt" "getsockopt" 0;
  E 5 TP "sys_clone" "clone" 0;
  E 0 TP "sys_fork" "fork" 0;
  E 0 TP "sys_vfork" "vfork" 0;
  E 3 (TF ||| TP) "sys_execve" "execve" 0;
  E 1 TP "sys_exit" "_exit" 0;
  E 4 TP "sys_wait4" "wait4" 0;
  E 2 TS "sys_kill" "kill" 0;
  E 1 0 "sys_uname" "uname" 0;
  E 4 TI "sys_semget" "semget" 0;
  E 4 TI "sys_semop" "semop" 0;
  E 4 TI "sys_semctl" "semctl" 0;
  E 4 TI "sys_shmdt" "shmdt" 0;
  E 4 TI "sys_msgget" "msgget" 0;
  E 4 TI "sys_msgsnd" "msgsnd" 0;
  E 5 TI "sys_msgrcv" "msgrcv" 0;
  E 3 TI "sys_msgctl" "msgctl" 0;
  E 3 TD "sys_fcntl" "fcntl" 0;
  E 2 TD "sys_flock" "flock" 0;
  E 1 TD "sys_fsync" "fsync" 0;
  E 1 TD "sys_fdatasync" "fdatasync" 0;
  E 2 TF "sys_truncate" "truncate" 0;
  E 2 TD "sys_ftruncate" "ftruncate" 0;
  E 3 TD "sys_getdents" "getdents" 0;
  E 2 TF "sys_getcwd" "getcwd" 0;
  E 1 TF "sys_chdir" "chdir" 0;
  E 1 TD "sys_fchdir" "fchdir" 0;
  E 2 TF "sys_rename" "rename" 0;
  E 2 TF "sys_mkdir" "mkdir" 0;
  E 1 TF "sys_rmdir" "rmdir" 0;
  E 2 (TD ||| TF) "sys_creat" "creat" 0;
  E 2 TF "sys_link" "link" 0;
  E 1 TF "sys_unlink" "unlink" 0;
  E 2 TF "sys_symlink" "symlink" 0;
  E 3 TF "sys_readlink" "readlink" 0;
  E 2 TF "sys_chmod" "chmod" 0;
  E 2 TD "sys_fchmod" "fchmod" 0;
  E 3 TF "sys_chown" "chown" 0;
  E 3 TD "sys_fchown" "fchown" 0;
  E 3 TF "sys_chown" "lchown" 0;
  E 1 0 "sys_umask" "umask" 0;
  E 2 0 "sys_gettimeofday" "gettimeofday" 0;
  E 2 0 "sys_getrlimit" "getrlimit" 0;
  E 2 0 "sys_getrusage" "getrusage" 0;
  E 1 0 "sys_sysinfo" "sysinfo" 0;
  E 1 0 "sys_times" "times" 0;
  E 4 0 "sys_ptrace" "ptrace" 0;
  E 0 NF "sys_getuid" "getuid" 0;
  E 3 0 "sys_syslog" "syslog" 0;
  E 0 NF "sys_getgid" "getgid" 0;
  E 1 0 "sys_setuid" "setuid" 0;
  E 1 0 "sys_setgid" "setgid" 0;
  E 0 NF "sys_geteuid" "geteuid" 0;
  E 0 NF "sys_getegid" "getegid" 0;
  E 2 0 "sys_setpgid" "setpgid" 0;
  E 0 0 "sys_getppid" "getppid" 0;
  E 0 0 "sys_getpgrp" "getpgrp" 0;
  E 0 0 "sys_setsid" "setsid" 0;
  E 2 0 "sys_setreuid" "setreuid" 0;
  E 2 0 "sys_setregid" "setregid" 0;
  E 2 0 "sys_getgroups" "getgroups" 0;
  E 2 0 "sys_setgroups" "setgroups" 0;
  E 3 0 "sys_setresuid" "setresuid" 0;
  E 3 0 "sys_getresuid" "getresuid" 0;
  E 3 0 "sys_setresgid" "setresgid" 0;
  E 3 0 "sys_getresgid" "getresgid" 0;
  E 1 0 "sys_getpgid" "getpgid" 0;
  E 1 NF "sys_setfsuid" "setfsuid" 0;
  E 1 NF "sys_setfsgid" "setfsgid" 0;
  E 1 0 "sys_getsid" "getsid" 0;
  E 2 0 "sys_capget" "capget" 0;
  E 2 0 "sys_capset" "capset" 0;
  E 2 TS "sys_rt_sigpending" "rt_sigpending" 0;
  E 4 TS "sys_rt_sigtimedwait" "rt_sigtimedwait" 0;
  E 3 TS "sys_rt_sigqueueinfo" "rt_sigqueueinfo" 0;
  E 2 TS "sys_rt_sigsuspend" "rt_sigsuspend" 0;
  E 2 TS "sys_sigaltstack" "sigaltstack" 0;
  E 2 TF "sys_utime" "utime" 0;
  E 3 TF "sys_mknod" "mknod" 0;
  E 1 TF "sys_uselib" "uselib" 0;
  E 1 0 "sys_personality" "personality" 0;
  E 2 0 "sys_ustat" "ustat" 0;
  E 2 TF "sys_statfs" "statfs" 0;
  E 2 TD "sys_fstatfs" "fstatfs" 0;
  E 3 0 "sys_sysfs" "sysfs" 0;
  E 2 0 "sys_getpriority" "getpriority" 0;
  E 3 0 "sys_setpriority" "setpriority" 0;
  E 0 0 "sys_sched_setparam" "sched_setparam" 0;
  E 2 0 "sys_sched_getparam" "sched_getparam" 0;
  E 3 0 "sys_sched_setscheduler" "sched_setscheduler" 0;
  E 1 0 "sys_sched_getscheduler" "sched_getscheduler" 0;
  E 1 0 "sys_sched_get_priority_max" "sched_get_priority_max" 0;
  E 1 0 "sys_sched_get_priority_min" "sched_get_priority_min" 0;
  E 2 0 "sys_sched_rr_get_interval" "sched_rr_get_interval" 0;
  E 2 0 "sys_mlock" "mlock" 0].

(** linux/x86_64/syscallent.h, calls 150 to 299 *)
Definition syscallent_x86_64_150 : list sysent_entry := [
  E 2 0 "sys_munlock" "munlock" 0;
  E 2 0 "sys_mlockall" "mlockall" 0;
  E 0 0 "sys_munlockall" "munlockall" 0;
  E 0 0 "sys_vhangup" "vhangup" 0;
  E 3 0 "sys_modify_ldt" "modify_ldt" 0;
  E 2 TF "sys_pivotroot" "pivot_root" 0;
  E 1 0 "sys_sysctl" "_sysctl" 0;
  E 5 0 "sys_prctl" "prctl" 0;
  E 2 TP "sys_arch_prctl" "arch_prctl" 0;
  E 1 0 "sys_adjtimex" "adjtimex" 0;
  E 2 0 "sys_setrlimit" "setrlimit" 0;
  E 1 TF "sys_chroot" "chroot" 0;
  E 0 0 "sys_sync" "sync" 0;
  E 1 TF "sys_acct" "acct" 0;
  E 2 0 "sys_settimeofday" "settimeofday" 0;
  E 5 TF "sys_mount" "mount" 0;
  E 2 TF "sys_umount2" "umount" 0;
  E 1 TF "sys_swapon" "swapon" 0;
  E 1 TF "sys_swapoff" "swapoff" 0;
  E 3 0 "sys_reboot" "reboot" 0;
  E 2 0 "sys_sethostname" "sethostname" 0;
  E 2 0 "sys_setdomainname" "setdomainname" 0;
  E 1 0 "sys_iopl" "iopl" 0;
  E 3 0 "sys_ioperm" "ioperm" 0;
  E 2 0 "sys_create_module" "create_module" 0;
  E 3 0 "sys_init_module" "init_module" 0;
  E 2 0 "sys_delete_module" "delete_module" 0;
  E 1 0 "sys_get_kernel_syms" "get_kernel_syms" 0;
  E 5 0 "sys_query_module" "query_module" 0;
  E 4 0 "sys_quotactl" "quotactl" 0;
  E 3 0 "printargs" "nfsservctl" 0;
  E 5 0 "sys_getpmsg" "getpmsg" 0;
  E 5 0 "sys_putpmsg" "putpmsg" 0;
  E 5 0 "sys_afs_syscall" "afs_syscall" 0;
  E 3 0 "printargs" "tuxcall" 0;
  E 3 0 "printargs" "security" 0;
  E 0 0 "printargs" "gettid" 0;
  E 4 TD "sys_readahead" "readahead" 0;
  E 5 TF "sys_setxattr" "setxattr" 0;
  E 5 TF "sys_setxattr" "lsetxattr" 0;
  E 5 TD "sys_fsetxattr" "fsetxattr" 0;
  E 4 TF "sys_getxattr" "getxattr" 0;
  E 4 TF "sys_getxattr" "lgetxattr" 0;
  E 4 TD "sys_fgetxattr" "fgetxattr" 0;
  E 3 TF "sys_listxattr" "listxattr" 0;
  E 3 TF "sys_listxattr" "llistxattr" 0;
  E 3 TD "sys_flistxattr" "flistxattr" 0;
  E 2 TF "sys_removexattr" "removexattr" 0;
  E 2 TF "sys_removexattr" "lremovexattr" 0;
  E 2 TD "sys_fremovexattr" "fremovexattr" 0;
  E 2 0 "sys_kill" "tkill" 0;
  E 1 0 "sys_time" "time" 0;
  E 6 0 "sys_futex" "futex" 0;
  E 3 0 "sys_sched_setaffinity" "sched_setaffinity" 0;
  E 3 0 "sys_sched_getaffinity" "sched_getaffinity" 0;
  E 1 0 "sys_set_thread_area" "set_thread_area" 0;
  E 2 0 "sys_io_setup" "io_setup" 0;
  E 1 0 "sys_io_destroy" "io_destroy" 0;
  E 5 0 "sys_io_getevents" "io_getevents" 0;
  E 3 0 "sys_io_submit" "io_submit" 0;
  E 3 0 "sys_io_cancel" "io_cancel" 0;
  E 1 0 "sys_get_thread_area" "get_thread_area" 0;
  E 4 0 "printargs" "lookup_dcookie" 0;
  E 1 TD "sys_epoll_create" "epoll_create" 0;
  E 4 0 "printargs" "epoll_ctl_old" 0;
  E 4 0 "printargs" "epoll_wait_old" 0;
  E 5 0 "sys_remap_file_pages" "remap_file_pages" 0;
  E 3 TD "sys_getdents64" "getdents64" 0;
  E 1 0 "printargs" "set_tid_address" 0;
  E 0 0 "sys_restart_syscall" "restart_syscall" 0;
  E 5 TI "sys_semtimedop" "semtimedop" 0;
  E 4 TD "sys_fadvise64_64" "fadvise64" 0;
  E 3 0 "sys_timer_create" "timer_create" 0;
  E 4 0 "sys_timer_settime" "timer_settime" 0;
  E 2 0 "sys_timer_gettime" "timer_gettime" 0;
  E 1 0 "sys_timer_getoverrun" "timer_getoverrun" 0;
  E 1 0 "sys_timer_delete" "timer_delete" 0;
  E 2 0 "sys_clock_settime" "clock_settime" 0;
  E 2 0 "sys_clock_gettime" "clock_gettime" 0;
  E 2 0 "sys_clock_getres" "clock_getres" 0;
  E 4 0 "sys_clock_nanosleep" "clock_nanosleep" 0;
  E 1 TP "sys_exit" "exit_group" 0;
  E 5 TD "sys_epoll_wait" "epoll_wait" 0;
  E 5 TD "sys_epoll_ctl" "epoll_ctl" 0;
  E 3 TS "sys_tgkill" "tgkill" 0;
  E 2 TF "sys_utimes" "utimes" 0;
  E 5 0 "printargs" "vserver" 0;
  E 6 0 "sys_mbind" "mbind" 0;
  E 3 0 "sys_set_mempolicy" "set_mempolicy" 0;
  E 5 0 "sys_get_mempolicy" "get_mempolicy" 0;
  E 4 0 "sys_mq_open" "mq_open" 0;
  E 1 0 "sys_mq_unlink" "mq_unlink" 0;
  E 5 0 "sys_mq_timedsend" "mq_timedsend" 0;
  E 5 0 "sys_mq_timedreceive" "mq_timedreceive" 0;
  E 2 0 "sys_mq_notify" "mq_notify" 0;
  E 3 0 "sys_mq_getsetattr" "mq_getsetattr" 0;
  E 5 0 "printargs" "kexec_load" 0;
  E 5 TP "sys_waitid" "waitid" 0;
  E 5 0 "printargs" "add_key" 0;
  E 4 0 "printargs" "request_key" 0;
  E 5 0 "printargs" "keyctl" 0;
  E 3 0 "printargs" "ioprio_set" 0;
  E 2 0 "printargs" "ioprio_get" 0;
  E 0 TD "printargs" "inotify_init" 0;
  E 3 TD "sys_inotify_add_watch" "inotify_add_watch" 0;
  E 2 TD "sys_inotify_rm_watch" "inotify_rm_watch" 0;
  E 4 0 "printargs" "migrate_pages" 0;
  E 4 (TD ||| TF) "sys_openat" "openat" 0;
  E 3 (TD ||| TF) "sys_mkdirat" "mkdirat" 0;
  E 4 (TD ||| TF) "sys_mknodat" "mknodat" 0;
  E 5 (TD ||| TF) "sys_fchownat" "fchownat" 0;
  E 3 (TD ||| TF) "sys_futimesat" "futimesat" 0;
  E 4 (TD ||| TF) "sys_newfstatat" "newfstatat" 0;
  E 3 (TD ||| TF) "sys_unlinkat" "unlinkat" 0;
  E 4 (TD ||| TF) "sys_renameat" "renameat" 0;
  E 5 (TD ||| TF) "sys_linkat" "linkat" 0;
  E 3 (TD ||| TF) "sys_symlinkat" "symlinkat" 0;
  E 4 (TD ||| TF) "sys_readlinkat" "readlinkat" 0;
  E 3 (TD ||| TF) "sys_fchmodat" "fchmodat" 0;
  E 3 (TD ||| TF) "sys_faccessat" "faccessat" 0;
  E 6 TD "sys_pselect6" "pselect6" 0;
  E 5 TD "sys_ppoll" "ppoll" 0;
  E 1 TP "sys_unshare" "unshare" 0;
  E 2 0 "printargs" "set_robust_list" 0;
  E 3 0 "printargs" "get_robust_list" 0;
  E 6 TD "printargs" "splice" 0;
  E 4 TD "printargs" "tee" 0;
  E 4 TD "printargs" "sync_file_range" 0;
  E 4 TD "printargs" "vmsplice" 0;
  E 6 0 "sys_move_pages" "move_pages" 0;
  E 4 (TD ||| TF) "sys_utimensat" "utimensat" 0;
  E 5 TD "sys_epoll_pwait" "epoll_pwait" 0;
  E 3 (TD ||| TS) "sys_signalfd" "signalfd" 0;
  E 2 TD "sys_timerfd_create" "timerfd_create" 0;
  E 1 TD "sys_eventfd" "eventfd" 0;
  E 6 TD "sys_fallocate" "fallocate" 0;
  E 4 TD "sys_timerfd_settime" "timerfd_settime" 0;
  E 2 TD "sys_timerfd_gettime" "timerfd_gettime" 0;
  E 4 TN "sys_accept4" "accept4" 0;
  E 4 (TD ||| TS) "sys_signalfd4" "signalfd4" 0;
  E 2 TD "sys_eventfd2" "eventfd2" 0;
  E 1 TD "sys_epoll_create1" "epoll_create1" 0;
  E 3 TD "sys_dup3" "dup3" 0;
  E 2 TD "sys_pipe2" "pipe2" 0;
  E 1 TD "sys_inotify_init1" "inotify_init1" 0;
  E 5 TD "printargs" "preadv" 0;
  E 5 TD "printargs" "pwritev" 0;
  E 4 (TP ||| TS) "printargs" "rt_tgsigqueueinfo" 0;
  E 5 TD "printargs" "perf_event_open" 0;
  E 5 TN "sys_recvmmsg" "recvmmsg" 0].

(** linux/x86_64/syscallent.h, calls 300 to 302 *)
Definition syscallent_x86_64_300 : list sysent_entry := [
  E 2 TD "printargs" "fanotify_init" 0;
  E 5 (TD ||| TF) "printargs" "fanotify_mark" 0;
  E 4 0 "printargs" "prlimit64" 0].

Definition syscallent_x86_64 : list sysent_entry := syscallent_x86_64_0 ++ syscallent_x86_64_150 ++ syscallent_x86_64_300.

(** linux/i386/syscallent.h, calls 0 to 149 *)
Definition syscallent_i386_0 : list sysent_entry := [
  E 0 0 "sys_restart_syscall" "restart_syscall" 0;
  E 1 TP "sys_exit" "_exit" 60;
  E 0 TP "sys_fork" "fork" 57;
  E 3 TD "sys_read" "read" 0;
  E 3 TD "sys_write" "write" 1;
  E 3 (TD ||| TF) "sys_open" "open" 0;
  E 1 TD "sys_close" "close" 0;
  E 3 TP "sys_waitpid" "waitpid" 61;
  E 2 (TD ||| TF) "sys_creat" "creat" 0;
  E 2 TF "sys_link" "link" 0;
  E 1 TF "sys_unlink" "unlink" 0;
  E 3 (TF ||| TP) "sys_execve" "execve" 59;
  E 1 TF "sys_chdir" "chdir" 0;
  E 1 0 "sys_time" "time" 0;
  E 3 TF "sys_mknod" "mknod" 0;
  E 2 TF "sys_chmod" "chmod" 0;
  E 3 TF "sys_chown" "lchown" 0;
  E 0 0 "sys_break" "break" 0;
  E 2 TF "sys_oldstat" "oldstat" 0;
  E 3 TD "sys_lseek" "lseek" 0;
  E 0 0 "sys_getpid" "getpid" 0;
  E 5 TF "sys_mount" "mount" 0;
  E 1 TF "sys_umount" "oldumount" 0;
  E 1 0 "sys_setuid" "setuid" 0;
  E 0 NF "sys_getuid" "getuid" 0;
  E 1 0 "sys_stime" "stime" 0;
  E 4 0 "sys_ptrace" "ptrace" 0;
  E 1 0 "sys_alarm" "alarm" 0;
  E 2 TD "sys_oldfstat" "oldfstat" 0;
  E 0 TS "sys_pause" "pause" 0;
  E 2 TF "sys_utime" "utime" 0;
  E 2 0 "sys_stty" "stty" 0;
  E 2 0 "sys_gtty" "gtty" 0;
  E 2 TF "sys_access" "access" 0;
  E 1 0 "sys_nice" "nice" 0;
  E 0 0 "sys_ftime" "ftime" 0;
  E 0 0 "sys_sync" "sync" 0;
  E 2 TS "sys_kill" "kill" 0;
  E 2 TF "sys_rename" "rename" 0;
  E 2 TF "sys_mkdir" "mkdir" 0;
  E 1 TF "sys_rmdir" "rmdir" 0;
  E 1 TD "sys_dup" "dup" 0;
  E 1 TD "sys_pipe" "pipe" 0;
  E 1 0 "sys_times" "times" 0;
  E 0 0 "sys_prof" "prof" 0;
  E 1 0 "sys_brk" "brk" 0;
  E 1 0 "sys_setgid" "setgid" 0;
  E 0 NF "sys_getgid" "getgid" 0;
  E 3 TS "sys_signal" "signal" 0;
  E 0 NF "sys_geteuid" "geteuid" 0;
  E 0 NF "sys_getegid" "getegid" 0;
  E 1 TF "sys_acct" "acct" 0;
  E 2 TF "sys_umount2" "umount" 0;
  E 0 0 "sys_lock" "lock" 0;
  E 3 TD "sys_ioctl" "ioctl" 0;
  E 3 TD "sys_fcntl" "fcntl" 0;
  E 0 0 "sys_mpx" "mpx" 0;
  E 2 0 "sys_setpgid" "setpgid" 0;
  E 2 0 "sys_ulimit" "ulimit" 0;
  E 1 0 "sys_oldolduname" "oldolduname" 0;
  E 1 0 "sys_umask" "umask" 0;
  E 1 TF "sys_chroot" "chroot" 0;
  E 2 0 "sys_ustat" "ustat" 0;
  E 2 TD "sys_dup2" "dup2" 0;
  E 0 0 "sys_getppid" "getppid" 0;
  E 0 0 "sys_getpgrp" "getpgrp" 0;
  E 0 0 "sys_setsid" "setsid" 0;
  E 3 TS "sys_sigaction" "sigaction" 0;
  E 0 TS "sys_siggetmask" "siggetmask" 0;
  E 1 TS "sys_sigsetmask" "sigsetmask" 0;
  E 2 0 "sys_setreuid" "setreuid" 0;
  E 2 0 "sys_setregid" "setregid" 0;
  E 3 TS "sys_sigsuspend" "sigsuspend" 0;
  E 1 TS "sys_sigpending" "sigpending" 0;
  E 2 0 "sys_sethostname" "sethostname" 0;
  E 2 0 "sys_setrlimit" "setrlimit" 0;
  E 2 0 "sys_getrlimit" "old_getrlimit" 0;
  E 2 0 "sys_getrusage" "getrusage" 0;
  E 2 0 "sys_gettimeofday" "gettimeofday" 0;
  E 2 0 "sys_settimeofday" "settimeofday" 0;
  E 2 0 "sys_getgroups" "getgroups" 0;
  E 2 0 "sys_setgroups" "setgroups" 0;
  E 1 TD "sys_oldselect" "oldselect" 0;
  E 2 TF "sys_symlink" "symlink" 0;
  E 2 TF "sys_oldlstat" "oldlstat" 0;
  E 3 TF "sys_readlink" "readlink" 0;
  E 1 TF "sys_uselib" "uselib" 0;
  E 1 TF "sys_swapon" "swapon" 0;
  E 3 0 "sys_reboot" "reboot" 0;
  E 3 TD "sys_readdir" "readdir" 0;
  E 6 TD "sys_old_mmap" "old_mmap" 0;
  E 2 0 "sys_munmap" "munmap" 0;
  E 2 TF "sys_truncate" "truncate" 0;
  E 2 TD "sys_ftruncate" "ftruncate" 0;
  E 2 TD "sys_fchmod" "fchmod" 0;
  E 3 TD "sys_fchown" "fchown" 0;
  E 2 0 "sys_getpriority" "getpriority" 0;
  E 3 0 "sys_setpriority" "setpriority" 0;
  E 4 0 "sys_profil" "profil" 0;
  E 2 TF "sys_statfs" "statfs" 0;
  E 2 TD "sys_fstatfs" "fstatfs" 0;
  E 3 0 "sys_ioperm" "ioperm" 0;
  E 2 TD "sys_socketcall" "socketcall" 400;
  E 3 0 "sys_syslog" "syslog" 0;
  E 3 0 "sys_setitimer" "setitimer" 0;
  E 2 0 "sys_getitimer" "getitimer" 0;
  E 2 TF "sys_stat" "stat" 0;
  E 2 TF "sys_lstat" "lstat" 0;
  E 2 TD "sys_fstat" "fstat" 0;
  E 1 0 "sys_olduname" "olduname" 0;
  E 1 0 "sys_iopl" "iopl" 0;
  E 0 0 "sys_vhangup" "vhangup" 0;
  E 0 0 "sys_idle" "idle" 0;
  E 1 0 "sys_vm86old" "vm86old" 0;
  E 4 TP "sys_wait4" "wait4" 61;
  E 1 TF "sys_swapoff" "swapoff" 0;
  E 1 0 "sys_sysinfo" "sysinfo" 0;
  E 6 0 "sys_ipc" "ipc" 420;
  E 1 TD "sys_fsync" "fsync" 0;
  E 1 TS "sys_sigreturn" "sigreturn" 0;
  E 5 TP "sys_clone" "clone" 56;
  E 2 0 "sys_setdomainname" "setdomainname" 0;
  E 1 0 "sys_uname" "uname" 0;
  E 3 0 "sys_modify_ldt" "modify_ldt" 0;
  E 1 0 "sys_adjtimex" "adjtimex" 0;
  E 3 0 "sys_mprotect" "mprotect" 0;
  E 3 TS "sys_sigprocmask" "sigprocmask" 0;
  E 2 0 "sys_create_module" "create_module" 0;
  E 3 0 "sys_init_module" "init_module" 0;
  E 2 0 "sys_delete_module" "delete_module" 0;
  E 1 0 "sys_get_kernel_syms" "get_kernel_syms" 0;
  E 4 0 "sys_quotactl" "quotactl" 0;
  E 1 0 "sys_getpgid" "getpgid" 0;
  E 1 TD "sys_fchdir" "fchdir" 0;
  E 0 0 "sys_bdflush" "bdflush" 0;
  E 3 0 "sys_sysfs" "sysfs" 139;
  E 1 0 "sys_personality" "personality" 0;
  E 5 0 "sys_afs_syscall" "afs_syscall" 0;
  E 1 NF "sys_setfsuid" "setfsuid" 0;
  E 1 NF "sys_setfsgid" "setfsgid" 0;
  E 5 TD "sys_llseek" "_llseek" 0;
  E 3 TD "sys_getdents" "getdents" 0;
  E 5 TD "sys_select" "select" 0;
  E 2 TD "sys_flock" "flock" 0;
  E 3 0 "sys_msync" "msync" 0;
  E 3 TD "sys_readv" "readv" 19;
  E 3 TD "sys_writev" "writev" 20;
  E 1 0 "sys_getsid" "getsid" 0;
  E 1 TD "sys_fdatasync" "fdatasync" 0;
  E 1 0 "sys_sysctl" "_sysctl" 0].

(** linux/i386/syscallent.h, calls 150 to 299 *)
Definition syscallent_i386_150 : list sysent_entry := [
  E 2 0 "sys_mlock" "mlock" 0;
  E 2 0 "sys_munlock" "munlock" 0;
  E 2 0 "sys_mlockall" "mlockall" 0;
  E 0 0 "sys_munlockall" "munlockall" 0;
  E 0 0 "sys_sched_setparam" "sched_setparam" 0;
  E 2 0 "sys_sched_getparam" "sched_getparam" 0;
  E 3 0 "sys_sched_setscheduler" "sched_setscheduler" 0;
  E 1 0 "sys_sched_getscheduler" "sched_getscheduler" 0;
  E 0 0 "sys_sched_yield" "sched_yield" 0;
  E 1 0 "sys_sched_get_priority_max" "sched_get_priority_max" 0;
  E 1 0 "sys_sched_get_priority_min" "sched_get_priority_min" 0;
  E 2 0 "sys_sched_rr_get_interval" "sched_rr_get_interval" 0;
  E 2 0 "sys_nanosleep" "nanosleep" 0;
  E 5 0 "sys_mremap" "mremap" 0;
  E 3 0 "sys_setresuid" "setresuid" 0;
  E 3 0 "sys_getresuid" "getresuid" 0;
  E 5 0 "printargs" "vm86" 0;
  E 5 0 "sys_query_module" "query_module" 0;
  E 3 TD "sys_poll" "poll" 0;
  E 3 0 "printargs" "nfsservctl" 0;
  E 3 0 "sys_setresgid" "setresgid" 0;
  E 3 0 "sys_getresgid" "getresgid" 0;
  E 5 0 "sys_prctl" "prctl" 0;
  E 1 TS "printargs" "rt_sigreturn" 0;
  E 4 TS "sys_rt_sigaction" "rt_sigaction" 0;
  E 4 TS "sys_rt_sigprocmask" "rt_sigprocmask" 0;
  E 2 TS "sys_rt_sigpending" "rt_sigpending" 0;
  E 4 TS "sys_rt_sigtimedwait" "rt_sigtimedwait" 0;
  E 3 TS "sys_rt_sigqueueinfo" "rt_sigqueueinfo" 0;
  E 2 TS "sys_rt_sigsuspend" "rt_sigsuspend" 0;
  E 5 TD "sys_pread" "pread64" 0;
  E 5 TD "sys_pwrite" "pwrite64" 1;
  E 3 TF "sys_chown" "chown" 0;
  E 2 TF "sys_getcwd" "getcwd" 0;
  E 2 0 "sys_capget" "capget" 0;
  E 2 0 "sys_capset" "capset" 0;
  E 2 TS "sys_sigaltstack" "sigaltstack" 0;
  E 4 (TD ||| TN) "sys_sendfile" "sendfile" 0;
  E 5 0 "sys_getpmsg" "getpmsg" 0;
  E 5 0 "sys_putpmsg" "putpmsg" 0;
  E 0 TP "sys_vfork" "vfork" 58;
  E 2 0 "sys_getrlimit" "getrlimit" 0;
  E 6 TD "sys_mmap" "mmap2" 0;
  E 3 TF "sys_truncate64" "truncate64" 0;
  E 3 TD "sys_ftruncate64" "ftruncate64" 0;
  E 2 TF "sys_stat64" "stat64" 0;
  E 2 TF "sys_lstat64" "lstat64" 0;
  E 2 TD "sys_fstat64" "fstat64" 0;
  E 3 TF "sys_chown" "lchown32" 0;
  E 0 NF "sys_getuid" "getuid32" 0;
  E 0 NF "sys_getgid" "getgid32" 0;
  E 0 NF "sys_geteuid" "geteuid32" 0;
  E 0 NF "sys_getegid" "getegid32" 0;
  E 2 0 "sys_setreuid" "setreuid32" 0;
  E 2 0 "sys_setregid" "setregid32" 0;
  E 2 0 "sys_getgroups32" "getgroups32" 0;
  E 2 0 "sys_setgroups32" "setgroups32" 0;
  E 3 TD "sys_fchown" "fchown32" 0;
  E 3 0 "sys_setresuid" "setresuid32" 0;
  E 3 0 "sys_getresuid" "getresuid32" 0;
  E 3 0 "sys_setresgid" "setresgid32" 0;
  E 3 0 "sys_getresgid" "getresgid32" 0;
  E 3 TF "sys_chown" "chown32" 0;
  E 1 0 "sys_setuid" "setuid32" 0;
  E 1 0 "sys_setgid" "setgid32" 0;
  E 1 NF "sys_setfsuid" "setfsuid32" 0;
  E 1 NF "sys_setfsgid" "setfsgid32" 0;
  E 2 TF "sys_pivotroot" "pivot_root" 0;
  E 3 0 "sys_mincore" "mincore" 0;
  E 3 0 "sys_madvise" "madvise" 0;
  E 3 TD "sys_getdents64" "getdents64" 0;
  E 3 TD "sys_fcntl" "fcntl64" 0;
  E 4 0 "printargs" "SYS_222" 0;
  E 5 0 "printargs" "security" 0;
  E 0 0 "printargs" "gettid" 0;
  E 4 TD "sys_readahead" "readahead" 0;
  E 5 TF "sys_setxattr" "setxattr" 0;
  E 5 TF "sys_setxattr" "lsetxattr" 0;
  E 5 TD "sys_fsetxattr" "fsetxattr" 0;
  E 4 TF "sys_getxattr" "getxattr" 0;
  E 4 TF "sys_getxattr" "lgetxattr" 0;
  E 4 TD "sys_fgetxattr" "fgetxattr" 0;
  E 3 TF "sys_listxattr" "listxattr" 0;
  E 3 TF "sys_listxattr" "llistxattr" 0;
  E 3 TD "sys_flistxattr" "flistxattr" 0;
  E 2 TF "sys_removexattr" "removexattr" 0;
  E 2 TF "sys_removexattr" "lremovexattr" 0;
  E 2 TD "sys_fremovexattr" "fremovexattr" 0;
  E 2 TS "sys_kill" "tkill" 0;
  E 4 (TD ||| TN) "sys_sendfile64" "sendfile64" 0;
  E 6 0 "sys_futex" "futex" 0;
  E 3 0 "sys_sched_setaffinity" "sched_setaffinity" 0;
  E 3 0 "sys_sched_getaffinity" "sched_getaffinity" 0;
  E 1 0 "sys_set_thread_area" "set_thread_area" 0;
  E 1 0 "sys_get_thread_area" "get_thread_area" 0;
  E 2 0 "sys_io_setup" "io_setup" 0;
  E 1 0 "sys_io_destroy" "io_destroy" 0;
  E 5 0 "sys_io_getevents" "io_getevents" 0;
  E 3 0 "sys_io_submit" "io_submit" 0;
  E 3 0 "sys_io_cancel" "io_cancel" 0;
  E 5 TD "sys_fadvise64" "fadvise64" 0;
  E 5 0 "printargs" "SYS_251" 0;
  E 1 TP "sys_exit" "exit_group" 231;
  E 4 0 "printargs" "lookup_dcookie" 0;
  E 1 TD "sys_epoll_create" "epoll_create" 0;
  E 4 TD "sys_epoll_ctl" "epoll_ctl" 0;
  E 4 TD "sys_epoll_wait" "epoll_wait" 0;
  E 5 0 "sys_remap_file_pages" "remap_file_pages" 0;
  E 1 0 "printargs" "set_tid_address" 0;
  E 3 0 "sys_timer_create" "timer_create" 0;
  E 4 0 "sys_timer_settime" "timer_settime" 0;
  E 2 0 "sys_timer_gettime" "timer_gettime" 0;
  E 1 0 "sys_timer_getoverrun" "timer_getoverrun" 0;
  E 1 0 "sys_timer_delete" "timer_delete" 0;
  E 2 0 "sys_clock_settime" "clock_settime" 0;
  E 2 0 "sys_clock_gettime" "clock_gettime" 0;
  E 2 0 "sys_clock_getres" "clock_getres" 0;
  E 4 0 "sys_clock_nanosleep" "clock_nanosleep" 0;
  E 3 TF "sys_statfs64" "statfs64" 0;
  E 3 TD "sys_fstatfs64" "fstatfs64" 0;
  E 3 TS "sys_tgkill" "tgkill" 0;
  E 2 TF "sys_utimes" "utimes" 0;
  E 6 TD "sys_fadvise64_64" "fadvise64_64" 0;
  E 5 0 "printargs" "vserver" 0;
  E 6 0 "sys_mbind" "mbind" 0;
  E 5 0 "sys_get_mempolicy" "get_mempolicy" 0;
  E 3 0 "sys_set_mempolicy" "set_mempolicy" 0;
  E 4 0 "sys_mq_open" "mq_open" 0;
  E 1 0 "sys_mq_unlink" "mq_unlink" 0;
  E 5 0 "sys_mq_timedsend" "mq_timedsend" 0;
  E 5 0 "sys_mq_timedreceive" "mq_timedreceive" 0;
  E 2 0 "sys_mq_notify" "mq_notify" 0;
  E 3 0 "sys_mq_getsetattr" "mq_getsetattr" 0;
  E 5 0 "printargs" "kexec_load" 0;
  E 5 TP "sys_waitid" "waitid" 247;
  E 5 0 "printargs" "SYS_285" 0;
  E 5 0 "printargs" "add_key" 0;
  E 4 0 "printargs" "request_key" 0;
  E 5 0 "printargs" "keyctl" 0;
  E 3 0 "printargs" "ioprio_set" 0;
  E 2 0 "printargs" "ioprio_get" 0;
  E 0 TD "printargs" "inotify_init" 0;
  E 3 TD "sys_inotify_add_watch" "inotify_add_watch" 0;
  E 2 TD "sys_inotify_rm_watch" "inotify_rm_watch" 0;
  E 4 0 "printargs" "migrate_pages" 0;
  E 4 (TD ||| TF) "sys_openat" "openat" 0;
  E 3 (TD ||| TF) "sys_mkdirat" "mkdirat" 0;
  E 4 (TD ||| TF) "sys_mknodat" "mknodat" 0;
  E 5 (TD ||| TF) "sys_fchownat" "fchownat" 0;
  E 3 (TD ||| TF) "sys_futimesat" "futimesat" 0].

(** linux/i386/syscallent.h, calls 300 to 444 *)
Definition syscallent_i386_300 : list sysent_entry := [
  E 4 (TD ||| TF) "sys_newfstatat" "fstatat64" 0;
  E 3 (TD ||| TF) "sys_unlinkat" "unlinkat" 0;
  E 4 (TD ||| TF) "sys_renameat" "renameat" 0;
  E 5 (TD ||| TF) "sys_linkat" "linkat" 0;
  E 3 (TD ||| TF) "sys_symlinkat" "symlinkat" 0;
  E 4 (TD ||| TF) "sys_readlinkat" "readlinkat" 0;
  E 3 (TD ||| TF) "sys_fchmodat" "fchmodat" 0;
  E 3 (TD ||| TF) "sys_faccessat" "faccessat" 0;
  E 6 TD "sys_pselect6" "pselect6" 0;
  E 5 TD "sys_ppoll" "ppoll" 0;
  E 1 TP "sys_unshare" "unshare" 0;
  E 2 0 "printargs" "set_robust_list" 0;
  E 3 0 "printargs" "get_robust_list" 0;
  E 6 TD "printargs" "splice" 0;
  E 4 TD "printargs" "sync_file_range" 0;
  E 4 TD "printargs" "tee" 0;
  E 4 TD "printargs" "vmsplice" 0;
  E 6 0 "sys_move_pages" "move_pages" 0;
  E 3 0 "sys_getcpu" "getcpu" 0;
  E 5 TD "sys_epoll_pwait" "epoll_pwait" 0;
  E 4 (TD ||| TF) "sys_utimensat" "utimensat" 0;
  E 3 (TD ||| TS) "sys_signalfd" "signalfd" 0;
  E 2 TD "sys_timerfd_create" "timerfd_create" 0;
  E 1 TD "sys_eventfd" "eventfd" 0;
  E 6 TD "sys_fallocate" "fallocate" 0;
  E 4 TD "sys_timerfd_settime" "timerfd_settime" 0;
  E 2 TD "sys_timerfd_gettime" "timerfd_gettime" 0;
  E 4 (TD ||| TS) "sys_signalfd4" "signalfd4" 0;
  E 2 TD "sys_eventfd2" "eventfd2" 0;
  E 1 TD "sys_epoll_create1" "epoll_create1" 0;
  E 3 TD "sys_dup3" "dup3" 0;
  E 2 TD "sys_pipe2" "pipe2" 0;
  E 1 TD "sys_inotify_init1" "inotify_init1" 0;
  E 5 TD "printargs" "preadv" 0;
  E 5 TD "printargs" "pwritev" 0;
  E 4 (TP ||| TS) "printargs" "rt_tgsigqueueinfo" 0;
  E 5 TD "printargs" "perf_event_open" 0;
  E 5 TN "sys_recvmmsg" "recvmmsg" 0;
  E 2 TD "printargs" "fanotify_init" 0;
  E 5 (TD ||| TF) "printargs" "fanotify_mark" 0;
  E 4 0 "printargs" "prlimit64" 0;
  E 5 0 "printargs" "SYS_341" 0;
  E 5 0 "printargs" "SYS_342" 0;
  E 5 0 "printargs" "SYS_343" 0;
  E 5 0 "printargs" "SYS_344" 0;
  E 5 0 "printargs" "SYS_345" 0;
  E 5 0 "printargs" "SYS_346" 0;
  E 5 0 "printargs" "SYS_347" 0;
  E 5 0 "printargs" "SYS_348" 0;
  E 5 0 "printargs" "SYS_349" 0;
  E 5 0 "printargs" "SYS_350" 0;
  E 5 0 "printargs" "SYS_351" 0;
  E 5 0 "printargs" "SYS_352" 0;
  E 5 0 "printargs" "SYS_353" 0;
  E 5 0 "printargs" "SYS_354" 0;
  E 5 0 "printargs" "SYS_355" 0;
  E 5 0 "printargs" "SYS_356" 0;
  E 5 0 "printargs" "SYS_357" 0;
  E 5 0 "printargs" "SYS_358" 0;
  E 5 0 "printargs" "SYS_359" 0;
  E 5 0 "printargs" "SYS_360" 0;
  E 5 0 "printargs" "SYS_361" 0;
  E 5 0 "printargs" "SYS_362" 0;
  E 5 0 "printargs" "SYS_363" 0;
  E 5 0 "printargs" "SYS_364" 0;
  E 5 0 "printargs" "SYS_365" 0;
  E 5 0 "printargs" "SYS_366" 0;
  E 5 0 "printargs" "SYS_367" 0;
  E 5 0 "printargs" "SYS_368" 0;
  E 5 0 "printargs" "SYS_369" 0;
  E 5 0 "printargs" "SYS_370" 0;
  E 5 0 "printargs" "SYS_371" 0;
  E 5 0 "printargs" "SYS_372" 0;
  E 5 0 "printargs" "SYS_373" 0;
  E 5 0 "printargs" "SYS_374" 0;
  E 5 0 "printargs" "SYS_375" 0;
  E 5 0 "printargs" "SYS_376" 0;
  E 5 0 "printargs" "SYS_377" 0;
  E 5 0 "printargs" "SYS_378" 0;
  E 5 0 "printargs" "SYS_379" 0;
  E 5 0 "printargs" "SYS_380" 0;
  E 5 0 "printargs" "SYS_381" 0;
  E 5 0 "printargs" "SYS_382" 0;
  E 5 0 "printargs" "SYS_383" 0;
  E 5 0 "printargs" "SYS_384" 0;
  E 5 0 "printargs" "SYS_385" 0;
  E 5 0 "printargs" "SYS_386" 0;
  E 5 0 "printargs" "SYS_387" 0;
  E 5 0 "printargs" "SYS_388" 0;
  E 5 0 "printargs" "SYS_389" 0;
  E 5 0 "printargs" "SYS_390" 0;
  E 5 0 "printargs" "SYS_391" 0;
  E 5 0 "printargs" "SYS_392" 0;
  E 5 0 "printargs" "SYS_393" 0;
  E 5 0 "printargs" "SYS_394" 0;
  E 5 0 "printargs" "SYS_395" 0;
  E 5 0 "printargs" "SYS_396" 0;
  E 5 0 "printargs" "SYS_397" 0;
  E 5 0 "printargs" "SYS_398" 0;
  E 5 0 "printargs" "SYS_399" 0;
  E 8 0 "printargs" "socket_subcall" 0;
  E 3 TN "sys_socket" "socket" 0;
  E 3 TN "sys_bind" "bind" 0;
  E 3 TN "sys_connect" "connect" 0;
  E 2 TN "sys_listen" "listen" 0;
  E 3 TN "sys_accept" "accept" 0;
  E 3 TN "sys_getsockname" "getsockname" 0;
  E 3 TN "sys_getpeername" "getpeername" 0;
  E 4 TN "sys_socketpair" "socketpair" 0;
  E 4 TN "sys_send" "send" 409;
  E 4 TN "sys_recv" "recv" 410;
  E 6 TN "sys_sendto" "sendto" 411;
  E 6 TN "sys_recvfrom" "recvfrom" 412;
  E 2 TN "sys_shutdown" "shutdown" 0;
  E 5 TN "sys_setsockopt" "setsockopt" 0;
  E 5 TN "sys_getsockopt" "getsockopt" 0;
  E 5 TN "sys_sendmsg" "sendmsg" 0;
  E 5 TN "sys_recvmsg" "recvmsg" 0;
  E 4 TN "sys_accept4" "accept4" 0;
  E 5 TN "sys_recvmmsg" "recvmmsg" 0;
  E 4 0 "printargs" "ipc_subcall" 0;
  E 4 TI "sys_semop" "semop" 0;
  E 4 TI "sys_semget" "semget" 0;
  E 4 TI "sys_semctl" "semctl" 0;
  E 5 TI "sys_semtimedop" "semtimedop" 0;
  E 4 0 "printargs" "ipc_subcall" 0;
  E 4 0 "printargs" "ipc_subcall" 0;
  E 4 0 "printargs" "ipc_subcall" 0;
  E 4 0 "printargs" "ipc_subcall" 0;
  E 4 0 "printargs" "ipc_subcall" 0;
  E 4 0 "printargs" "ipc_subcall" 0;
  E 4 TI "sys_msgsnd" "msgsnd" 0;
  E 4 TI "sys_msgrcv" "msgrcv" 0;
  E 4 TI "sys_msgget" "msgget" 0;
  E 4 TI "sys_msgctl" "msgctl" 0;
  E 4 0 "printargs" "ipc_subcall" 0;
  E 4 0 "printargs" "ipc_subcall" 0;
  E 4 0 "printargs" "ipc_subcall" 0;
  E 4 0 "printargs" "ipc_subcall" 0;
  E 4 0 "printargs" "ipc_subcall" 0;
  E 4 0 "printargs" "ipc_subcall" 0;
  E 4 TI "sys_shmat" "shmat" 0;
  E 4 TI "sys_shmdt" "shmdt" 0;
  E 4 TI "sys_shmget" "shmget" 0;
  E 4 TI "sys_shmctl" "shmctl" 0].

Definition syscallent_i386 : list sysent_entry := syscallent_i386_0 ++ syscallent_i386_150 ++ syscallent_i386_300.
(** The second set of a 64-bit tracer is the i386 one, with three calls not decoded. *)
Definition not_decoded (e : sysent_entry) : sysent_entry :=
  if existsb (String.eqb (func_name e)) ["sys_oldstat"; "sys_oldfstat"; "sys_oldlstat"]%string
  then E (nargs e) (sys_flags e) "printargs" (sys_name e) (native_scno e) else e.
Definition syscallent1_x86_64 : list sysent_entry := not_decoded <$> syscallent_i386.

(** [sysent], [nsyscalls] and the word size of the current personality *)
Definition sysent (a : abi) : list sysent_entry :=
  match a with I386 => syscallent_i386 | X86_64 => syscallent_x86_64 | X86_64_32BIT_EMU => syscallent1_x86_64 end.
Definition nsyscalls (a : abi) : Z := Z.of_nat (length (sysent a)).
(** [SUPPORTED_PERSONALITIES >= 2]: a 64-bit tracer *)
Definition multi (a : abi) : bool := match a with I386 => false | _ => true end.

(** The number of names in errnoent.h *)
Definition nerrnos : Z := 531.

(** [sysent[scno]], and the test of the range that comes before it *)
Definition in_range (a : abi) (scno : Z) : bool := (0 <=? scno)%Z && (scno <? nsyscalls a)%Z.
Definition entry (a : abi) (scno : Z) : option sysent_entry :=
  if (scno <? 0)%Z then None else sysent a !! Z.to_nat scno.

Definition known_scno_of (a : abi) (scno : Z) : Z :=
  match entry a scno with
  | Some e => if multi a && negb (native_scno e =? 0)%Z then native_scno e else scno
  | None => scno
  end.

(** The bound that the code tests is that of the table. *)
Lemma in_range_entry a scno : in_range a scno = true -> exists e, entry a scno = Some e.
Proof.
  unfold in_range, entry, nsyscalls. intros [H1 H2]%andb_true_iff.
  apply Z.leb_le in H1. apply Z.ltb_lt in H2. destruct (Z.ltb_spec scno 0); [lia|].
  destruct (lookup_lt_is_Some_2 (sysent a) (Z.to_nat scno)) as [e He]; [lia|]. by exists e.
Qed.
