(* ===== verification/Qualify.v ===== *)
(** * Which system calls are traced (syscall.c: qualify)

    strace has a bit per system call and personality for each of several qualities; the
    option -e, and PTU when it starts, set the bits of the calls that are named. *)
From S2P Require Import Prelude CString Os State Sysent.

Definition QUAL_TRACE : Z := 1.
Definition QUAL_ABBREV : Z := 2.
Definition QUAL_VERBOSE : Z := 4.
Definition QUAL_RAW : Z := 8.
Definition QUAL_SIGNAL : Z := 16.
Definition QUAL_FAULT : Z := 32.
Definition QUAL_READ : Z := 64.
Definition QUAL_WRITE : Z := 128.

(** The arrays [qual_flags0], [qual_flags1] of the personalities *)
Definition quals : Type := list Z * list Z.
Definition quals0 : quals := (repeat 0%Z MAX_QUALS, repeat 0%Z MAX_QUALS).

Definition set_bit (bitflag : Z) (neg : bool) (q : Z) : Z := if neg then Z.ldiff q bitflag else Z.lor q bitflag.

(** The personality [-1] is all of them. *)
Definition qualify_one (n : nat) (bitflag : Z) (neg : bool) (pers : Z) (q : quals) : quals :=
  (if (pers <=? 0)%Z then alter (set_bit bitflag neg) n q.1 else q.1,
   if (pers =? 1)%Z || (pers <? 0)%Z then alter (set_bit bitflag neg) n q.2 else q.2).

(** [atoi] on a string that starts with a digit *)
Fixpoint digits_value (s : cstring) (acc : Z) : Z :=
  match s with
  | c :: s' => if isdigit c then digits_value s' (acc * 10 + (Z.of_nat (code c) - 48))%Z else acc
  | [] => acc
  end.
Definition atoi (s : cstring) : Z := to_int (digits_value s 0).
Definition starts_digit (s : cstring) : bool := match s with c :: _ => isdigit c | [] => false end.

(** A number below [MAX_QUALS] *)
Definition qual_number (s : cstring) (bitflag : Z) (neg : bool) (q : quals) : option quals :=
  let i := atoi s in
  if (i <? 0)%Z || (Z.of_nat MAX_QUALS <=? i)%Z then None else Some (qualify_one (Z.to_nat i) bitflag neg (-1) q).

(** The calls of a table that [sel] selects *)
Fixpoint qual_table (sel : sysent_entry -> bool) (i : nat) (t : list sysent_entry) (bitflag : Z) (neg : bool)
    (pers : Z) (q : quals) : quals :=
  match t with
  | [] => q
  | e :: t' => qual_table sel (S i) t' bitflag neg pers (if sel e then qualify_one i bitflag neg pers q else q)
  end.

(** The tables of the personalities of a tracer: [sysent0] and, when there are two, [sysent1] *)
Section Tables.
Context (sysent0 : list sysent_entry) (sysent1 : option (list sysent_entry)).

Definition qual_tables (sel : sysent_entry -> bool) (bitflag : Z) (neg : bool) (q : quals) : quals :=
  let q := qual_table sel 0 sysent0 bitflag neg 0 q in
  match sysent1 with Some t => qual_table sel 0 t bitflag neg 1 q | None => q end.

Definition named (s : cstring) (e : sysent_entry) : bool := strcmp_eq s (lit (sys_name e)).

Definition qual_syscall (s : cstring) (bitflag : Z) (neg : bool) (q : quals) : option quals :=
  if starts_digit s then qual_number s bitflag neg q
  else if existsb (named s) sysent0 || match sysent1 with Some t => existsb (named s) t | None => false end
  then Some (qual_tables (named s) bitflag neg q) else None.

Definition qual_fault (s : cstring) (bitflag : Z) (neg : bool) (q : quals) : option quals := None.

Definition qual_desc (s : cstring) (bitflag : Z) (neg : bool) (q : quals) : option quals :=
  if starts_digit s then qual_number s bitflag neg q else None.

(** [signame(i) + 3], for [i] up to [NSIG] *)
Definition signal_names : list string :=
  ["_0"; "HUP"; "INT"; "QUIT"; "ILL"; "TRAP"; "ABRT"; "BUS"; "FPE"; "KILL"; "USR1"; "SEGV"; "USR2"; "PIPE"; "ALRM";
   "TERM"; "STKFLT"; "CHLD"; "CONT"; "STOP"; "TSTP"; "TTIN"; "TTOU"; "URG"; "XCPU"; "XFSZ"; "VTALRM"; "PROF";
   "WINCH"; "IO"; "PWR"; "SYS"; "RTMIN"]%string.
Definition NSIG : nat := 65.
Definition signame3 (i : nat) : cstring :=
  match signal_names !! i with Some s => lit s | None => lit "RT_" ++ itoa (Z.of_nat (i `min` 64) - 32) end.

Definition tolower (c : ascii) : ascii :=
  if (65 <=? code c) && (code c <=? 90) then ascii_of_nat (code c + 32) else c.
Definition strcasecmp_eq (a b : cstring) : bool := bool_decide (map tolower a = map tolower b).

Definition qual_signal (s : cstring) (bitflag : Z) (neg : bool) (q : quals) : option quals :=
  if starts_digit s then qual_number s bitflag neg q
  else if 32 <=? length s then None
  else
    let s := if strcasecmp_eq (take 3 s) (lit "SIG") then drop 3 s else s in
    match List.find (fun i => strcasecmp_eq s (signame3 i)) (seq 0 (S NSIG)) with
    | Some i => Some (qualify_one i bitflag neg (-1) q)
    | None => None
    end.

Inductive qualifier := Q_syscall | Q_signal | Q_fault | Q_desc.
Definition run_qualifier (f : qualifier) : cstring -> Z -> bool -> quals -> option quals :=
  match f with Q_syscall => qual_syscall | Q_signal => qual_signal | Q_fault => qual_fault | Q_desc => qual_desc end.

Definition qual_options : list (Z * string * qualifier * string) :=
  [(QUAL_TRACE, "trace", Q_syscall, "system call"); (QUAL_TRACE, "t", Q_syscall, "system call");
   (QUAL_ABBREV, "abbrev", Q_syscall, "system call"); (QUAL_ABBREV, "a", Q_syscall, "system call");
   (QUAL_VERBOSE, "verbose", Q_syscall, "system call"); (QUAL_VERBOSE, "v", Q_syscall, "system call");
   (QUAL_RAW, "raw", Q_syscall, "system call"); (QUAL_RAW, "x", Q_syscall, "system call");
   (QUAL_SIGNAL, "signal", Q_signal, "signal"); (QUAL_SIGNAL, "signals", Q_signal, "signal");
   (QUAL_SIGNAL, "s", Q_signal, "signal"); (QUAL_FAULT, "fault", Q_fault, "fault");
   (QUAL_FAULT, "faults", Q_fault, "fault"); (QUAL_FAULT, "m", Q_fault, "fault");
   (QUAL_READ, "read", Q_desc, "descriptor"); (QUAL_READ, "reads", Q_desc, "descriptor");
   (QUAL_READ, "r", Q_desc, "descriptor"); (QUAL_WRITE, "write", Q_desc, "descriptor");
   (QUAL_WRITE, "writes", Q_desc, "descriptor"); (QUAL_WRITE, "w", Q_desc, "descriptor")]%string.

(** The class of calls that a word names, when it is positive *)
Definition lookup_class (s : cstring) : Z :=
  if strcmp_eq s (lit "file") then TF
  else if strcmp_eq s (lit "ipc") then TI
  else if strcmp_eq s (lit "network") then TN
  else if strcmp_eq s (lit "process") then TP
  else if strcmp_eq s (lit "signal") then TS
  else if strcmp_eq s (lit "desc") then TD
  else (-1)%Z.

Definition qualify_all (bitflag : Z) (neg : bool) (q : quals) : quals :=
  fold_left (fun q i => qualify_one i bitflag neg (-1) q) (seq 0 MAX_QUALS) q.

Definition in_class (n : Z) (e : sysent_entry) : bool := negb (Z.land (sys_flags e) n =? 0)%Z.

(** The words of a list one after the other; a word that is not valid ends the run. *)
Fixpoint qualify_words (bitflag : Z) (f : qualifier) (arg : string) (neg : bool) (words : list cstring) (q : quals)
    : M state quals :=
  match words with
  | [] => retM q
  | p :: words' =>
    let n := lookup_class p in
    if (bitflag =? QUAL_TRACE)%Z && (0 <? n)%Z then
      qualify_words bitflag f arg neg words' (qual_tables (in_class n) bitflag neg q)
    else
      match run_qualifier f p bitflag neg q with
      | Some q' => qualify_words bitflag f arg neg words' q'
      | None => eprintf "strace: invalid %s `%s'\n" [PS (lit arg); PS p] ;;; stopM (Exit 1)
      end
  end.

Definition option_of (s : cstring) : (Z * string * qualifier * string) * cstring :=
  match List.find (fun o => let p := lit o.1.1.2 in strncmp_eq s p (length p) && bool_decide (s !! length p = Some "="%char))
          qual_options with
  | Some o => (o, drop (length (lit o.1.1.2) + 1) s)
  | None => ((QUAL_TRACE, "trace", Q_syscall, "system call")%string, s)
  end.

Definition qualify (s : cstring) (q : quals) : M state quals :=
  let '(bitflag, _, f, arg, s) := option_of s in
  let '(neg, s) := if bool_decide (head s = Some "!"%char) then (true, tail s) else (false, s) in
  let '(neg, s) := if strcmp_eq s (lit "none") then (negb neg, lit "all") else (neg, s) in
  if strcmp_eq s (lit "all") then retM (qualify_all bitflag neg q)
  else qualify_words bitflag f arg neg (strtok ","%char s) (qualify_all bitflag (negb neg) q).
End Tables.

(** The tables of the tracers *)
Definition sysent0_of (a : abi) : list sysent_entry := if multi a then syscallent_x86_64 else syscallent_i386.
Definition sysent1_of (a : abi) : option (list sysent_entry) := if multi a then Some syscallent1_x86_64 else None.

(** What main does when the options are read. *)
Definition SYSCALL_1ST : cstring := lit "trace=open,execve,stat,stat64,lstat,lstat64,oldstat,oldlstat,link,symlink,unlink,rename,access,creat,chmod,chown,chown32,lchown,lchown32,readlink,utime,truncate,truncate64,chdir,fchdir,mkdir,rmdir,getcwd,mknod,bind,utimes,openat,ptrace,faccessat,fstatat64,fchownat,fchmodat,futimesat,mknodat,linkat,symlinkat,renameat,readlinkat,mkdirat,unlinkat,setxattr,lsetxattr,getxattr,lgetxattr,listxattr,llistxattr,removexattr,lremovexattr,connect,accept,listen,close,exit_group".

Definition main_qualify (a : abi) : M state unit :=
  let go := qualify (sysent0_of a) (sysent1_of a) in
  let* ps := gets procs in
  let* q := go SYSCALL_1ST (qual_flags0 ps, qual_flags1 ps) in
  let* q := go (lit "abbrev=all") q in
  let* q := go (lit "verbose=all") q in
  let* q := go (lit "signal=all") q in
  modM (fun s => s {{ procs -> qual_flags0 := q.1; procs -> qual_flags1 := q.2 }}).

(** The flags of a call for the current personality *)
Definition qual_flags (a : abi) (ps : strace) : list Z :=
  match a with X86_64_32BIT_EMU => qual_flags1 ps | _ => qual_flags0 ps end.
Definition qual (a : abi) (ps : strace) (n : Z) (bit : Z) : bool :=
  negb (Z.land (nth (Z.to_nat n) (qual_flags a ps) 0%Z) bit =? 0)%Z.
