(* ===== verification/QualifySpec.v ===== *)
(** * The calls that are traced are those that are named *)
From S2P Require Import Prelude CString Os State Sysent Qualify.

(** The bit [k] of the call [n]; the array of a personality *)
Definition bit (k : Z) (l : list Z) (n : nat) : bool := Z.testbit (nth n l 0%Z) k.
Definition plane (second : bool) (q : quals) : list Z := if second then q.2 else q.1.
Definition pers_of (second : bool) : Z := if second then 1 else 0.

Lemma set_bit_testbit k neg v j : (0 <= k)%Z ->
  Z.testbit (set_bit (2 ^ k) neg v) j = if (j =? k)%Z then negb neg else Z.testbit v j.
Proof.
  intros Hk. unfold set_bit.
  destruct neg; rewrite ?Z.ldiff_spec, ?Z.lor_spec, Z.pow2_bits_eqb by done;
    rewrite (Z.eqb_sym k j); destruct (j =? k)%Z; simpl; by rewrite ?andb_false_r, ?andb_true_r, ?orb_true_r, ?orb_false_r.
Qed.

Lemma nth_alter {A} (f : A -> A) (l : list A) n m d :
  nth m (alter f n l) d = if (m =? n) && (m <? length l) then f (nth m l d) else nth m l d.
Proof.
  rewrite !nth_lookup. destruct (Nat.eqb_spec m n) as [->|Hne]; simpl.
  - rewrite list_lookup_alter_eq. destruct (Nat.ltb_spec n (length l)) as [Hn|Hn].
    + by destruct (lookup_lt_is_Some_2 _ _ Hn) as [x ->].
    + by rewrite lookup_ge_None_2.
  - by rewrite list_lookup_alter_ne.
Qed.

Lemma bit_alter k neg l n m j : (0 <= k)%Z ->
  bit j (alter (set_bit (2 ^ k) neg) n l) m
  = if (m =? n) && (m <? length l) && (j =? k)%Z then negb neg else bit j l m.
Proof.
  intros Hk. unfold bit. rewrite nth_alter. destruct ((m =? n) && (m <? length l)); [|done].
  by rewrite set_bit_testbit.
Qed.

Section Bits.
Context (k : Z) (Hk : (0 <= k)%Z).

Lemma length_qualify_one n neg pers q b :
  length (plane b (qualify_one n (2 ^ k) neg pers q)) = length (plane b q).
Proof. unfold qualify_one, plane. destruct b; simpl; case_match; by rewrite ?length_alter. Qed.

(** A change of one call of one personality, or of all *)
Lemma bit_qualify_one n neg pers q b m j : (pers = -1 \/ pers = 0 \/ pers = 1)%Z ->
  bit j (plane b (qualify_one n (2 ^ k) neg pers q)) m
  = if ((pers =? -1) || (pers =? pers_of b))%Z && ((m =? n) && (m <? length (plane b q)) && (j =? k)%Z) then negb neg
    else bit j (plane b q) m.
Proof. intros [-> | [-> | ->]]; destruct b; simpl; by rewrite ?bit_alter. Qed.

(** The call [m] of a table whose first call has the number [i] is selected. *)
Definition selected (sel : sysent_entry -> bool) (i : nat) (t : list sysent_entry) (m : nat) : bool :=
  (i <=? m) && match t !! (m - i) with Some e => sel e | None => false end.

Lemma length_qual_table sel i t neg pers q b :
  length (plane b (qual_table sel i t (2 ^ k) neg pers q)) = length (plane b q).
Proof.
  revert i q; induction t as [|e t IH]; intros i q; simpl; [done|]. rewrite IH.
  destruct (sel e); [apply length_qualify_one|done].
Qed.

Lemma bit_qual_table sel i t neg c q b m j :
  bit j (plane b (qual_table sel i t (2 ^ k) neg (pers_of c) q)) m
  = if eqb b c && selected sel i t m && (m <? length (plane b q)) && (j =? k)%Z then negb neg
    else bit j (plane b q) m.
Proof.
  revert i q; induction t as [|e t IH]; intros i q; simpl qual_table.
  - unfold selected. rewrite lookup_nil, andb_false_r. by rewrite andb_false_r.
  - rewrite IH. clear IH.
    assert (Hlen : length (plane b (if sel e then qualify_one i (2 ^ k) neg (pers_of c) q else q)) = length (plane b q))
      by (destruct (sel e); [apply length_qualify_one|done]).
    rewrite Hlen.
    assert (Hbit : bit j (plane b (if sel e then qualify_one i (2 ^ k) neg (pers_of c) q else q)) m
              = if sel e && eqb b c && (m =? i) && (m <? length (plane b q)) && (j =? k)%Z then negb neg
                else bit j (plane b q) m).
    { destruct (sel e); [|done]. rewrite bit_qualify_one by (destruct c; simpl; tauto).
      replace ((pers_of c =? -1)%Z || (pers_of c =? pers_of b)%Z) with (eqb b c) by (by destruct b, c).
      by rewrite !andb_assoc. }
    rewrite Hbit. clear Hbit Hlen.
    assert (Hsel : selected sel i (e :: t) m = (sel e && (m =? i)) || selected sel (S i) t m).
    { unfold selected. destruct (Nat.eqb_spec m i) as [->|Hne].
      - rewrite Nat.leb_refl, Nat.sub_diag. destruct (Nat.leb_spec (S i) i); [lia|].
        change ((e :: t) !! 0) with (Some e). by destruct (sel e).
      - rewrite andb_false_r. destruct (Nat.leb_spec i m), (Nat.leb_spec (S i) m); try lia; try done.
        replace (m - i) with (S (m - S i)) by lia. done. }
    rewrite Hsel. clear Hsel.
    destruct (eqb b c), (selected sel (S i) t m), (m <? length (plane b q)), (j =? k)%Z, (sel e), (m =? i); done.
Qed.

Section Tables.
Context (t0 : list sysent_entry) (t1 : option (list sysent_entry)).

Definition table (b : bool) : list sysent_entry := if b then default [] t1 else t0.

Lemma length_qual_tables sel neg q b :
  length (plane b (qual_tables t0 t1 sel (2 ^ k) neg q)) = length (plane b q).
Proof. unfold qual_tables. destruct t1; by rewrite ?length_qual_table. Qed.

Lemma bit_qual_tables sel neg q b m j :
  bit j (plane b (qual_tables t0 t1 sel (2 ^ k) neg q)) m
  = if selected sel 0 (table b) m && (m <? length (plane b q)) && (j =? k)%Z then negb neg
    else bit j (plane b q) m.
Proof.
  unfold qual_tables, table.
  destruct t1 as [t|]; simpl.
  - rewrite (bit_qual_table sel 0 t neg true), length_qual_table, (bit_qual_table sel 0 t0 neg false).
    by destruct b.
  - rewrite (bit_qual_table sel 0 t0 neg false). by destruct b.
Qed.

Lemma length_qualify_all neg n q b :
  length (plane b (fold_left (fun q i => qualify_one i (2 ^ k) neg (-1) q) (seq 0 n) q)) = length (plane b q).
Proof.
  induction n as [|n IH]; [done|]. rewrite seq_S, fold_left_app. simpl. by rewrite length_qualify_one.
Qed.

Lemma bit_qualify_all neg n q b m j :
  bit j (plane b (fold_left (fun q i => qualify_one i (2 ^ k) neg (-1) q) (seq 0 n) q)) m
  = if (m <? n) && (m <? length (plane b q)) && (j =? k)%Z then negb neg else bit j (plane b q) m.
Proof.
  induction n as [|n IH]; [done|]. rewrite seq_S, fold_left_app. simpl.
  rewrite bit_qualify_one by tauto. simpl. rewrite length_qualify_all, IH.
  destruct (Nat.ltb_spec m n), (Nat.ltb_spec m (S n)), (Nat.eqb_spec m n); try lia;
    by destruct (m <? length (plane b q)), (j =? k)%Z.
Qed.
End Tables.
End Bits.

(** A list of names as the option takes it *)
Fixpoint join_comma (ws : list cstring) : cstring :=
  match ws with
  | [] => []
  | [w] => w
  | w :: ws' => w ++ ","%char :: join_comma ws'
  end.

Lemma strtok_join ws : Forall (fun w => w <> [] /\ ","%char ∉ w) ws -> strtok ","%char (join_comma ws) = ws.
Proof.
  unfold strtok. induction ws as [|w ws IH]; intros Hws; [done|].
  apply Forall_cons in Hws as [[Hne Hw] Hws]. destruct ws as [|w' ws].
  - simpl. by rewrite strtok_aux_free.
  - change (join_comma (w :: w' :: ws)) with (w ++ ","%char :: join_comma (w' :: ws)).
    rewrite strtok_aux_cut by done. by rewrite IH.
Qed.

Section Trace.
Context (t0 : list sysent_entry) (t1 : option (list sysent_entry)).

(** A word that is the name of a call of a table, not a number or a class *)
Definition call_name (w : cstring) : bool :=
  negb (bool_decide (w = [])) && negb (bool_decide (","%char ∈ w)) && negb (starts_digit w) && (lookup_class w <=? 0)%Z
  && (existsb (named w) t0 || match t1 with Some t => existsb (named w) t | None => false end).

(** The call [n] of a personality has one of the names. *)
Definition is_named (ws : list cstring) (b : bool) (n : nat) : bool :=
  existsb (fun w => selected (named w) 0 (table t0 t1 b) n) ws.

Lemma is_named_iff ws b n :
  is_named ws b n = true <-> exists e, table t0 t1 b !! n = Some e /\ lit (sys_name e) ∈ ws.
Proof.
  unfold is_named, selected. rewrite existsb_exists. setoid_rewrite <- list_elem_of_In. simpl.
  rewrite Nat.sub_0_r. destruct (table t0 t1 b !! n) as [e|].
  - unfold named, strcmp_eq. split.
    + intros (w & Hw & He). apply bool_decide_eq_true_1 in He as ->. eauto.
    + intros (e' & [= <-] & He). exists (lit (sys_name e)). split; [done|]. by apply bool_decide_eq_true_2.
  - split; [by intros (w & _ & ?)|by intros (e & ? & _)].
Qed.

Lemma qualify_words_spec arg ws q s :
  Forall (fun w => call_name w = true) ws ->
  exists q', qualify_words t0 t1 QUAL_TRACE Q_syscall arg false ws q s = Ret (q', s)
    /\ forall b, length (plane b q') = length (plane b q)
       /\ forall n j, bit j (plane b q') n
            = if is_named ws b n && (n <? length (plane b q)) && (j =? 0)%Z then true else bit j (plane b q) n.
Proof.
  intros Hws. revert q. induction Hws as [|w ws Hw Hws IH]; intros q; simpl; [by exists q|].
  unfold call_name in Hw. to_prop.
  match goal with H : (lookup_class w <=? 0)%Z = true |- _ => apply Z.leb_le in H; rename H into Hc end.
  destruct (Z.ltb_spec 0 (lookup_class w)); [lia|]. unfold qual_syscall.
  repeat match goal with H : _ = true |- _ => rewrite H | H : _ = false |- _ => rewrite H end.
  destruct (IH (qual_tables t0 t1 (named w) (2 ^ 0) false q)) as (q' & Hrun & Hq'). exists q'. split; [exact Hrun|].
  intros b. destruct (Hq' b) as [Hlen Hbits]. rewrite length_qual_tables in Hlen, Hbits.
  split; [done|]. intros n j. rewrite Hbits, bit_qual_tables by done. unfold is_named. simpl.
  destruct (existsb _ ws), (selected _ _ _ n), (n <? length (plane b q)), (j =? 0)%Z; done.
Qed.

(** C14.  The option trace= with a list of names makes exactly the calls with these names
    traced, in each personality's table, and changes nothing else. *)
Theorem qualify_trace_correct (ws : list cstring) (q : quals) (s : state)
    (Hws : Forall (fun w => call_name w = true) ws)
    (Hfirst : head (join_comma ws) <> Some "!"%char)
    (Hall : join_comma ws <> lit "all") (Hnone : join_comma ws <> lit "none")
    (Hlen : forall b, length (plane b q) = MAX_QUALS) :
  exists q', qualify t0 t1 (lit "trace=" ++ join_comma ws) q s = Ret (q', s)
    /\ forall b n, n < MAX_QUALS ->
         (bit 0 (plane b q') n = true <-> exists e, table t0 t1 b !! n = Some e /\ lit (sys_name e) ∈ ws)
         /\ forall j, j <> 0%Z -> bit j (plane b q') n = bit j (plane b q) n.
Proof.
  unfold qualify. change (option_of _) with ((QUAL_TRACE, "trace"%string, Q_syscall, "system call"%string), join_comma ws).
  cbv beta iota. rewrite bool_decide_eq_false_2 by done. cbv beta iota. unfold strcmp_eq.
  rewrite (bool_decide_eq_false_2 (join_comma ws = lit "none")) by done. cbv beta iota.
  rewrite (bool_decide_eq_false_2 (join_comma ws = lit "all")) by done.
  rewrite strtok_join by (eapply Forall_impl; [exact Hws|]; intros w Hw; unfold call_name in Hw; to_prop; done).
  set (q0 := qualify_all QUAL_TRACE (negb false) q).
  destruct (qualify_words_spec "system call" ws q0 s Hws) as (q' & Hrun & Hq'). exists q'. split; [exact Hrun|].
  intros b n Hn. destruct (Hq' b) as [_ Hb]. unfold q0, qualify_all in Hb.
  change QUAL_TRACE with (2 ^ 0)%Z in Hb. rewrite length_qualify_all, Hlen in Hb by done.
  apply Nat.ltb_lt in Hn. split.
  - rewrite Hb, bit_qualify_all, Hlen, Hn by done. simpl.
    rewrite <- is_named_iff. by destruct (is_named ws b n).
  - intros j Hj. apply Z.eqb_neq in Hj. rewrite Hb, bit_qualify_all, Hj by done. by rewrite !andb_false_r.
Qed.
End Trace.

Lemma Forall_of_forallb {A} (f : A -> bool) (l : list A) : forallb f l = true -> Forall (fun x => f x = true) l.
Proof. intros H. apply Forall_forall. intros x Hx%list_elem_of_In. by apply (proj1 (forallb_forall f l) H). Qed.

(** The names of PTU's list *)
Definition ptu_calls : list cstring := strtok ","%char (drop 6 SYSCALL_1ST).

Lemma qualify_trace_correct_witness :
  exists q', qualify syscallent_x86_64 (Some syscallent1_x86_64) (lit "trace=" ++ join_comma ptu_calls) quals0 state0
             = Ret (q', state0)
    /\ forall b n, n < MAX_QUALS ->
         (bit 0 (plane b q') n = true
          <-> exists e, table syscallent_x86_64 (Some syscallent1_x86_64) b !! n = Some e /\ lit (sys_name e) ∈ ptu_calls)
         /\ forall j, j <> 0%Z -> bit j (plane b q') n = bit j (plane b quals0) n.
Proof.
  apply (qualify_trace_correct syscallent_x86_64 (Some syscallent1_x86_64) ptu_calls quals0 state0).
  - apply Forall_of_forallb. vm_compute. reflexivity.
  - vm_compute. discriminate.
  - vm_compute. discriminate.
  - vm_compute. discriminate.
  - intros []; vm_compute; reflexivity.
Defined.

(** ** What PTU traces *)

(** The flags after the start *)
Definition started (a : abi) : strace :=
  match main_qualify a state0 with
  | Ret (_, s) => procs s
  | _ => strace0
  end.

(** The calls that have a hook but are not traced *)
Definition untraced (a : abi) (hooks : list string) : list string :=
  let ps := started a in
  omap (fun ne => if existsb (String.eqb (func_name ne.2)) hooks && negb (qual a ps (Z.of_nat ne.1) QUAL_TRACE)
                  then Some (sys_name ne.2) else None)
       (imap (fun i e => (i, e)) (sysent a)).
