(* ===== verification/ProcTab.v ===== *)
(** * The table of processes (strace.c)

    The tcbs of the traced processes are in a table that only grows.  A tcb is found by
    the pid of its process, is taken from the unused ones when a process appears and is
    given back by [droptcb]; it points to the tcb of the parent and counts the children.
    [detach] lets a process go.  A pointer to a tcb is its index; the hooks of cde.c run
    on a copy of the tcb, [cur], which is put back when they return ([on_tcb]).

    Output goes to stderr (no option sets [outfname]), qflag is set and interactive is
    not, so the handler that sets [interrupted] is never installed; the options -C
    (counts) and -d (debug) are taken to be absent. *)
From S2P Require Import Prelude CString Os PerfTimers SysLimits Trie State Shm.

(** [<sys/wait.h>] and signal numbers *)
Definition WIFSTOPPED (st : Z) : bool := (Z.land st 255 =? 127)%Z.
Definition WSTOPSIG (st : Z) : Z := Z.land (Z.shiftr st 8) 255.
Definition WTERMSIG (st : Z) : Z := Z.land st 127.
Definition WEXITSTATUS (st : Z) : Z := Z.land (Z.shiftr st 8) 255.
Definition WIFEXITED (st : Z) : bool := (WTERMSIG st =? 0)%Z.
Definition WIFSIGNALED (st : Z) : bool := negb (WIFEXITED st) && negb (WTERMSIG st =? 127)%Z.
Definition SIGTRAP : Z := 5.
Definition SIGKILL : Z := 9.
Definition SIGTERM : Z := 15.
Definition SIGCHLD : Z := 17.
Definition SIGCONT : Z := 18.
Definition SIGSTOP : Z := 19.
Definition WALL : Z := Z.shiftl 1 30.
Definition WCLONE : Z := Z.shiftl 1 31.

Definition has_flag (f flag : Z) : bool := negb (Z.land f flag =? 0)%Z.

Section Table.
Context {Fu : Fuel}.

(** ** Access through a pointer *)

Definition slot_at (i : nat) : M state slot :=
  let* t := gets (fun s => tcbtab (procs s)) in deref (t !! i).
Definition mod_slot (i : nat) (f : slot -> slot) : M state unit :=
  let* _ := slot_at i in
  modM (fun s => s {{ procs -> tcbtab := alter f i (tcbtab (procs s)) }}).
Definition flags_at (i : nat) : M state Z := let* t := slot_at i in retM (flags (tcb_ t)).
Definition pid_at (i : nat) : M state Z := let* t := slot_at i in retM (pid (tcb_ t)).
Definition flag_at (i : nat) (flag : Z) : M state bool := let* f := flags_at i in retM (has_flag f flag).
Definition or_flags (i : nat) (v : Z) : M state unit :=
  mod_slot i (fun t => t {{ tcb_ -> flags := Z.lor (flags (tcb_ t)) v }}).
Definition clear_flags (i : nat) (v : Z) : M state unit :=
  mod_slot i (fun t => t {{ tcb_ -> flags := Z.ldiff (flags (tcb_ t)) v }}).
Definition tcbtabsize : M state nat := gets (fun s => length (tcbtab (procs s))).
Definition set_nprocs (f : Z -> Z) : M state unit := modM (fun s => s {{ procs -> nprocs := f (nprocs (procs s)) }}).
Definition set_tcp_last (o : option nat) : M state unit := modM (fun s => s {{ procs -> tcp_last := o }}).

(** [cur] is a copy of the element [i]. *)
Definition load_tcb (i : nat) : M state unit :=
  let* t := slot_at i in
  let* par := match parent_ix t with
              | Some p => let* pt := slot_at p in retM (Some (tcb_ pt))
              | None => retM None
              end in
  modM (fun s => s {{ cur := tcb_ t; parent := par; tcp_ix := i }}).
Definition store_tcb (i : nat) : M state unit :=
  let* c := gets cur in mod_slot i (fun t => t {{ tcb_ := c }}).
(** A function of cde.c or provenance.c is called with the tcb [i]. *)
Definition on_tcb {A} (i : nat) (m : M state A) : M state A :=
  load_tcb i ;;; let* a := m in store_tcb i ;;; retM a.

(** ** The table *)

Definition pid_is (p : Z) (t : slot) : bool := (pid (tcb_ t) =? p)%Z && has_flag (flags (tcb_ t)) TCB_INUSE.
Definition pid2tcb (p : Z) : M state (option nat) :=
  if (p <=? 0)%Z then retM None
  else let* t := gets (fun s => tcbtab (procs s)) in retM (fst <$> list_find (fun t => Is_true (pid_is p t)) t).

(** The table doubles; the new elements are zeroed. *)
Definition expand_tcbtab : M state unit :=
  modM (fun s => s {{ procs -> tcbtab := tcbtab (procs s) ++ repeat slot0 (length (tcbtab (procs s))) }}).

Definition unused (t : slot) : bool := negb (has_flag (flags (tcb_ t)) TCB_INUSE).

(** [droptcb] calls itself for the leader of a thread; a bound on the depth. *)
Fixpoint droptcb_rec (depth : nat) (i : nat) : M state unit :=
  match depth with
  | O => stopM (OutOfFuel "droptcb")
  | S depth' =>
    let* t := slot_at i in
    if (pid (tcb_ t) =? 0)%Z then skip
    else if (0 <? nclone_threads t)%Z then or_flags i TCB_EXITING
    else
      set_nprocs Z.pred ;;;
      mod_slot i (fun t => t {{ tcb_ -> pid := 0%Z }}) ;;;
      match parent_ix t with
      | None => skip
      | Some p =>
        let thread := has_flag (flags (tcb_ t)) TCB_CLONE_THREAD in
        mod_slot p (fun q => q {{ nchildren := Z.pred (nchildren q) }}) ;;;
        when thread (mod_slot p (fun q => q {{ nclone_threads := Z.pred (nclone_threads q) }})) ;;;
        mod_slot p (fun q => q {{ nzombies := Z.succ (nzombies q) }}) ;;;
        let* q := slot_at p in
        when (thread && (nclone_threads q =? 0)%Z && has_flag (flags (tcb_ q)) TCB_EXITING)
          (droptcb_rec depth' p) ;;;
        mod_slot i (fun t => t {{ parent_ix := None }})
      end ;;;
      mod_slot i (fun t => t {{ tcb_ -> flags := 0%Z }}) ;;;
      on_tcb i free_tcb_cde_fields
  end.
Definition droptcb (i : nat) : M state unit :=
  let* size := tcbtabsize in droptcb_rec (S size) i.

(** ** ptrace *)

(** [0], also when the process has gone, or [-1]. *)
Definition ptrace_restart (op : restart) (i : nat) (sig : Z) : M state Z :=
  let* p := pid_at i in
  let* err := sysM (Ptrace_restart op p sig) in
  if (err =? 0)%Z || (err =? ESRCH)%Z then retM 0%Z
  else
    mod_slot i (fun t => t {{ ptrace_errno := err }}) ;;;
    eprintf "strace: ptrace(PTRACE_%s,1,%d): %s\n" [PZ sig; PZ err] ;;;
    retM (-1)%Z.

(** The registers of the first two arguments of a call *)
Definition arg0_reg (a : abi) : reg := match a with X86_64 => RDI | _ => RBX end.
Definition arg1_reg (a : abi) : reg := match a with X86_64 => RSI | _ => RCX end.

(** The arguments of clone are restored.  [0], or [-1] for an error that is not that the
    process has gone. *)
Definition clearbpt (i : nat) : M state Z :=
  let* a := conf personality in
  let* t := slot_at i in
  let p := pid (tcb_ t) in
  let* e0 := sysM (Pokeuser p (arg0_reg a) (inst t).1) in
  let* e := (if (e0 =? 0)%Z then sysM (Pokeuser p (arg1_reg a) (inst t).2) else retM e0) in
  if negb (e =? 0)%Z && negb (e =? ESRCH)%Z then retM (-1)%Z
  else clear_flags i TCB_BPTSET ;;; retM 0%Z.

(** ** Processes that wait *)

Definition resume (i : nat) : M state Z :=
  let* t := slot_at i in
  if negb (has_flag (flags (tcb_ t)) TCB_SUSPENDED) then
    eprintf "PANIC: pid %u not suspended\n" [PZ (pid (tcb_ t))] ;;; retM (-1)%Z
  else
    clear_flags i TCB_SUSPENDED ;;;
    when (has_flag (flags (tcb_ t)) TCB_CLONE_THREAD)
      (let* p := deref (parent_ix t) in
       mod_slot p (fun q => q {{ nclone_waiting := Z.pred (nclone_waiting q) }})) ;;;
    ptrace_restart PTRACE_SYSCALL i 0.

(** A thread [t] of the process [p], other than [i], that is suspended in a wait. *)
Definition waiting_thread (p i : nat) (j : nat) (t : slot) : bool :=
  bool_decide (parent_ix t = Some p) && negb (j =? i)
  && has_flag (flags (tcb_ t)) TCB_CLONE_THREAD && has_flag (flags (tcb_ t)) TCB_SUSPENDED.

(** Those that wait for [pid] are resumed; the number of them. *)
Fixpoint resume_waiters (n j p i : nat) (pd error : Z) (resumed : nat) : M state (Z * nat) :=
  match n with
  | O => retM (error, resumed)
  | S n' =>
    let* t := slot_at j in
    if waiting_thread p i j t && (waitpid t =? pd)%Z then
      let* e := resume j in resume_waiters n' (S j) p i pd (Z.lor error e) (S resumed)
    else resume_waiters n' (S j) p i pd error resumed
  end.
(** The first that waits for any child is resumed. *)
Fixpoint resume_wildcard (n j p i : nat) (error : Z) : M state Z :=
  match n with
  | O => retM error
  | S n' =>
    let* t := slot_at j in
    if waiting_thread p i j t && (waitpid t <=? 0)%Z then
      let* e := resume j in retM (Z.lor error e)
    else resume_wildcard n' (S j) p i error
  end.

Definition resume_from_tcp (i : nat) : M state Z :=
  let* t := slot_at i in
  match parent_ix t with
  | None => retM 0%Z
  | Some p =>
    let* q := slot_at p in
    let* r :=
      (if has_flag (flags (tcb_ q)) TCB_SUSPENDED && ((waitpid q <=? 0)%Z || (waitpid q =? pid (tcb_ t))%Z)
       then let* e := resume p in retM (e, 1) else retM (0%Z, 0)) in
    let '(error, resumed) := r in
    let* q := slot_at p in
    if (0 <? nclone_waiting q)%Z then
      let* size := tcbtabsize in
      let* r := resume_waiters size 0 p i (pid (tcb_ t)) error resumed in
      let '(error, resumed) := r in
      if resumed =? 0 then resume_wildcard size 0 p i error else retM error
    else retM error
  end.

(** ** Letting a process go *)

(** [wait4] for the process, with the fall-backs of an old kernel: its status. *)
Definition wait_detached (p : Z) : M state (option Z) :=
  let perror := eprintf "detach: waiting" [] ;;; retM None in
  let* r := sysM (Wait4 p WALL) in
  match r with
  | inl (_, st) => retM (Some st)
  | inr e =>
    if (e =? ECHILD)%Z then retM None
    else if negb (e =? EINVAL)%Z then perror
    else
      let* r := sysM (Wait4 p 0) in
      match r with
      | inl (_, st) => retM (Some st)
      | inr e =>
        if negb (e =? ECHILD)%Z then perror
        else
          let* r := sysM (Wait4 p WCLONE) in
          match r with
          | inl (_, st) => retM (Some st)
          | inr e => if negb (e =? ECHILD)%Z then perror else retM None
          end
      end
  end.

(** Until the process stops with the SIGSTOP that is due, or has ended. *)
Fixpoint catch_sigstop (n i : nat) (sig error : Z) : M state Z :=
  match n with
  | O => stopM (OutOfFuel "detach")
  | S n' =>
    let* p := pid_at i in
    let* st := wait_detached p in
    match st with
    | None => retM error
    | Some st =>
      if negb (WIFSTOPPED st) then retM error
      else if (WSTOPSIG st =? SIGSTOP)%Z then
        let* _ := ptrace_restart PTRACE_DETACH i sig in retM error
      else
        let* error := ptrace_restart PTRACE_CONT i (if (WSTOPSIG st =? SIGTRAP)%Z then 0%Z else WSTOPSIG st) in
        if (error <? 0)%Z then retM error else catch_sigstop n' i sig error
    end
  end.

(** The process group that [tgkill] names *)
Definition tgid_at (i : nat) : M state Z :=
  let* t := slot_at i in
  if has_flag (flags (tcb_ t)) TCB_CLONE_THREAD then let* p := deref (parent_ix t) in pid_at p
  else retM (pid (tcb_ t)).

(** [PTRACE_DETACH]; when the process is not stopped it is sent a SIGSTOP.  The error, and
    whether a SIGSTOP is due. *)
Definition ptrace_detach (i : nat) (sig : Z) : M state (Z * bool) :=
  let* t := slot_at i in
  let p := pid (tcb_ t) in
  let startup := has_flag (flags (tcb_ t)) TCB_STARTUP in
  let* e := sysM (Ptrace_restart PTRACE_DETACH p sig) in
  if (e =? 0)%Z then retM (0%Z, startup)
  else if negb (e =? ESRCH)%Z then
    eprintf "detach: ptrace(PTRACE_DETACH, ...)" [] ;;; retM ((-1)%Z, startup)
  else
    let* g := tgid_at i in
    let* e := sysM (Tgkill g p 0) in
    if negb (e =? 0)%Z then
      when (negb (e =? ESRCH)%Z) (eprintf "detach: checking sanity" []) ;;; retM ((-1)%Z, startup)
    else if startup then retM ((-1)%Z, true)
    else
      let* e := sysM (Tgkill g p SIGSTOP) in
      if negb (e =? 0)%Z then
        when (negb (e =? ESRCH)%Z) (eprintf "detach: stopping child" []) ;;; retM ((-1)%Z, false)
      else retM ((-1)%Z, true).

(** The leader that is left only because of this last thread *)
Definition zombie_leader (i : nat) : M state (option nat) :=
  let* t := slot_at i in
  if has_flag (flags (tcb_ t)) TCB_CLONE_THREAD then
    let* p := deref (parent_ix t) in
    let* q := slot_at p in
    retM (if (nclone_threads q =? 1)%Z && has_flag (flags (tcb_ q)) TCB_EXITING then Some p else None)
  else retM None.

Definition detach (i : nat) (sig : Z) : M state Z :=
  let* zombie := zombie_leader i in
  let* b := flag_at i TCB_BPTSET in
  when b (let* _ := clearbpt i in skip) ;;;
  let* r := ptrace_detach i sig in
  let '(error, due) := r in
  let* error := (if due then catch_sigstop fuel i sig error else retM error) in
  let* e := resume_from_tcp i in
  droptcb i ;;;
  match zombie with Some z => droptcb z | None => skip end ;;;
  retM (Z.lor error e).

(** [detach] as a hook calls it, on the process whose tcb it works on. *)
Definition detach_tcp (sig : Z) : M state unit :=
  let* i := gets tcp_ix in
  store_tcb i ;;; let* _ := detach i sig in load_tcb i.

(** The table's processes are let go or killed. *)
Fixpoint cleanup_loop (n i : nat) : M state unit :=
  match n with
  | O => skip
  | S n' =>
    let* t := slot_at i in
    when (has_flag (flags (tcb_ t)) TCB_INUSE)
      (let* last := gets (fun s => tcp_last (procs s)) in
       when (bool_decide (last <> None)) (eprintf " <unfinished ...>" [] ;;; set_tcp_last None) ;;;
       if has_flag (flags (tcb_ t)) TCB_ATTACHED then let* _ := detach i 0 in skip
       else
         let* _ := sysM (Kill (pid (tcb_ t)) SIGCONT) in
         let* _ := sysM (Kill (pid (tcb_ t)) SIGTERM) in skip) ;;;
    cleanup_loop n' (S i)
  end.
Definition cleanup : M state unit := let* size := tcbtabsize in cleanup_loop size 0.

(** ** A new element *)

(** A tcb that is taken keeps the fields that are not assigned here. *)
Definition init_slot (p : Z) (t : slot) : slot :=
  t {{ tcb_ -> pid := p; parent_ix := None; nchildren := 0%Z; nzombies := 0%Z; nclone_threads := 0%Z;
       nclone_waiting := 0%Z; tcb_ -> flags := Z.lor TCB_INUSE TCB_STARTUP }}.

Definition alloc_tcb (p : Z) : M state nat :=
  let* n := gets (fun s => nprocs (procs s)) in
  let* size := tcbtabsize in
  when (n =? Z.of_nat size)%Z expand_tcbtab ;;;
  let* t := gets (fun s => tcbtab (procs s)) in
  match list_find (fun t => Is_true (unused t)) t with
  | Some (i, _) =>
    mod_slot i (init_slot p) ;;;
    on_tcb i alloc_tcb_cde_fields ;;;
    set_nprocs Z.succ ;;;
    retM i
  | None => eprintf "%s: bug in alloc_tcb\n" [] ;;; cleanup ;;; stopM (Exit 1)
  end.
End Table.
