(* ===== verification/ProcTabSafe.v ===== *)
(** * What the operations of the table may do

    The operations of the table keep the configuration and the options, and make no
    other calls than those of [table_call]. *)
From S2P Require Import Prelude CString Os PerfTimers SysLimits Trie State Shm ProcTab.

(** Calls on a traced process that let it go on, wait for it or end it, and those that
    give back a tcb. *)
Definition table_call (c : sys) : bool :=
  match c with
  | Ptrace_restart _ _ _ | Tgkill _ _ _ | Kill _ _ | Wait4 _ _ | Pokeuser _ _ _ => true
  | Eprintf _ _ | Shmdt _ | Sysconf_open_max => true
  | _ => false
  end.

(** A goal on a state that satisfies [I] is one of [ok]. *)
Ltac to_ok I :=
  lazymatch goal with |- wpM ?K ?m ?s _ _ => cut (okT K I m); [intros H; exact (H s ltac:(assumption))|] end.

(** A change of an element that leaves its pid, its parent and whether it is in use or a
    thread. *)
Definition benign (f : slot -> slot) : Prop :=
  forall t, pid (tcb_ (f t)) = pid (tcb_ t) /\ parent_ix (f t) = parent_ix t
       /\ has_flag (flags (tcb_ (f t))) TCB_INUSE = has_flag (flags (tcb_ t)) TCB_INUSE
       /\ has_flag (flags (tcb_ (f t))) TCB_CLONE_THREAD = has_flag (flags (tcb_ t)) TCB_CLONE_THREAD.

Lemma has_flag_lor f v w : Z.land v w = 0%Z -> has_flag (Z.lor f v) w = has_flag f w.
Proof. intros H. unfold has_flag. by rewrite Z.land_lor_distr_l, H, Z.lor_0_r. Qed.
Lemma has_flag_set f v w : Z.land v w <> 0%Z -> has_flag (Z.lor f v) w = true.
Proof.
  intros H. unfold has_flag. apply negb_true_iff, Z.eqb_neq. rewrite Z.land_lor_distr_l.
  intros [_ ?]%Z.lor_eq_0_iff. done.
Qed.
Lemma has_flag_ldiff f v w : Z.land v w = 0%Z -> has_flag (Z.ldiff f v) w = has_flag f w.
Proof.
  intros H. unfold has_flag. do 2 f_equal. apply Z.bits_inj'. intros k _.
  rewrite !Z.land_spec, Z.ldiff_spec. assert (Hk := f_equal (fun z => Z.testbit z k) H). simpl in Hk.
  rewrite Z.land_spec, Z.bits_0 in Hk. destruct (Z.testbit f k), (Z.testbit v k), (Z.testbit w k); done.
Qed.

(** Flags other than those two *)
Definition plain_flags (v : Z) : Prop := Z.land v TCB_INUSE = 0%Z /\ Z.land v TCB_CLONE_THREAD = 0%Z.
Lemma benign_lor v : plain_flags v -> benign (fun t => t {{ tcb_ -> flags := Z.lor (flags (tcb_ t)) v }}).
Proof.
  intros [H1 H2] t. split; [reflexivity|split; [reflexivity|split]];
    [exact (has_flag_lor _ _ _ H1)|exact (has_flag_lor _ _ _ H2)].
Qed.
Lemma benign_ldiff v : plain_flags v -> benign (fun t => t {{ tcb_ -> flags := Z.ldiff (flags (tcb_ t)) v }}).
Proof.
  intros [H1 H2] t. split; [reflexivity|split; [reflexivity|split]];
    [exact (has_flag_ldiff _ _ _ H1)|exact (has_flag_ldiff _ _ _ H2)].
Qed.

(** A change of the globals that leaves the table, the options of ptrace and the exit code *)
Definition keeps_table (f : state -> state) : Prop :=
  forall s, cfg (f s) = cfg s /\ opts (f s) = opts s /\ tcbtab (procs (f s)) = tcbtab (procs s)
       /\ nprocs (procs (f s)) = nprocs (procs s) /\ ptrace_setoptions (procs (f s)) = ptrace_setoptions (procs s)
       /\ exit_code (procs (f s)) = exit_code (procs s) /\ strace_child (procs (f s)) = strace_child (procs s).

(** Changes that keep the table, the mode and the identity of the current process *)
Definition keeps_view (f : state -> state) : Prop :=
  forall s, cfg (f s) = cfg s /\ opts (f s) = opts s /\ procs (f s) = procs s /\ tcp_ix (f s) = tcp_ix s
       /\ pid (cur (f s)) = pid (cur s) /\ flags (cur (f s)) = flags (cur s).

Section Safe.
Context {Fu : Fuel} (K : contract) (I : state -> Prop).
Context (Kt : forall c, table_call c = true -> may K c).
Context (Hbenign : forall i f, benign f -> okT K I (mod_slot i f)).
Context (Hkeep : forall f, keeps_table f -> okT K I (modM f)).
Context (Hdrop : forall i, okT K I (droptcb i)).
#[local] Hint Extern 0 (may K _) => apply Kt; reflexivity : okdb.
#[local] Hint Extern 1 (ok _ _ (modM _) _) => apply Hkeep; intros ?; repeat split : okdb.
#[local] Hint Extern 1 (ok _ _ (mod_slot _ _) _) => apply Hbenign; intros ?; repeat split : okdb.
#[local] Hint Extern 0 (plain_flags _) => split; reflexivity : okdb.
#[local] Hint Resolve Hdrop : okdb.

Lemma table_gets {A} (f : state -> A) : okT K I (gets f).
Proof. by intros s Hs. Qed.
Lemma table_conf {A} (f : config -> A) : okT K I (conf f).
Proof. by intros s Hs. Qed.
Lemma table_eprint fmt args : okT K I (eprintf fmt args).
Proof. unfold eprintf. oks; auto with okdb. Qed.
#[local] Hint Resolve table_gets table_conf table_eprint | 1 : okdb.

Ltac keep := apply Hkeep; intros ?; repeat split.
Ltac table_step :=
  lazymatch goal with
  | |- ok _ _ (modM _) _ => keep
  | |- ok _ _ (bindM (modM _) _) _ => eapply (ok_bind _ _ _ _ (fun _ => True)); [keep|intros ? _]
  | _ => ok_step
  end.
Ltac table := repeat (table_step; to_prop; try done); auto with okdb.

Lemma ok_slot_at i : okT K I (slot_at i).
Proof. unfold slot_at. table. Qed.
#[local] Hint Resolve ok_slot_at : okdb.
Lemma ok_pid_at i : okT K I (pid_at i).
Proof. unfold pid_at. table. Qed.
Lemma ok_flags_at i : okT K I (flags_at i).
Proof. unfold flags_at. table. Qed.
#[local] Hint Resolve ok_pid_at ok_flags_at : okdb.
Lemma ok_flag_at i v : okT K I (flag_at i v).
Proof. unfold flag_at. table. Qed.
Lemma ok_or_flags i v : plain_flags v -> okT K I (or_flags i v).
Proof. intros Hv. by apply Hbenign, benign_lor. Qed.
Lemma ok_clear_flags i v : plain_flags v -> okT K I (clear_flags i v).
Proof. intros Hv. by apply Hbenign, benign_ldiff. Qed.
Lemma ok_tcbtabsize : okT K I tcbtabsize.
Proof. unfold tcbtabsize. table. Qed.
Lemma ok_set_tcp_last o : okT K I (set_tcp_last o).
Proof. unfold set_tcp_last. table. Qed.
#[local] Hint Resolve ok_flag_at ok_or_flags ok_clear_flags ok_tcbtabsize ok_set_tcp_last : okdb.
Lemma ok_pid2tcb p : okT K I (pid2tcb p).
Proof. unfold pid2tcb. table. Qed.

Lemma ok_restart op i sig : okT K I (ptrace_restart op i sig).
Proof. unfold ptrace_restart. table. Qed.
Lemma ok_clearbpt i : okT K I (clearbpt i).
Proof. unfold clearbpt. table. Qed.
#[local] Hint Resolve ok_restart ok_clearbpt : okdb.
Lemma ok_resume i : okT K I (resume i).
Proof. unfold resume. table. Qed.
#[local] Hint Resolve ok_resume : okdb.
Lemma ok_resume_waiters n j p i pd e r : okT K I (resume_waiters n j p i pd e r).
Proof. revert j e r; induction n; intros; simpl; table. Qed.
Lemma ok_resume_wildcard n j p i e : okT K I (resume_wildcard n j p i e).
Proof. revert j e; induction n; intros; simpl; table. Qed.
#[local] Hint Resolve ok_resume_waiters ok_resume_wildcard : okdb.
Lemma ok_resume_from i : okT K I (resume_from_tcp i).
Proof. unfold resume_from_tcp. table. Qed.
Lemma ok_wait_detached p : okT K I (wait_detached p).
Proof. unfold wait_detached. table. Qed.
#[local] Hint Resolve ok_resume_from ok_wait_detached : okdb.
Lemma ok_catch n i sig e : okT K I (catch_sigstop n i sig e).
Proof. revert e; induction n; intros; simpl; [by apply ok_stop|table]. Qed.
Lemma ok_tgid i : okT K I (tgid_at i).
Proof. unfold tgid_at. table. Qed.
Lemma ok_zombie i : okT K I (zombie_leader i).
Proof. unfold zombie_leader. table. Qed.
#[local] Hint Resolve ok_catch ok_tgid ok_zombie : okdb.
Lemma ok_ptrace_detach i sig : okT K I (ptrace_detach i sig).
Proof. unfold ptrace_detach. table. Qed.
#[local] Hint Resolve ok_ptrace_detach : okdb.
Lemma ok_detach i sig : okT K I (detach i sig).
Proof. unfold detach. table. Qed.
#[local] Hint Resolve ok_detach : okdb.
Lemma ok_cleanup_loop n i : okT K I (cleanup_loop n i).
Proof. revert i; induction n; intros; simpl; table. Qed.
#[local] Hint Resolve ok_cleanup_loop : okdb.
Lemma ok_cleanup : okT K I cleanup.
Proof. unfold cleanup. table. Qed.
End Safe.

(** ** Invariants of the configuration only *)

Section Plain.
Context {Fu : Fuel} (K : contract) (P : config -> options -> Prop).
Let I (s : state) : Prop := P (cfg s) (opts s).
Context (Kt : forall c, table_call c = true -> may K c).
#[local] Hint Extern 0 (may K _) => apply Kt; reflexivity : okdb.

Lemma plain_mod f : (forall s, cfg (f s) = cfg s) -> (forall s, opts (f s) = opts s) -> okT K I (modM f).
Proof. intros H1 H2 s Hs. apply wpM_mod. split; [done|]. unfold I. by rewrite H1, H2. Qed.
Lemma plain_keep f : keeps_table f -> okT K I (modM f).
Proof. intros Hf. apply plain_mod; intros s; by destruct (Hf s) as (? & ? & _). Qed.
#[local] Hint Extern 1 (ok _ _ (modM _) _) => apply plain_mod; reflexivity : okdb.
Lemma plain_tcp {A} (f : tcb -> A) : okT K I (tcp f).
Proof. by intros s Hs. Qed.
#[local] Hint Resolve plain_tcp ok_slot_at : okdb.
#[local] Hint Resolve table_gets table_eprint | 1 : okdb.
Ltac table := repeat (ok_step; to_prop; try done); auto with okdb.

Lemma plain_mod_slot i f : okT K I (mod_slot i f).
Proof. unfold mod_slot. table. Qed.
#[local] Hint Resolve plain_mod_slot : okdb.
Lemma plain_load i : okT K I (load_tcb i).
Proof. unfold load_tcb. table. Qed.
Lemma plain_store i : okT K I (store_tcb i).
Proof. unfold store_tcb. table. Qed.
Lemma plain_set_nprocs f : okT K I (set_nprocs f).
Proof. unfold set_nprocs. table. Qed.
#[local] Hint Resolve plain_load plain_store plain_set_nprocs : okdb.
Lemma plain_on_tcb {A} i (m : M state A) : okT K I m -> okT K I (on_tcb i m).
Proof. intros Hm. unfold on_tcb. table. Qed.
Lemma plain_max_open : okT K I max_open_files.
Proof. unfold max_open_files. table. Qed.
#[local] Hint Resolve plain_max_open : okdb.
Lemma plain_free : okT K I free_tcb_cde_fields.
Proof. unfold free_tcb_cde_fields. table. Qed.
Lemma plain_droptcb_rec n i : okT K I (droptcb_rec n i).
Proof.
  revert i; induction n as [|n IH]; intros i; simpl; [by apply ok_stop|].
  pose proof (plain_on_tcb i free_tcb_cde_fields plain_free). unfold or_flags. table.
Qed.
#[local] Hint Resolve plain_droptcb_rec : okdb.
Lemma plain_droptcb i : okT K I (droptcb i).
Proof. unfold droptcb, tcbtabsize. table. Qed.
Lemma plain_detach i sig : okT K I (detach i sig).
Proof. apply ok_detach; intros; auto using plain_mod_slot, plain_keep, plain_droptcb. Qed.
#[local] Hint Resolve plain_detach : okdb.
Lemma plain_detach_tcp sig : okT K I (detach_tcp sig).
Proof. unfold detach_tcp. table. Qed.
End Plain.
