(* ===== verification/Syscalls.v ===== *)
(** * The hooks of the file system calls (cde.c)

    [CDE_begin_...] runs before the process's system call is done, [CDE_end_...] after
    it.  In audit mode they copy the files into the package and repeat there what the
    call does; in exec mode they redirect the call's paths into the package. *)
From S2P Require Import Prelude CString Os StrUtils PerfTimers OkapiPath OkapiMirror Trie State.
From S2P Require Import ChildMem Redirect Shm.

Definition AT_FDCWD : Z := -100.
Definition AF_UNIX : Z := 1.

Section Syscalls.
Context {Fu : Fuel}.

Definition begin_message (name : string) (filename : cstring) : M state unit :=
  let* p := tcp pid in vbprintf "[%d] BEGIN %s '%s'" [PZ p; PS (lit name); PS filename].
#[global] Arguments begin_message _%_string_scope _.
Definition hook_message (fmt : string) : M state unit := let* p := tcp pid in vbprintf fmt [PZ p].
#[global] Arguments hook_message _%_string_scope.

Definition CDE_begin_standard_fileop (syscall_name : string) : M state unit :=
  let* a := arg 0 in
  let* filename := strcpy_from_child_or_null a in
  match filename with
  | None | Some [] => skip
  | Some filename =>
    begin_message syscall_name filename ;;;
    let* exec := conf Cde_exec_mode in
    if exec then modify_syscall_single_arg 1 filename
    else let* d := tcp current_dir in copy_file_into_cde_root filename d
  end.
#[global] Arguments CDE_begin_standard_fileop _%_string_scope.

Definition CDE_begin_at_fileop (syscall_name : string) : M state unit :=
  let* a := arg 1 in
  let* filename := strcpy_from_child a in
  let* dirfd := arg 0 in
  (let* p := tcp pid in
   vbprintf "[%d] BEGIN %s '%s' (dirfd=%u)" [PZ p; PS (lit syscall_name); PS filename; PZ (dirfd mod 2 ^ 32)]) ;;;
  if negb (IS_ABSPATH filename) && negb (dirfd =? AT_FDCWD)%Z then
    eprintf "CDE WARNING (unsupported operation): %s '%s' is a relative path and dirfd != AT_FDCWD"
            [PS (lit syscall_name); PS filename]
  else
    let* exec := conf Cde_exec_mode in
    if exec then modify_syscall_single_arg 2 filename
    else
      let* id := get_repo_path_id filename in
      if (0 <=? id)%Z then skip
      else let* d := tcp current_dir in copy_file_into_cde_root filename d.
#[global] Arguments CDE_begin_at_fileop _%_string_scope.

(** ** readlink *)

(** The string is written over the output buffer, and its length is the result. *)
Definition fake_readlink (out : Z) (s : cstring) : M state unit :=
  let* p := tcp pid in
  memcpy_to_child p out (s ++ [NUL]) (length s + 1) ;;;
  let* cur_regs := getregs in
  setregs (set_reg RAX (Z.of_nat (length s)) cur_regs).

(** The absolute path in a link that was made relative, if it has the marks of one. *)
Definition unmunge (target : cstring) : option cstring :=
  if strncmp_eq target (lit "./") 2 then
    match strstr target (lit "//") with
    | Some i => Some (drop (i + 1) target)
    | None => None
    end
  else None.

Definition unmunge_readlink (out : Z) : M state unit :=
  let* cur_regs := getregs in
  let ret_length := to_int (cur_regs RAX) in
  if ((ret_length <? 0) || (Z.of_nat MAXPATHLEN <=? ret_length))%Z then stopM Segv
  else
    let n := Z.to_nat ret_length in
    let* b := umoven out n in
    match b with
    | None => skip
    | Some b =>
      (if length b <? n then stopM Segv else skip) ;;;
      match unmunge (until_nul b) with
      | None => skip
      | Some suffix =>
        assertM (IS_ABSPATH suffix) ;;;
        let* root := conf cde_cderoot_dir in
        let* actual_path := format (root ++ suffix) in
        let* st := sysM (Lstat actual_path) in
        match st with
        | None => skip
        | Some _ =>
          let* p := tcp pid in
          memcpy_to_child p out (suffix ++ [NUL]) (length suffix + 1) ;;;
          setregs (set_reg RAX (Z.of_nat (length suffix)) cur_regs)
        end
      end
    end.

Definition CDE_end_readlink_internal (input_buffer_arg_index output_buffer_arg_index : nat) : M state unit :=
  let* a := arg input_buffer_arg_index in
  let* filename := strcpy_from_child a in
  let* exec := conf Cde_exec_mode in
  let* rval := tcp u_rval in
  when (exec && (0 <=? rval)%Z)
    (let* p := tcp pid in
     let* self_pid_name := format (lit "/proc/" ++ itoa p ++ lit "/exe") in
     let* full := tcp perceived_program_fullpath in
     let* out := arg output_buffer_arg_index in
     let is_exe := strcmp_eq filename (lit "/proc/self/exe") || strcmp_eq filename self_pid_name in
     match (if is_exe then full else None) with
     | Some full => fake_readlink out full
     | None =>
       if strcmp_eq filename (lit "/proc/self/cwd") then
         let* d := tcp_str current_dir in
         let* sandboxed_pwd := extract_sandboxed_pwd d true in
         fake_readlink out sandboxed_pwd
       else unmunge_readlink out
     end).
Definition CDE_end_readlink : M state unit := CDE_end_readlink_internal 0 1.
Definition CDE_end_readlinkat : M state unit := CDE_end_readlink_internal 1 2.

(** ** unlink, link, symlink, rename *)

(** [unlink] (or [rmdir]) of the redirected path, if there is one *)
Definition unlink_redirected (filename : cstring) : M state unit :=
  let* d := tcp current_dir in
  let* r := redirect_filename_into_cderoot filename d true in
  match r with
  | Some redirected_path => let* _ := sysM (Unlink redirected_path) in skip
  | None => skip
  end.

Definition CDE_begin_file_unlink : M state unit :=
  let* a := arg 0 in
  let* filename := strcpy_from_child a in
  begin_message "unlink" filename ;;;
  let* exec := conf Cde_exec_mode in
  if exec then modify_syscall_single_arg 1 filename else unlink_redirected filename.

(** A relative path with a directory descriptor is not handled. *)
Definition relative_to_dirfd (path : cstring) (dirfd : Z) : bool :=
  negb (IS_ABSPATH path) && negb (dirfd =? AT_FDCWD)%Z.

Definition CDE_begin_file_unlinkat : M state unit :=
  let* a := arg 1 in
  let* filename := strcpy_from_child a in
  begin_message "unlinkat" filename ;;;
  let* dirfd := arg 0 in
  if relative_to_dirfd filename dirfd then
    eprintf "CDE WARNING: unlinkat '%s' is a relative path and dirfd != AT_FDCWD" [PS filename]
  else
    let* exec := conf Cde_exec_mode in
    if exec then modify_syscall_single_arg 2 filename else unlink_redirected filename.

(** [link(redirected_old, redirected_new)] in the package, the old file having been
    copied there.  With a NULL path the call fails (EFAULT) and is not made here. *)
Definition link_in_package (oldpath : cstring) (new : M state cstring) : M state unit :=
  let* d := tcp current_dir in
  let* redirected_oldpath := redirect_filename_into_cderoot oldpath d true in
  copy_file_into_cde_root oldpath d ;;;
  let* newpath := new in
  let* redirected_newpath := redirect_filename_into_cderoot newpath d true in
  match redirected_oldpath, redirected_newpath with
  | Some o, Some n => let* _ := sysM (Link o n) in skip
  | _, _ => skip
  end.

Definition CDE_begin_file_link : M state unit :=
  hook_message "[%d] BEGIN link" ;;;
  let* exec := conf Cde_exec_mode in
  if exec then modify_syscall_two_args
  else
    let* a0 := arg 0 in
    let* filename1 := strcpy_from_child a0 in
    let* a1 := arg 1 in
    link_in_package filename1 (strcpy_from_child a1).

Definition warn_dirfd (name : string) (path : cstring) : M state unit :=
  eprintf "CDE WARNING: %s '%s' is a relative path and dirfd != AT_FDCWD" [PS (lit name); PS path].
#[global] Arguments warn_dirfd _%_string_scope _.

Definition CDE_begin_file_linkat : M state unit :=
  let* a1 := arg 1 in
  let* oldpath := strcpy_from_child a1 in
  let* a3 := arg 3 in
  let* newpath := strcpy_from_child a3 in
  (let* p := tcp pid in vbprintf "[%d] BEGIN linkat(%s, %s)" [PZ p; PS oldpath; PS newpath]) ;;;
  let* olddirfd := arg 0 in
  let* newdirfd := arg 2 in
  if relative_to_dirfd oldpath olddirfd then warn_dirfd "linkat" oldpath
  else if relative_to_dirfd newpath newdirfd then warn_dirfd "linkat" newpath
  else
    let* exec := conf Cde_exec_mode in
    if exec then modify_syscall_second_and_fourth_args
    else link_in_package oldpath (retM newpath).

(** [symlink(oldname, newname_redirected)] in the package *)
Definition symlink_in_package (oldname newname : cstring) : M state unit :=
  let* d := tcp current_dir in
  let* r := redirect_filename_into_cderoot newname d true in
  match r with
  | Some newname_redirected => let* _ := sysM (Symlink oldname newname_redirected) in skip
  | None => skip
  end.

Definition CDE_begin_file_symlink : M state unit :=
  hook_message "[%d] BEGIN symlink" ;;;
  let* exec := conf Cde_exec_mode in
  if exec then modify_syscall_two_args
  else
    let* a0 := arg 0 in
    let* oldname := strcpy_from_child a0 in
    let* a1 := arg 1 in
    let* newname := strcpy_from_child a1 in
    symlink_in_package oldname newname.

Definition CDE_begin_file_symlinkat : M state unit :=
  hook_message "[%d] BEGIN symlinkat" ;;;
  let* a2 := arg 2 in
  let* newpath := strcpy_from_child a2 in
  let* newdirfd := arg 1 in
  if relative_to_dirfd newpath newdirfd then warn_dirfd "symlinkat" newpath
  else
    let* exec := conf Cde_exec_mode in
    if exec then modify_syscall_first_and_third_args
    else
      let* a0 := arg 0 in
      let* oldname := strcpy_from_child a0 in
      symlink_in_package oldname newpath.

Definition CDE_begin_file_rename : M state unit :=
  hook_message "[%d] BEGIN rename" ;;;
  let* exec := conf Cde_exec_mode in
  when exec modify_syscall_two_args.

(** After a rename that succeeded, outside of the package: the old file is removed from
    the package and the new one copied. *)
Definition end_rename (old new : nat) : M state unit :=
  let* exec := conf Cde_exec_mode in
  let* rval := tcp u_rval in
  when (negb exec && (rval =? 0)%Z)
    (let* a0 := arg old in
     let* filename1 := strcpy_from_child a0 in
     unlink_redirected filename1 ;;;
     let* a1 := arg new in
     let* dst_filename := strcpy_from_child a1 in
     let* d := tcp current_dir in
     copy_file_into_cde_root dst_filename d).

Definition CDE_end_file_rename : M state unit := hook_message "[%d] END rename" ;;; end_rename 0 1.

Definition CDE_begin_file_renameat : M state unit :=
  hook_message "[%d] BEGIN renameat" ;;;
  let* a1 := arg 1 in
  let* oldpath := strcpy_from_child a1 in
  let* a3 := arg 3 in
  let* newpath := strcpy_from_child a3 in
  let* olddirfd := arg 0 in
  let* newdirfd := arg 2 in
  if relative_to_dirfd oldpath olddirfd then warn_dirfd "renameat" oldpath
  else if relative_to_dirfd newpath newdirfd then warn_dirfd "renameat" newpath
  else
    let* exec := conf Cde_exec_mode in
    when exec modify_syscall_second_and_fourth_args.

Definition CDE_end_file_renameat : M state unit := hook_message "[%d] END renameat" ;;; end_rename 1 3.

(** ** Directories *)

Definition CDE_begin_chdir : M state unit := CDE_begin_standard_fileop "chdir".

Definition CDE_end_fchdir : M state unit :=
  let* rval := tcp u_rval in
  when (rval =? 0)%Z
    (let* p := tcp pid in
     let* cwd_symlink_name := format (lit "/proc/" ++ itoa p ++ lit "/cwd") in
     let* old := tcp current_dir in
     let* _ := deref old in
     let* r := sysM (Readlink cwd_symlink_name) in
     let* d := assert_some r in
     assertM (negb (bool_decide (d = []))) ;;;
     modM (fun s => s {{ cur -> current_dir := Some d }}) ;;;
     let* exec := conf Cde_exec_mode in
     let* id := get_repo_path_id d in
     if exec then modM (fun s => s {{ cur -> current_repo_ind := id }})
     else
       let* redirected_path := redirect_filename_into_cderoot d (Some d) true in
       match redirected_path with
       | Some _ => when (id <? 0)%Z (make_mirror_dirs_in_cde_package d false)
       | None => skip
       end).
Definition CDE_end_chdir : M state unit := CDE_end_fchdir.

Definition CDE_begin_mkdir : M state unit := CDE_begin_standard_fileop "mkdir".
Definition CDE_end_mkdir (input_buffer_arg_index : nat) : M state unit :=
  hook_message "[%d] END mkdir*" ;;;
  let* exec := conf Cde_exec_mode in
  let* rval := tcp u_rval in
  when (negb exec && ((rval =? 0)%Z || (rval =? EEXIST)%Z))
    (let* a := arg input_buffer_arg_index in
     let* dirname_arg := strcpy_from_child a in
     let* d := tcp current_dir in
     let* dirname_abspath := assert_some (canonicalize_path dirname_arg (default [] d)) in
     make_mirror_dirs_in_cde_package dirname_abspath false).
Definition CDE_begin_mkdirat : M state unit := CDE_begin_at_fileop "mkdirat".
Definition CDE_end_mkdirat : M state unit := CDE_end_mkdir 1.

Definition CDE_begin_rmdir : M state unit := CDE_begin_standard_fileop "rmdir".
Definition CDE_end_rmdir (input_buffer_arg_index : nat) : M state unit :=
  hook_message "[%d] END rmdir*" ;;;
  let* exec := conf Cde_exec_mode in
  let* rval := tcp u_rval in
  when (negb exec && (rval =? 0)%Z)
    (let* a := arg input_buffer_arg_index in
     let* dirname_arg := strcpy_from_child a in
     let* d := tcp current_dir in
     let* r := redirect_filename_into_cderoot dirname_arg d true in
     match r with
     | Some redirected_path => let* _ := sysM (Rmdir redirected_path) in skip
     | None => skip
     end).
Definition CDE_begin_unlinkat_rmdir : M state unit := CDE_begin_at_fileop "unlinkat_rmdir".
Definition CDE_end_unlinkat_rmdir : M state unit := CDE_end_rmdir 1.

Definition CDE_end_getcwd : M state unit :=
  let* err := tcp u_error in
  when (err =? 0)%Z
    (let* exec := conf Cde_exec_mode in
     let* a := arg 0 in
     if exec then
       let* d := tcp_str current_dir in
       let* sandboxed_pwd := extract_sandboxed_pwd d true in
       let* p := tcp pid in
       memcpy_to_child p a (sandboxed_pwd ++ [NUL]) (length sandboxed_pwd + 1)
     else
       let* tmp := strcpy_from_child a in
       let* d := tcp current_dir in
       let* _ := deref d in
       modM (fun s => s {{ cur -> current_dir := Some tmp }})).

(** ** Sockets *)

Definition sun_path_offset : Z := 2.

(** The length of the address, which is an argument: in an array in memory on i386, in a
    register on x86-64. *)
Definition set_addrlen (new_totallen : Z) : M state unit :=
  let* cur_regs := getregs in
  let* a := conf personality in
  match a with
  | I386 =>
    let* p := tcp pid in
    memcpy_to_child p (cur_regs RCX + 2 * 4)%Z (word_bytes 4 new_totallen) 4
  | _ => setregs (set_reg RDX new_totallen cur_regs)
  end.

Definition redirect_unix_socket (addr : Z) : M state unit :=
  let* original_path := strcpy_from_child (addr + sun_path_offset)%Z in
  let* d := tcp current_dir in
  let* r := redirect_filename_into_cderoot original_path d true in
  match r with
  | None => skip
  | Some redirected_path =>
    let* p := tcp pid in
    memcpy_to_child p (addr + sun_path_offset)%Z (redirected_path ++ [NUL]) (length redirected_path + 1) ;;;
    set_addrlen (Z.of_nat (length redirected_path) + sun_path_offset)%Z
  end.

Definition CDE_begin_socket_bind_or_connect : M state unit :=
  hook_message "[%d] BEGIN socket bind/connect" ;;;
  let* exec := conf Cde_exec_mode in
  when exec
    (let* addr := arg 1 in
     let* a2 := arg 2 in
     let addrlen := to_int a2 in
     when (negb (addr =? 0)%Z)
       (let addrlen := if ((addrlen <? 2) || (128 <? addrlen))%Z then 128 else Z.to_nat addrlen in
        let* b := umoven addr addrlen in
        match b with
        | None => skip
        | Some b =>
          let pad := b ++ repeat NUL (128 - length b) in
          if (word_of (take 2 pad) =? AF_UNIX)%Z then
            if (2 <? addrlen) && negb (bool_decide (nth 2 pad NUL = NUL))
            then redirect_unix_socket addr else skip
          else
            let* block := conf CDE_block_net_access in
            when block (let* p := tcp pid in memcpy_to_child p addr (repeat NUL 16) 16)
        end)).
End Syscalls.
