(* ===== verification/MapsSpec.v ===== *)
(** * Free memory of a process: what [find_free_addr] finds

    A line of /proc/<pid>/maps is parsed back to the mapping it was printed from, and the
    address found is the start of the first mapping that fits. *)
From S2P Require Import Prelude CString Os State Shm.

(** ** Hexadecimal numbers *)

(** The value [scan_hex_digits] accumulates. *)
Fixpoint hex_value (acc : Z) (l : cstring) : Z :=
  match l with
  | c :: l' => hex_value (16 * acc + default 0 (hex_digit c))%Z l'
  | [] => acc
  end.

Lemma hex_digit_of (r : N) : (r < 16)%N ->
  hex_digit (ascii_of_N (if (r <? 10)%N then 48 + r else 87 + r)%N) = Some (Z.of_N r).
Proof.
  intros Hr. do 16 (destruct r as [|r] using N.peano_ind; [reflexivity|clear IHr]). lia.
Qed.

Lemma digits_fuel_hex fuel n acc : (n < 16 ^ N.of_nat (S fuel))%N ->
  exists l, digits_fuel fuel 16 n acc = l ++ acc /\ l <> [] /\ Forall (fun c => is_Some (hex_digit c)) l
    /\ hex_value 0 l = Z.of_N n.
Proof.
  assert (Hsnoc : forall l a c, hex_value a (l ++ [c]) = (16 * hex_value a l + default 0 (hex_digit c))%Z).
  { induction l as [|x l IH]; intros a c; simpl; [done|]. apply IH. }
  revert n acc; induction fuel as [|fuel IH]; intros n acc Hn; simpl;
    pose proof (hex_digit_of (n mod 16) (N.mod_lt n 16 ltac:(done))) as Hd.
  - eexists [_]. split; [reflexivity|]. split_and!; [done|by constructor; [eexists; exact Hd|]|].
    simpl. rewrite Hd. simpl. rewrite N.mod_small; [lia|]. exact Hn.
  - destruct (N.ltb_spec n 16) as [Hlt|Hge].
    + eexists [_]. split; [reflexivity|]. split_and!; [done|by constructor; [eexists; exact Hd|]|].
      simpl. rewrite Hd. simpl. rewrite N.mod_small by done. lia.
    + destruct (IH (n / 16)%N (ascii_of_N (let r := (n mod 16)%N in if (r <? 10)%N then 48 + r else 87 + r)%N :: acc))
        as (l & Hl & Hne & Hall & Hv).
      { apply N.Div0.div_lt_upper_bound. rewrite <- N.pow_succ_r'. by rewrite <- Nat2N.inj_succ. }
      eexists (l ++ [_]). split; [rewrite <- app_assoc; exact Hl|].
      split_and!; [by destruct l|apply Forall_app; split; [done|by constructor; [eexists; exact Hd|]]|].
      rewrite Hsnoc, Hv. cbv zeta. rewrite Hd. cbn [default from_option id].
      rewrite N2Z.inj_div, N2Z.inj_mod. pose proof (Z.div_mod (Z.of_N n) 16 ltac:(done)). cbn in *. lia.
Qed.

Lemma utoa_hex n : exists l, utoa 16 n = l /\ l <> [] /\ Forall (fun c => is_Some (hex_digit c)) l
  /\ hex_value 0 l = Z.of_N n.
Proof.
  destruct (digits_fuel_hex (N.to_nat (N.log2 n)) n []) as (l & Hl & H).
  - rewrite Nat2N.inj_succ, N2Nat.id. destruct (N.eq_dec n 0%N) as [->|Hn]; [done|].
    eapply N.lt_le_trans; [apply N.log2_spec; lia|]. apply N.pow_le_mono_l. lia.
  - exists l. rewrite app_nil_r in Hl. by split.
Qed.

Definition no_hex (rest : cstring) : Prop := forall c, head rest = Some c -> hex_digit c = None.

Lemma scan_hex_digits_app l rest a : Forall (fun c => is_Some (hex_digit c)) l -> no_hex rest ->
  scan_hex_digits (Some a) (l ++ rest) = Some (hex_value a l, rest).
Proof.
  intros Hl Hr. revert a; induction Hl as [|c l [d Hd] _ IH]; intros a; simpl.
  - destruct rest as [|c rest]; [done|]. simpl. by rewrite (Hr c).
  - rewrite Hd. simpl. apply IH.
Qed.

Lemma hex_digit_nonspace c : is_Some (hex_digit c) -> isspace c = false.
Proof. destruct c as [[][][][][][][][]]; intros [? H]; vm_compute in H; try done; reflexivity. Qed.

(** A number as the kernel prints it, with zeros in front up to a width *)
Definition hex_padded (k : nat) (n : N) : cstring := repeat "0"%char (k - length (utoa 16 n)) ++ utoa 16 n.

Lemma hex_padded_value k n : exists l, hex_padded k n = l /\ l <> [] /\ Forall (fun c => is_Some (hex_digit c)) l
  /\ hex_value 0 l = Z.of_N n.
Proof.
  destruct (utoa_hex n) as (l & E & Hne & Hall & Hv). unfold hex_padded. rewrite E. eexists. split; [reflexivity|].
  split_and!; [by destruct l, (_ - _)|apply Forall_app; split; [|done]|].
  - apply Forall_forall. intros c Hc. apply list_elem_of_In, repeat_spec in Hc as ->. by exists 0%Z.
  - induction (k - length l) as [|m IH]; [done|exact IH].
Qed.
Lemma scan_hex_padded k n rest : no_hex rest -> scan_hex (hex_padded k n ++ rest) = Some (Z.of_N n, rest).
Proof.
  destruct (hex_padded_value k n) as (l & -> & Hne & Hall & Hv). intros Hr. unfold scan_hex.
  destruct Hall as [|c l [d Hd] Hall]; [done|].
  rewrite drop_while_none.
  - simpl. rewrite Hd. simpl in *. rewrite scan_hex_digits_app by done. rewrite Hd in Hv. simpl in Hv. by rewrite Hv.
  - intros x [= <-]. by apply hex_digit_nonspace.
Qed.
Lemma scan_hex_space k n rest : no_hex rest -> scan_hex (" "%char :: hex_padded k n ++ rest) = Some (Z.of_N n, rest).
Proof. intros H. unfold scan_hex. simpl. by apply scan_hex_padded. Qed.

(** ** Lines *)

(** A line of the file as the kernel prints it, with "%08lx-%08lx %c%c%c%c %08lx %02x:%02x ":
    the mapping, its offset, and from the inode on the [tail]. *)
Definition print_map (m : map_line) (offset : N) (tail : cstring) : cstring :=
  hex_padded 8 (Z.to_N (cstart m)) ++ "-"%char :: hex_padded 8 (Z.to_N (cend m)) ++ " "%char
  :: mr m :: mw m :: mx m :: mp m :: " "%char :: hex_padded 8 offset ++ " "%char
  :: hex_padded 2 (Z.to_N (major m)) ++ ":"%char :: hex_padded 2 (Z.to_N (minor m)) ++ " "%char :: tail.

Record map_ok (m : map_line) : Prop := {
  mo_start : (0 <= cstart m)%Z;
  mo_end : (0 <= cend m)%Z;
  mo_major : (0 <= major m)%Z;
  mo_minor : (0 <= minor m)%Z;
  mo_r : isspace (mr m) = false;
}.

Lemma sscanf_print m offset tail : map_ok m -> sscanf_maps (print_map m offset tail) = Some m.
Proof.
  intros [H1 H2 H3 H4 H5]. unfold sscanf_maps, print_map.
  assert (Hs : forall c l, hex_digit c = None -> no_hex (c :: l)) by (intros c l Hc x [= <-]; exact Hc).
  rewrite scan_hex_padded by by apply Hs. cbn [mbind option_bind scan_lit]. rewrite bool_decide_eq_true_2 by done.
  cbn [mbind option_bind]. rewrite scan_hex_padded by by apply Hs. cbn [mbind option_bind].
  assert (Hsp : forall l, drop_while isspace (" "%char :: mr m :: l) = mr m :: l).
  { intros l. simpl. by rewrite H5. }
  rewrite Hsp. cbn [mbind option_bind scan_char].
  rewrite scan_hex_space by by apply Hs. cbn [mbind option_bind].
  rewrite scan_hex_space by by apply Hs. cbn [mbind option_bind scan_lit]. rewrite bool_decide_eq_true_2 by done.
  cbn [mbind option_bind]. rewrite scan_hex_padded by by apply Hs. cbn [mbind option_bind].
  rewrite !Z2N.id by done. by destruct m.
Qed.

(** ** The search *)

Definition maps_name (p : Z) : cstring := lit "/proc/" ++ itoa p ++ lit "/maps".

(** A file that is read line by line ([left w] are the lines to come): [fgets] with 80
    bytes returns a line of at most 79. Reading it relates the worlds by [R]. *)
Record maps_file {W} (h : forall c, W -> reply c * W) (p f : Z) (lines : list cstring)
    (left : W -> list cstring) (R : W -> W -> Prop) : Prop := {
  mf_open : forall w, (h (Fopen (maps_name p) F_read) w).1 = Some f
    /\ left (h (Fopen (maps_name p) F_read) w).2 = lines /\ R w (h (Fopen (maps_name p) F_read) w).2;
  mf_gets : forall w, R w (h (Fgets f 80) w).2 /\
    match left w with
    | [] => (h (Fgets f 80) w).1 = None
    | l :: k => length l < 80 -> (h (Fgets f 80) w).1 = Some l /\ left (h (Fgets f 80) w).2 = k
    end;
  mf_close : forall w, R w (h (Fclose f) w).2;
}.

(** What the caller asks for. *)
Definition suitable (prot size : Z) (m : map_line) : Prop :=
  (size <= (cend m - cstart m) mod 2 ^ 64)%Z
  /\ (has_flag prot FILEBACK = true \/ (major m = 0 /\ minor m = 0)%Z)
  /\ mp m = "p"%char
  /\ (has_flag prot PROT_READ = true -> mr m = "r"%char)
  /\ (has_flag prot PROT_EXEC = true -> mx m = "x"%char)
  /\ (has_flag prot PROT_WRITE = true -> mw m = "w"%char).

Lemma mapping_fits_spec prot size m : mapping_fits prot size m = true <-> suitable prot size m.
Proof.
  unfold mapping_fits, suitable. rewrite !andb_true_iff, !negb_true_iff, !bool_decide_eq_true.
  rewrite !andb_false_iff, !negb_false_iff, !bool_decide_eq_true, orb_false_iff, !negb_false_iff.
  rewrite Z.ltb_ge, !Z.eqb_eq.
  destruct (has_flag prot FILEBACK), (has_flag prot PROT_READ), (has_flag prot PROT_EXEC),
    (has_flag prot PROT_WRITE); naive_solver.
Qed.

(** The answer for the mappings [ms]. *)
Definition first_fit (prot size : Z) (ms : list map_line) (a : Z) : Prop :=
  (Forall (fun m => ~ suitable prot size m) ms /\ a = 0%Z)
  \/ exists l1 m l2, ms = l1 ++ m :: l2 /\ Forall (fun m => ~ suitable prot size m) l1
     /\ suitable prot size m /\ a = cstart m.

Lemma first_fit_cons prot size m ms a :
  ~ suitable prot size m -> first_fit prot size ms a -> first_fit prot size (m :: ms) a.
Proof.
  intros Hm [[H ->]|(l1 & m' & l2 & -> & H & Hs & ->)]; [left; auto|right].
  exists (m :: l1), m', l2. by split_and!; [|constructor|..].
Qed.

Section Search.
Context {Fu : Fuel} {W : Type} (h : forall c, W -> reply c * W) (p f prot size : Z).
Context (left : W -> list cstring) (R : W -> W -> Prop) `{!Reflexive R, !Transitive R}.
Context (ms : list (map_line * N * cstring)).
Let line '(m, off, tail) : cstring := print_map m off tail.
Context (Hf : maps_file h p f (map line ms) left R).

Lemma maps_loop_finds k n (s : state) w :
  left w = map line k -> Forall (fun x => map_ok x.1.1 /\ length (line x) < 80) k -> length k < n ->
  exists tr w' a, returns h (maps_loop n f prot size) s w tr a s w'
    /\ R w w' /\ first_fit prot size (map (fun x => x.1.1) k) a.
Proof.
  revert n w; induction k as [|[[m off] tail] k IH]; intros n w Hl Hok Hn;
    (destruct n as [|n]; [simpl in Hn; lia|]); cbn [maps_loop];
    destruct (mf_gets _ _ _ _ _ _ Hf w) as [HR Hg]; rewrite Hl in Hg.
  - eexists _, _, 0%Z. split; [|split; [transitivity (h (Fgets f 80) w).2; [done|apply (mf_close _ _ _ _ _ _ Hf)]|by left]].
    eapply returns_sys_bind; [exact Hg|done|]. eapply returns_sys_bind; [done..|]. apply returns_ret.
  - inversion_clear Hok as [|? ? [Hm Hlen] Hok']. destruct (Hg Hlen) as [Hr Hl'].
    destruct (mapping_fits prot size m) eqn:E.
    + eexists _, _, (cstart m). split; [|split; [transitivity (h (Fgets f 80) w).2; [done|apply (mf_close _ _ _ _ _ _ Hf)]|]].
      * eapply returns_sys_bind; [exact Hr|done|]. simpl in Hm. cbv beta iota. unfold line. rewrite sscanf_print by done.
        eapply returns_pure_bind; [reflexivity|]. cbv beta. rewrite E. eapply returns_sys_bind; [done..|]. apply returns_ret.
      * right. exists [], m, (map (fun x => x.1.1) k). apply mapping_fits_spec in E. by split_and!.
    + destruct (IH n _ Hl' Hok' ltac:(simpl in Hn; lia)) as (tr & w' & a & Hret & HR' & Hff).
      eexists _, w', a. split; [|split; [by transitivity (h (Fgets f 80) w).2|]].
      * eapply returns_sys_bind; [exact Hr|done|]. simpl in Hm. cbv beta iota. unfold line. rewrite sscanf_print by done.
        eapply returns_pure_bind; [reflexivity|]. cbv beta. rewrite E. exact Hret.
      * apply first_fit_cons; [|done]. intros E1%mapping_fits_spec. simpl in E1. congruence.
Qed.

Lemma find_free_addr_finds (s : state) w :
  length (maps_name p) < 20 -> Forall (fun x => map_ok x.1.1 /\ length (line x) < 80) ms -> length ms < fuel ->
  exists tr w' a, returns h (find_free_addr p prot size) s w tr a s w'
    /\ R w w' /\ first_fit prot size (map (fun x => x.1.1) ms) a.
Proof.
  intros Hp Hok Hn. destruct (mf_open _ _ _ _ _ _ Hf w) as (Ho & Hl & HR).
  destruct (maps_loop_finds ms fuel s _ Hl Hok Hn) as (tr & w' & a & Hret & HR' & Hff).
  eexists _, w', a. split; [|split; [by etransitivity|done]].
  unfold find_free_addr. eapply (returns_pure_bind _ _ _ _ s (maps_name p)).
  { unfold strbuf. fold (maps_name p). by rewrite (proj2 (Nat.ltb_lt _ _)). }
  eapply returns_sys_bind; [exact Ho|done|]. exact Hret.
Qed.
End Search.

(** C34.  [find_free_addr] reads /proc/<pid>/maps, as the kernel prints it, and returns the
    start of the first mapping that is as large and has the rights that are asked for, is
    private and (unless FILEBACK is asked for) anonymous, or NULL if there is none: provided
    that each line of the file, its newline included, is shorter than the buffer of 80
    bytes.  A 64-bit kernel pads a line that has a name to 73 characters, so that most
    files and even the heap exceed it; a 32-bit kernel pads to 49. *)
Theorem find_free_addr_correct {Fu : Fuel} {W} (h : forall c, W -> reply c * W) (p f prot size : Z)
    (left : W -> list cstring) (ms : list (map_line * N * cstring)) (s : state) (w : W)
    (Hf : maps_file h p f (map (fun '(m, off, tail) => print_map m off tail) ms) left (fun _ _ => True))
    (Hp : length (maps_name p) < 20)
    (Hok : Forall (fun '(m, off, tail) => map_ok m /\ length (print_map m off tail) < 80) ms)
    (Hfuel : length ms < fuel) :
  exists tr w' a, returns h (find_free_addr p prot size) s w tr a s w'
    /\ first_fit prot size (map (fun x => x.1.1) ms) a.
Proof.
  assert (Htr : Transitive (fun _ _ : W => True)) by done.
  destruct (find_free_addr_finds h p f prot size left (fun _ _ => True) ms Hf s w Hp) as (tr & w' & a & Hret & _ & Hff);
    [|exact Hfuel|].
  - eapply Forall_impl; [exact Hok|]. by intros [[m off] tail].
  - exists tr, w', a. split; [exact Hret|exact Hff].
Qed.

(** A text mapping of a file, then a heap, as a 32-bit kernel prints them, with the names
    from the column 49 on: the world is the lines left. *)
Definition text_map : map_line :=
  {| cstart := 4194304; cend := 4198400; mr := "r"; mw := "-"; mx := "x"; mp := "p"; major := 8; minor := 1 |}.
Definition heap_map : map_line :=
  {| cstart := 24596480; cend := 24731648; mr := "r"; mw := "w"; mx := "-"; mp := "p"; major := 0; minor := 0 |}.
Definition two_maps : list (map_line * N * cstring) :=
  [(text_map, 0%N, lit "131        /bin/cat" ++ [newline]); (heap_map, 0%N, lit "0          [heap]" ++ [newline])].
Example two_maps_printed :
  map (fun '(m, off, tail) => print_map m off tail) two_maps =
  [lit "00400000-00401000 r-xp 00000000 08:01 131        /bin/cat" ++ [newline];
   lit "01775000-01796000 rw-p 00000000 00:00 0          [heap]" ++ [newline]].
Proof. reflexivity. Qed.
(** The heap of a 64-bit kernel is one byte too long, and what comes behind it is no mapping. *)
Example heap_line_too_long :
  length (print_map heap_map 0 (lit "0                                  [heap]" ++ [newline])) = 80
  /\ sscanf_maps [newline] = None.
Proof. split; reflexivity. Qed.
Definition maps_os (lines : list cstring) (c : sys) (w : list cstring) : reply c * list cstring :=
  match c return reply c * list cstring with
  | Fopen _ _ => (Some 5%Z, lines)
  | Fgets _ _ => match w with [] => (None, []) | l :: k => (Some l, k) end
  | c => (null_reply c, w)
  end.

Lemma maps_os_file p lines R : Reflexive R -> (forall w w' : list cstring, R w w') ->
  maps_file (maps_os lines) p 5 lines (fun w => w) R.
Proof. intros ? HR. split; intros w; cbn; [by split_and!| |apply HR]. split; [apply HR|by destruct w]. Qed.

Lemma find_free_addr_correct_witness :
  exists tr w' a, returns (maps_os (map (fun '(m, off, tail) => print_map m off tail) two_maps))
    (@find_free_addr 3 77 (Z.lor PROT_READ PROT_WRITE) 4) state0 [] tr a state0 w'
    /\ first_fit (Z.lor PROT_READ PROT_WRITE) 4 [text_map; heap_map] a.
Proof.
  apply (@find_free_addr_correct 3 _ (maps_os (map (fun '(m, off, tail) => print_map m off tail) two_maps)) 77 5
    (Z.lor PROT_READ PROT_WRITE) 4 (fun w => w) two_maps state0 []).
  - by apply maps_os_file.
  - apply Nat.ltb_lt. reflexivity.
  - repeat constructor; try (apply Nat.ltb_lt; reflexivity); try (apply Z.leb_le; reflexivity).
  - apply Nat.ltb_lt. reflexivity.
Defined.

(** The heap is what is found here. *)
Example find_free_addr_heap :
  outcome (maps_os (map (fun '(m, off, tail) => print_map m off tail) two_maps))
    (@find_free_addr 3 77 (Z.lor PROT_READ PROT_WRITE) 4 state0) [] = inl (24596480%Z, state0).
Proof. reflexivity. Qed.
