(* ===== verification/ShmSpec.v ===== *)
(** * What the argument rewriting does to the traced process

    Injecting the shmat call leaves the process as it was, about to make its own call
    again; afterwards the registers of the path arguments point to the redirected paths
    in the segment, and no other register changes. *)
From S2P Require Import Prelude CString Os StrUtils OkapiPath OkapiMirror OkapiContain Trie State ChildMem Redirect.
From S2P Require Import RedirectSpec Shm MapsSpec.

(** ** Words *)

Lemma word_of_bound b : (0 <= word_of b < 256 ^ Z.of_nat (length b))%Z.
Proof.
  induction b as [|c b IH]; [done|]. cbn [word_of foldr length].
  rewrite Nat2Z.inj_succ, Z.pow_succ_r by lia. pose proof (code_bound c). unfold word_of in IH. lia.
Qed.

Lemma word_of_app b k : word_of (b ++ k) = (word_of b + 256 ^ Z.of_nat (length b) * word_of k)%Z.
Proof.
  induction b as [|c b IH]; [simpl; destruct (word_of k); done|].
  cbn [word_of foldr length app]. fold (word_of (b ++ k)). fold (word_of b). rewrite IH, Nat2Z.inj_succ, Z.pow_succ_r by lia. ring.
Qed.

Lemma byte_of_code x : Z.of_nat (code (byte_of x 0)) = (x mod 256)%Z.
Proof.
  unfold byte_of, code. simpl. rewrite Z.shiftr_0_r. change 255%Z with (Z.ones 8).
  rewrite Z.land_ones by lia. change (2 ^ 8)%Z with 256%Z.
  pose proof (Z.mod_pos_bound x 256 ltac:(done)).
  unfold nat_of_ascii. rewrite N_ascii_embedding by lia. by rewrite N_nat_Z, Z2N.id by lia.
Qed.

Lemma word_bytes_cons n x : word_bytes (S n) x = byte_of x 0 :: word_bytes n (x / 256).
Proof.
  unfold word_bytes. cbn [seq map]. f_equal. rewrite <- seq_shift, map_map. apply map_ext. intros i.
  unfold byte_of. do 3 f_equal. replace (8 * Z.of_nat (S i))%Z with (8 + 8 * Z.of_nat i)%Z by lia.
  rewrite <- Z.shiftr_shiftr by lia. by rewrite (Z.shiftr_div_pow2 x 8) by lia.
Qed.

Lemma word_of_word_bytes n x : word_of (word_bytes n x) = (x mod 256 ^ Z.of_nat n)%Z.
Proof.
  revert x; induction n as [|n IH]; intros x; [simpl; by rewrite Z.mod_1_r|].
  rewrite word_bytes_cons, Nat2Z.inj_succ, Z.pow_succ_r by lia. cbn [word_of foldr].
  specialize (IH (x / 256)%Z). unfold word_of in IH. rewrite IH, byte_of_code.
  rewrite Z.rem_mul_r by lia. done.
Qed.

(** The low bytes of a word. *)
Lemma word_low n k x : n <= k -> word_of (take n (word_bytes k x)) = (x mod 256 ^ Z.of_nat n)%Z.
Proof.
  intros Hn. rewrite <- word_of_word_bytes. f_equal. apply nth_ext_nul.
  - rewrite length_take, !word_bytes_length. lia.
  - intros i Hi. rewrite length_take, word_bytes_length in Hi.
    rewrite nth_firstn, (proj2 (Nat.ltb_lt i n)) by lia. unfold word_bytes.
    rewrite !(nth_indep _ NUL (byte_of x 0)) by (rewrite length_map, length_seq; lia).
    rewrite !(map_nth (byte_of x)), !seq_nth by lia. done.
Qed.

(** ** The process *)

(** The registers and the memory of the process [p], and how ptrace acts on them. *)
Record tracee {W} (h : forall c, W -> reply c * W) (ws : nat) (p : Z) (mapped : Z -> Prop)
    (regs_of : W -> regs) (mem : W -> Z -> ascii) : Prop := {
  tc_mem : child_memory h ws p mapped mem;
  tc_poke_regs : forall a v w, regs_of (h (Pokedata p a v) w).2 = regs_of w;
  tc_get : forall w, h (Getregs p) w = (Some (regs_of w), w);
  tc_set : forall rs w, (h (Setregs p rs) w).1 = 0%Z /\ regs_of (h (Setregs p rs) w).2 = rs
    /\ forall b, mem (h (Setregs p rs) w).2 b = mem w b;
}.

(** What is not changed: the registers and the memory. *)
Definition untouched {W} (regs_of : W -> regs) (mem : W -> Z -> ascii) (w w' : W) : Prop :=
  regs_of w' = regs_of w /\ forall b, mem w' b = mem w b.
#[export] Instance untouched_refl {W} regs_of mem : Reflexive (@untouched W regs_of mem).
Proof. by split. Qed.
#[export] Instance untouched_trans {W} regs_of mem : Transitive (@untouched W regs_of mem).
Proof. intros x y z [H1 H2] [H3 H4]. split; [congruence|]. intros b. by rewrite H4. Qed.

(** The process makes its call again: the instruction pointer is before the two bytes of
    the instruction, the call's number is in the register it is read from. *)
Definition call_again (rs : regs) : regs :=
  set_reg RIP (rs RIP - 2)%Z (set_reg RAX (rs ORIG_RAX) rs).

Section Setup.
Context {Fu : Fuel} {W : Type} (h : forall c, W -> reply c * W) (s : state).
Let a := personality (cfg s).
Let ws := sizeof_long a.
Let p := pid (cur s).
Context (mapped : Z -> Prop) (regs_of : W -> regs) (mem : W -> Z -> ascii).
Context (Ht : tracee h ws p mapped regs_of mem).
(** The registers of the injected call. *)
Definition injected (id v : Z) (rs : regs) : regs :=
  match a with
  | X86_64 => set_reg RDX 0 (set_reg RSI 0 (set_reg RDI id (set_reg ORIG_RAX NR_shmat rs)))
  | _ => set_reg RBP 0 (set_reg RDI 0 (set_reg RSI v (set_reg RDX 0 (set_reg RCX id
           (set_reg RBX SHMAT (set_reg ORIG_RAX NR_ipc rs))))))
  end%Z.

(** The state between the two halves. *)
Definition begun (rs : regs) (v x : Z) : state :=
  match a with
  | X86_64 => s {{ cur -> saved_regs := rs; cur -> setting_up_shm := true }}
  | _ => s {{ cur -> saved_regs := rs; cur -> savedaddr := v; cur -> savedword := x;
              cur -> setting_up_shm := true }}
  end.

Lemma getregs_returns s0 w : pid (cur s0) = p ->
  returns h getregs s0 w [existT (Getregs p) (Some (regs_of w))] (regs_of w) s0 w.
Proof.
  intros E. eapply (returns_pure_bind _ _ _ _ s0 p); [unfold tcp, gets; by rewrite E|].
  pose proof (tc_get _ _ _ _ _ _ Ht w) as H.
  eapply (returns_sys_bind h (Getregs p) _ _ _ (Some (regs_of w)) w); [by rewrite H..|]. apply returns_ret.
Qed.

Lemma setregs_returns s0 w rs : pid (cur s0) = p ->
  exists tr w', returns h (setregs_or_exit rs) s0 w tr tt s0 w' /\ regs_of w' = rs /\ forall b, mem w' b = mem w b.
Proof.
  intros E. destruct (tc_set _ _ _ _ _ _ Ht rs w) as (Hr & Hrs & Hm).
  eexists _, _. split; [|split; [exact Hrs|exact Hm]].
  eapply (returns_pure_bind _ _ _ _ s0 p); [unfold tcp, gets; by rewrite E|].
  eapply returns_sys_bind; [exact Hr|done|]. apply returns_ret.
Qed.

(** What the kernel does for the injected call: it attaches the segment at [shm] and
    says so in [RAX], or in the word at [v]; whatever else becomes of the registers. *)
Definition shmat_done (v shm : Z) (w1 w2 : W) : Prop :=
  match a with
  | X86_64 => regs_of w2 RAX = shm /\ regs_of w2 ORIG_RAX = NR_shmat /\ forall b, mem w2 b = mem w1 b
  | _ => regs_of w2 RAX = 0%Z /\ regs_of w2 ORIG_RAX = NR_ipc /\ word_of (read_mem (mem w2) v 4) = shm
         /\ forall b, ~ (v <= b < v + 4)%Z -> mem w2 b = mem w1 b
  end.

(** The address of the segment; a 32-bit tracer reads it as a signed word. *)
Definition is_shm (shm c : Z) : Prop :=
  match a with I386 => (c mod 2 ^ 32)%Z = shm | _ => c = shm end.

Lemma shmat_result_returns (mask : bool) v x shm w (s1 : state) w2 :
  a <> X86_64 -> mask = bool_decide (a = X86_64_32BIT_EMU) -> mapped v -> word_bytes ws x = read_mem (mem w) v ws ->
  pid (cur s1) = p -> savedaddr (cur s1) = v -> savedword (cur s1) = x ->
  regs_of w2 RAX = 0%Z -> regs_of w2 ORIG_RAX = NR_ipc -> word_of (read_mem (mem w2) v 4) = shm ->
  (forall b, ~ (v <= b < v + 4)%Z -> mem w2 b = mem w b) ->
  exists tr w3 c, returns h (shmat_result_by_ipc mask (regs_of w2)) s1 w2 tr c s1 w3
  /\ is_shm shm c /\ (forall b, mem w3 b = mem w b).
Proof.
  intros Ha Hmask Hv Hx Ep Ev Ex Hrax Horig Hshm Hmem.
  destruct (cm_peek _ _ _ _ _ (tc_mem _ _ _ _ _ _ Ht) v w2 Hv) as (y & Hy & Hb).
  destruct (cm_poke _ _ _ _ _ (tc_mem _ _ _ _ _ _ Ht) v x w2 Hv) as (Hr & Hpoke).
  eexists _, _, _. split; [|split].
  - unfold shmat_result_by_ipc. rewrite Hrax, Horig. do 2 (eapply returns_pure_bind; [reflexivity|]).
    eapply (returns_pure_bind _ _ _ _ s1 p); [unfold tcp, gets; by rewrite Ep|].
    eapply (returns_pure_bind _ _ _ _ s1 v); [unfold tcp, gets; by rewrite Ev|].
    eapply (returns_bind _ _ _ _ _ _ y s1 w2).
    { unfold peek_or_exit. eapply (returns_sys_bind h (Peekdata p v) _ _ _ (inl y) w2); [by rewrite Hy..|].
      apply returns_ret. }
    eapply (returns_pure_bind _ _ _ _ s1 x); [unfold tcp, gets; by rewrite Ex|].
    eapply returns_sys_bind; [exact Hr|done|]. eapply returns_pure_bind; [reflexivity|]. apply returns_ret.
  - assert (Hy4 : (y mod 2 ^ 32)%Z = shm).
    { change (2 ^ 32)%Z with (256 ^ Z.of_nat 4)%Z.
      assert (H4 : 4 <= ws) by (unfold ws; destruct a; simpl; lia).
      rewrite <- (word_low 4 ws) by done. rewrite Hb, read_mem_take by done. exact Hshm. }
    unfold is_shm. subst mask. destruct a eqn:Ea; [exact Hy4|done|].
    rewrite bool_decide_eq_true_2 by done. change 4294967295%Z with (Z.ones 32). rewrite Z.land_ones by lia. exact Hy4.
  - intros b. rewrite Hpoke. destruct (in_range_dec v b ws) as [[Hin ->]|[Hin ->]].
    + rewrite Hx, read_mem_nth by lia. f_equal. lia.
    + apply Hmem. assert (4 <= ws) by (unfold ws; destruct a; simpl; lia). lia.
Qed.

(** The state after both halves. *)
Definition set_up (rs : regs) (v x c : Z) : state :=
  match a with
  | X86_64 => s {{ cur -> saved_regs := call_again rs; cur -> childshm := c; cur -> setting_up_shm := false }}
  | _ => s {{ cur -> saved_regs := call_again rs; cur -> savedaddr := v; cur -> savedword := x;
              cur -> childshm := c; cur -> setting_up_shm := false }}
  end.

Lemma finish_setup_returns v x shm w w1 w2 :
  let rs := regs_of w in
  (forall b, mem w1 b = mem w b) ->
  (a <> X86_64 -> mapped v /\ word_bytes ws x = read_mem (mem w) v ws) ->
  shmat_done v shm w1 w2 -> shm <> 0%Z ->
  exists tr w3 c, returns h finish_setup_shmat (begun rs v x) w2 tr tt (set_up rs v x c) w3
  /\ is_shm shm c /\ regs_of w3 = call_again rs /\ (forall b, mem w3 b = mem w b).
Proof.
  intros rs Hw1 Hv Hdone Hne.
  assert (Hpart : exists tr w3 c, returns h (match a with
        | I386 => shmat_result_by_ipc false (regs_of w2)
        | X86_64_32BIT_EMU => shmat_result_by_ipc true (regs_of w2)
        | X86_64 => assertM (regs_of w2 ORIG_RAX =? NR_shmat)%Z ;;; retM (regs_of w2 RAX)
        end) (begun rs v x) w2 tr c (begun rs v x) w3
      /\ is_shm shm c /\ (forall b, mem w3 b = mem w b)).
  { pose proof (shmat_result_returns (bool_decide (a = X86_64_32BIT_EMU)) v x shm w (begun rs v x) w2) as Hipc.
    unfold shmat_done, is_shm, begun in *. destruct a eqn:Ea.
    2: { destruct Hdone as (H1 & H2 & H3). eexists _, w2, _. split; [|split; [exact H1|intros b; by rewrite H3]].
         rewrite H2. eapply returns_pure_bind; [reflexivity|]. apply returns_ret. }
    all: destruct Hdone as (H1 & H2 & H3 & H4), (Hv ltac:(done)) as [H5 H6];
      apply Hipc; try done; intros b Hb; rewrite H4; auto. }
  destruct Hpart as (tr & w3 & c & Hret & Hc & Hm).
  assert (Hc0 : c <> 0%Z) by (intros ->; unfold is_shm in Hc; destruct a; [rewrite Z.mod_0_l in Hc by done|..]; by subst).
  assert (Hb : pid (cur (begun rs v x)) = p) by (unfold begun; by destruct a).
  assert (Hba : personality (cfg (begun rs v x)) = a) by (unfold begun; destruct a eqn:Ea; exact Ea).
  pose (s2 := (begun rs v x) {{ cur -> childshm := c }} {{ cur -> saved_regs := call_again rs }}).
  assert (Hp2 : pid (cur s2) = p) by exact Hb.
  destruct (setregs_returns s2 w3 (call_again rs) Hp2) as (tr2 & w4 & Hret2 & Hrs & Hm4).
  eexists _, w4, c. split; [|split; [done|split; [done|intros b; by rewrite Hm4]]].
  unfold finish_setup_shmat. eapply returns_bind; [by apply getregs_returns|].
  eapply (returns_pure_bind _ _ _ _ (begun rs v x) a); [unfold conf, gets; by rewrite Hba|].
  eapply returns_bind; [exact Hret|]. eapply returns_pure_bind; [reflexivity|].
  eapply (returns_pure_bind _ _ _ _ ((begun rs v x) {{ cur -> childshm := c }}) rs); [unfold tcp, gets, begun; by destruct a|]. cbv zeta.
  assert (Hca : set_reg RIP (set_reg RAX (rs ORIG_RAX) rs RIP - 2)%Z (set_reg RAX (rs ORIG_RAX) rs) = call_again rs) by done.
  rewrite Hca. eapply returns_pure_bind; [reflexivity|]. fold s2.
  eapply returns_bind; [exact Hret2|]. rewrite (proj2 (Z.eqb_neq _ _)) by done.
  eapply returns_pure_bind; [reflexivity|].
  assert (Hfin : s2 {{ cur -> setting_up_shm := false }} = set_up rs v x c) by (unfold s2, begun, set_up; by destruct a).
  rewrite <- Hfin. by apply returns_ret.
Qed.
Context (f : Z) (left : W -> list cstring) (ms : list (map_line * N * cstring)).
Let line '(m, off, tail) : cstring := print_map m off tail.
Context (Hf : maps_file h p f (map line ms) left (untouched regs_of mem)).
Let rw : Z := Z.lor PROT_READ PROT_WRITE.

(** There is a word the process can write. *)
Context (Hp : length (maps_name p) < 20) (Hfuel : length ms < fuel).
Context (Hok : Forall (fun x => map_ok x.1.1 /\ length (line x) < 80) ms).
Context (Hword : Exists (suitable rw 4) (map (fun x => x.1.1) ms)).
Context (Hmapped : forall m, suitable rw 4 m -> m ∈ map (fun x => x.1.1) ms -> mapped (cstart m)).

Lemma free_word s0 w : exists tr w' v, returns h (find_free_addr p rw 4) s0 w tr v s0 w'
  /\ untouched regs_of mem w w' /\ mapped v.
Proof.
  destruct (find_free_addr_finds h p f rw 4 left (untouched regs_of mem) ms Hf s0 w Hp) as
    (tr & w' & v & Hret & HR & Hff); [done|done|].
  exists tr, w', v. split; [exact Hret|split; [done|]].
  destruct Hff as [[Hn _]|(l1 & m & l2 & E & _ & Hs & ->)].
  - exfalso. apply Exists_exists in Hword as (m & Hin & Hm).
    rewrite Forall_forall in Hn. by apply (Hn m).
  - apply Hmapped; [done|]. rewrite E. set_solver.
Qed.

Lemma shmat_by_ipc_returns s0 rs w : pid (cur s0) = p -> shmid (cur s0) = shmid (cur s) ->
  exists tr w' v x, returns h (shmat_by_ipc rs) s0 w tr
      (set_reg RBP 0 (set_reg RDI 0 (set_reg RSI v (set_reg RDX 0 (set_reg RCX (shmid (cur s))
        (set_reg RBX SHMAT (set_reg ORIG_RAX NR_ipc rs)))))))%Z
      (s0 {{ cur -> savedaddr := v; cur -> savedword := x }}) w'
    /\ untouched regs_of mem w w' /\ mapped v /\ word_bytes ws x = read_mem (mem w') v ws.
Proof.
  intros Ep Eid. destruct (free_word s0 w) as (tr & w' & v & Hret & HR & Hv).
  destruct (cm_peek _ _ _ _ _ (tc_mem _ _ _ _ _ _ Ht) v w' Hv) as (x & Hx & Hb).
  eexists _, w', v, x. split; [|by split_and!].
  eapply (returns_pure_bind _ _ _ _ s0 p); [unfold tcp, gets; by rewrite Ep|].
  eapply returns_bind; [exact Hret|]. eapply returns_pure_bind; [reflexivity|].
  eapply (returns_sys_bind h (Peekdata p v) _ _ _ (inl x) w'); [by rewrite Hx..|]. cbv iota beta.
  eapply returns_pure_bind; [reflexivity|]. rewrite <- Eid.
  eapply returns_pure_bind; [reflexivity|]. apply returns_ret.
Qed.

Lemma begin_setup_returns w l :
  localshm (cur s) = Some l -> childshm (cur s) = 0%Z ->
  exists tr w1 v x, returns h begin_setup_shmat s w tr tt (begun (regs_of w) v x) w1
  /\ regs_of w1 = injected (shmid (cur s)) v (regs_of w)
  /\ (forall b, mem w1 b = mem w b)
  /\ (a <> X86_64 -> mapped v /\ word_bytes ws x = read_mem (mem w) v ws).
Proof.
  intros Hl Hc.
  pose (s0 := s {{ cur -> saved_regs := regs_of w }}).
  assert (Hpart : exists tr w1 v x s2, returns h (match a with
        | I386 | X86_64_32BIT_EMU => shmat_by_ipc (regs_of w)
        | X86_64 => let* id := tcp shmid in
          retM (set_reg RDX 0 (set_reg RSI 0 (set_reg RDI id (set_reg ORIG_RAX NR_shmat (regs_of w)))))%Z
        end) s0 w tr (injected (shmid (cur s)) v (regs_of w)) s2 w1
      /\ untouched regs_of mem w w1 /\ s2 {{ cur -> setting_up_shm := true }} = begun (regs_of w) v x
      /\ pid (cur s2) = p
      /\ (a <> X86_64 -> mapped v /\ word_bytes ws x = read_mem (mem w) v ws)).
  { destruct (shmat_by_ipc_returns s0 (regs_of w) w eq_refl eq_refl) as (tr & w1 & v & x & Hret & HR & Hv & Hx).
    assert (Hx' : word_bytes ws x = read_mem (mem w) v ws).
    { rewrite Hx. apply map_ext. intros i. apply HR. }
    unfold injected, begun. destruct a eqn:Ea.
    2: { eexists _, w, 0%Z, 0%Z, s0. split; [|by split_and!].
         eapply returns_pure_bind; [reflexivity|]. apply returns_ret. }
    all: eexists _, w1, v, x, _; split; [exact Hret|by split_and!]. }
  destruct Hpart as (tr & w1 & v & x & s2 & Hret & HR & Hs2 & Hp2 & Hx).
  destruct (setregs_returns s2 w1 (injected (shmid (cur s)) v (regs_of w)) Hp2) as (tr2 & w2 & Hret2 & Hrs & Hm).
  eexists _, w2, v, x. split; [|split; [exact Hrs|split; [|exact Hx]]].
  - unfold begin_setup_shmat. eapply returns_pure_bind; [reflexivity|]. rewrite Hl.
    eapply returns_pure_bind; [reflexivity|]. eapply returns_pure_bind; [reflexivity|]. rewrite Hc.
    eapply returns_pure_bind; [reflexivity|]. eapply returns_bind; [by apply getregs_returns|].
    eapply returns_pure_bind; [reflexivity|]. eapply returns_pure_bind; [reflexivity|].
    eapply returns_bind; [exact Hret|]. eapply returns_bind; [exact Hret2|].
    rewrite <- Hs2. by apply returns_ret.
  - intros b. rewrite Hm. apply HR.
Qed.

End Setup.

(** C9.  Injecting the shmat call is transparent to the process.  [begin_setup_shmat]
    makes the process attach the segment of its tcb instead of making its call;
    whatever that does to the registers, after [finish_setup_shmat] the memory is what it
    was (the borrowed word included), the registers are the original ones, with the
    instruction pointer back on the call and its number restored, so the original call is
    made again, and the tracer knows where the segment is.  The lines of /proc/<pid>/maps,
    in which a word to borrow is looked for, are those of the kernel and shorter than 80
    bytes, as for [find_free_addr]. *)
Theorem setup_shmat_transparent {Fu : Fuel} {W} (h : forall c, W -> reply c * W) (s : state)
    (mapped : Z -> Prop) (regs_of : W -> regs) (mem : W -> Z -> ascii) (f l : Z) (left : W -> list cstring)
    (ms : list (map_line * N * cstring)) (w : W)
    (Ht : tracee h (sizeof_long (personality (cfg s))) (pid (cur s)) mapped regs_of mem)
    (Hf : maps_file h (pid (cur s)) f (map (fun '(m, off, tail) => print_map m off tail) ms) left
            (untouched regs_of mem))
    (Hp : length (maps_name (pid (cur s))) < 20) (Hfuel : length ms < fuel)
    (Hok : Forall (fun x => map_ok x.1.1 /\ length (let '(m, off, tail) := x in print_map m off tail) < 80) ms)
    (Hword : Exists (suitable (Z.lor PROT_READ PROT_WRITE) 4) (map (fun x => x.1.1) ms))
    (Hmapped : forall m, suitable (Z.lor PROT_READ PROT_WRITE) 4 m -> m ∈ map (fun x => x.1.1) ms -> mapped (cstart m))
    (Hl : localshm (cur s) = Some l) (Hc : childshm (cur s) = 0%Z) :
  exists tr w1 s1 v, returns h begin_setup_shmat s w tr tt s1 w1
  /\ setting_up_shm (cur s1) = true
  /\ regs_of w1 = injected s (shmid (cur s)) v (regs_of w)
  /\ forall w2 shm, shmat_done s regs_of mem v shm w1 w2 -> shm <> 0%Z ->
     exists tr2 w3 s3, returns h finish_setup_shmat s1 w2 tr2 tt s3 w3
     /\ setting_up_shm (cur s3) = false /\ is_shm s shm (childshm (cur s3))
     /\ regs_of w3 = call_again (regs_of w) /\ (forall b, mem w3 b = mem w b)
     /\ cfg s3 = cfg s /\ opts s3 = opts s /\ shmid (cur s3) = shmid (cur s) /\ localshm (cur s3) = Some l.
Proof.
  destruct (begin_setup_returns h s mapped regs_of mem Ht f left ms Hf Hp Hfuel Hok Hword Hmapped w l Hl Hc)
    as (tr & w1 & v & x & Hret & Hrs & Hm & Hv).
  eexists tr, w1, _, v. split; [exact Hret|]. split; [unfold begun; by destruct (personality _)|]. split; [exact Hrs|].
  intros w2 shm Hdone Hne.
  destruct (finish_setup_returns h s mapped regs_of mem Ht v x shm w w1 w2 Hm Hv Hdone Hne)
    as (tr2 & w3 & c & Hret2 & Hc2 & Hrs2 & Hm2).
  exists tr2, w3, (set_up s (regs_of w) v x c). split; [exact Hret2|].
  unfold set_up, is_shm in *. destruct (personality (cfg s)); by split_and!.
Qed.

(** A process with its registers and memory, and the lines of its maps file. *)
Definition proc : Type := regs * (Z -> ascii) * list cstring.
Definition proc_os (ws : nat) (lines : list cstring) (c : sys) (w : proc) : reply c * proc :=
  let '(rs, m, rest) := w in
  match c return reply c * proc with
  | Getregs _ => (Some rs, w)
  | Setregs _ rs' => (0%Z, (rs', m, rest))
  | Peekdata _ a => (inl (word_of (read_mem m a ws)), w)
  | Pokedata _ a v =>
    (0%Z, (rs, (fun b => if ((a <=? b) && (b <? a + Z.of_nat ws))%Z
                         then nth (Z.to_nat (b - a)) (word_bytes ws v) NUL else m b), rest))
  | Fopen _ _ => (Some 5%Z, (rs, m, lines))
  | Fgets _ _ => match rest with [] => (None, w) | l :: k => (Some l, (rs, m, k)) end
  | c => (null_reply c, w)
  end.

Lemma proc_os_tracee ws lines p :
  tracee (proc_os ws lines) ws p (fun _ => True) (fun w => w.1.1) (fun w => w.1.2).
Proof.
  split; [split| | |]; try (by intros ? ? [[? ?] ?] ?); try (by intros ? ? [[? ?] ?]); try (by intros ? [[? ?] ?]); try (by intros [[? ?] ?]).
  intros a [[rs m] rest] _. eexists. split; [reflexivity|].
  cbn [fst snd]. rewrite <- (word_bytes_of (read_mem m a ws)) at 2. by rewrite read_mem_length.
Qed.

Lemma proc_os_maps ws lines p :
  maps_file (proc_os ws lines) p 5 lines (fun w => w.2) (untouched (fun w => w.1.1) (fun w => w.1.2)).
Proof. split; intros [[rs m] rest]; cbn; [by split_and!| |done]. by destruct rest. Qed.

(** A 64-bit tracer and a 32-bit process: the heap's first word is borrowed. *)
Definition emu_state : state :=
  state0 {{ cfg -> personality := X86_64_32BIT_EMU; cur -> pid := 77%Z; cur -> localshm := Some 4096%Z;
            cur -> shmid := 9%Z }}.
Definition map_lines : list cstring := map (fun '(m, off, tail) => print_map m off tail) two_maps.

(** About to open a file whose name is at 8192. *)
Definition open_regs : regs := set_reg ORIG_RAX 5 (set_reg RBX 8192 (set_reg RIP 134512640 (fun _ => 0%Z))).

Lemma setup_shmat_transparent_witness :
  exists tr w1 s1 v, returns (proc_os 8 map_lines) (@begin_setup_shmat 3) emu_state (open_regs, memory_with 8192 (lit "/etc/passwd"), []) tr tt s1 w1
  /\ setting_up_shm (cur s1) = true
  /\ w1.1.1 = injected emu_state 9 v open_regs
  /\ forall w2 shm, shmat_done emu_state (fun w : proc => w.1.1) (fun w => w.1.2) v shm w1 w2 -> shm <> 0%Z ->
     exists tr2 w3 s3, returns (proc_os 8 map_lines) (finish_setup_shmat) s1 w2 tr2 tt s3 w3
     /\ setting_up_shm (cur s3) = false /\ is_shm emu_state shm (childshm (cur s3))
     /\ w3.1.1 = call_again open_regs /\ (forall b, w3.1.2 b = memory_with 8192 (lit "/etc/passwd") b)
     /\ cfg s3 = cfg emu_state /\ opts s3 = opts emu_state /\ shmid (cur s3) = 9%Z /\ localshm (cur s3) = Some 4096%Z.
Proof.
  apply (@setup_shmat_transparent 3 _ (proc_os 8 map_lines) emu_state (fun _ => True) (fun w => w.1.1) (fun w => w.1.2)
    5 4096 (fun w => w.2) two_maps (open_regs, memory_with 8192 (lit "/etc/passwd"), []) (proc_os_tracee 8 map_lines 77) (proc_os_maps 8 map_lines 77)).
  - apply Nat.ltb_lt. reflexivity.
  - apply Nat.ltb_lt. reflexivity.
  - repeat constructor; try (apply Nat.ltb_lt; reflexivity); try (apply Z.leb_le; reflexivity).
  - right. left. apply mapping_fits_spec. reflexivity.
  - done.
  - reflexivity.
  - reflexivity.
Defined.

(** ** The rewritten arguments *)

(** The register the kernel reads the [n]-th argument of a system call from. *)
Definition kernel_arg (a : abi) (n : nat) : reg :=
  match a with
  | I386 | X86_64_32BIT_EMU =>
    match n with 1 => RBX | 2 => RCX | 3 => RDX | 4 => RSI | 5 => RDI | _ => RBP end
  | X86_64 =>
    match n with 1 => RDI | 2 => RSI | 3 => RDX | 4 => R10 | 5 => R8 | _ => R9 end
  end.

(** The process with the segment it shares with the tracer: [seg w i] is the byte at the
    offset [i]. *)
Record sharing {W} (h : forall c, W -> reply c * W) (ws : nat) (p id : Z) (mapped : Z -> Prop)
    (regs_of : W -> regs) (mem : W -> Z -> ascii) (seg : W -> nat -> ascii) : Prop := {
  sh_proc : tracee h ws p mapped regs_of mem;
  sh_set : forall rs w, seg (h (Setregs p rs) w).2 = seg w;
  sh_print : forall fmt args w, let w' := (h (Eprintf fmt args) w).2 in
    untouched regs_of mem w w' /\ seg w' = seg w;
  sh_store : forall off b w, let w' := (h (Shm_store id off b) w).2 in
    untouched regs_of mem w w' /\
    forall i, seg w' i = if (off <=? i) && (i <? off + length b) then nth (i - off) b NUL else seg w i;
}.

Section Rewrite.
Context {Fu : Fuel} {W : Type} (h : forall c, W -> reply c * W) (s : state) (root sub : cstring) (l : Z).
Let a := personality (cfg s).
Let c := childshm (cur s).
Context (mapped : Z -> Prop) (regs_of : W -> regs) (mem : W -> Z -> ascii) (seg : W -> nat -> ascii).
Context (Hsh : sharing h (sizeof_long a) (pid (cur s)) (shmid (cur s)) mapped regs_of mem seg).
Context (Hrun : exec_run s root) (Hsub : sub = [] \/ IS_ABSPATH sub = true).
Context (Hdir : current_dir (cur s) = Some (root ++ sub)).
Context (Hl : localshm (cur s) = Some l) (Hc : (c =? 0)%Z = false).

(** Where a path of the process is redirected to. *)
Definition redirection (filename : cstring) : option cstring :=
  redirect_spec (opts s) (p_ignores (cur s)) root (if bool_decide (sub = []) then [slash] else sub) filename.

Definition quiet (w w' : W) : Prop := untouched regs_of mem w w' /\ seg w' = seg w.
#[local] Instance quiet_refl : Reflexive quiet.
Proof. by intros w. Qed.
#[local] Instance quiet_trans : Transitive quiet.
Proof. intros x y z [H1 H2] [H3 H4]. split; [by etransitivity|congruence]. Qed.

Lemma runs_redirect filename :
  runs h quiet (redirect_filename_into_cderoot filename (Some (root ++ sub)) true) s (redirection filename) s.
Proof.
  apply (runs_of_wpM h quiet prints).
  - intros cl w Hp. split; [done|]. destruct cl; try by destruct Hp. apply (sh_print _ _ _ _ _ _ _ _ Hsh).
  - by eapply wpM_redirect.
Qed.

(** The bytes of a string and its NUL at an offset of the segment. *)
Definition seg_at (w : W) (off : nat) (q : cstring) : Prop :=
  forall i, i <= length q -> seg w (off + i) = nth i (q ++ [NUL]) NUL.

Lemma shm_strcpy_returns off q w : off + length q + 1 <= shared_page_size ->
  exists tr w', returns h (shm_strcpy off q) s w tr tt s w' /\ untouched regs_of mem w w' /\ seg_at w' off q
    /\ forall i, i < off -> seg w' i = seg w i.
Proof.
  intros Hq. destruct (sh_store _ _ _ _ _ _ _ _ Hsh off (q ++ [NUL]) w) as [HR Hs].
  eexists _, _. split; [|split; [exact HR|split]].
  - unfold shm_strcpy. eapply returns_pure_bind; [reflexivity|]. rewrite Hl. eapply returns_pure_bind; [reflexivity|].
    eapply returns_pure_bind; [reflexivity|]. rewrite (proj2 (Nat.leb_le _ _)) by done.
    eapply returns_sys_bind; [done..|]. apply returns_ret.
  - intros i Hi. rewrite Hs, length_app. simpl.
    rewrite (proj2 (Nat.leb_le off _)), (proj2 (Nat.ltb_lt _ _)) by lia. simpl. f_equal. lia.
  - intros i Hi. rewrite Hs. by rewrite (proj2 (Nat.leb_gt off i)).
Qed.

Lemma point_args_returns k w :
  exists tr w', returns h (point_args k) s w tr tt s w'
  /\ regs_of w' = foldl (fun rs '(n, off) => set_reg (arg_reg a n) (c + Z.of_nat off)%Z rs) (regs_of w) k
  /\ (forall b, mem w' b = mem w b) /\ seg w' = seg w.
Proof.
  pose (rs := foldl (fun rs '(n, off) => set_reg (arg_reg a n) (c + Z.of_nat off)%Z rs) (regs_of w) k).
  destruct (tc_set _ _ _ _ _ _ (sh_proc _ _ _ _ _ _ _ _ Hsh) rs w) as (_ & Hrs & Hm).
  eexists _, _. split; [|split; [exact Hrs|split; [exact Hm|apply (sh_set _ _ _ _ _ _ _ _ Hsh)]]].
  unfold point_args. eapply returns_bind; [by apply (getregs_returns h s mapped regs_of mem (sh_proc _ _ _ _ _ _ _ _ Hsh))|].
  eapply returns_pure_bind; [reflexivity|]. eapply returns_pure_bind; [reflexivity|].
  unfold setregs. eapply returns_pure_bind; [reflexivity|]. eapply returns_sys_bind; [done..|]. apply returns_ret.
Qed.

(** The argument register [r] after the rewriting: untouched if the path is not
    redirected, otherwise pointing to the redirected path in the segment. *)
Definition points_to (w w' : W) (r : reg) (q : option cstring) : Prop :=
  match q with
  | None => regs_of w' r = regs_of w r
  | Some q => exists off, regs_of w' r = (c + Z.of_nat off)%Z /\ seg_at w' off q
  end.

(** What one or two rewritten arguments have in common. *)
Definition rewritten (w w' : W) (args : list (reg * option cstring)) : Prop :=
  (forall b, mem w' b = mem w b)
  /\ (forall r, r ∉ args.*1 -> regs_of w' r = regs_of w r)
  /\ Forall (fun '(r, q) => points_to w w' r q) args.

Lemma single_arg_returns n filename w :
  n = 1 \/ n = 2 -> (forall q, redirection filename = Some q -> length q < shared_page_size) ->
  exists tr w', returns h (modify_syscall_single_arg n filename) s w tr tt s w'
  /\ rewritten w w' [(arg_reg a n, redirection filename)].
Proof.
  intros Hn Hlen. destruct (runs_redirect filename w) as (t1 & w1 & Hr1 & ((HR1 & HR2) & HR3)).
  destruct (redirection filename) as [q|] eqn:Eq.
  2:{ eexists _, w1. split.
      - unfold modify_syscall_single_arg. eapply returns_pure_bind; [reflexivity|]. rewrite (er_exec _ _ Hrun).
        eapply returns_pure_bind; [reflexivity|]. eapply returns_pure_bind; [reflexivity|]. rewrite Hdir.
        eapply returns_bind; [exact Hr1|]. apply returns_ret.
      - split; [exact HR2|]. split; [by intros; rewrite HR1|]. repeat constructor. simpl. by rewrite HR1. }
  destruct (shm_strcpy_returns 0 q w1) as (t2 & w2 & Hr2 & (Hm2 & Hb2) & Hq & _); [specialize (Hlen q eq_refl); lia|].
  destruct (point_args_returns [(n, 0)] w2) as (t3 & w3 & Hr3 & Hrs & Hm3 & Hs3).
  eexists _, w3. split.
  - unfold modify_syscall_single_arg. eapply returns_pure_bind; [reflexivity|]. rewrite (er_exec _ _ Hrun).
    eapply returns_pure_bind; [reflexivity|]. eapply returns_pure_bind; [reflexivity|]. rewrite Hdir.
    eapply returns_bind; [exact Hr1|]. cbv iota. eapply returns_pure_bind; [reflexivity|]. fold c. rewrite Hc.
    eapply returns_bind; [exact Hr2|]. eapply returns_pure_bind; [destruct Hn as [->| ->]; reflexivity|]. exact Hr3.
  - split; [intros b; by rewrite Hm3, Hb2, HR2|]. simpl in Hrs. split.
    + intros r Hr. rewrite Hrs. unfold set_reg. rewrite decide_False by (simpl in Hr; set_solver). by rewrite Hm2, HR1.
    + repeat constructor. exists 0. split.
      * rewrite Hrs. unfold set_reg. by rewrite decide_True.
      * intros i Hi. rewrite Hs3. by apply Hq.
Qed.

(** A path of the process at an address. *)
Definition path_in (w : W) (addr : Z) (t : cstring) : Prop :=
  mapped_range s mapped addr (addr + Z.of_nat (length t)) /\ string_at (mem w) addr t
  /\ (NUL ∉ t) /\ length t < MAXPATHLEN.

Lemma read_path addr t w w0 : quiet w0 w -> path_in w0 addr t ->
  exists t1, returns h (strcpy_from_child addr) s w t1 t s w.
Proof.
  intros [HR Hs] (Hm & Ht & Hn & Hlen).
  assert (Ht' : string_at (mem w) addr t).
  { unfold string_at. rewrite <- Ht. apply map_ext. intros i. apply HR. }
  by apply (strcpy_from_child_reads h s mapped mem w addr t (tc_mem _ _ _ _ _ _ (sh_proc _ _ _ _ _ _ _ _ Hsh))).
Qed.

(** How the rewriting of two arguments ends, by which paths are redirected. *)
Definition rewrite_two (n1 n2 : nat) (q1 q2 : option cstring) : M state unit :=
  match q1, q2 with
  | Some r1, Some r2 =>
    shm_strcpy 0 r1 ;;;
    let len1 := length r1 in
    shm_strcpy (len1 + 1) r2 ;;;
    point_args [(n1, 0); (n2, len1 + 1)]
  | Some r1, None => shm_strcpy 0 r1 ;;; point_args [(n1, 0)]
  | None, Some r2 => shm_strcpy 0 r2 ;;; point_args [(n2, 0)]
  | None, None => skip
  end.

Lemma rewrite_one n q w : length q < shared_page_size ->
  exists tr w', returns h (shm_strcpy 0 q ;;; point_args [(n, 0)]) s w tr tt s w'
  /\ (forall b, mem w' b = mem w b) /\ seg_at w' 0 q
  /\ regs_of w' = set_reg (arg_reg a n) c (regs_of w).
Proof.
  intros Hq. destruct (shm_strcpy_returns 0 q w) as (t2 & w2 & Hr2 & (Hm2 & Hb2) & Hs & _); [lia|].
  destruct (point_args_returns [(n, 0)] w2) as (t3 & w3 & Hr3 & Hrs & Hm3 & Hs3).
  eexists _, w3. split; [by eapply returns_bind|]. split; [intros b; by rewrite Hm3, Hb2|].
  split; [intros i Hi; rewrite Hs3; by apply Hs|]. simpl in Hrs. by rewrite Hrs, Hm2, Z.add_0_r.
Qed.

Lemma rewrite_both n1 n2 q1 q2 w : length q1 + length q2 + 1 < shared_page_size ->
  exists tr w', returns h (rewrite_two n1 n2 (Some q1) (Some q2)) s w tr tt s w'
  /\ (forall b, mem w' b = mem w b) /\ seg_at w' 0 q1 /\ seg_at w' (length q1 + 1) q2
  /\ regs_of w' = set_reg (arg_reg a n2) (c + Z.of_nat (length q1 + 1))%Z (set_reg (arg_reg a n1) c (regs_of w)).
Proof.
  intros Hq. destruct (shm_strcpy_returns 0 q1 w) as (t2 & w2 & Hr2 & (Hm2 & Hb2) & Hs & _); [lia|].
  destruct (shm_strcpy_returns (length q1 + 1) q2 w2) as (t4 & w4 & Hr4 & (Hm4 & Hb4) & Hs4 & Hk4); [lia|].
  destruct (point_args_returns [(n1, 0); (n2, length q1 + 1)] w4) as (t3 & w3 & Hr3 & Hrs & Hm3 & Hs3).
  eexists _, w3. split; [eapply returns_bind; [exact Hr2|]; by eapply returns_bind|].
  split; [intros b; by rewrite Hm3, Hb4, Hb2|].
  split; [intros i Hi; rewrite Hs3, Hk4 by lia; by apply Hs|].
  split; [intros i Hi; rewrite Hs3; by apply Hs4|]. simpl in Hrs. by rewrite Hrs, Hm4, Hm2, Z.add_0_r.
Qed.

Lemma rewrite_two_returns n1 n2 q1 q2 w : arg_reg a n1 <> arg_reg a n2 ->
  length (default [] q1) + length (default [] q2) + 1 < shared_page_size ->
  exists tr w', returns h (rewrite_two n1 n2 q1 q2) s w tr tt s w'
  /\ rewritten w w' [(arg_reg a n1, q1); (arg_reg a n2, q2)].
Proof.
  intros Hne Hlen. destruct q1 as [q1|], q2 as [q2|]; simpl in Hlen.
  - destruct (rewrite_both n1 n2 q1 q2 w Hlen) as (tr & w' & Hret & Hm & Hs1 & Hs2 & Hrs).
    exists tr, w'. split; [exact Hret|]. split; [done|]. split.
    + intros r Hr. rewrite Hrs. unfold set_reg. simpl in Hr. rewrite !decide_False by set_solver. done.
    + repeat constructor; [exists 0|exists (length q1 + 1)]; split; try done; rewrite Hrs; unfold set_reg.
      * rewrite decide_False, decide_True by done. lia.
      * by rewrite decide_True.
  - destruct (rewrite_one n1 q1 w) as (tr & w' & Hret & Hm & Hs & Hrs); [lia|].
    exists tr, w'. split; [exact Hret|]. split; [done|]. split.
    + intros r Hr. rewrite Hrs. unfold set_reg. simpl in Hr. rewrite decide_False by set_solver. done.
    + repeat constructor; [exists 0; split; [|done]|simpl]; rewrite Hrs; unfold set_reg.
      * rewrite decide_True by done. lia.
      * by rewrite decide_False.
  - destruct (rewrite_one n2 q2 w) as (tr & w' & Hret & Hm & Hs & Hrs); [lia|].
    exists tr, w'. split; [exact Hret|]. split; [done|]. split.
    + intros r Hr. rewrite Hrs. unfold set_reg. simpl in Hr. rewrite decide_False by set_solver. done.
    + repeat constructor; [simpl|exists 0; split; [|done]]; rewrite Hrs; unfold set_reg.
      * by rewrite decide_False.
      * rewrite decide_True by done. lia.
  - eexists _, w. split; [apply returns_ret|]. split; [done|]. split; [done|]. by repeat constructor.
Qed.

Lemma redirect_two_returns n1 n2 t1 t2 w : arg_reg a n1 <> arg_reg a n2 ->
  path_in w (nth (n1 - 1) (u_arg (cur s)) 0%Z) t1 -> path_in w (nth (n2 - 1) (u_arg (cur s)) 0%Z) t2 ->
  length (default [] (redirection t1)) + length (default [] (redirection t2)) + 1 < shared_page_size ->
  exists tr w', returns h (redirect_two n1 n2) s w tr tt s w'
  /\ rewritten w w' [(arg_reg a n1, redirection t1); (arg_reg a n2, redirection t2)].
Proof.
  intros Hne H1 H2 Hlen.
  destruct (read_path _ t1 w w (reflexivity w) H1) as (e1 & Hr1).
  destruct (runs_redirect t1 w) as (e2 & w2 & Hr2 & HQ2).
  destruct (read_path _ t2 w2 w HQ2 H2) as (e3 & Hr3).
  destruct (runs_redirect t2 w2) as (e4 & w4 & Hr4 & HQ4).
  assert (HQ : quiet w w4) by by transitivity w2.
  destruct (rewrite_two_returns n1 n2 (redirection t1) (redirection t2) w4 Hne Hlen) as (e5 & w5 & Hr5 & Hm & Hf & Hp).
  eexists _, w5. split.
  - unfold redirect_two. eapply returns_pure_bind; [reflexivity|]. rewrite (er_exec _ _ Hrun).
    eapply returns_pure_bind; [reflexivity|]. eapply returns_pure_bind; [reflexivity|]. fold c. rewrite Hc.
    eapply returns_pure_bind; [reflexivity|]. rewrite Hdir.
    eapply returns_pure_bind; [reflexivity|]. eapply returns_bind; [exact Hr1|]. eapply returns_bind; [exact Hr2|].
    eapply returns_pure_bind; [reflexivity|]. eapply returns_bind; [exact Hr3|]. eapply returns_bind; [exact Hr4|].
    exact Hr5.
  - destruct HQ as [[HQ1 HQ2'] HQ3]. split; [intros b; by rewrite Hm, HQ2'|].
    split; [intros r Hr; by rewrite Hf, HQ1|].
    eapply Forall_impl; [exact Hp|]. intros [r [q|]]; simpl; [done|]. by rewrite HQ1.
Qed.

(** One path argument.  When the segment is attached, [modify_syscall_single_arg]
    leaves the process's memory and every other register alone, and the register the
    kernel reads the argument from points to the redirected path in the segment, or is
    unchanged if the path is not redirected. *)
Theorem single_arg_redirected n filename w (Hn : n = 1 \/ n = 2)
    (Hlen : forall q, redirection filename = Some q -> length q < shared_page_size) :
  exists tr w', returns h (modify_syscall_single_arg n filename) s w tr tt s w'
  /\ rewritten w w' [(kernel_arg a n, redirection filename)].
Proof.
  assert (Ha : kernel_arg a n = arg_reg a n) by (destruct Hn as [->| ->], a; reflexivity).
  rewrite Ha. by apply single_arg_returns.
Qed.

(** The calls with two paths, with the positions of their arguments. *)
Definition two_path_calls : list (M state unit * nat * nat) :=
  [(modify_syscall_two_args, 1, 2); (modify_syscall_first_and_third_args, 1, 3);
   (modify_syscall_second_and_fourth_args, 2, 4)].

(** C18.  Two path arguments.  The same holds for the calls with two paths, whose
    redirected paths follow each other in the segment, except for the fourth argument of
    a 64-bit process. *)
Theorem two_args_redirected modify n1 n2 t1 t2 w (Hcall : (modify, n1, n2) ∈ two_path_calls)
    (Hreg : a <> X86_64 \/ n2 <> 4)
    (H1 : path_in w (nth (n1 - 1) (u_arg (cur s)) 0%Z) t1) (H2 : path_in w (nth (n2 - 1) (u_arg (cur s)) 0%Z) t2)
    (Hlen : length (default [] (redirection t1)) + length (default [] (redirection t2)) + 1 < shared_page_size) :
  exists tr w', returns h modify s w tr tt s w'
  /\ rewritten w w' [(kernel_arg a n1, redirection t1); (kernel_arg a n2, redirection t2)].
Proof.
  assert (Hk : modify = redirect_two n1 n2 /\ kernel_arg a n1 = arg_reg a n1 /\ kernel_arg a n2 = arg_reg a n2
    /\ arg_reg a n1 <> arg_reg a n2).
  { unfold two_path_calls in Hcall.
    repeat (apply elem_of_cons in Hcall as [[= -> -> ->]|Hcall]); [..|by apply elem_of_nil in Hcall];
      destruct a; split_and!; try done; by destruct Hreg. }
  destruct Hk as (-> & -> & -> & Hne). by apply redirect_two_returns.
Qed.

(** The fourth argument of a 64-bit process (the new path of linkat and renameat) is
    read by the kernel from R10, but the tracer writes the redirected path's address to
    RCX: the call is made with the path outside of the package. *)
Theorem fourth_argument_missed t1 t2 q2 w (Ha : a = X86_64)
    (H1 : path_in w (nth 1 (u_arg (cur s)) 0%Z) t1) (H2 : path_in w (nth 3 (u_arg (cur s)) 0%Z) t2)
    (Hq2 : redirection t2 = Some q2)
    (Hlen : length (default [] (redirection t1)) + length q2 + 1 < shared_page_size) :
  exists tr w', returns h modify_syscall_second_and_fourth_args s w tr tt s w'
  /\ regs_of w' (kernel_arg a 4) = regs_of w (kernel_arg a 4)
  /\ points_to w w' RCX (Some q2).
Proof.
  destruct (redirect_two_returns 2 4 t1 t2 w) as (tr & w' & Hret & _ & Hf & Hp);
    [by rewrite Ha|done|done|by rewrite Hq2|].
  rewrite Hq2, Ha in Hp. rewrite Ha in Hf.
  exists tr, w'. split; [exact Hret|]. rewrite Ha. split.
  - apply Hf. simpl. set_solver.
  - inversion_clear Hp as [|? ? _ Hp']. by inversion_clear Hp'.
Qed.
End Rewrite.

(** A 64-bit process that calls renameat(AT_FDCWD, "a", AT_FDCWD, "/b"). *)
Definition rename_state : state :=
  exec_state {{ cur -> pid := 77%Z; cur -> localshm := Some 4096%Z; cur -> childshm := 65536%Z; cur -> shmid := 9%Z;
                cur -> u_arg := [4294967196; 1000; 4294967196; 1002]%Z }}.
Definition share_os (c : sys) (w : proc * (nat -> ascii)) : reply c * (proc * (nat -> ascii)) :=
  match c return reply c * (proc * (nat -> ascii)) with
  | Shm_store _ off b =>
    (tt, (w.1, fun i => if (off <=? i) && (i <? off + length b) then nth (i - off) b NUL else w.2 i))
  | c => let '(r, w') := proc_os 8 [] c w.1 in (r, (w', w.2))
  end.

Lemma share_os_sharing p id : sharing share_os 8 p id (fun _ => True) (fun w => w.1.1.1) (fun w => w.1.1.2) (fun w => w.2).
Proof.
  destruct (proc_os_tracee 8 [] p) as [[Hpeek Hpoke] Hpr Hget Hset]. split.
  - split; [split| | |].
    + intros a [[[rs m] rest] g] _. destruct (Hpeek a (rs, m, rest) Logic.I) as (x & Hx & Hb).
      exists x. split; [|done]. simpl in *. by inversion Hx.
    + intros a v [[[rs m] rest] g] _. by destruct (Hpoke a v (rs, m, rest) Logic.I).
    + by intros a v [[[rs m] rest] g].
    + by intros [[[rs m] rest] g].
    + by intros rs' [[[rs m] rest] g].
  - by intros rs' [[[rs m] rest] g].
  - by intros fmt args [[[rs m] rest] g].
  - by intros off b [[[rs m] rest] g].
Qed.

Definition rename_world : proc * (nat -> ascii) :=
  (set_reg RSI 1000 (set_reg R10 1002 (fun _ => 0%Z)), memory_with 1000 (lit "a" ++ NUL :: lit "/b"), [], fun _ => NUL).

Lemma rename_path addr t : string_at (rename_world.1.1.2) addr t -> (NUL ∉ t) -> length t < MAXPATHLEN ->
  path_in rename_state (fun _ => True) (fun w => w.1.1.2) rename_world addr t.
Proof. intros. by split_and!. Qed.

Lemma single_arg_redirected_witness :
  exists tr w', returns share_os (@modify_syscall_single_arg 0 2 (lit "/usr/../etc/passwd")) rename_state rename_world tr tt
    rename_state w'
  /\ rewritten rename_state (fun w => w.1.1.1) (fun w => w.1.1.2) (fun w => w.2) rename_world w'
       [(RSI, Some (lit "/home/bob/pkg/cde-root/etc/passwd"))].
Proof.
  apply (@single_arg_redirected 0 _ share_os rename_state (lit "/home/bob/pkg/cde-root") (lit "/home/alice/exp") 4096
    (fun _ => True) (fun w => w.1.1.1) (fun w => w.1.1.2) (fun w => w.2)
    (share_os_sharing 77 9) ltac:(by split) (or_intror eq_refl) eq_refl eq_refl eq_refl 2 (lit "/usr/../etc/passwd")).
  - by right.
  - intros q Hq. vm_compute in Hq. injection Hq as <-. apply Nat.ltb_lt. reflexivity.
Defined.

(** symlinkat("a", fd, "/b") *)
Definition symlink_state : state := rename_state {{ cur -> u_arg := [1000; 0; 1002]%Z }}.

Lemma two_args_redirected_witness :
  exists tr w', returns share_os (@modify_syscall_first_and_third_args 0)
    symlink_state rename_world tr tt
    symlink_state w'
  /\ rewritten symlink_state (fun w => w.1.1.1) (fun w => w.1.1.2) (fun w => w.2) rename_world w'
       [(RDI, Some (lit "/home/bob/pkg/cde-root/home/alice/exp/a")); (RDX, Some (lit "/home/bob/pkg/cde-root/b"))].
Proof.
  apply (@two_args_redirected 0 _ share_os symlink_state
    (lit "/home/bob/pkg/cde-root") (lit "/home/alice/exp") 4096
    (fun _ => True) (fun w => w.1.1.1) (fun w => w.1.1.2) (fun w => w.2)
    (share_os_sharing 77 9) ltac:(by split) (or_intror eq_refl) eq_refl eq_refl eq_refl
    modify_syscall_first_and_third_args 1 3 (lit "a") (lit "/b") rename_world).
  - right. left.
  - by right.
  - apply rename_path; [reflexivity|by apply (bool_decide_eq_true_1 _)|apply Nat.ltb_lt; reflexivity].
  - apply rename_path; [reflexivity|by apply (bool_decide_eq_true_1 _)|apply Nat.ltb_lt; reflexivity].
  - apply Nat.ltb_lt. reflexivity.
Defined.

Lemma fourth_argument_missed_witness :
  exists tr w', returns share_os (@modify_syscall_second_and_fourth_args 0) rename_state rename_world tr tt rename_state w'
  /\ w'.1.1.1 R10 = 1002%Z
  /\ points_to rename_state (fun w => w.1.1.1) (fun w => w.2) rename_world w' RCX (Some (lit "/home/bob/pkg/cde-root/b")).
Proof.
  apply (@fourth_argument_missed 0 _ share_os rename_state (lit "/home/bob/pkg/cde-root") (lit "/home/alice/exp") 4096
    (fun _ => True) (fun w => w.1.1.1) (fun w => w.1.1.2) (fun w => w.2)
    (share_os_sharing 77 9) ltac:(by split) (or_intror eq_refl) eq_refl eq_refl eq_refl (lit "a") (lit "/b")
    (lit "/home/bob/pkg/cde-root/b") rename_world).
  - reflexivity.
  - apply rename_path; [reflexivity|by apply (bool_decide_eq_true_1 _)|apply Nat.ltb_lt; reflexivity].
  - apply rename_path; [reflexivity|by apply (bool_decide_eq_true_1 _)|apply Nat.ltb_lt; reflexivity].
  - reflexivity.
  - apply Nat.ltb_lt. reflexivity.
Defined.
