(* ===== verification/Elf.v ===== *)
(** * The interpreter of an ELF file (readelf-mini/readelf-mini.c, dwarf.c)

    PTU's addition to readelf, [find_ELF_program_interpreter]: it reads the header, the
    tables of sections and of segments, and returns the name in the PT_INTERP segment.
    The file is its bytes, with the position that stdio keeps; a block that [get_data]
    allocates is a list of bytes, and reading behind it is [Segv].  The options of readelf
    are as they are without its main: only [do_segments] is set.  What is left out is not
    read by the function: the names of DWARF registers, [eh_addr_size], the tables of
    versions and of dynamic entries that are cleared, and [dump_sects], which nothing
    allocates. *)
From S2P Require Import Prelude CString Os.
From coqutil Require Import Datatypes.RecordSetters.
Import DoubleBraceUpdate.

(** ** Numbers in the file *)

(** [byte_get_little_endian], [byte_get_big_endian]: [field] has 1, 2, 4 or 8 bytes. *)
Definition byte_get_little_endian (field : cstring) : Z :=
  foldr (fun c acc => Z.lor (Z.of_nat (code c)) (Z.shiftl acc 8)) 0%Z field.
Definition byte_get_big_endian (field : cstring) : Z := byte_get_little_endian (rev field).
Definition byte_get (big_endian : bool) (field : cstring) : Z :=
  if big_endian then byte_get_big_endian field else byte_get_little_endian field.

(** [byte_put_little_endian], [byte_put_big_endian] *)
Definition byte_at (value : Z) (i : nat) : ascii := ascii_of_N (Z.to_N (Z.land (Z.shiftr value (8 * Z.of_nat i)) 255)).
Definition byte_put_little_endian (value : Z) (size : nat) : cstring := map (byte_at value) (seq 0 size).
Definition byte_put_big_endian (value : Z) (size : nat) : cstring := rev (byte_put_little_endian value size).
Definition byte_put (big_endian : bool) (value : Z) (size : nat) : cstring :=
  if big_endian then byte_put_big_endian value size else byte_put_little_endian value size.

(** An [unsigned] value that is passed as a [long], or stored in an [unsigned int] *)
Definition to_long (z : Z) : Z := ((z + 2 ^ 63) mod 2 ^ 64 - 2 ^ 63)%Z.
Definition to_uint (z : Z) : Z := (z mod 2 ^ 32)%Z.

(** ** The structures *)

(** The sizes of the fields of the external structures, in order *)
Definition Ehdr_rest (is32 : bool) : list nat :=
  let w := if is32 then 4 else 8 in [2; 2; 4; w; w; w; 4; 2; 2; 2; 2; 2; 2].
Definition External_Phdr (is32 : bool) : list nat :=
  if is32 then [4; 4; 4; 4; 4; 4; 4; 4] else [4; 4; 8; 8; 8; 8; 8; 8].
Definition External_Shdr (is32 : bool) : list nat :=
  let w := if is32 then 4 else 8 in [4; 4; w; w; w; w; 4; 4; w; w].
Definition External_Sym (is32 : bool) : list nat := if is32 then [4; 4; 4; 1; 1; 2] else [4; 1; 1; 2; 8; 8].
Definition sizeof (fields : list nat) : nat := list_sum fields.

Record ehdr := {
  e_ident : cstring; e_type : Z; e_machine : Z; e_version : Z; e_entry : Z; e_phoff : Z; e_shoff : Z; e_flags : Z;
  e_ehsize : Z; e_phentsize : Z; e_phnum : Z; e_shentsize : Z; e_shnum : Z; e_shstrndx : Z;
}.
Record phdr := {
  p_type : Z; p_flags : Z; p_offset : Z; p_vaddr : Z; p_paddr : Z; p_filesz : Z; p_memsz : Z; p_align : Z;
}.
Record shdr := {
  sh_name : Z; sh_type : Z; sh_flags : Z; sh_addr : Z; sh_offset : Z; sh_size : Z; sh_link : Z; sh_info : Z;
  sh_addralign : Z; sh_entsize : Z;
}.
Record sym := { st_value : Z; st_size : Z; st_name : Z; st_info : Z; st_other : Z; st_shndx : Z }.

Definition ehdr_of (ident : cstring) (l : list Z) : ehdr :=
  let f i := nth i l 0%Z in
  {| e_ident := ident; e_type := f 0; e_machine := f 1; e_version := f 2; e_entry := f 3; e_phoff := f 4; e_shoff := f 5;
     e_flags := f 6; e_ehsize := f 7; e_phentsize := f 8; e_phnum := f 9; e_shentsize := f 10; e_shnum := f 11;
     e_shstrndx := f 12 |}.
Definition phdr_of (is32 : bool) (l : list Z) : phdr :=
  let f i := nth i l 0%Z in
  if is32 then
    {| p_type := f 0; p_offset := f 1; p_vaddr := f 2; p_paddr := f 3; p_filesz := f 4; p_memsz := f 5; p_flags := f 6; p_align := f 7 |}
  else
    {| p_type := f 0; p_flags := f 1; p_offset := f 2; p_vaddr := f 3; p_paddr := f 4; p_filesz := f 5; p_memsz := f 6; p_align := f 7 |}.
Definition shdr_of (l : list Z) : shdr :=
  let f i := nth i l 0%Z in
  {| sh_name := f 0; sh_type := f 1; sh_flags := f 2; sh_addr := f 3; sh_offset := f 4; sh_size := f 5; sh_link := f 6;
     sh_info := f 7; sh_addralign := f 8; sh_entsize := f 9 |}.

Definition ELFCLASS64 : Z := 2.
Definition ELFDATA2MSB : Z := 2.
Definition PT_INTERP : Z := 3.
Definition SHT_SYMTAB : Z := 2.
Definition SHT_STRTAB : Z := 3.
Definition SHT_RELA : Z := 4.
Definition SHT_REL : Z := 9.
Definition SHT_DYNSYM : Z := 11.
Definition SHT_GROUP : Z := 17.
Definition SHT_SYMTAB_SHNDX : Z := 18.
Definition SHN_XINDEX : Z := 65535.
Definition SHN_LORESERVE : Z := 65280.
Definition PATH_MAX : nat := Z.to_nat 4096.

(** ** The state: the position in the file and the globals of readelf

    [string_table_length] is the length of the table; [symtab_shndx_hdr] is an index. *)
Record readelf := {
  fpos : Z;
  elf_header : ehdr;
  big_endian : bool;
  is_32bit_elf : bool;
  section_headers : option (list shdr);
  program_headers : option (list phdr);
  string_table : option cstring;
  string_table_length : Z;
  dynamic_symbols : option (list sym);
  dynamic_strings : option cstring;
  symtab_shndx_hdr : option nat;
  program_interpreter : cstring;
}.
Definition ehdr0 : ehdr := ehdr_of (repeat NUL 16) [].
Definition readelf0 : readelf := {|
  fpos := 0; elf_header := ehdr0; big_endian := false; is_32bit_elf := false; section_headers := None;
  program_headers := None; string_table := None; string_table_length := 0; dynamic_symbols := None;
  dynamic_strings := None; symtab_shndx_hdr := None; program_interpreter := [] |}.

Definition error (fmt : string) (args : list parg) : M readelf unit := let* _ := sysM (Eprintf fmt args) in skip.
Arguments error _%_string_scope _.

Section File.
(** The bytes of the file *)
Context (file : cstring).
Let flen : Z := Z.of_nat (length file).

(** [fseek(file, off, SEEK_SET)]: true for success *)
Definition fseek (off : Z) : M readelf bool :=
  if (off <? 0)%Z then retM false else modM (fun s => s {{ fpos := off }}) ;;; retM true.
(** [fread] of [n] bytes in all *)
Definition fread (n : Z) : M readelf (option cstring) :=
  let* p := gets fpos in
  if (p + n <=? flen)%Z then
    modM (fun s => s {{ fpos := (p + n)%Z }}) ;;; retM (Some (take (Z.to_nat n) (drop (Z.to_nat p) file)))
  else modM (fun s => s {{ fpos := Z.max p flen }}) ;;; retM None.
(** [fscanf(file, "%<width>s", ...)]: what is stored in front of the NUL; None for EOF *)
Definition fscanf_s (width : nat) : M readelf (option cstring) :=
  let* p := gets fpos in
  if (flen <=? p)%Z then retM None
  else
    let rest := drop (Z.to_nat p) file in
    let text := drop_while isspace rest in
    let w := take width (take_while (fun c => negb (isspace c)) text) in
    modM (fun s => s {{ fpos := (p + Z.of_nat (length rest - length text + length w))%Z }}) ;;;
    retM (match w with [] => None | _ => Some w end).

(** [get_data(NULL, ...)]: a new block, with a NUL behind it *)
Definition get_data (offset size nmemb : Z) (reason : string) : M readelf (option cstring) :=
  if (size =? 0)%Z || (nmemb =? 0)%Z then retM None
  else
    let* ok := fseek (to_long offset) in
    if negb ok then error "Unable to seek to 0x%lx for %s\n" [PZ offset; PS (lit reason)] ;;; retM None
    else if negb (nmemb <? (2 ^ 64 - 2) / size)%Z then
      error "Out of memory allocating 0x%lx bytes for %s\n" [PZ (size * nmemb); PS (lit reason)] ;;; retM None
    else
      let* d := fread (size * nmemb) in
      match d with
      | None => error "Unable to read in 0x%lx bytes of %s\n" [PZ (size * nmemb); PS (lit reason)] ;;; retM None
      | Some d => retM (Some (d ++ [NUL]))
      end.
Arguments get_data _ _ _ _%_string_scope.

(** A field, or the fields of a structure, at an offset of a block *)
Definition get_field (block : cstring) (off size : nat) : M readelf Z :=
  let* e := gets big_endian in
  if off + size <=? length block then retM (byte_get e (take size (drop off block))) else stopM Segv.
Fixpoint get_fields (block : cstring) (off : nat) (sizes : list nat) : M readelf (list Z) :=
  match sizes with
  | [] => retM []
  | n :: sizes =>
    let* v := get_field block off n in
    let* l := get_fields block (off + n) sizes in
    retM (v :: l)
  end.
(** The elements of an array of structures, [n] from the index [i] on *)
Fixpoint get_array {A} (f : nat -> list Z -> M readelf A) (sizes : list nat) (block : cstring) (n i : nat) : M readelf (list A) :=
  match n with
  | O => retM []
  | S n =>
    let* l := get_fields block (i * sizeof sizes) sizes in
    let* x := f i l in
    let* xs := get_array f sizes block n (i + 1) in
    retM (x :: xs)
  end.

(** [get_32bit_section_headers], [get_64bit_section_headers] *)
Definition get_section_headers (num : Z) : M readelf bool :=
  let* h := gets elf_header in
  let* is32 := gets is_32bit_elf in
  let* shdrs := get_data (e_shoff h) (e_shentsize h) num "section headers" in
  match shdrs with
  | None => retM false
  | Some shdrs =>
    let* l := get_array (fun _ l => retM (shdr_of l)) (External_Shdr is32) shdrs (Z.to_nat num) 0 in
    modM (fun s => s {{ section_headers := Some l }}) ;;;
    retM true
  end.

(** [get_32bit_program_headers], [get_64bit_program_headers] *)
Definition get_bit_program_headers : M readelf (option (list phdr)) :=
  let* h := gets elf_header in
  let* is32 := gets is_32bit_elf in
  let* phdrs := get_data (e_phoff h) (e_phentsize h) (e_phnum h) "program headers" in
  match phdrs with
  | None => retM None
  | Some phdrs =>
    let* l := get_array (fun _ l => retM (phdr_of is32 l)) (External_Phdr is32) phdrs (Z.to_nat (e_phnum h)) 0 in
    retM (Some l)
  end.
Definition get_program_headers : M readelf bool :=
  let* cached := gets program_headers in
  match cached with
  | Some _ => retM true
  | None =>
    let* phdrs := get_bit_program_headers in
    match phdrs with
    | Some l => modM (fun s => s {{ program_headers := Some l }}) ;;; retM true
    | None => retM false
    end
  end.

(** ** The header *)

Definition ident_at (h : ehdr) (i : nat) : Z := Z.of_nat (code (nth i (e_ident h) NUL)).
Definition get_file_header : M readelf bool :=
  let* ident := fread 16%Z in
  match ident with
  | None => retM false
  | Some ident =>
    modM (fun s => s {{ elf_header -> e_ident := ident }}) ;;;
    let* h := gets elf_header in
    modM (fun s => s {{ big_endian := (ident_at h 5 =? ELFDATA2MSB)%Z; is_32bit_elf := negb (ident_at h 4 =? ELFCLASS64)%Z }}) ;;;
    let* is32 := gets is_32bit_elf in
    let* rest := fread (Z.of_nat (sizeof (Ehdr_rest is32))) in
    match rest with
    | None => retM false
    | Some rest =>
      let* l := get_fields rest 0 (Ehdr_rest is32) in
      modM (fun s => s {{ elf_header := ehdr_of ident l }}) ;;;
      let* h := gets elf_header in
      (if (e_shoff h =? 0)%Z then skip else let* _ := get_section_headers 1%Z in skip) ;;;
      retM true
    end
  end.

Definition has_magic (h : ehdr) : bool := bool_decide (take 4 (e_ident h) = ascii_of_nat 127 :: lit "ELF").
(** With [do_header] off; the names of DWARF registers that are set are not used. *)
Definition process_file_header : M readelf bool :=
  let* h := gets elf_header in
  if negb (has_magic h) then error "Not an ELF file - it has the wrong magic bytes at the start\n" [] ;;; retM false
  else
    let* sections := gets section_headers in
    match sections with
    | None => skip
    | Some sections =>
      let* first := deref (head sections) in
      let shnum := if (e_shnum h =? 0)%Z then to_uint (sh_size first) else e_shnum h in
      let shstrndx :=
        if (e_shstrndx h =? SHN_XINDEX)%Z then sh_link first
        else if (shnum <=? e_shstrndx h)%Z then 0%Z else e_shstrndx h in
      modM (fun s => s {{ elf_header -> e_shnum := shnum; elf_header -> e_shstrndx := shstrndx; section_headers := None }})
    end ;;;
    retM true.

(** ** The sections *)

(** [SECTION_NAME] *)
Definition section_name (s : readelf) (x : shdr) : cstring :=
  match string_table s with
  | None => lit "<no-name>"
  | Some t => if (string_table_length s <=? sh_name x)%Z then lit "<corrupt>" else until_nul (drop (Z.to_nat (sh_name x)) t)
  end.

(** [get_32bit_elf_symbols], [get_64bit_elf_symbols]; the section is at the index [i]. *)
Definition sym_of (is32 : bool) (shndx : option cstring) (j : nat) (l : list Z) : M readelf sym :=
  let f k := nth k l 0%Z in
  let ndx := f (if is32 then 5 else 3) in
  let* ndx :=
    match shndx with
    | Some t =>
      if (ndx =? SHN_XINDEX)%Z then get_field t (4 * j) 4
      else retM (if (SHN_LORESERVE <=? ndx)%Z then to_uint (ndx + 4294901760) else ndx)
    | None => retM (if (SHN_LORESERVE <=? ndx)%Z then to_uint (ndx + 4294901760) else ndx)
    end in
  retM (if is32 then {| st_name := f 0; st_value := f 1; st_size := f 2; st_info := f 3; st_other := f 4; st_shndx := ndx |}
        else {| st_name := f 0; st_info := f 1; st_other := f 2; st_shndx := ndx; st_value := f 4; st_size := f 5 |}).
Definition get_elf_symbols (i : nat) (section : shdr) : M readelf (option (list sym)) :=
  let* is32 := gets is_32bit_elf in
  let* esyms := get_data (sh_offset section) 1%Z (sh_size section) "symbols" in
  match esyms with
  | None => retM None
  | Some esyms =>
    let* s := gets (fun s => s) in
    let x :=
      match symtab_shndx_hdr s, section_headers s with
      | Some k, Some l => x ← l !! k; if (sh_link x =? Z.of_nat i)%Z then Some x else None
      | _, _ => None
      end in
    let* shndx :=
      match x with
      | None => retM (Some None)
      | Some x =>
        let* t := get_data (sh_offset x) 1%Z (sh_size x) "symtab shndx" in
        retM (match t with None => None | Some t => Some (Some t) end)
      end in
    match shndx with
    | None => retM None
    | Some shndx =>
      let number := Z.to_nat (sh_size section / sh_entsize section) in
      let* l := get_array (sym_of is32 shndx) (External_Sym is32) esyms number 0 in
      retM (Some l)
    end
  end.

(** [CHECK_ENTSIZE]: the section's entry size is set to the expected one. *)
Definition check_entsize (i : nat) (section : shdr) (size32 size64 : Z) : M readelf shdr :=
  let* is32 := gets is_32bit_elf in
  let expected := if is32 then size32 else size64 in
  (if (sh_entsize section =? expected)%Z then skip
   else error "Section %d has invalid sh_entsize %lx (expected %lx)\n" [PZ (Z.of_nat i); PZ (sh_entsize section); PZ expected]) ;;;
  let section := section {{ sh_entsize := expected }} in
  modM (fun s => s {{ section_headers := option_map (fun l => <[i:=section]> l) (section_headers s) }}) ;;;
  retM section.

(** The body of the loop; no option of readelf that asks for debugging data is set. *)
Definition process_section (i : nat) : M readelf unit :=
  let* s := gets (fun s => s) in
  let* section := deref (l ← section_headers s; l !! i) in
  let name := section_name s section in
  if (sh_type section =? SHT_DYNSYM)%Z then
    match dynamic_symbols s with
    | Some _ => error "File contains multiple dynamic symbol tables\n" []
    | None =>
      let* section := check_entsize i section 16%Z 24%Z in
      let* syms := get_elf_symbols i section in
      modM (fun s => s {{ dynamic_symbols := syms }})
    end
  else if (sh_type section =? SHT_STRTAB)%Z && strcmp_eq name (lit ".dynstr") then
    match dynamic_strings s with
    | Some _ => error "File contains multiple dynamic string tables\n" []
    | None =>
      let* t := get_data (sh_offset section) 1%Z (sh_size section) "dynamic strings" in
      modM (fun s => s {{ dynamic_strings := t }})
    end
  else if (sh_type section =? SHT_SYMTAB_SHNDX)%Z then
    match symtab_shndx_hdr s with
    | Some _ => error "File contains multiple symtab shndx tables\n" []
    | None => modM (fun s => s {{ symtab_shndx_hdr := Some i }})
    end
  else if (sh_type section =? SHT_SYMTAB)%Z then let* _ := check_entsize i section 16%Z 24%Z in skip
  else if (sh_type section =? SHT_GROUP)%Z then let* _ := check_entsize i section 4%Z 4%Z in skip
  else if (sh_type section =? SHT_REL)%Z then let* _ := check_entsize i section 8%Z 16%Z in skip
  else if (sh_type section =? SHT_RELA)%Z then let* _ := check_entsize i section 12%Z 24%Z in skip
  else skip.

Definition process_section_headers : M readelf bool :=
  modM (fun s => s {{ section_headers := None }}) ;;;
  let* h := gets elf_header in
  if (e_shnum h =? 0)%Z then retM true
  else
    let* got := get_section_headers (e_shnum h) in
    if negb got then retM false
    else
      let* l := gets section_headers in
      let* l := deref l in
      (if negb (e_shstrndx h =? 0)%Z && (e_shstrndx h <? e_shnum h)%Z then
         let* section := deref (l !! Z.to_nat (e_shstrndx h)) in
         if negb (sh_size section =? 0)%Z then
           let* t := get_data (sh_offset section) 1%Z (sh_size section) "string table" in
           modM (fun s => s {{ string_table := t;
                               string_table_length := match t with Some _ => sh_size section | None => 0%Z end }})
         else skip
       else skip) ;;;
      modM (fun s => s {{ dynamic_symbols := None; dynamic_strings := None; symtab_shndx_hdr := None }}) ;;;
      forM (seq 0 (Z.to_nat (e_shnum h))) process_section ;;;
      retM true.
(** Nothing is done unless [do_unwind] or [do_section_groups] is set. *)
Definition process_section_groups : M readelf bool := retM true.

(** ** The interpreter *)

(** The loop over the segments; [found] is [program_interpreter_newstring]. *)
Fixpoint interp_loop (segments : list phdr) (found : option cstring) : M readelf (option cstring) :=
  match segments with
  | [] => retM found
  | segment :: segments =>
    if (p_type segment =? PT_INTERP)%Z then
      let* ok := fseek (to_long (p_offset segment)) in
      if negb ok then error "Unable to find program interpreter name\n" [] ;;; retM found
      else
        modM (fun s => s {{ program_interpreter := [] }}) ;;;
        let* w := fscanf_s PATH_MAX in
        match w with
        | None => error "Unable to read program interpreter name\n" [] ;;; retM found
        | Some w =>
          if length w <? PATH_MAX then
            modM (fun s => s {{ program_interpreter := until_nul w }}) ;;;
            interp_loop segments (Some (until_nul w))
          else stopM Segv
        end
    else interp_loop segments found
  end.

(** From the header to the label [done] *)
Definition find_interpreter (file_name : cstring) : M readelf (option cstring) :=
  let* ok := get_file_header in
  if negb ok then error "%s: Failed to read file header\n" [PS file_name] ;;; retM None
  else
    let* ok := process_file_header in
    if negb ok then retM None
    else
      let* _ := process_section_headers in
      let* _ := process_section_groups in
      let* h := gets elf_header in
      if (e_phnum h =? 0)%Z then let* _ := sysM (Printf "\nThere are no program headers in this file.\n" []) in retM None
      else
        let* ok := get_program_headers in
        if negb ok then retM None
        else
          let* l := gets program_headers in
          let* l := deref l in
          interp_loop l None.
End File.
#[global] Arguments get_data _ _ _ _ _%_string_scope.

(** What is freed and set to NULL at [done] *)
Definition release : M readelf unit :=
  modM (fun s => s {{ program_headers := None; section_headers := None; string_table := None;
                      string_table_length := match string_table s with Some _ => 0%Z | None => string_table_length s end;
                      dynamic_strings := None; dynamic_symbols := None }}).

(** [contents]: the bytes of the file that [fopen] opens, if it can *)
Definition find_ELF_program_interpreter (file_name : cstring) (contents : option cstring) : M readelf (option cstring) :=
  let* file := assert_some contents in
  modM (fun s => s {{ fpos := 0%Z }}) ;;;
  let* r := find_interpreter file file_name in
  release ;;;
  retM r.

(** 32, 64 or -1 *)
Definition find_ELF_class (file_name : cstring) (contents : option cstring) : M readelf Z :=
  let* file := assert_some contents in
  modM (fun s => s {{ fpos := 0%Z }}) ;;;
  let* ok := get_file_header file in
  if negb ok then error "%s: Failed to read file header\n" [PS file_name] ;;; retM (-1)%Z
  else
    let* h := gets elf_header in
    if negb (has_magic h) then error "Not an ELF file - it has the wrong magic bytes at the start\n" [] ;;; retM (-1)%Z
    else retM (if (ident_at h 4 =? 1)%Z then 32 else if (ident_at h 4 =? 2)%Z then 64 else -1)%Z.
