(* ===== verification/ElfSpec.v ===== *)
(** * What [find_ELF_program_interpreter] finds (readelf-mini.c)

    A reference that takes the header and the segments straight from the bytes of the
    file; the code, which reads the sections on the way, computes the same. The round trip
    with a printer of ELF files. *)
From S2P Require Import Prelude CString Os State ChildMem ShmSpec Elf.

(** ** Numbers *)

Lemma byte_get_le_word f : byte_get_little_endian f = word_of f.
Proof.
  induction f as [|c f IH]; [done|]. unfold word_of. cbn [byte_get_little_endian foldr]. fold (byte_get_little_endian f) (word_of f).
  rewrite IH, Z.shiftl_mul_pow2, Z.mul_comm by lia. change (2 ^ 8)%Z with 256%Z.
  symmetry. apply Z.add_nocarry_lor. apply Z.bits_inj'. intros n Hn. rewrite Z.land_spec, Z.bits_0.
  pose proof (code_bound c) as Hc. change 256%Z with (2 ^ 8)%Z. rewrite Z.mul_comm, <- Z.shiftl_mul_pow2 by lia.
  destruct (Z.ltb_spec n 8) as [Hlt|Hge].
  - rewrite Z.shiftl_spec_low by lia. apply andb_false_r.
  - destruct (Z.eqb_spec (Z.of_nat (code c)) 0) as [->|H0]; [by rewrite Z.bits_0|].
    rewrite Z.bits_above_log2; [done|lia|]. apply Z.log2_lt_pow2; [lia|].
    apply Z.lt_le_trans with (2 ^ 8)%Z; [change (2 ^ 8)%Z with 256%Z; lia|]. apply Z.pow_le_mono_r; lia.
Qed.
Lemma byte_get_word e f : byte_get e f = word_of (if e then rev f else f).
Proof. destruct e; apply byte_get_le_word. Qed.
Lemma byte_get_range e f : (0 <= byte_get e f < 256 ^ Z.of_nat (length f))%Z.
Proof.
  rewrite byte_get_word. pose proof (word_of_bound (if e then rev f else f)) as H. destruct e; [|exact H]. by rewrite length_rev in H.
Qed.
(** What [byte_put] stores is read back. *)
Lemma byte_get_put e v n : byte_get e (byte_put e v n) = (v mod 256 ^ Z.of_nat n)%Z.
Proof.
  rewrite byte_get_word. change (byte_put e v n) with (if e then rev (word_bytes n v) else word_bytes n v).
  destruct e; [rewrite rev_involutive|]; apply word_of_word_bytes.
Qed.
Lemma length_byte_put e v n : length (byte_put e v n) = n.
Proof. change (byte_put e v n) with (if e then rev (word_bytes n v) else word_bytes n v). destruct e; rewrite ?length_rev; apply word_bytes_length. Qed.

(** ** The reference *)

(** The fields of a structure at an offset of a block *)
Fixpoint fields (e : bool) (block : cstring) (off : nat) (sizes : list nat) : list Z :=
  match sizes with
  | [] => []
  | n :: sizes => byte_get e (take n (drop off block)) :: fields e block (off + n) sizes
  end.
(** The word at an offset of the file: white space is skipped. *)
Definition word_at (file : cstring) (off : Z) : cstring :=
  take_while (fun c => negb (isspace c)) (drop_while isspace (drop (Z.to_nat off) file)).

Section Reference.
Context (file : cstring).
Definition msb : bool := bool_decide (file !! 5 = Some (ascii_of_nat 2)).
Definition class32 : bool := negb (bool_decide (file !! 4 = Some (ascii_of_nat 2))).
Definition header_size : nat := 16 + sizeof (Ehdr_rest class32).
Definition header : ehdr := ehdr_of (take 16 file) (fields msb file 16 (Ehdr_rest class32)).
Definition segment (i : nat) : phdr :=
  phdr_of class32 (fields msb file (Z.to_nat (e_phoff header) + i * sizeof (External_Phdr class32)) (External_Phdr class32)).
Definition segments : list phdr := map segment (seq 0 (Z.to_nat (e_phnum header))).
Definition section_at (i : nat) : shdr :=
  shdr_of (fields msb file (Z.to_nat (e_shoff header) + i * sizeof (External_Shdr class32)) (External_Shdr class32)).

(** The segments are all in the file. *)
Definition segments_inside : bool :=
  (to_long (e_phoff header) =? e_phoff header)%Z
  && (e_phoff header + e_phentsize header * e_phnum header <=? Z.of_nat (length file))%Z.
(** The names of the PT_INTERP segments: the last counts, up to one that cannot be read. *)
Fixpoint interp_of (l : list phdr) (found : option cstring) : option cstring :=
  match l with
  | [] => found
  | x :: l =>
    if (p_type x =? PT_INTERP)%Z then
      if bool_decide (0 <= to_long (p_offset x))%Z && negb (bool_decide (word_at file (to_long (p_offset x)) = []))
      then interp_of l (Some (until_nul (word_at file (to_long (p_offset x))))) else found
    else interp_of l found
  end.
Definition elf_interpreter : option cstring :=
  if bool_decide (header_size <= length file) && has_magic header && negb (e_phnum header =? 0)%Z && segments_inside
  then interp_of segments None else None.

(** The number of sections may be in the first one. *)
Definition section_count : Z := if (e_shnum header =? 0)%Z then to_uint (sh_size (section_at 0)) else e_shnum header.
(** The entries of the tables are not shorter than their structures, no section is a table
    of section indices, and the names end within the buffer. *)
Definition elf_sane : bool :=
  (Z.of_nat (sizeof (External_Phdr class32)) <=? e_phentsize header)%Z
  && (((e_shoff header =? 0)%Z && (e_shnum header =? 0)%Z)
      || ((Z.of_nat (sizeof (External_Shdr class32)) <=? e_shentsize header)%Z
          && forallb (fun i => negb (sh_type (section_at i) =? SHT_SYMTAB_SHNDX)%Z)
               (seq 0 (Z.to_nat (Z.min section_count (Z.of_nat (length file)))))))
  && forallb (fun x => negb (p_type x =? PT_INTERP)%Z
                       || (length (word_at file (to_long (p_offset x))) <? PATH_MAX)) segments.
End Reference.

(** ** The steps of the code

    Whatever is printed, each step ends; the position in the file is where it may be. *)
Definition printing : contract :=
  {| may c := match c with Eprintf _ _ | Printf _ _ => True | _ => False end; rep _ _ := True |}.
Definition never : stop -> Prop := fun _ => False.
Abbreviation wpE := (wpM printing).

Lemma readelf_eta s : s = s {{ fpos := fpos s }}.
Proof. by destruct s. Qed.
Lemma wp_error fmt args s (Q : unit -> readelf -> Prop) : Q tt s -> wpE (error fmt args) s Q never.
Proof. intros H. unfold error. wp1. wp1; [done|]. by wp1. Qed.


Section File.
Context (file : cstring).
Let flen : Z := Z.of_nat (length file).

(** What [get_data] gives *)
Definition block (off size n : Z) : option cstring :=
  if (size =? 0)%Z || (n =? 0)%Z || (to_long off <? 0)%Z || negb (n <? (2 ^ 64 - 2) / size)%Z
     || (flen <? to_long off + size * n)%Z then None
  else Some (take (Z.to_nat (size * n)) (drop (Z.to_nat (to_long off)) file) ++ [NUL]).

Lemma wp_fread n s (Q : option cstring -> readelf -> Prop) :
  ((fpos s + n <= flen)%Z -> Q (Some (take (Z.to_nat n) (drop (Z.to_nat (fpos s)) file))) (s {{ fpos := (fpos s + n)%Z }})) ->
  ((flen < fpos s + n)%Z -> forall p, Q None (s {{ fpos := p }})) ->
  wpE (fread file n) s Q never.
Proof.
  intros H1 H2. unfold fread. wp1. wp1. destruct (Z.leb_spec (fpos s + n) (Z.of_nat (length file))) as [Hle|Hlt].
  - wp1. wp1. wp1. by apply H1.
  - wp1. wp1. wp1. by apply H2.
Qed.
Lemma wp_get_data off size n r s (Q : option cstring -> readelf -> Prop) :
  (forall p, Q (block off size n) (s {{ fpos := p }})) -> wpE (get_data file off size n r) s Q never.
Proof.
  intros H. unfold get_data, fseek. unfold block in H. destruct (_ || (n =? 0)%Z).
  { wp1. rewrite (readelf_eta s). apply H. }
  cbn [orb] in H. destruct (to_long off <? 0)%Z; cbn [orb] in H.
  { wp1. wp1. cbn [negb]. wp1. apply wp_error. wp1. rewrite (readelf_eta s). apply H. }
  wp1. wp1. wp1. wp1. cbn [negb]. destruct (negb (n <? _)%Z); cbn [orb] in H.
  { wp1. apply wp_error. wp1. apply H. }
  wp1. apply wp_fread.
  - intros Hle. assert (E : (flen <? to_long off + size * n)%Z = false) by (apply Z.ltb_ge; exact Hle).
    rewrite E in H. wp1. apply (H _).
  - intros Hlt p. assert (E : (flen <? to_long off + size * n)%Z = true) by (apply Z.ltb_lt; exact Hlt).
    rewrite E in H. wp1. apply wp_error. wp1. apply (H p).
Qed.
Lemma wp_get_fields e b sizes off s (Q : list Z -> readelf -> Prop) : big_endian s = e -> off + sizeof sizes <= length b ->
  Q (fields e b off sizes) s -> wpE (get_fields b off sizes) s Q never.
Proof.
  intros He. revert off Q; induction sizes as [|n sizes IH]; intros off Q Hlen HQ; cbn [get_fields]; [by wp1|].
  change (sizeof (n :: sizes)) with (n + sizeof sizes) in Hlen. unfold get_field. wp1. wp1. wp1.
  rewrite (proj2 (Nat.leb_le _ _)) by lia. wp1. wp1. apply IH; [lia|]. wp1. rewrite He. exact HQ.
Qed.
Lemma wp_get_array {A} e (f : nat -> list Z -> M readelf A) g sizes b n i s (Q : list A -> readelf -> Prop) :
  big_endian s = e -> (forall i l s, f i l s = Ret (g i l, s)) -> (i + n) * sizeof sizes <= length b ->
  Q (map (fun j => g j (fields e b (j * sizeof sizes) sizes)) (seq i n)) s -> wpE (get_array f sizes b n i) s Q never.
Proof.
  intros He Hf. revert i Q; induction n as [|n IH]; intros i Q Hlen HQ; cbn [get_array]; [by wp1|].
  wp1. apply (wp_get_fields e); [done|nia|]. wp1. eapply wpM_pure; [apply Hf|]. wp1.
  apply IH; [by replace (i + 1 + n) with (i + S n) by lia|]. wp1. rewrite Nat.add_1_r. exact HQ.
Qed.

Lemma block_is off size n b : block off size n = Some b ->
  b = take (Z.to_nat (size * n)) (drop (Z.to_nat (to_long off)) file) ++ [NUL]
  /\ (0 <= to_long off)%Z /\ (to_long off + size * n <= flen)%Z /\ n <> 0%Z.
Proof.
  unfold block. destruct (_ || _) eqn:E; [done|]. intros [= <-]. rewrite !orb_false_iff in E. destruct E as ((((_ & E3) & E1) & _) & E2).
  apply Z.ltb_ge in E1, E2. apply Z.eqb_neq in E3. done.
Qed.
Lemma block_length off size n b : block off size n = Some b -> length b = Z.to_nat (size * n) + 1.
Proof.
  intros (-> & H1 & H2 & _)%block_is. rewrite length_app, length_take, length_drop. unfold flen in H2. simpl. lia.
Qed.
(** A structure of a block is that of the file. *)
Lemma fields_take e m k x sizes off : off + sizeof sizes <= m -> m <= length k ->
  fields e (take m k ++ x) off sizes = fields e k off sizes.
Proof.
  intros H Hm. revert off H; induction sizes as [|n sizes IH]; intros off H; [done|]. change (sizeof (n :: sizes)) with (n + sizeof sizes) in H.
  cbn [fields]. rewrite IH by lia. do 2 f_equal.
  rewrite drop_app_le by (rewrite length_take; lia). rewrite take_app_le by (rewrite length_drop, length_take; lia).
  rewrite skipn_firstn_comm, firstn_firstn. f_equal. lia.
Qed.
Lemma fields_drop e k p sizes off : fields e (drop p k) off sizes = fields e k (p + off) sizes.
Proof.
  revert off; induction sizes as [|n sizes IH]; intros off; [done|]. cbn [fields]. rewrite drop_drop, IH. by rewrite Nat.add_assoc.
Qed.
Lemma nth_fields e b off sizes i : (0 <= nth i (fields e b off sizes) 0 < 256 ^ Z.of_nat (nth i sizes 0%nat))%Z.
Proof.
  revert off i; induction sizes as [|n sizes IH]; intros off [|i]; cbn [fields nth]; try lia; [|apply IH].
  pose proof (byte_get_range e (take n (drop off b))) as H. split; [lia|]. eapply Z.lt_le_trans; [apply H|].
  apply Z.pow_le_mono_r; [lia|]. rewrite length_take. lia.
Qed.

Lemma table_fits sz size num : (Z.of_nat sz <= size)%Z -> Z.to_nat num * sz <= Z.to_nat (size * num).
Proof.
  intros H. destruct (Z.le_gt_cases 0 num); [|rewrite (Z2Nat.nonpos num) by lia; lia].
  apply Nat2Z.inj_le. rewrite Nat2Z.inj_mul, !Z2Nat.id by nia. nia.
Qed.

(** *** The tables *)

Context (Hsane : elf_sane file = true).
Let e := msb file.
Let is32 := class32 file.
Let h := header file.
Lemma to_long_id z : (0 <= to_long z)%Z -> (0 <= z < 2 ^ 64)%Z -> to_long z = z.
Proof. unfold to_long. intros H Hz. destruct (Z.lt_ge_cases z (2 ^ 63)); [rewrite Z.mod_small by lia; lia|]. 
  replace (z + 2 ^ 63)%Z with (z - 2 ^ 63 + 1 * 2 ^ 64)%Z in H by lia. rewrite Z_mod_plus_full, Z.mod_small in H by lia. lia. Qed.
Lemma header_range : (0 <= e_phoff h < 2 ^ 64)%Z /\ (0 <= e_shoff h < 2 ^ 64)%Z /\ (0 <= e_phnum h < 2 ^ 16)%Z
  /\ (0 <= e_phentsize h < 2 ^ 16)%Z /\ (0 <= e_shnum h)%Z.
Proof.
  pose proof (nth_fields e file 16 (Ehdr_rest is32)) as H.
  pose proof (H 4) as H4. pose proof (H 5) as H5. pose proof (H 8) as H8. pose proof (H 9) as H9. pose proof (H 11) as H11.
  clear H. unfold h, header. cbn [ehdr_of e_phoff e_shoff e_phnum e_phentsize e_shnum]. fold e is32.
  destruct is32; cbn [Ehdr_rest nth] in *; lia.
Qed.
(** What the sections are to be like, if there are any *)
Definition sections_sane : Prop := (Z.of_nat (sizeof (External_Shdr is32)) <= e_shentsize h)%Z
  /\ forall i, i < length file -> (Z.of_nat i < section_count file)%Z -> sh_type (section_at file i) <> SHT_SYMTAB_SHNDX.
Lemma sane_parts :
  (Z.of_nat (sizeof (External_Phdr is32)) <= e_phentsize h)%Z
  /\ ((e_shoff h = 0 /\ e_shnum h = 0)%Z \/ sections_sane)
  /\ forallb (fun x => negb (p_type x =? PT_INTERP)%Z || (length (word_at file (to_long (p_offset x))) <? PATH_MAX)) (segments file) = true.
Proof.
  unfold elf_sane in Hsane. rewrite !andb_true_iff, orb_true_iff, !andb_true_iff in Hsane. destruct Hsane as [[H1 H2] H3].
  split; [by apply Z.leb_le|]. split; [|done]. destruct H2 as [[E1%Z.eqb_eq E2%Z.eqb_eq]|[E1%Z.leb_le E2]]; [by left|right].
  split; [done|]. intros i Hi Hc E. rewrite forallb_forall in E2. specialize (E2 i ltac:(apply in_seq; lia)). by rewrite E in E2.
Qed.
Lemma sane_ph : (Z.of_nat (sizeof (External_Phdr is32)) <= e_phentsize h)%Z.
Proof. apply sane_parts. Qed.
Lemma sane_sh : (e_shoff h = 0 /\ e_shnum h = 0)%Z \/ sections_sane.
Proof. apply sane_parts. Qed.
Lemma sane_word x : x ∈ segments file -> p_type x = PT_INTERP -> length (word_at file (to_long (p_offset x))) < PATH_MAX.
Proof.
  destruct sane_parts as (_ & _ & H). intros Hx E. rewrite forallb_forall in H. specialize (H x (proj1 (list_elem_of_In _ _) Hx)).
  rewrite E in H. by apply Nat.ltb_lt.
Qed.

(** What the steps keep: the bytes are read as the header says, and it is the file's but
    for the number of sections. *)
Definition tables (x : ehdr) := (e_ident x, e_phoff x, e_phentsize x, e_phnum x, e_shoff x, e_shentsize x).
Record reading (s : readelf) : Prop := {
  r_msb : big_endian s = e;
  r_class : is_32bit_elf s = is32;
  r_header : tables (elf_header s) = tables h;
  r_shnum : e_shnum (elf_header s) = 0%Z \/ (e_shnum (elf_header s) = section_count file /\ sections_sane);
  r_shnum_pos : (0 <= e_shnum (elf_header s))%Z;
  r_phdrs : program_headers s = None;
}.
Lemma r_fields s : reading s -> e_ident (elf_header s) = e_ident h /\ e_phoff (elf_header s) = e_phoff h
  /\ e_phentsize (elf_header s) = e_phentsize h /\ e_phnum (elf_header s) = e_phnum h
  /\ e_shoff (elf_header s) = e_shoff h /\ e_shentsize (elf_header s) = e_shentsize h.
Proof.
  intros Hs. pose proof (r_header _ Hs) as E. split_and!; [exact (f_equal (fun t => t.1.1.1.1.1) E)|exact (f_equal (fun t => t.1.1.1.1.2) E)|
    exact (f_equal (fun t => t.1.1.1.2) E)|exact (f_equal (fun t => t.1.1.2) E)|exact (f_equal (fun t => t.1.2) E)|exact (f_equal snd E)].
Qed.
Definition no_shndx (l : list shdr) : Prop := Forall (fun x => sh_type x <> SHT_SYMTAB_SHNDX) l.
Lemma reading_core s s' : big_endian s' = big_endian s -> is_32bit_elf s' = is_32bit_elf s -> elf_header s' = elf_header s ->
  program_headers s' = program_headers s -> reading s -> reading s'.
Proof. intros H1 H2 H3 H4 []. split; congruence. Qed.

Lemma wp_section_headers num s (Q : bool -> readelf -> Prop) : reading s ->
  (Z.of_nat (sizeof (External_Shdr is32)) <= e_shentsize h)%Z ->
  (forall p, Q false (s {{ fpos := p }})) ->
  (Z.to_nat num <= length file -> forall p,
   Q true (s {{ fpos := p; section_headers := Some (map (section_at file) (seq 0 (Z.to_nat num))) }})) ->
  wpE (get_section_headers file num) s Q never.
Proof.
  intros Hs Hsz Hf Ht. unfold get_section_headers. pose proof (r_fields _ Hs) as (_ & _ & _ & _ & Hoff & Hent).
  wp1. wp1. wp1. wp1. wp1. apply wp_get_data. intros p. rewrite Hoff, Hent. destruct (block _ _ _) as [b|] eqn:Eb; [|wp1; apply Hf].
  pose proof (block_length _ _ _ _ Eb) as Hlen. apply block_is in Eb as (-> & E1 & E2 & E3). unfold flen in E2.
  pose proof (table_fits _ _ num Hsz) as Hfit. assert (1 <= sizeof (External_Shdr is32)) by (destruct is32; simpl; lia).
  assert (Z.to_nat num <= Z.to_nat num * sizeof (External_Shdr is32)) by nia.
  assert (Hid : to_long (e_shoff h) = e_shoff h) by (apply to_long_id; [exact E1|apply header_range]).
  rewrite Hid in *. wp1. rewrite (r_class _ Hs). apply (wp_get_array e _ (fun _ l => shdr_of l)).
  - apply (r_msb _ Hs).
  - done.
  - rewrite Hlen. eapply Nat.le_trans; [exact Hfit|lia].
  - wp1. wp1. wp1. replace (map _ (seq 0 (Z.to_nat num))) with (map (section_at file) (seq 0 (Z.to_nat num))); [apply Ht; lia|].
    apply map_ext_in. intros j Hj%in_seq. rewrite fields_take.
    + by rewrite fields_drop.
    + nia.
    + rewrite length_drop. lia.
Qed.

(** *** The header *)

(** After the header has been read: the first section may have been read with it. *)
Definition header_read (s : readelf) : Prop :=
  reading s /\ elf_header s = h
  /\ (section_headers s = None
      \/ section_headers s = Some [section_at file 0] /\ sections_sane).

Lemma ident_eq n i : i < 16 -> 16 <= length file -> n < 256 ->
  (Z.of_nat (code (nth i (take 16 file) NUL)) =? Z.of_nat n)%Z = bool_decide (file !! i = Some (ascii_of_nat n)).
Proof.
  intros Hi Hlen Hn. destruct (file !! i) as [c|] eqn:Ec; [|apply lookup_ge_None in Ec; lia].
  assert (Hc : nth i (take 16 file) NUL = c) by (apply nth_lookup_Some; by rewrite lookup_take_lt). rewrite Hc.
  destruct (Z.eqb_spec (Z.of_nat (code c)) (Z.of_nat n)) as [E|E].
  - symmetry. apply bool_decide_eq_true. f_equal. apply Nat2Z.inj in E. unfold code in E. rewrite <- (ascii_nat_embedding c). by f_equal.
  - symmetry. apply bool_decide_eq_false. intros [= ->]. apply E. unfold code. by rewrite nat_ascii_embedding.
Qed.
Lemma count_read : e_shnum h = 0%Z \/ (e_shnum h = section_count file /\ sections_sane).
Proof.
  destruct (Z.eq_dec (e_shnum h) 0%Z) as [E|E]; [by left|right]. destruct sane_sh as [[_ H]|H]; [done|split; [|done]].
  unfold section_count. fold h. by rewrite (proj2 (Z.eqb_neq _ _)).
Qed.
Lemma wp_get_file_header s (Q : bool -> readelf -> Prop) : fpos s = 0%Z -> section_headers s = None -> program_headers s = None ->
  (length file < header_size file -> forall s', Q false s') ->
  (header_size file <= length file -> forall s', header_read s' -> Q true s') ->
  wpE (get_file_header file) s Q never.
Proof.
  intros Hp Hsh Hph Hf Ht. unfold get_file_header, header_size in *. wp1. apply wp_fread; rewrite Hp.
  2: { intros Hlt p. wp1. apply Hf. lia. }
  intros Hle. wp1. wp1. wp1. wp1. wp1. wp1. wp1. wp1.
  change (ident_at (elf_header _) 5) with (Z.of_nat (code (nth 5 (take 16 file) NUL))).
  change (ident_at (elf_header _) 4) with (Z.of_nat (code (nth 4 (take 16 file) NUL))).
  change ELFDATA2MSB with (Z.of_nat 2). change ELFCLASS64 with (Z.of_nat 2). rewrite !ident_eq by lia. fold (class32 file) (msb file).
  change (is_32bit_elf _) with is32. wp1. apply wp_fread; change (fpos _) with 16%Z.
  2: { intros Hlt p. wp1. apply Hf. fold is32. lia. }
  intros Hle2. wp1. apply (wp_get_fields e); [done|rewrite length_take, length_drop; lia|].
  rewrite Nat2Z.id. wp1. wp1. wp1. wp1.
  assert (Hh : ehdr_of (take (Z.to_nat 16) (drop (Z.to_nat 0) file))
      (fields e (take (sizeof (Ehdr_rest is32)) (drop (Z.to_nat 16) file)) 0 (Ehdr_rest is32)) = h).
  { unfold h, header. f_equal. fold e is32. rewrite <- (app_nil_r (take _ (drop _ _))), fields_take by (rewrite ?length_drop; lia).
    by rewrite fields_drop. }
  rewrite Hh. match goal with |- wpM _ _ ?s1 _ _ => set (s1' := s1) end.
  assert (Hs1 : reading s1') by (split; try done; [exact count_read|apply header_range]).
  assert (Hf1 : header_read s1') by (split_and!; [done|done|left; exact Hsh]).
  assert (Hlen : header_size file <= length file) by (unfold header_size; fold is32; lia).
  change (elf_header _) with h. destruct (Z.eqb_spec (e_shoff h) 0) as [H0|H0].
  { wp1. wp1. wp1. by apply Ht. }
  assert (Hss : sections_sane) by (destruct sane_sh as [[]|]; done).
  wp1. wp1. apply wp_section_headers; [done|apply Hss|..].
  - intros p. wp1. wp1. apply Ht; [done|]. split_and!; [by eapply reading_core; [..|exact Hs1]|done|by left].
  - intros _ p. wp1. wp1. apply Ht; [done|]. split_and!; [by eapply reading_core; [..|exact Hs1]|done|by right].
Qed.

Lemma to_uint_range z : (0 <= to_uint z)%Z.
Proof. apply Z.mod_pos_bound. lia. Qed.
Lemma wp_process_file_header s (Q : bool -> readelf -> Prop) : header_read s ->
  (has_magic h = false -> Q false s) -> (has_magic h = true -> forall s', reading s' -> section_headers s' = None -> Q true s') ->
  wpE process_file_header s Q never.
Proof.
  intros (Hs & Hh & Hsec) Hf Ht. unfold process_file_header. wp1. wp1. rewrite Hh.
  destruct (has_magic h); cbn [negb]; [|wp1; apply wp_error; wp1; by apply Hf]. wp1. wp1. wp1.
  destruct Hsec as [Hsec|[Hsec Hss]]; rewrite Hsec.
  - wp1. wp1. by apply Ht.
  - wp1. cbn [head]. wp1. wp1. wp1. apply Ht; [done| |done]. assert (Hnum := to_uint_range (sh_size (section_at file 0))).
    pose proof header_range as Hr. destruct Hs as [H1 H2 H3 H4 H5 H6].
    split; [done|done|by rewrite <- H3|by right; split| |done]. simpl. destruct (_ =? 0)%Z; [done|apply Hr].
Qed.

(** *** The sections: they leave what the segments are read with as it is. *)

Definition sections_loop (n : nat) (s : readelf) : Prop :=
  reading s /\ symtab_shndx_hdr s = None /\ exists l, section_headers s = Some l /\ length l = n /\ no_shndx l.
Lemma sections_core n s s' : big_endian s' = big_endian s -> is_32bit_elf s' = is_32bit_elf s -> elf_header s' = elf_header s ->
  program_headers s' = program_headers s -> symtab_shndx_hdr s' = symtab_shndx_hdr s -> section_headers s' = section_headers s ->
  sections_loop n s -> sections_loop n s'.
Proof.
  intros H1 H2 H3 H4 H5 H6 (Hr & Hx & l & Hl & Hn & Hno). split; [by eapply reading_core|]. split; [congruence|].
  exists l. split; [congruence|done].
Qed.
Lemma wp_check_entsize n i x size32 size64 s (Q : shdr -> readelf -> Prop) : sections_loop n s -> sh_type x <> SHT_SYMTAB_SHNDX ->
  (forall s', sections_loop n s' -> Q (x {{ sh_entsize := if is32 then size32 else size64 }}) s') ->
  wpE (check_entsize i x size32 size64) s Q never.
Proof.
  intros (Hr & Hx & l & Hl & Hn & Hno) Ht HQ. unfold check_entsize. wp1. wp1. wp1. rewrite (r_class _ Hr).
  assert (Hq : Q (x {{ sh_entsize := if is32 then size32 else size64 }}) (s {{ section_headers :=
    option_map (fun l => <[i:=x {{ sh_entsize := if is32 then size32 else size64 }}]> l) (section_headers s) }})).
  { apply HQ. split; [by eapply reading_core; [..|exact Hr]|]. split; [done|].
    exists (<[i:=x {{ sh_entsize := if is32 then size32 else size64 }}]> l). split; [simpl; by rewrite Hl|].
    split; [by rewrite length_insert|]. apply Forall_insert; [done|exact Ht]. }
  destruct (_ =? _)%Z; [wp1|apply wp_error]; wp1; wp1; wp1; exact Hq.
Qed.
Lemma wp_get_elf_symbols n i x s (Q : option (list sym) -> readelf -> Prop) : sections_loop n s ->
  sh_entsize x = Z.of_nat (sizeof (External_Sym is32)) ->
  (forall r s', sections_loop n s' -> Q r s') -> wpE (get_elf_symbols file i x) s Q never.
Proof.
  intros Hs Hent HQ. unfold get_elf_symbols. pose proof Hs as (Hr & Hx & _). wp1. wp1. wp1. apply wp_get_data. intros p.
  assert (Hs' : sections_loop n (s {{ fpos := p }})) by (by eapply sections_core; [..|exact Hs]).
  destruct (block _ _ _) as [b|] eqn:Eb; [|wp1; by apply HQ]. apply block_length in Eb.
  wp1. wp1. change (symtab_shndx_hdr (s {{ fpos := p }})) with (symtab_shndx_hdr s). rewrite Hx.
  wp1. wp1. wp1. rewrite (r_class _ Hr).
  apply (wp_get_array e _ (fun _ l =>
    let f k := nth k l 0%Z in
    let ndx := f (if is32 then 5 else 3) in
    let ndx := if (SHN_LORESERVE <=? ndx)%Z then to_uint (ndx + 4294901760) else ndx in
    if is32 then {| st_name := f 0; st_value := f 1; st_size := f 2; st_info := f 3; st_other := f 4; st_shndx := ndx |}
    else {| st_name := f 0; st_info := f 1; st_other := f 2; st_shndx := ndx; st_value := f 4; st_size := f 5 |})).
  - apply Hr.
  - intros j l s1. unfold sym_of. by destruct is32.
  - rewrite Eb, Hent. assert (Hpos : (0 < Z.of_nat (sizeof (External_Sym is32)))%Z) by (destruct is32; simpl; lia).
    pose proof (Z.mul_div_le (sh_size x) _ Hpos). rewrite Z.mul_1_l.
    destruct (Z.le_gt_cases 0 (sh_size x / Z.of_nat (sizeof (External_Sym is32)))); [|rewrite (Z2Nat.nonpos (_ / _)) by lia; lia].
    apply Nat2Z.inj_le. rewrite Nat2Z.inj_mul, !Nat2Z.inj_add, !Z2Nat.id by nia. nia.
  - wp1. by apply HQ.
Qed.
Lemma wp_process_section n i s (Q : unit -> readelf -> Prop) : i < n -> sections_loop n s ->
  (forall s', sections_loop n s' -> Q tt s') -> wpE (process_section file i) s Q never.
Proof.
  intros Hi Hs HQ. pose proof Hs as (Hr & Hx & l & Hl & Hn & Hno). unfold process_section. wp1. wp1. rewrite Hl. simpl.
  destruct (l !! i) as [x|] eqn:Ei; [|apply lookup_ge_None in Ei; lia]. simpl. wp1. wp1.
  assert (Ht : sh_type x <> SHT_SYMTAB_SHNDX) by (by eapply Forall_lookup_1 in Hno).
  assert (Hc : forall a b, wpE (let* _ := check_entsize i x a b in skip) s Q never).
  { intros a b. wp1. eapply wp_check_entsize; [done|done|]. intros s' Hs'. wp1. by apply HQ. }
  destruct (Z.eqb_spec (sh_type x) SHT_DYNSYM) as [_|_].
  { destruct (dynamic_symbols s); [apply wp_error; by apply HQ|]. wp1. eapply wp_check_entsize; [done|done|]. intros s' Hs'.
    wp1. apply (wp_get_elf_symbols n); [done|by destruct is32|]. intros r s2 Hs2. wp1. apply HQ. by eapply sections_core; [..|exact Hs2]. }
  destruct (_ && _).
  { destruct (dynamic_strings s); [apply wp_error; by apply HQ|]. wp1. apply wp_get_data. intros p. wp1. apply HQ.
    by eapply sections_core; [..|exact Hs]. }
  destruct (Z.eqb_spec (sh_type x) SHT_SYMTAB_SHNDX) as [E|_]; [done|].
  repeat (destruct (_ =? _)%Z; [apply Hc|]). wp1. by apply HQ.
Qed.
Lemma wp_sections n k i s (Q : unit -> readelf -> Prop) : i + k <= n -> sections_loop n s ->
  (forall s', sections_loop n s' -> Q tt s') -> wpE (forM (seq i k) (process_section file)) s Q never.
Proof.
  revert i s; induction k as [|k IH]; intros i s Hi Hs HQ; simpl; [wp1; by apply HQ|]. wp1.
  apply (wp_process_section n); [lia|done|]. intros s' Hs'. apply IH; [lia|done|done].
Qed.
Lemma wp_process_section_headers s (Q : bool -> readelf -> Prop) : reading s ->
  (forall b s', reading s' -> Q b s') -> wpE (process_section_headers file) s Q never.
Proof.
  intros Hs HQ. unfold process_section_headers. wp1. wp1. wp1. wp1. change (elf_header _) with (elf_header s).
  destruct (Z.eqb_spec (e_shnum (elf_header s)) 0) as [E|E]; [wp1; apply HQ; by eapply reading_core; [..|exact Hs]|].
  destruct (r_shnum _ Hs) as [?|[Hc Hss]]; [done|]. wp1.
  apply wp_section_headers; [by eapply reading_core; [..|exact Hs]|apply Hss|..].
  { intros p. cbn [negb]. wp1. apply HQ. by eapply reading_core; [..|exact Hs]. }
  intros Hfit p. set (l := map _ _). assert (Hl : length l = Z.to_nat (e_shnum (elf_header s))) by (unfold l; by rewrite length_map, length_seq).
  assert (Hno : no_shndx l).
  { apply Forall_map, Forall_forall. intros j Hj%elem_of_seq. apply Hss; [lia|]. rewrite <- Hc. lia. }
  clearbody l. cbn [negb]. wp1. wp1. wp1. change (section_headers _) with (Some l). wp1. wp1.
  assert (Hgo : forall s1, reading s1 -> section_headers s1 = Some l ->
    wpE (modM (fun s => s {{ dynamic_symbols := None; dynamic_strings := None; symtab_shndx_hdr := None }}) ;;;
         forM (seq 0 (Z.to_nat (e_shnum (elf_header s)))) (process_section file) ;;; retM true) s1 Q never).
  { intros s1 Hs1 Hl1. wp1. wp1. wp1. apply (wp_sections (length l)); [lia| |].
    - split; [by eapply reading_core; [..|exact Hs1]|]. split; [done|]. by exists l.
    - intros s2 (Hs2 & _). wp1. by apply HQ. }
  destruct (_ && _) eqn:Eb.
  - apply andb_true_iff in Eb as [_ Elt%Z.ltb_lt]. destruct (l !! Z.to_nat (e_shstrndx (elf_header s))) as [x|] eqn:Ex.
    2: { apply lookup_ge_None in Ex. pose proof (r_shnum_pos _ Hs). lia. }
    simpl. wp1. wp1. destruct (negb _); [|wp1; apply Hgo; [by eapply reading_core; [..|exact Hs]|done]].
    wp1. apply wp_get_data. intros p2. wp1. apply Hgo; [by eapply reading_core; [..|exact Hs]|done].
  - wp1. apply Hgo; [by eapply reading_core; [..|exact Hs]|done].
Qed.

(** *** The segments *)

Lemma segments_block : e_phnum h <> 0%Z ->
  block (e_phoff h) (e_phentsize h) (e_phnum h) =
  if segments_inside file
  then Some (take (Z.to_nat (e_phentsize h * e_phnum h)) (drop (Z.to_nat (e_phoff h)) file) ++ [NUL]) else None.
Proof.
  intros Hn. pose proof sane_ph as Hsz. pose proof header_range as (Hoff & _ & Hnum & Hent & _).
  assert (0 < Z.of_nat (sizeof (External_Phdr is32)))%Z by (destruct is32; simpl; lia).
  unfold block, segments_inside. fold h flen. rewrite !(proj2 (Z.eqb_neq _ 0)) by lia. cbn [orb].
  assert (Hlt : (e_phnum h <? (2 ^ 64 - 2) / e_phentsize h)%Z = true).
  { apply Z.ltb_lt. apply Z.lt_le_trans with ((2 ^ 64 - 2) / 2 ^ 16)%Z; [change ((2 ^ 64 - 2) / 2 ^ 16)%Z with 281474976710655%Z; lia|].
    apply Z.div_le_compat_l; lia. }
  rewrite Hlt. cbn [negb]. rewrite orb_false_r. destruct (Z.ltb_spec (to_long (e_phoff h)) 0) as [Hneg|Hpos].
  - rewrite (proj2 (Z.eqb_neq _ _)) by lia. done.
  - rewrite (to_long_id _ Hpos Hoff), Z.eqb_refl. cbn [orb andb].
    rewrite Z.ltb_antisym. by destruct (_ <=? _)%Z.
Qed.
Lemma wp_get_program_headers s (Q : bool -> readelf -> Prop) : reading s -> e_phnum h <> 0%Z ->
  (segments_inside file = false -> forall s', Q false s') ->
  (segments_inside file = true -> forall s', program_headers s' = Some (segments file) -> Q true s') ->
  wpE (get_program_headers file) s Q never.
Proof.
  intros Hs Hn Hf Ht. unfold get_program_headers, get_bit_program_headers.
  pose proof (r_fields _ Hs) as (_ & Hoff & Hent & Hnum & _). wp1. wp1. rewrite (r_phdrs _ Hs). wp1. wp1. wp1. wp1. wp1. wp1.
  apply wp_get_data. intros p. rewrite Hoff, Hent, Hnum, segments_block by done. rewrite (r_class _ Hs).
  destruct (segments_inside file) eqn:Ein; [|wp1; wp1; by apply Hf].
  pose proof Ein as Hin. unfold segments_inside in Hin. apply andb_true_iff in Hin as [_ Hle%Z.leb_le]. fold h flen in Hle.
  pose proof (table_fits _ _ (e_phnum h) sane_ph) as Hfit. pose proof header_range as (Hrange & _).
  wp1. apply (wp_get_array e _ (fun _ => phdr_of is32)).
  - apply (r_msb _ Hs).
  - done.
  - rewrite length_app, length_take, length_drop. cbn [length Nat.add]. unfold flen in Hle. lia.
  - wp1. wp1. wp1. wp1. apply Ht; [done|]. refine (f_equal Some _). unfold segments. fold h. apply map_ext_in. intros j Hj%in_seq.
    unfold segment. fold e is32 h. rewrite fields_take.
    + by rewrite fields_drop.
    + nia.
    + rewrite length_drop. unfold flen in Hle. lia.
Qed.

Lemma wp_fscanf p s (Q : option cstring -> readelf -> Prop) : fpos s = p -> (0 <= p)%Z ->
  length (word_at file p) < PATH_MAX ->
  (forall s', Q (match word_at file p with [] => None | w => Some w end) s') -> wpE (fscanf_s file PATH_MAX) s Q never.
Proof.
  intros Hp H0 Hw HQ. unfold fscanf_s. wp1. wp1. rewrite Hp. destruct (Z.leb_spec (Z.of_nat (length file)) p) as [Hle|Hlt].
  - wp1. unfold word_at in HQ. rewrite drop_ge in HQ by lia. simpl in HQ. rewrite (readelf_eta s). apply HQ.
  - wp1. wp1. wp1. fold (word_at file p). rewrite take_ge by lia. match goal with |- Q _ ?s1 => specialize (HQ s1) end. by destruct (word_at file p).
Qed.
Lemma wp_interp_loop l found s (Q : option cstring -> readelf -> Prop) :
  (forall x, x ∈ l -> x ∈ segments file) -> (forall s', Q (interp_of file l found) s') ->
  wpE (interp_loop file l found) s Q never.
Proof.
  revert found s. induction l as [|x l IH]; intros found s Hl HQ; cbn [interp_loop interp_of] in *; [wp1; apply HQ|].
  assert (Hl' : forall y, y ∈ l -> y ∈ segments file) by (intros y Hy; apply Hl; by right).
  destruct (Z.eqb_spec (p_type x) PT_INTERP) as [E|E]; [|by apply IH].
  pose proof (sane_word x (Hl x (list_elem_of_here _ _)) E) as Hw. set (p := to_long (p_offset x)) in *.
  unfold fseek. rewrite bool_decide_decide in HQ. destruct (Z.ltb_spec p 0) as [Hneg|Hpos].
  - wp1. wp1. cbn [negb]. wp1. apply wp_error. wp1. destruct (decide (0 <= p)%Z); [lia|apply HQ].
  - wp1. wp1. wp1. wp1. cbn [negb]. wp1. wp1. wp1. apply (wp_fscanf p); [done|done|done|]. intros s'.
    destruct (decide (0 <= p)%Z); [|lia]. cbn [andb] in HQ. destruct (word_at file p) as [|c w] eqn:Ew.
    + wp1. apply wp_error. wp1. apply HQ.
    + rewrite (proj2 (Nat.ltb_lt _ _)) by done. wp1. wp1. apply IH; [done|]. exact HQ.
Qed.

Lemma wp_find_interpreter name s (Q : option cstring -> readelf -> Prop) :
  fpos s = 0%Z -> section_headers s = None -> program_headers s = None ->
  (forall s', Q (elf_interpreter file) s') -> wpE (find_interpreter file name) s Q never.
Proof.
  intros Hp Hsh Hph HQ. unfold find_interpreter, elf_interpreter in *. fold h in HQ. wp1. apply wp_get_file_header; [done..| |].
  { intros Hlt s'. cbn [negb]. wp1. apply wp_error. wp1. rewrite bool_decide_eq_false_2 in HQ by lia. apply HQ. }
  intros Hle s1 Hs1. rewrite bool_decide_eq_true_2 in HQ by done. cbn [negb andb] in *. wp1.
  apply wp_process_file_header; [done|intros Hm|intros Hm s2 Hs2 Hsh2]; fold h in Hm; rewrite Hm in HQ; cbn [negb andb] in *.
  { wp1. apply HQ. }
  wp1. apply wp_process_section_headers; [done|]. intros b s3 Hs3. unfold process_section_groups. wp1. wp1. wp1. wp1.
  pose proof (r_fields _ Hs3) as (_ & _ & _ & Hnum & _). rewrite Hnum. destruct (Z.eqb_spec (e_phnum h) 0) as [E|E].
  { wp1. wp1; [done|]. wp1. apply HQ. }
  cbn [negb andb] in HQ. wp1. apply wp_get_program_headers; [done|done|intros Hin|intros Hin].
  { intros s'. cbn [negb]. rewrite Hin in HQ. wp1. apply HQ. }
  intros s' Hs'. cbn [negb]. rewrite Hin in HQ. wp1. wp1. wp1. rewrite Hs'. wp1. by apply wp_interp_loop.
Qed.
End File.

(** ** The whole function *)

(** Nothing of a file is left in the globals. *)
Definition released (s : readelf) : Prop :=
  section_headers s = None /\ program_headers s = None /\ string_table s = None /\ dynamic_symbols s = None /\ dynamic_strings s = None.
Lemma wp_find file name s : elf_sane file = true -> released s ->
  wpE (find_ELF_program_interpreter name (Some file)) s (fun r s' => r = elf_interpreter file /\ released s') never.
Proof.
  intros Hsane (Hsh & Hph & _). unfold find_ELF_program_interpreter. wp1. wp1. wp1. wp1. wp1.
  apply wp_find_interpreter; [done..|]. intros s'. unfold release. wp1. wp1. by wp1.
Qed.
Lemma printing_any {W} (h : forall c, W -> reply c * W) c w : rep printing c (h c w).1.
Proof. done. Qed.

Lemma interpreter_found {W} (h : forall c, W -> reply c * W) file name s w :
  elf_sane file = true -> released s ->
  exists s', outcome h (find_ELF_program_interpreter name (Some file) s) w = inl (elf_interpreter file, s') /\ released s'.
Proof.
  intros Hsane Hs. pose proof (wp_find file name s Hsane Hs) as H.
  apply (wp_run printing h _ _ _ w (printing_any h)) in H as [_ H]. destruct (outcome _ _ w) as [[r s']|x]; [|done].
  destruct H as [-> ?]. by exists s'.
Qed.

(** C5.  The function finds the interpreter that the header and the segments name, whatever
    else the sections are, in a file ([elf_sane]) of which the entries of the tables are not
    shorter than their structures, no section has the type SHT_SYMTAB_SHNDX, and the names
    of interpreters, up to the next white space, are shorter than the 4096 bytes of
    program_interpreter; it only prints messages, and nothing is kept of the file, so the
    next call is made from such a state again. *)
Theorem find_interpreter_correct {W} (h : forall c, W -> reply c * W) file name s w :
  elf_sane file = true -> released s ->
  Forall (fun e : event => match projT1 e with Eprintf _ _ | Printf _ _ => True | _ => False end)
    (trace h (find_ELF_program_interpreter name (Some file) s) w)
  /\ exists s', outcome h (find_ELF_program_interpreter name (Some file) s) w = inl (elf_interpreter file, s') /\ released s'.
Proof.
  intros Hsane Hs. split; [|by apply interpreter_found].
  apply (wp_run printing h _ _ _ w (printing_any h) (wp_find file name s Hsane Hs)).
Qed.

(** [find_ELF_class]: it is asked about a file of which nothing has been read; the first
    section, which may have been read with the header, is left in the globals. *)
Definition elf_class (file : cstring) : Z :=
  if bool_decide (header_size file <= length file) && has_magic (header file)
  then (if bool_decide (file !! 4 = Some (ascii_of_nat 1)) then 32%Z else if class32 file then (-1)%Z else 64%Z) else (-1)%Z.
Lemma find_ELF_class_correct {W} (h : forall c, W -> reply c * W) file name s w :
  elf_sane file = true -> released s ->
  exists s', outcome h (find_ELF_class name (Some file) s) w = inl (elf_class file, s').
Proof.
  intros Hsane (Hsh & Hph & _).
  assert (H : wpE (find_ELF_class name (Some file)) s (fun r _ => r = elf_class file) never).
  { unfold find_ELF_class, elf_class. wp1. wp1. wp1. wp1. wp1. apply wp_get_file_header; [done..| |].
    { intros Hlt s'. cbn [negb]. wp1. apply wp_error. wp1. by rewrite bool_decide_eq_false_2 by lia. }
    intros Hle s' (_ & Hh & _). rewrite bool_decide_eq_true_2 by done. assert (16 <= length file) by (unfold header_size in Hle; lia).
    cbn [negb andb]. wp1. wp1. rewrite Hh.
    destruct (has_magic _); cbn [negb]; [wp1|wp1; apply wp_error; by wp1].
    change (ident_at (header file) 4) with (Z.of_nat (code (nth 4 (take 16 file) NUL))). change 1%Z with (Z.of_nat 1). change 2%Z with (Z.of_nat 2).
    rewrite !ident_eq by lia. unfold class32.
    by destruct (bool_decide (file !! 4 = Some (ascii_of_nat 1))), (bool_decide (file !! 4 = Some (ascii_of_nat 2))). }
  apply (wp_run printing h _ _ _ w (printing_any h)) in H as [_ H]. destruct (outcome _ _ w) as [[r s']|x]; [|done].
  rewrite H. by exists s'.
Qed.

(** ** The round trip *)

Definition put_fields (e : bool) (sizes : list nat) (vals : list Z) : cstring :=
  concat (zip_with (fun n v => byte_put e v n) sizes vals).
Definition fits (n : nat) (v : Z) : Prop := (0 <= v < 256 ^ Z.of_nat n)%Z.
Lemma length_put_fields e sizes vals : Forall2 fits sizes vals -> length (put_fields e sizes vals) = sizeof sizes.
Proof.
  induction 1 as [|n v sizes vals _ _ IH]; [done|]. unfold put_fields in *. simpl. rewrite length_app, length_byte_put, IH. done.
Qed.
(** A structure that is printed is read back. *)
Lemma fields_put e sizes vals pre post : Forall2 fits sizes vals ->
  fields e (pre ++ put_fields e sizes vals ++ post) (length pre) sizes = vals.
Proof.
  intros H. revert pre. induction H as [|n v sizes vals Hv _ IH]; intros pre; [done|]. cbn [fields].
  assert (E : put_fields e (n :: sizes) (v :: vals) = byte_put e v n ++ put_fields e sizes vals) by done. rewrite E, <- app_assoc. f_equal.
  - rewrite drop_app_length, take_app_le, take_ge by (rewrite length_byte_put; lia).
    rewrite byte_get_put. apply Z.mod_small, Hv.
  - rewrite (app_assoc pre). rewrite <- (length_byte_put e v n) at 2. rewrite <- length_app. apply IH.
Qed.

Definition phdr_fields (is32 : bool) (x : phdr) : list Z :=
  if is32 then [p_type x; p_offset x; p_vaddr x; p_paddr x; p_filesz x; p_memsz x; p_flags x; p_align x]
  else [p_type x; p_flags x; p_offset x; p_vaddr x; p_paddr x; p_filesz x; p_memsz x; p_align x].
Lemma phdr_of_fields is32 x : phdr_of is32 (phdr_fields is32 x) = x.
Proof. by destruct is32, x. Qed.

Lemma take_while_app_all {A} (p : A -> bool) l k : Forall (fun x => p x = true) l -> take_while p (l ++ k) = l ++ take_while p k.
Proof. induction 1 as [|x l Hx _ IH]; [done|]. cbn [app take_while]. by rewrite Hx, IH. Qed.

(** A file without sections: the header, the table of segments right behind it, the rest *)
Section Image.
Context (is32 e : bool) (machine entry : Z) (segs : list phdr) (body : cstring).
Definition table_at : nat := 16 + sizeof (Ehdr_rest is32).
Definition body_at : nat := table_at + length segs * sizeof (External_Phdr is32).
Definition image_ident : cstring :=
  ascii_of_nat 127 :: lit "ELF" ++ map ascii_of_nat ([if is32 then 1 else 2; if e then 2 else 1; 1] ++ repeat 0 9).
Definition image_fields : list Z :=
  [2; machine; 1; entry; Z.of_nat table_at; 0; 0; Z.of_nat table_at; Z.of_nat (sizeof (External_Phdr is32));
   Z.of_nat (length segs); 0; 0; 0]%Z.
Definition image_table : cstring := concat (map (fun x => put_fields e (External_Phdr is32) (phdr_fields is32 x)) segs).
Definition elf_image : cstring := image_ident ++ put_fields e (Ehdr_rest is32) image_fields ++ image_table ++ body.

Context (Hmachine : fits 2 machine) (Hentry : fits (if is32 then 4 else 8) entry) (Hcount : (Z.of_nat (length segs) < 65536)%Z).
Context (Hsegs : Forall (fun x => Forall2 fits (External_Phdr is32) (phdr_fields is32 x)) segs).
Lemma image_fields_fit : Forall2 fits (Ehdr_rest is32) image_fields.
Proof.
  unfold image_fields, table_at. unfold fits in Hmachine, Hentry.
  destruct is32; cbn [Ehdr_rest]; repeat first [apply Forall2_nil_2|apply Forall2_cons_2]; unfold fits;
    first [assumption|split; [lia|reflexivity]|lia].
Qed.
Lemma image_ident_length : length image_ident = 16.
Proof. done. Qed.
Lemma image_is_32 : class32 elf_image = is32.
Proof. unfold class32, elf_image, image_ident. by destruct is32. Qed.
Lemma image_msb : msb elf_image = e.
Proof. unfold msb, elf_image, image_ident. by destruct e. Qed.
Lemma image_header : header elf_image = ehdr_of image_ident image_fields.
Proof.
  unfold header. rewrite image_is_32, image_msb. f_equal.
  apply (fields_put e _ _ image_ident), image_fields_fit.
Qed.
Lemma image_table_length l : Forall (fun x => Forall2 fits (External_Phdr is32) (phdr_fields is32 x)) l ->
  length (concat (map (fun x => put_fields e (External_Phdr is32) (phdr_fields is32 x)) l)) = length l * sizeof (External_Phdr is32).
Proof. induction 1 as [|x l Hx _ IH]; [done|]. simpl. by rewrite length_app, length_put_fields, IH. Qed.
Lemma image_split i x : segs !! i = Some x -> exists pre post,
  elf_image = pre ++ put_fields e (External_Phdr is32) (phdr_fields is32 x) ++ post
  /\ length pre = table_at + i * sizeof (External_Phdr is32) /\ Forall2 fits (External_Phdr is32) (phdr_fields is32 x).
Proof.
  intros Hi. pose proof (lookup_lt_Some _ _ _ Hi) as Hlt. apply take_drop_middle in Hi as E.
  pose proof Hsegs as Hf. rewrite <- E in Hf. apply Forall_app in Hf as [H1 H2]. apply Forall_cons_1 in H2 as [H2 _].
  set (put := fun x => put_fields e (External_Phdr is32) (phdr_fields is32 x)).
  exists (image_ident ++ put_fields e (Ehdr_rest is32) image_fields ++ concat (map put (take i segs))), (concat (map put (drop (S i) segs)) ++ body).
  split_and!; [|pose proof (image_table_length _ H1) as Hl|done].
  - unfold elf_image, image_table. fold put. rewrite <- E at 1. rewrite map_app, concat_app, map_cons. cbn [concat].
    by rewrite <- !app_assoc.
  - rewrite !length_app, image_ident_length, (length_put_fields _ _ _ image_fields_fit). fold put in Hl. rewrite Hl, length_take.
    rewrite Nat.min_l by lia. unfold table_at. lia.
Qed.
Lemma image_segment i x : segs !! i = Some x -> segment elf_image i = x.
Proof.
  intros (pre & post & E & Hl & Hf)%image_split. unfold segment. rewrite image_is_32, image_msb, image_header.
  assert (Ep : Z.to_nat (e_phoff (ehdr_of image_ident image_fields)) = table_at) by apply Nat2Z.id.
  rewrite Ep, <- Hl, E, (fields_put _ _ _ _ _ Hf). apply phdr_of_fields.
Qed.
Lemma image_segments : segments elf_image = segs.
Proof.
  unfold segments. rewrite image_header. cbn [e_phnum ehdr_of image_fields nth]. rewrite Nat2Z.id. apply list_eq. intros i.
  rewrite list_lookup_fmap. destruct (segs !! i) as [x|] eqn:E.
  - pose proof (lookup_lt_Some _ _ _ E). rewrite lookup_seq_lt by done. simpl. f_equal. by apply image_segment.
  - apply lookup_ge_None in E. by rewrite lookup_seq_ge.
Qed.
Lemma image_length : length elf_image = body_at + length body.
Proof.
  unfold elf_image, body_at, table_at. rewrite !length_app, image_ident_length, (length_put_fields _ _ _ image_fields_fit).
  unfold image_table. rewrite image_table_length by done. lia.
Qed.
Lemma image_inside : segments_inside elf_image = true.
Proof.
  unfold segments_inside. rewrite image_header, image_length. cbn [e_phoff e_phnum e_phentsize ehdr_of image_fields nth].
  apply andb_true_iff; split; [unfold table_at; by destruct is32|]. apply Z.leb_le. unfold body_at. lia.
Qed.
Lemma image_sane : (forall x, x ∈ segs -> p_type x = PT_INTERP -> length (word_at elf_image (to_long (p_offset x))) < PATH_MAX) ->
  elf_sane elf_image = true.
Proof.
  intros H. unfold elf_sane. rewrite image_header, image_is_32, image_segments. cbn [e_phentsize e_shoff e_shnum ehdr_of image_fields nth].
  rewrite Z.leb_refl. cbn [Z.eqb andb orb]. apply forallb_forall. intros x Hx. apply list_elem_of_In in Hx.
  destruct (Z.eqb_spec (p_type x) PT_INTERP) as [E|]; [|done]. by apply Nat.ltb_lt, H.
Qed.
Lemma image_interpreter : segs <> [] -> elf_interpreter elf_image = interp_of elf_image segs None.
Proof.
  intros Hne. unfold elf_interpreter. rewrite image_inside, image_header, image_segments. unfold header_size.
  rewrite image_is_32, bool_decide_eq_true_2 by (rewrite image_length; unfold body_at, table_at; lia).
  change (has_magic _) with true. cbn [e_phnum ehdr_of image_fields nth andb]. by destruct segs.
Qed.
(** A name that starts at an offset of the body, in front of a NUL *)
Lemma image_word pre name rest : body = pre ++ name ++ NUL :: rest -> name <> [] ->
  Forall (fun c => isspace c = false /\ c <> NUL) name ->
  word_at elf_image (Z.of_nat (body_at + length pre)) = name ++ take_while (fun c => negb (isspace c)) (NUL :: rest)
  /\ until_nul (word_at elf_image (Z.of_nat (body_at + length pre))) = name.
Proof.
  intros Hb Hne Hn. assert (E : word_at elf_image (Z.of_nat (body_at + length pre)) = name ++ take_while (fun c => negb (isspace c)) (NUL :: rest)).
  { unfold word_at, elf_image. rewrite Nat2Z.id, Hb, !app_assoc.
    assert (Hl : length (((image_ident ++ put_fields e (Ehdr_rest is32) image_fields) ++ image_table) ++ pre) = body_at + length pre).
    { rewrite !length_app, image_ident_length, (length_put_fields _ _ _ image_fields_fit). unfold image_table.
      rewrite image_table_length by done. unfold body_at, table_at. lia. }
    rewrite <- (app_assoc _ name), <- Hl, drop_app_length. destruct name as [|c name]; [done|].
    apply Forall_cons_1 in Hn as Hc. cbn [app drop_while]. rewrite (proj1 (proj1 Hc)). change (c :: name ++ ?r) with ((c :: name) ++ r).
    apply take_while_app_all. eapply Forall_impl; [exact Hn|]. intros x [-> _]. done. }
  split; [done|]. rewrite E. unfold until_nul. rewrite take_while_app_all.
  - simpl. apply app_nil_r.
  - eapply Forall_impl; [exact Hn|]. intros x [_ Hx]. simpl. by rewrite bool_decide_eq_false_2.
Qed.
End Image.

(** What it takes to be such a file, with one segment that names its interpreter *)
Record names_interpreter (is32 : bool) (machine entry : Z) (before : list phdr) (x : phdr) (after : list phdr)
    (pre name rest : cstring) : Prop := {
  ni_machine : fits 2 machine;
  ni_entry : fits (if is32 then 4 else 8) entry;
  ni_count : (Z.of_nat (length (before ++ x :: after)) < 65536)%Z;
  ni_segs : Forall (fun x => Forall2 fits (External_Phdr is32) (phdr_fields is32 x)) (before ++ x :: after);
  ni_interp : p_type x = PT_INTERP;
  ni_others : Forall (fun y => p_type y <> PT_INTERP) (before ++ after);
  ni_offset : p_offset x = Z.of_nat (body_at is32 (before ++ x :: after) + length pre);
  ni_offset_long : (p_offset x < 2 ^ 63)%Z;
  ni_name : name <> [] /\ Forall (fun c => isspace c = false /\ c <> NUL) name;
  ni_short : length name + length (take_while (fun c => negb (isspace c)) (NUL :: rest)) < PATH_MAX;
}.
Lemma interp_of_others file l l' found : Forall (fun y => p_type y <> PT_INTERP) l -> interp_of file (l ++ l') found = interp_of file l' found.
Proof. induction 1 as [|y l Hy _ IH]; [done|]. cbn [app interp_of]. by rewrite (proj2 (Z.eqb_neq _ _) Hy), IH. Qed.

(** It is read back. *)
Lemma names_read is32 e machine entry before x after pre name rest :
  names_interpreter is32 machine entry before x after pre name rest ->
  let file := elf_image is32 e machine entry (before ++ x :: after) (pre ++ name ++ NUL :: rest) in
  elf_sane file = true /\ elf_interpreter file = Some name.
Proof.
  intros [Hm He Hc Hsegs Hx Ho Hoff Hlong [Hne Hn] Hshort]. set (segs := before ++ x :: after) in *.
  set (body := pre ++ name ++ NUL :: rest). intros file.
  destruct (image_word is32 e machine entry segs body Hm He Hc Hsegs pre name rest eq_refl Hne Hn) as [Hw Hu]. fold file in Hw, Hu.
  assert (Hl : to_long (p_offset x) = Z.of_nat (body_at is32 segs + length pre)).
  { rewrite Hoff in *. unfold to_long. rewrite Z.mod_small by lia. lia. }
  split.
  - apply image_sane; [done..|]. intros y Hy E. apply elem_of_app in Hy as Hy'. rewrite elem_of_cons in Hy'.
    rewrite Forall_forall in Ho. assert (y = x) as ->.
    { destruct Hy' as [Hy'|[->|Hy']]; [|done|]; destruct (Ho y); try done; apply elem_of_app; auto. }
    fold file. by rewrite Hl, Hw, length_app.
  - unfold file. rewrite image_interpreter by (done || by destruct before). fold file. apply Forall_app in Ho as [Ho1 Ho2].
    unfold segs. rewrite interp_of_others by done. cbn [interp_of]. rewrite Hx, Z.eqb_refl, Hl, Hu, Hw.
    rewrite bool_decide_eq_true_2 by lia. rewrite bool_decide_eq_false_2 by (by destruct name). cbn [andb negb].
    rewrite <- (app_nil_r after). by rewrite interp_of_others.
Qed.

(** C6.  An ELF file that is printed - of either class and byte order, with any segments
    of which one names the interpreter - gives its interpreter back. *)
Theorem elf_roundtrip {W} (h : forall c, W -> reply c * W) is32 e machine entry before x after pre name rest fname s w :
  names_interpreter is32 machine entry before x after pre name rest -> released s ->
  exists s', outcome h (find_ELF_program_interpreter fname
      (Some (elf_image is32 e machine entry (before ++ x :: after) (pre ++ name ++ NUL :: rest))) s) w = inl (Some name, s')
    /\ released s'.
Proof.
  intros H Hs. destruct (names_read _ e _ _ _ _ _ _ _ _ H) as [Hsane Hi]. rewrite <- Hi. by apply interpreter_found.
Qed.

(** The tracer's call [Find_ELF_program_interpreter] is this function: a world in which the
    call answers what the function finds in the file. *)
Definition asks_readelf {W} (h : forall c, W -> reply c * W) (files : W -> cstring -> option cstring) : Prop :=
  forall q w, exists (s : readelf), released s /\
    match outcome h (find_ELF_program_interpreter q (files w q) s) w with
    | inl (r, _) => (h (Find_ELF_program_interpreter q) w).1 = r
    | inr _ => True
    end.
(** The hook of execve is told the name in the binary. *)
Lemma elf_reply {W} (h : forall c, W -> reply c * W) files is32 e machine entry before x after pre name rest q w :
  asks_readelf h files -> names_interpreter is32 machine entry before x after pre name rest ->
  files w q = Some (elf_image is32 e machine entry (before ++ x :: after) (pre ++ name ++ NUL :: rest)) ->
  (h (Find_ELF_program_interpreter q) w).1 = Some name.
Proof.
  intros Ha H Hf. destruct (names_read _ e _ _ _ _ _ _ _ _ H) as [Hsane Hi]. destruct (Ha q w) as (s & Hs & Hq). rewrite Hf in Hq.
  destruct (interpreter_found h _ q s w Hsane Hs) as (s' & E & _). by rewrite E, Hi in Hq.
Qed.

(** ** Witnesses *)

Definition quiet_world (c : sys) (w : unit) : reply c * unit := (null_reply c, w).
Definition interp_segment (off : Z) : phdr :=
  {| p_type := PT_INTERP; p_flags := 4; p_offset := off; p_vaddr := off; p_paddr := off; p_filesz := 11; p_memsz := 11; p_align := 1 |}.
Definition load_segment : phdr :=
  {| p_type := 1; p_flags := 5; p_offset := 0; p_vaddr := 0; p_paddr := 0; p_filesz := 4096; p_memsz := 4096; p_align := 4096 |}.

(** A 32-bit big-endian file with two sections, whose number is in the first of them *)
Definition sectioned_file : cstring :=
  let put sizes vals := put_fields true sizes vals in
  (ascii_of_nat 127 :: lit "ELF" ++ map ascii_of_nat [1; 2; 1] ++ repeat NUL 9)
  ++ put (Ehdr_rest true) [2; 8; 1; 4096; 52; 84; 0; 52; 32; 1; 40; 0; 1]%Z
  ++ put (External_Phdr true) (phdr_fields true (interp_segment 164))
  ++ put (External_Shdr true) [0; 0; 0; 0; 0; 2; 0; 0; 0; 0]%Z
  ++ put (External_Shdr true) [0; 3; 0; 0; 164; 12; 0; 0; 1; 0]%Z
  ++ lit "/lib/ld.so" ++ [NUL; NUL].
Lemma find_interpreter_correct_witness : exists s',
  outcome quiet_world (find_ELF_program_interpreter (lit "a.out") (Some sectioned_file) readelf0) tt = inl (Some (lit "/lib/ld.so"), s')
  /\ released s'.
Proof.
  assert (E : elf_interpreter sectioned_file = Some (lit "/lib/ld.so")) by (vm_compute; reflexivity).
  rewrite <- E. refine (proj2 (find_interpreter_correct quiet_world sectioned_file (lit "a.out") readelf0 tt _ _)); [vm_compute; reflexivity|].
  by repeat split.
Defined.

Definition ld_name : cstring := lit "/lib64/ld-linux-x86-64.so.2".
Lemma elf_roundtrip_witness : exists s',
  outcome quiet_world (find_ELF_program_interpreter (lit "a.out")
    (Some (elf_image false false 62 4195632 ([load_segment] ++ interp_segment 235 :: [load_segment]) (lit "abc" ++ ld_name ++ NUL :: lit "rest of it"))) readelf0) tt
  = inl (Some ld_name, s') /\ released s'.
Proof.
  apply (elf_roundtrip quiet_world false false 62 4195632 [load_segment] (interp_segment 235) [load_segment] (lit "abc") ld_name
    (lit "rest of it") (lit "a.out") readelf0 tt); [|by repeat split].
  split; try done.
  4: apply Nat.ltb_lt; vm_compute; reflexivity.
  all: repeat constructor; vm_compute; congruence.
Defined.

(** A name of 4096 bytes that are not white space is stored with its NUL in the 4096
    bytes of [program_interpreter]. *)
Example long_name_overruns :
  outcome quiet_world (find_ELF_program_interpreter (lit "a.out")
    (Some (elf_image false false 62 4195632 [interp_segment 120] (repeat "a"%char PATH_MAX))) readelf0) tt = inr Segv.
Proof. vm_compute. reflexivity. Qed.
(** Entries that are shorter than the structure are read behind the block. *)
Example short_entries_overrun :
  outcome quiet_world (find_ELF_program_interpreter (lit "a.out")
    (Some (image_ident true true ++ put_fields true (Ehdr_rest true) [2; 8; 1; 4096; 52; 0; 0; 52; 16; 1; 0; 0; 0]%Z
           ++ repeat NUL 64)) readelf0) tt = inr Segv.
Proof. vm_compute. reflexivity. Qed.
(** A name stops at a space. *)
Example name_with_a_space :
  (fun r => match r with inl (Some n, _) => Some n | _ => None end) (outcome quiet_world (find_ELF_program_interpreter (lit "a.out")
    (Some (elf_image false false 62 4195632 [interp_segment 120] (lit "/my libs/ld.so" ++ [NUL]))) readelf0) tt) = Some (lit "/my").
Proof. vm_compute. reflexivity. Qed.
