(* ===== verification/StrQuote.v ===== *)
(** * Quoting strings for the log (util.c)

    [string_quote] writes a byte string as a C string literal; a reader of C literals,
    defined here as the reference, reads it back as the bytes that were to be shown. *)
From S2P Require Import Prelude CString.

Definition dquote : ascii := ascii_of_nat 34.
Definition backslash : ascii := ascii_of_nat 92.

(** [%03o] and [%02x] *)
Definition pad (n : nat) (s : cstring) : cstring := repeat "0"%char (n - length s) ++ s.

(** What is written for the byte [c], [next] being the byte after it if there is one. *)
Definition quote_char (c : ascii) (next : option ascii) : cstring :=
  match code c with
  | 34 | 92 => [backslash; c]
  | 12 => [backslash; "f"%char]
  | 10 => [backslash; "n"%char]
  | 13 => [backslash; "r"%char]
  | 9 => [backslash; "t"%char]
  | 11 => [backslash; "v"%char]
  | n =>
    if isprint c then [c]
    else
      let o := utoa 8 (N.of_nat n) in
      if match next with Some d => isdigit d | None => false end
      then backslash :: pad 3 o else backslash :: o
  end.
Definition hex_char (c : ascii) : cstring := backslash :: "x"%char :: pad 2 (utoa 16 (N.of_nat (code c))).

(** The loop over the indices from [i], with [n] more to come; [nul_ends] is [len < 0].
    The result is what is written and the last value of [i]. *)
Fixpoint quote_loop (emit : ascii -> option ascii -> cstring) (nul_ends : bool) (ustr : cstring)
    (size n i : nat) : cstring * nat :=
  match n with
  | O => ([], i)
  | S n' =>
    let c := nth i ustr NUL in
    if nul_ends && bool_decide (c = NUL) then ([], i)
    else
      let '(out, j) := quote_loop emit nul_ends ustr size n' (i + 1) in
      if nul_ends && (i =? size - 1) then (out, j)
      else (emit c (if i + 1 <? size then Some (nth (i + 1) ustr NUL) else None) ++ out, j)
  end.

(** The check for a byte that makes the whole string be written in hexadecimal. *)
Fixpoint needs_hex (nul_ends : bool) (ustr : cstring) (size n i : nat) : bool :=
  match n with
  | O => false
  | S n' =>
    let c := nth i ustr NUL in
    if nul_ends && bool_decide (c = NUL) then false
    else if nul_ends && (i =? size - 1) then needs_hex nul_ends ustr size n' (i + 1)
    else negb (isprint c) && negb (isspace c) || needs_hex nul_ends ustr size n' (i + 1)
  end.

Definition string_quote (xflag : nat) (instr : cstring) (len : Z) (size : nat) : cstring * bool :=
  let nul_ends := (len <? 0)%Z in
  let usehex := (1 <? xflag) || ((0 <? xflag) && needs_hex nul_ends instr size size 0) in
  let '(out, i) := quote_loop (fun c next => if usehex then hex_char c else quote_char c next)
                     nul_ends instr size size 0 in
  (dquote :: out ++ [dquote], i =? size).

Example quote_ex : string_quote 0 (lit "say " ++ [dquote; newline] ++ lit "x" ++ [ascii_of_nat 1] ++ lit "7" ++ [NUL]) (-1) 33
  = (dquote :: lit "say " ++ [backslash; dquote; backslash; "n"%char; "x"%char; backslash] ++ lit "0017" ++ [dquote], false).
Proof. reflexivity. Qed.

(** ** The reference: a reader of C string literals *)

Definition oct_digit (c : ascii) : option nat :=
  let n := code c in if (48 <=? n) && (n <=? 55) then Some (n - 48) else None.
Definition hex_nibble (c : ascii) : option nat :=
  let n := code c in
  if (48 <=? n) && (n <=? 57) then Some (n - 48) else if (97 <=? n) && (n <=? 102) then Some (n - 87) else None.

(** At most [n] digits in base [b]. *)
Fixpoint read_digits (digit : ascii -> option nat) (b n : nat) (acc : nat) (s : cstring) : nat * cstring :=
  match n, s with
  | S n', c :: s' =>
    match digit c with Some d => read_digits digit b n' (b * acc + d) s' | None => (acc, s) end
  | _, _ => (acc, s)
  end.

(** The escapes after a backslash: the byte, the rest. *)
Definition read_escape (s : cstring) : option (ascii * cstring) :=
  match s with
  | [] => None
  | e :: s' =>
    match code e with
    | 34 | 92 => Some (e, s')
    | 102 => Some (ascii_of_nat 12, s')
    | 110 => Some (ascii_of_nat 10, s')
    | 114 => Some (ascii_of_nat 13, s')
    | 116 => Some (ascii_of_nat 9, s')
    | 118 => Some (ascii_of_nat 11, s')
    | 120 => let '(v, r) := read_digits hex_nibble 16 (length s') 0 s' in Some (ascii_of_nat v, r)
    | _ => match oct_digit e with
           | Some _ => let '(v, r) := read_digits oct_digit 8 3 0 s in Some (ascii_of_nat v, r)
           | None => None
           end
    end
  end.

(** The body of a literal up to its closing quote, which must end the text. *)
Fixpoint read_body (fuel : nat) (s : cstring) : option cstring :=
  match fuel, s with
  | S f, c :: s' =>
    if bool_decide (c = dquote) then match s' with [] => Some [] | _ => None end
    else if bool_decide (c = backslash) then
      '(x, r) ← read_escape s'; l ← read_body f r; Some (x :: l)
    else l ← read_body f s'; Some (c :: l)
  | _, _ => None
  end.
Definition read_literal (s : cstring) : option cstring :=
  match s with
  | c :: s' => if bool_decide (c = dquote) then read_body (length s') s' else None
  | [] => None
  end.

(** ** Reading back *)

(** The text [s] is read as the bytes [l], with any sufficient fuel. *)
Definition reads (s l : cstring) : Prop := forall f, length s <= f -> read_body f s = Some l.

Lemma reads_close : reads [dquote] [].
Proof. intros f Hf. destruct f as [|f]; [simpl in Hf; lia|reflexivity]. Qed.

Lemma reads_plain c rest l : c <> dquote -> c <> backslash -> reads rest l -> reads (c :: rest) (c :: l).
Proof.
  intros H1 H2 Hr f Hf. destruct f as [|f]; [simpl in Hf; lia|]. simpl.
  rewrite !bool_decide_eq_false_2 by done. rewrite (Hr f) by (simpl in Hf; lia). done.
Qed.

Lemma reads_escape e x rest l : read_escape (e ++ rest) = Some (x, rest) -> e <> [] -> reads rest l ->
  reads (backslash :: e ++ rest) (x :: l).
Proof.
  intros He Hne Hr f Hf. destruct f as [|f]; [simpl in Hf; lia|]. cbn [read_body].
  rewrite bool_decide_eq_false_2 by done. rewrite bool_decide_eq_true_2 by done. rewrite He. simpl.
  rewrite (Hr f); [done|]. simpl in Hf. rewrite length_app in Hf. lia.
Qed.

(** The text does not go on with a digit. *)
Definition no_digit (digit : ascii -> option nat) (s : cstring) : Prop :=
  forall c, head s = Some c -> digit c = None.

Lemma read_digits_stop digit b n acc rest : no_digit digit rest -> read_digits digit b n acc rest = (acc, rest).
Proof. intros H. destruct n, rest as [|c rest]; try done. simpl. by rewrite (H c). Qed.

(** What the loop needs from the way bytes are written: [good next rest] says that a
    byte followed by [next] may be followed by the text [rest]. *)
Section Loop.
Context (emit : ascii -> option ascii -> cstring) (good : option ascii -> cstring -> Prop).
Context (good_close : forall next, good next [dquote]).
Context (good_emit : forall c next k, good (Some c) (emit c next ++ k)).
Context (emit_reads : forall c next rest l, reads rest l -> good next rest -> reads (emit c next ++ rest) (c :: l)).
Context (emit_length : forall c next, length (emit c next) <= 4).
Context (nul_ends : bool) (ustr : cstring) (size : nat) (Hsize : size <= length ustr).

Let nonul (c : ascii) : bool := negb (bool_decide (c = NUL)).
(** The bytes from [i] on that are looked at, and those that are written. *)
Definition seen (i : nat) : cstring :=
  let t := drop i (take size ustr) in if nul_ends then take_while nonul t else t.
Definition shown (i : nat) : cstring := if nul_ends then take (size - 1 - i) (seen i) else seen i.

Lemma seen_next i : i < size ->
  seen i = if nul_ends && bool_decide (nth i ustr NUL = NUL) then [] else nth i ustr NUL :: seen (i + 1).
Proof.
  intros Hi. unfold seen.
  assert (E : drop i (take size ustr) = nth i ustr NUL :: drop (i + 1) (take size ustr)).
  { assert (Hl : i < length (take size ustr)) by (rewrite length_take; lia).
    apply lookup_lt_is_Some_2 in Hl as [c Hc]. rewrite (drop_S _ c _ Hc), Nat.add_1_r. f_equal.
    apply lookup_take_Some in Hc as [Hc _]. symmetry. by apply nth_lookup_Some. }
  rewrite E. destruct nul_ends; [|done]. simpl. unfold nonul at 1. by case_bool_decide.
Qed.

Lemma quote_loop_spec n i out j : i + n = size -> quote_loop emit nul_ends ustr size n i = (out, j) ->
  reads (out ++ [dquote]) (shown i) /\ length out <= 4 * n /\ j = i + length (seen i)
  /\ (forall next, i < size -> next = Some (nth i ustr NUL) -> good next (out ++ [dquote])).
Proof.
  revert i out j; induction n as [|n IH]; intros i out j Hi; simpl.
  - intros [= <- <-]. assert (Hs : seen i = []).
    { unfold seen. rewrite drop_ge by (rewrite length_take; lia). by destruct nul_ends. }
    unfold shown. rewrite Hs, take_nil. destruct nul_ends; (split; [apply reads_close|]; split_and!; [simpl; lia|simpl; lia|]);
      intros; apply good_close.
  - pose proof (seen_next i ltac:(lia)) as Hn.
    destruct (nul_ends && bool_decide (nth i ustr NUL = NUL)) eqn:E.
    { intros [= <- <-]. unfold shown. rewrite Hn, take_nil. destruct nul_ends; [|done].
      split; [apply reads_close|]. split_and!; [simpl; lia|simpl; lia|]. intros. apply good_close. }
    destruct (quote_loop emit nul_ends ustr size n (i + 1)) as [out1 j1] eqn:Eq.
    destruct (IH (i + 1) out1 j1 ltac:(lia) Eq) as (Hr & Hl & Hj & Hg).
    assert (Hj' : j1 = i + length (seen i)) by (rewrite Hj, Hn; simpl; lia).
    destruct (nul_ends && (i =? size - 1)) eqn:Elast.
    + apply andb_true_iff in Elast as [H Ei%Nat.eqb_eq]. assert (n = 0) as -> by lia.
      simpl in Eq. injection Eq as <- <-. intros [= <- <-].
      assert (Hs : shown i = []) by (unfold shown; by rewrite H, Ei, Nat.sub_diag).
      rewrite Hs. split; [apply reads_close|]. split_and!; [simpl; lia|done|]. intros. apply good_close.
    + intros [= <- <-]. split_and!; [| |done|].
      * assert (Hs : shown i = nth i ustr NUL :: shown (i + 1)).
        { unfold shown. rewrite Hn. destruct nul_ends; [|done]. simpl in Elast. apply Nat.eqb_neq in Elast.
          replace (size - 1 - i) with (S (size - 1 - (i + 1))) by lia. done. }
        rewrite Hs, <- app_assoc. apply emit_reads; [exact Hr|].
        destruct (Nat.ltb_spec (i + 1) size); [by apply Hg|].
        assert (n = 0) as -> by lia. simpl in Eq. injection Eq as <- <-. apply good_close.
      * rewrite length_app. pose proof (emit_length (nth i ustr NUL) (if i + 1 <? size then Some (nth (i + 1) ustr NUL) else None)). lia.
      * intros next _ ->. rewrite <- app_assoc. apply good_emit.
Qed.
End Loop.

(** ** The two ways to write a byte *)

Definition good_quote (next : option ascii) (rest : cstring) : Prop :=
  (exists d, next = Some d /\ isdigit d = true) \/ no_digit oct_digit rest.
Definition good_hex (_ : option ascii) (rest : cstring) : Prop := no_digit hex_nibble rest.

(** A decidable fact about every byte is checked by computation. *)
Lemma every_byte (f : ascii -> bool) : forallb f (map ascii_of_nat (seq 0 256)) = true -> forall c, f c = true.
Proof.
  intros H c. rewrite forallb_forall in H. apply H. apply in_map_iff. exists (code c).
  split; [apply ascii_nat_embedding|]. apply in_seq. pose proof (nat_ascii_bounded c). unfold code. lia.
Qed.

Definition oct_value (o : cstring) : nat := foldl (fun a d => 8 * a + default 0 (oct_digit d)) 0 o.
(** [o] is an octal escape for [c], of three digits if [full]. *)
Definition octal_for (full : bool) (c : ascii) (o : cstring) : bool :=
  forallb (fun d => bool_decide (is_Some (oct_digit d))) o && (oct_value o =? code c)
  && (if full then length o =? 3 else (1 <=? length o) && (length o <=? 3)).
Definition well_quoted (full : bool) (c : ascii) (q : cstring) : bool :=
  match q with
  | [x] => bool_decide (x = c) && negb (bool_decide (c = dquote)) && negb (bool_decide (c = backslash))
           && (isdigit c || bool_decide (oct_digit c = None))
  | b :: o =>
    bool_decide (b = backslash) &&
    (match o with
     | [e] => bool_decide (match code e with 34 | 92 | 102 | 110 | 114 | 116 | 118 => true | _ => false end = true
                           /\ read_escape [e] = Some (c, []))
     | _ => false
     end || octal_for full c o)
  | [] => false
  end.

Lemma quote_char_well c next : well_quoted (match next with Some d => isdigit d | None => false end) c (quote_char c next) = true.
Proof.
  assert (Hn : quote_char c next = quote_char c (if match next with Some d => isdigit d | None => false end then Some "0"%char else None)).
  { unfold quote_char. by destruct (match next with Some d => isdigit d | None => false end). }
  rewrite Hn. clear Hn. destruct (match next with Some d => isdigit d | None => false end); revert c; by apply every_byte.
Qed.

Lemma read_digits_all digit b n acc o rest : Forall (fun d => is_Some (digit d)) o -> length o <= n ->
  length o = n \/ no_digit digit rest ->
  read_digits digit b n acc (o ++ rest) = (foldl (fun a d => b * a + default 0 (digit d)) acc o, rest).
Proof.
  revert n acc; induction o as [|d o IH]; intros n acc Ho Hn Hr.
  - destruct Hr as [<-|Hr]; [by destruct rest|by apply read_digits_stop].
  - inversion_clear Ho as [|? ? [v Hv] Ho']. destruct n as [|n]; [simpl in Hn; lia|]. simpl. rewrite Hv. simpl.
    apply IH; [done|simpl in Hn; lia|]. destruct Hr as [Hr|Hr]; [left; simpl in Hr; lia|by right].
Qed.

Lemma read_octal c o rest full : octal_for full c o = true -> full = true \/ no_digit oct_digit rest ->
  read_escape (o ++ rest) = Some (c, rest).
Proof.
  unfold octal_for. rewrite !andb_true_iff, Nat.eqb_eq. intros [[Ho Hv] Hl] Hr.
  assert (Hall : Forall (fun d => is_Some (oct_digit d)) o).
  { apply List.Forall_forall. intros d Hd. rewrite forallb_forall in Ho.
    apply (bool_decide_eq_true_1 _). by apply (Ho d). }
  assert (Hlen : 1 <= length o <= 3 /\ (full = true -> length o = 3)).
  { destruct full; [apply Nat.eqb_eq in Hl; lia|]. apply andb_true_iff in Hl as [?%Nat.leb_le ?%Nat.leb_le]. split; [lia|done]. }
  assert (Hd : read_digits oct_digit 8 3 0 (o ++ rest) = (code c, rest)).
  { rewrite read_digits_all; [by rewrite <- Hv|done|lia|]. destruct Hr as [->|Hr]; [left; by apply Hlen|by right]. }
  destruct o as [|d o]; [simpl in Hlen; lia|]. inversion_clear Hall as [|? ? [v Hdv] _].
  assert (E : read_escape ((d :: o) ++ rest) = let '(v, r) := read_digits oct_digit 8 3 0 ((d :: o) ++ rest) in Some (ascii_of_nat v, r)).
  { clear -Hdv. destruct d as [[][][][][][][][]]; try discriminate Hdv; reflexivity. }
  rewrite E, Hd. unfold code. by rewrite ascii_nat_embedding.
Qed.

Lemma quote_char_reads c next rest l : reads rest l -> good_quote next rest -> reads (quote_char c next ++ rest) (c :: l).
Proof.
  intros Hl Hg. pose proof (quote_char_well c next) as Hw. unfold well_quoted in Hw.
  set (full := match next with Some d => isdigit d | None => false end) in *.
  assert (Hfull : full = true \/ no_digit oct_digit rest).
  { destruct Hg as [(d & -> & Hd)|Hg]; [by left|by right]. }
  destruct (quote_char c next) as [|b o]; [done|]. destruct o as [|e o].
  - to_prop. subst b. apply reads_plain; [done|done|exact Hl].
  - apply andb_true_iff in Hw as [Hb Hw]. apply bool_decide_eq_true in Hb as ->.
    apply orb_true_iff in Hw as [Hw|Hw].
    + destruct o; [|done]. apply bool_decide_eq_true in Hw as [He Hr]. change ([backslash; e] ++ rest) with (backslash :: [e] ++ rest).
      apply reads_escape; [|done|exact Hl]. destruct e as [[][][][][][][][]]; try discriminate He; simpl in *; by simplify_eq.
    + apply reads_escape; [|done|exact Hl]. by apply read_octal with full.
Qed.

Lemma quote_char_head c next k : good_quote (Some c) (quote_char c next ++ k).
Proof.
  pose proof (quote_char_well c next) as Hw. unfold well_quoted in Hw.
  destruct (quote_char c next) as [|b o]; [done|]. destruct o as [|e o].
  - apply andb_true_iff in Hw as [Hw Hd]. to_prop. subst b. apply orb_true_iff in Hd as [Hd|Hd].
    + left. by exists c.
    + right. intros x [= <-]. by apply bool_decide_eq_true in Hd.
  - apply andb_true_iff in Hw as [Hb _]. apply bool_decide_eq_true in Hb as ->. right. by intros x [= <-].
Qed.

Lemma quote_char_length c next : length (quote_char c next) <= 4.
Proof.
  pose proof (quote_char_well c next) as Hw. unfold well_quoted, octal_for in Hw.
  destruct (quote_char c next) as [|b o]; [simpl; lia|]. destruct o as [|e o]; [simpl; lia|].
  apply andb_true_iff in Hw as [_ Hw]. apply orb_true_iff in Hw as [Hw|Hw]; [destruct o; [simpl; lia|done]|].
  apply andb_true_iff in Hw as [_ Hw]. destruct (match next with Some d => isdigit d | None => false end).
  - apply Nat.eqb_eq in Hw. simpl in *. lia.
  - apply andb_true_iff in Hw as [_ Hw%Nat.leb_le]. simpl in *. lia.
Qed.

(** Hexadecimal: two digits, and what follows is never one. *)
Definition hex_for (c : ascii) : bool :=
  match hex_char c with
  | [b; x; d; e] => bool_decide (b = backslash /\ x = "x"%char)
    && match hex_nibble d, hex_nibble e with Some u, Some v => 16 * u + v =? code c | _, _ => false end
  | _ => false
  end.

Lemma hex_char_reads c (next : option ascii) rest l : reads rest l -> good_hex next rest -> reads (hex_char c ++ rest) (c :: l).
Proof.
  intros Hl Hg. assert (Hw : hex_for c = true) by (revert c; by apply every_byte). unfold hex_for in Hw.
  destruct (hex_char c) as [|b [|x [|d [|e [|]]]]]; try done.
  apply andb_true_iff in Hw as [Hb Hw]. apply bool_decide_eq_true in Hb as [-> ->].
  destruct (hex_nibble d) as [u|] eqn:Ed; [|done]. destruct (hex_nibble e) as [v|] eqn:Ee; [|done].
  apply Nat.eqb_eq in Hw. change ([backslash; "x"%char; d; e] ++ rest) with (backslash :: ["x"%char; d; e] ++ rest).
  apply reads_escape; [|done|exact Hl].
  assert (E : read_escape (["x"%char; d; e] ++ rest)
    = let '(v, r) := read_digits hex_nibble 16 (length ([d; e] ++ rest)) 0 ([d; e] ++ rest) in Some (ascii_of_nat v, r)) by reflexivity.
  rewrite E, read_digits_all; [|by repeat constructor; eexists|simpl; lia|by right]. cbn [foldl]. rewrite Ed, Ee. simpl default.
  replace (16 * (16 * 0 + u) + v) with (code c) by lia. unfold code. by rewrite ascii_nat_embedding.
Qed.

Lemma hex_char_head c k : no_digit hex_nibble (hex_char c ++ k).
Proof. by intros x [= <-]. Qed.
Lemma hex_char_length c : length (hex_char c) <= 4.
Proof. apply Nat.leb_le. revert c. apply (every_byte (fun c => length (hex_char c) <=? 4)). reflexivity. Qed.

(** ** The literal *)

(** The bytes that are shown of a buffer: at most [size - 1] before the NUL, or [size]. *)
Definition shown_bytes (instr : cstring) (len : Z) (size : nat) : cstring := shown (len <? 0)%Z instr size 0.

(** C33.  [string_quote], with or without -x, writes a C string literal that is read back
    as exactly the bytes to be shown (up to the NUL and at most [size - 1] of them if the
    string ends with a NUL, all [size] otherwise); the result, with its NUL, fits the
    block of [3 + 4 * size] bytes; and the flag says that no NUL ended the string. *)
Theorem string_quote_roundtrip (xflag : nat) (instr : cstring) (len : Z) (size : nat) (Hsize : size <= length instr) :
  let '(out, unterminated) := string_quote xflag instr len size in
  read_literal out = Some (shown_bytes instr len size)
  /\ length out + 1 <= 3 + 4 * size
  /\ (unterminated = true <-> length (seen (len <? 0)%Z instr size 0) = size).
Proof.
  unfold string_quote. set (usehex := _ || _).
  destruct (quote_loop _ _ instr size size 0) as [out i] eqn:E.
  assert (H : reads (out ++ [dquote]) (shown_bytes instr len size) /\ length out <= 4 * size
    /\ i = length (seen (len <? 0)%Z instr size 0)).
  { destruct usehex.
    - assert (Hclose : forall next, good_hex next [dquote]) by (intros next x [= <-]; done).
      destruct (quote_loop_spec (fun c _ => hex_char c) good_hex Hclose (fun c _ => hex_char_head c)
        hex_char_reads (fun c _ => hex_char_length c) (len <? 0)%Z instr size Hsize size 0 out i eq_refl E) as (H1 & H2 & H3 & _).
      done.
    - assert (Hclose : forall next, good_quote next [dquote]) by (intros next; right; intros x [= <-]; done).
      destruct (quote_loop_spec quote_char good_quote Hclose quote_char_head quote_char_reads quote_char_length
        (len <? 0)%Z instr size Hsize size 0 out i eq_refl E) as (H1 & H2 & H3 & _).
      done. }
  destruct H as (Hr & Hl & Hi). split_and!.
  - unfold read_literal. rewrite bool_decide_eq_true_2 by done. by apply Hr.
  - simpl. rewrite length_app. simpl. lia.
  - rewrite Nat.eqb_eq, Hi. done.
Qed.

Lemma string_quote_roundtrip_witness :
  read_literal (string_quote 0 (lit "a" ++ [ascii_of_nat 1] ++ lit "7" ++ [dquote; NUL]) (-1) 5).1
    = Some (lit "a" ++ [ascii_of_nat 1] ++ lit "7" ++ [dquote])
  /\ (string_quote 0 (lit "a" ++ [ascii_of_nat 1] ++ lit "7" ++ [dquote; NUL]) (-1) 5).2 = false.
Proof.
  pose proof (string_quote_roundtrip 0 (lit "a" ++ [ascii_of_nat 1] ++ lit "7" ++ [dquote; NUL]) (-1) 5 (le_n 5)) as H.
  destruct H as (H1 & _ & H3). split; [exact H1|reflexivity].
Defined.
