(* ===== verification/Provenance.v ===== *)
(** * The provenance log (provenance.c)

    In audit mode each traced process, file access and end of a process is a line of the
    log; a second thread writes the memory of each process once a second.  The
    operations here are those of the tracer; the thread is in [Recorder.v]. *)
From S2P Require Import Prelude CString Os OkapiPath OkapiMirror Trie State.
From S2P Require Import ChildMem StrUtils StrQuote.

(** [sizeof(PidList.pv) / sizeof(pid_t)] *)
Definition PIDLIST_SIZE : nat := 1000.
Definition KEYLEN : nat := 1024.
Inductive provenance_type := PRV_RDONLY | PRV_WRONLY | PRV_RDWR | PRV_UNKNOWNIO.

(** ** Printing *)

(** [%u] of a 32-bit number, [%#lx] *)
Definition u32 (z : Z) : cstring := utoa 10 (Z.to_N (z mod 2 ^ 32)).
Definition ulong (ws : nat) (z : Z) : Z := (z mod 2 ^ (8 * Z.of_nat ws))%Z.
Definition hex_long (ws : nat) (z : Z) : cstring := lit "0x" ++ utoa 16 (Z.to_N (ulong ws z)).
(** [%s] of a pointer that may be NULL *)
Definition str_or_null (s : option cstring) : cstring := default (lit "(null)") s.
Definition words (l : list cstring) : cstring :=
  match l with [] => [] | x :: l' => x ++ concat (map (fun y => " "%char :: y) l') end.

(** [(int)time(0)] *)
Definition time_int : M state Z := let* t := sysM Time in retM (to_int t).
Definition fprintf_log (s : cstring) : M state unit :=
  let* f := prv prov_logfile in
  let* f := deref f in
  let* _ := sysM (Fputs f s) in skip.
(** A line of the log that starts with the time. *)
Definition log_line (l : list cstring) : M state unit :=
  let* t := time_int in fprintf_log (words (itoa t :: l) ++ [newline]).

(** ** The memory of the processes *)

(** [sscanf] of a number: white space, a sign, digits. *)
Fixpoint scan_digits (acc : option Z) (s : cstring) : option (Z * cstring) :=
  match s with
  | c :: s' => if isdigit c then scan_digits (Some (10 * default 0 acc + (Z.of_nat (code c) - 48))%Z) s'
               else n ← acc; Some (n, s)
  | [] => n ← acc; Some (n, s)
  end.
Definition scan_number (s : cstring) : option (Z * cstring) :=
  match drop_while isspace s with
  | c :: s' =>
    if bool_decide (c = "-"%char) then '(n, r) ← scan_digits None s'; Some ((- n)%Z, r)
    else if bool_decide (c = "+"%char) then scan_digits None s'
    else scan_digits None (c :: s')
  | [] => None
  end.
Fixpoint skip_numbers (n : nat) (s : cstring) : option cstring :=
  match n with
  | O => Some s
  | S n' => '(_, r) ← scan_number s; skip_numbers n' r
  end.
(** [%*s] and, after white space, [%*c] *)
Definition skip_word (s : cstring) : option cstring :=
  match drop_while isspace s with
  | [] => None
  | c :: s' => Some (drop_while (fun c => negb (isspace c)) (c :: s'))
  end.
Definition skip_char (s : cstring) : option cstring :=
  match drop_while isspace s with [] => None | _ :: s' => Some s' end.
(** [%lu] is [strtoul]: a number that is too large gives the largest one. *)
Definition strtoul (ws : nat) (z : Z) : Z :=
  if (2 ^ (8 * Z.of_nat ws) <=? Z.abs z)%Z then (2 ^ (8 * Z.of_nat ws) - 1)%Z else ulong ws z.

(** The number after the 22nd field of a line of /proc/<pid>/stat, if it is reached. *)
Definition sscanf_stat (ws : nat) (s : cstring) : option Z :=
  '(_, s) ← scan_number s;
  s ← skip_word s;
  s ← skip_char s;
  s ← skip_numbers 19 s;
  '(n, _) ← scan_number s;
  Some (strtoul ws n).

Definition proc_file (p : Z) (name : string) : cstring := lit "/proc/" ++ itoa p ++ lit name.
Arguments proc_file _ _%_string_scope.

(** [pv[i] = pv[pc-1]; pc--;] *)
Definition remove_at (i : nat) (l : list Z) : list Z :=
  match last l with Some x => take (length l - 1) (<[i:=x]> l) | None => l end.
Definition set_pidlist (l : list Z) : M state unit := modM (fun s => s {{ prov -> pidlist := l }}).

(** The loop over the array, which shrinks; [rss] keeps its value from one turn to the
    next. *)
Fixpoint curr_prov_loop (n : nat) (curr_time : Z) (i : nat) (rss : Z) : M state unit :=
  match n with
  | O => stopM (OutOfFuel "print_curr_prov")
  | S n' =>
    let* pv := prv pidlist in
    match pv !! i with
    | None => skip
    | Some p =>
      let* f := sysM (Fopen (proc_file p "/stat") F_read) in
      match f with
      | None =>
        fprintf_log (words [itoa curr_time; u32 p; lit "LEXIT"] ++ [newline]) ;;;
        set_pidlist (remove_at i pv) ;;;
        curr_prov_loop n' curr_time (i + 1) rss
      | Some f =>
        let* ws := word_size in
        let* buff := sysM (Fgets f 1024) in
        let rss := match buff with None => 0%Z | Some b => default rss (sscanf_stat ws b) end in
        let* _ := sysM (Fclose f) in
        fprintf_log (words [itoa curr_time; u32 p; lit "MEM"; utoa 10 (Z.to_N rss)] ++ [newline]) ;;;
        let* g := sysM (Fopen (proc_file p "/io") F_read) in
        match g with
        | None => skip
        | Some g => let* _ := sysM (Fclose g) in skip
        end ;;;
        curr_prov_loop n' curr_time (i + 1) rss
      end
    end
  end.

(** What [rss] holds before it is set. *)
Definition uninitialised_long : M state Z :=
  let* ws := word_size in let* junk := gets heap_junk in retM (load_long ws junk [] 0).

Definition print_curr_prov : M state unit :=
  let* t := time_int in
  let* pv := prv pidlist in
  let* rss := uninitialised_long in
  curr_prov_loop (S (length pv)) t 0 rss.

(** The array has no check of its bound. *)
Definition push_pid (p : Z) : M state unit :=
  let* pv := prv pidlist in
  if length pv <? PIDLIST_SIZE then set_pidlist (pv ++ [p]) else stopM Segv.
Definition add_pid_prov (p : Z) : M state unit := push_pid p ;;; print_curr_prov.

(** The index of [p], or the number of elements. *)
Fixpoint index_of (p : Z) (l : list Z) : nat :=
  match l with [] => 0 | x :: l' => if bool_decide (x = p) then 0 else S (index_of p l') end.
(** The search reads the element after the last one, before it compares the index. *)
Definition drop_pid (p : Z) : M state unit :=
  let* pv := prv pidlist in
  let i := index_of p pv in
  if i <? length pv then set_pidlist (remove_at i pv)
  else if length pv <? PIDLIST_SIZE then skip else stopM Segv.
Definition rm_pid_prov (p : Z) : M state unit :=
  let* pv := prv pidlist in
  match pv with
  | [] => skip
  | _ => print_curr_prov ;;; drop_pid p
  end.

(** ** Strings and arguments of the process *)

(** The buffer filled by [laddr], what was in it after that. *)
Definition overwrite (laddr buf : cstring) : cstring := laddr ++ drop (length laddr) buf.
Definition set_str_buf (b : cstring) : M state unit := modM (fun s => s {{ prov -> str_buf := b }}).

(** The text written to [dest].  ([str_buf] after a failed read is what it was: the bytes
    that were copied before the failure are not shown in that case.) *)
Definition get_str_prov (addr len : Z) : M state cstring :=
  if (addr =? 0)%Z then retM (lit "NULL")
  else
    let* ws := word_size in
    let* max := conf max_strlen in
    let* buf := prv str_buf in
    let* r :=
      if (len <? 0)%Z then
        set_str_buf (<[max:=NUL]> buf) ;;;
        let* r := umovestr addr (max + 1) in retM ((fun l => (l, max + 1)) <$> r)
      else
        let size := Nat.min (Z.to_nat len) max in
        let* r := umoven addr size in retM ((fun l => (l, size)) <$> r) in
    match r with
    | None => retM (hex_long ws addr)
    | Some (laddr, size) =>
      let* buf := prv str_buf in
      let str := overwrite laddr buf in
      set_str_buf str ;;;
      let* x := conf xflag in
      let '(outstr, unterminated) := string_quote x str len size in
      retM (if unterminated && ((len <? 0)%Z || (Z.of_nat max <? len)%Z) then outstr ++ lit "..." else outstr)
    end.

(** [cp] is a union of a long, an unsigned int and bytes, 0 where [umoven] was cut short;
    [cp_] is the long of the turn before. *)
Fixpoint print_arg_loop (m : nat) (n : nat) (sep : cstring) (addr cp_ : Z) (argstr : cstring)
  : M state (cstring * bool) :=
  let* ab := conf abbrev in
  let* max := conf max_strlen in
  if negb ab || (n <? max / 2) then
    match m with
    | O => stopM (OutOfFuel "print_arg_prov")
    | S m' =>
      let* a := conf personality in
      let ws := sizeof_long a in
      let pws := personality_wordsize a in
      let* r := umoven addr pws in
      match r with
      | None => retM (argstr ++ hex_long ws addr ++ [newline], true)
      | Some laddr =>
        let data := overwrite laddr (word_bytes ws cp_) in
        let p64 := word_of (take pws data) in
        if (p64 =? 0)%Z then retM (argstr, false)
        else
          let argstr := argstr ++ sep in
          let* s := get_str_prov p64 (-1) in
          print_arg_loop m' (n + 1) (lit ", ") (addr + Z.of_nat pws)%Z p64 (argstr ++ s)
      end
    end
  else retM (if (cp_ =? 0)%Z then argstr else argstr ++ sep ++ lit "...", false).

Section Provenance.
Context {Fu : Fuel}.

(** [argstr] has [KEYLEN * 10] bytes and the writes do not check it. *)
Definition print_arg_prov (addr : Z) : M state cstring :=
  let* max := conf max_strlen in
  let* r := print_arg_loop (Nat.max (max / 2) fuel) 0 [] addr 1 (lit "[") in
  let '(argstr, failed) := r in
  strbuf (KEYLEN * 10) (if failed : bool then argstr else argstr ++ lit "]").

(** ** Files *)

Definition io_word (action : provenance_type) : cstring :=
  match action with
  | PRV_RDONLY => lit "READ" | PRV_WRONLY => lit "WRITE" | PRV_RDWR => lit "READ-WRITE"
  | PRV_UNKNOWNIO => lit "UNKNOWNIO"
  end.

(** The path in an argument of the call, canonical. *)
Definition abspath_of_arg (path_index : nat) : M state (cstring * cstring) :=
  let* a := arg path_index in
  let* filename := strcpy_from_child_or_null a in
  let* filename := deref filename in
  let* d := tcp current_dir in
  let* filename_abspath := assert_some (canonicalize_path filename (default [] d)) in
  retM (filename, filename_abspath).

Definition print_io_prov (path_index : nat) (action : provenance_type) : M state unit :=
  let* names := abspath_of_arg path_index in
  let* p := tcp pid in
  log_line [u32 p; io_word action; names.2].

Definition in_prov_mode (m : M state unit) : M state unit := let* v := prv Prov_prov_mode in when v m.

Definition print_begin_execve_prov : M state unit :=
  in_prov_mode
    (let* names := abspath_of_arg 0 in
     let* par := gets parent in
     let* parentPid := match par with None => sysM Getpid | Some par => retM (pid par) end in
     let* argv := arg 1 in
     let* args := print_arg_prov argv in
     let* p := tcp pid in
     let* d := tcp current_dir in
     log_line [itoa parentPid; lit "EXECVE"; u32 p; names.2; str_or_null d; args] ;;;
     vbprintf "[%d-prov] BEGIN %s '%s'" [PZ p; PS (lit "execve"); PS names.1]).

Definition print_end_execve_prov : M state unit :=
  in_prov_mode
    (let* par := gets parent in
     let ppid := match par with Some par => pid par | None => (-1)%Z end in
     let* p := tcp pid in
     log_line [u32 p; lit "EXECVE2"; itoa ppid] ;;;
     add_pid_prov p ;;;
     vbprintf "[%d-prov] BEGIN execve2" [PZ p]).

Definition print_spawn_prov : M state unit :=
  in_prov_mode
    (let* par := gets parent in
     let* par := deref par in
     let* p := tcp pid in
     log_line [u32 (pid par); lit "SPAWN"; u32 p]).

Definition print_ptrace_prov : M state unit :=
  in_prov_mode (let* p := tcp pid in log_line [u32 p; lit "PTRACE"]).

Definition print_exit_prov : M state unit :=
  in_prov_mode (let* p := tcp pid in rm_pid_prov p ;;; log_line [u32 p; lit "EXIT"]).

Definition open_action (flags : Z) : provenance_type :=
  match Z.land flags 3 with 0 => PRV_RDONLY | 1 => PRV_WRONLY | 2 => PRV_RDWR | _ => PRV_UNKNOWNIO end%Z.

(** [opened_file_paths[fd]], an array of [max_open_files] elements *)
Definition opened_path (fd : Z) : M state (option cstring) :=
  let* l := tcp opened_file_paths in
  deref (if (fd <? 0)%Z then None else l !! Z.to_nat fd).
Definition set_opened_path (fd : Z) (p : cstring) : M state unit :=
  let* _ := opened_path fd in
  modM (fun s => s {{ cur -> opened_file_paths := <[Z.to_nat fd:=Some p]> (opened_file_paths (cur s)) }}).

Definition print_open_prov (syscall_name : string) : M state unit :=
  match (if String.eqb syscall_name "sys_open" then Some 1
         else if String.eqb syscall_name "sys_openat" then Some 2 else None) with
  | None => skip
  | Some path_index =>
    let* names := abspath_of_arg (path_index - 1) in
    let* mode := prv Prov_prov_mode in
    let* fd := tcp u_rval in
    when (mode && (0 <=? fd)%Z)
      (let* flags := arg path_index in
       print_io_prov (path_index - 1) (open_action flags) ;;;
       set_opened_path fd names.2) ;;;
    vbprintf "%s: fd= %ld" [PS names.2; PZ fd]
  end.

Definition when_call_succeeded (m : M state unit) : M state unit :=
  in_prov_mode (let* r := tcp u_rval in when (0 <=? r)%Z m).
Definition print_read_prov (path_index : nat) : M state unit :=
  when_call_succeeded (print_io_prov path_index PRV_RDONLY).
Definition print_write_prov (path_index : nat) : M state unit :=
  when_call_succeeded (print_io_prov path_index PRV_WRONLY).

Definition print_link_prov (realpath_index linkpath_index : nat) : M state unit :=
  in_prov_mode
    (let* r := tcp u_rval in
     when (r =? 0)%Z (print_io_prov realpath_index PRV_RDONLY ;;; print_io_prov linkpath_index PRV_WRONLY)).

Definition print_rename_prov (renameat : bool) : M state unit :=
  in_prov_mode
    (let* r := tcp u_rval in
     when (r =? 0)%Z
       (print_io_prov (if renameat then 1 else 0) PRV_RDWR ;;;
        print_io_prov (if renameat then 3 else 1) PRV_WRONLY)).

(** The descriptor is not range-checked, and the path stays in the array. *)
Definition print_close_prov : M state unit :=
  in_prov_mode
    (let* a := arg 0 in
     let* openpath := opened_path (to_int a) in
     match openpath with
     | None => skip
     | Some openpath =>
       let* p := tcp pid in
       log_line [u32 p; lit "CLOSE"; openpath] ;;;
       vbprintf "[%d-prov] CLOSE %s" [PZ p; PS openpath]
     end).

(** ** The log file *)

Definition log_path (app_dir : cstring) (ns : option cstring) (subns : nat) : cstring :=
  app_dir ++ lit "/provenance." ++ str_or_null ns ++ lit "." ++ itoa (Z.of_nat subns) ++ lit ".log".
(** [sprintf(path, ...)] into [char path[PATH_MAX]] *)
Definition log_path_buf (subns : nat) : M state cstring :=
  let* app_dir := conf Cde_app_dir in
  let* ns := conf CDE_ROOT_NAME in
  strbuf MAXPATHLEN (log_path app_dir ns subns).

(** The loop that looks for a file that cannot be read yet. *)
Fixpoint new_log_name (n : nat) (subns : nat) : M state (cstring * nat) :=
  match n with
  | O => stopM (OutOfFuel "init_prov")
  | S n' =>
    let subns := subns + 1 in
    let* path := log_path_buf subns in
    let* r := sysM (Access path) in
    if (r =? 0)%Z then new_log_name n' subns else retM (path, subns)
  end.

Definition open_log : M state nat :=
  let* path := log_path_buf 1 in
  let* r := sysM (Access path) in
  let* found :=
    if (r =? 0)%Z then
      let* found := new_log_name fuel 1 in
      eprintf "Provenance log file: %s" [PS found.1] ;;;
      retM found
    else retM (path, 1) in
  let* f := sysM (Fopen found.1 F_write) in
  modM (fun s => s {{ prov -> prov_logfile := f }}) ;;;
  retM found.2.

(** The header of the log; the thread that [pthread_create] starts is
    [Recorder.capture_cont_prov]. *)
Definition log_header (subns : nat) : M state unit :=
  let* f := prv prov_logfile in
  let* f := deref f in
  let* _ := sysM (Set_cloexec f) in
  let* pw := sysM Getpwuid in
  let* un := sysM Popen_uname in
  let uname := rstrip (default (lit "(unknown architecture)") un) in
  let* ns := conf CDE_ROOT_NAME in
  let* fullns := strbuf MAXPATHLEN (str_or_null ns ++ lit "." ++ itoa (Z.of_nat subns)) in
  let field name value := fprintf_log (lit "# @" ++ lit name ++ lit ": " ++ value ++ [newline]) in
  field "agent" (default (lit "(noone)") pw) ;;;
  field "machine" uname ;;;
  field "namespace" (str_or_null ns) ;;;
  field "subns" (itoa (Z.of_nat subns)) ;;;
  field "fullns" fullns ;;;
  let* parentns := sysM (Getenv (lit "CDE_PROV_NAMESPACE")) in
  field "parentns" (str_or_null parentns) ;;;
  let* _ := sysM (Setenv (lit "CDE_PROV_NAMESPACE") fullns true) in
  skip.

Definition init_prov : M state unit :=
  let* env_prov_mode := sysM (Getenv (lit "IN_CDE_PROVENANCE_MODE")) in
  let* exec := conf Cde_exec_mode in
  let mode := match env_prov_mode with Some v => strcmp_eq v (lit "1") | None => negb exec end in
  modM (fun s => s {{ prov -> Prov_prov_mode := mode }}) ;;;
  when mode
    (let* _ := sysM (Setenv (lit "IN_CDE_PROVENANCE_MODE") (lit "1") true) in
     let* subns := open_log in
     log_header subns ;;;
     set_pidlist []).
End Provenance.
#[global] Arguments print_open_prov _%_string_scope.
