(* ===== verification/Forks.v ===== *)
(** * New processes, waits and exits (process.c, util.c, syscall.c)

    How the table follows the processes: a new child gets a tcb, with its parent and the
    counts of children and threads; a process that waits for a traced child is suspended;
    one that exits is marked.  Where the kernel does not report new children
    ([ptrace_setoptions]), the call is changed so that the child is traced ([setbpt]). *)
From S2P Require Import Prelude CString Os PerfTimers SysLimits Trie State Shm Sysent ProcTab Provenance.

Definition PTRACE_O_TRACEFORK : Z := 2.
Definition PTRACE_O_TRACEVFORK : Z := 4.
Definition PTRACE_O_TRACECLONE : Z := 8.
Definition CLONE_VM : Z := 256.
Definition CLONE_PTRACE : Z := 8192.
Definition CLONE_VFORK : Z := 16384.
Definition CLONE_PARENT : Z := 32768.
Definition CLONE_THREAD : Z := 65536.
Definition CLONE_UNTRACED : Z := 8388608.
Definition WNOHANG : Z := 1.

(** The numbers of the tracer's own architecture (<sys/syscall.h>) *)
Definition SYS_fork_ (a : abi) : Z := if multi a then 57 else 2.
Definition SYS_vfork_ (a : abi) : Z := if multi a then 58 else 190.
Definition SYS_clone_ (a : abi) : Z := if multi a then 56 else 120.
Definition NR_exit_group (a : abi) : Z := if multi a then 231 else 252.

Section Forks.
Context {Fu : Fuel}.

(** ** Registers *)

(** [None] is the result -1. *)
Definition upeek (i : nat) (r : reg) : M state (option Z) :=
  let* p := pid_at i in
  let* v := sysM (Peekuser p r) in
  match v with
  | inl v => retM (Some v)
  | inr e =>
    (if (e =? ESRCH)%Z then mod_slot i (fun t => t {{ ptrace_errno := ESRCH }})
     else eprintf "upeek: ptrace(PTRACE_PEEKUSER,%d,%lu,0)" [PZ p]) ;;;
    retM None
  end.

(** The call's result is replaced. *)
Definition force_result (i : nat) (error rval : Z) : M state Z :=
  let v := if (error =? 0)%Z then rval else (- error)%Z in
  modM (fun s => s {{ procs -> rax := v }}) ;;;
  let* p := pid_at i in
  let* e := sysM (Pokeuser p RAX v) in
  if negb (e =? 0)%Z then retM (-1)%Z
  else
    mod_slot i (fun t => t {{ tcb_ -> u_error := error; tcb_ -> u_rval := rval }}) ;;;
    retM 0%Z.

Definition arg_at (i n : nat) : M state Z := let* t := slot_at i in retM (nth n (u_arg (tcb_ t)) 0%Z).
Definition set_arg (n : nat) (v : Z) (t : slot) : slot := t {{ tcb_ -> u_arg := <[n:=v]> (u_arg (tcb_ t)) }}.
Definition entering (i : nat) : M state bool := let* b := flag_at i TCB_INSYSCALL in retM (negb b).
Definition entry_at (i : nat) : M state sysent_entry :=
  let* a := conf personality in let* t := slot_at i in deref (entry a (scno t)).

(** ** A call is changed so that the child is traced *)

(** [ptrace(PTRACE_POKEUSER)] without an error *)
Definition poke_ok (p : Z) (r : reg) (v : Z) : M state bool :=
  let* e := sysM (Pokeuser p r v) in retM (e =? 0)%Z.
Definition change_syscall (p new : Z) : M state bool := poke_ok p ORIG_RAX new.

(** The number of clone for the current personality *)
Fixpoint find_clone (t : list sysent_entry) (n : Z) : Z :=
  match t with
  | [] => 0
  | e :: t' => if String.eqb (func_name e) "sys_clone" then n else find_clone t' (n + 1)
  end.
Definition clone_scno (a : abi) : Z :=
  match a with X86_64_32BIT_EMU => find_clone (sysent a) 0 | _ => SYS_clone_ a end.

Definition known_scno (i : nat) : M state Z :=
  let* a := conf personality in let* t := slot_at i in retM (known_scno_of a (scno t)).

(** fork and vfork become a clone. *)
Definition setbpt_fork (a : abi) (i : nat) : M state Z :=
  let* p := pid_at i in
  let* v0 := upeek i (arg0_reg a) in
  match v0 with
  | None => retM (-1)%Z
  | Some v0 =>
    mod_slot i (fun t => t {{ inst := (v0, (inst t).2) }}) ;;;
    let* v1 := upeek i (arg1_reg a) in
    match v1 with
    | None => retM (-1)%Z
    | Some v1 =>
      mod_slot i (fun t => t {{ inst := ((inst t).1, v1) }}) ;;;
      let* ok := change_syscall p (clone_scno a) in
      let* ok := (if ok then poke_ok p (arg0_reg a) (Z.lor CLONE_PTRACE SIGCHLD) else retM false) in
      let* ok := (if ok then poke_ok p (arg1_reg a) 0 else retM false) in
      if ok then
        mod_slot i (set_arg 0 (Z.lor CLONE_PTRACE SIGCHLD)) ;;;
        mod_slot i (set_arg 1 0%Z) ;;;
        or_flags i TCB_BPTSET ;;;
        retM 0%Z
      else retM (-1)%Z
    end
  end.

(** clone gets CLONE_PTRACE, and loses CLONE_VFORK and CLONE_VM when it is a vfork. *)
Definition setbpt_clone (a : abi) (i : nat) : M state Z :=
  let* p := pid_at i in
  let* f := arg_at i 0 in
  let drop := if (Z.land f CLONE_VFORK =? 0)%Z then 0%Z else Z.lor CLONE_VFORK CLONE_VM in
  let* ok := poke_ok p (arg0_reg a) (Z.ldiff (Z.lor f CLONE_PTRACE) drop) in
  if ok then
    or_flags i TCB_BPTSET ;;;
    let* x := arg_at i 1 in
    mod_slot i (fun t => t {{ inst := (f, x) }}) ;;;
    retM 0%Z
  else retM (-1)%Z.

Definition setbpt (i : nat) : M state Z :=
  let* t := slot_at i in
  if has_flag (flags (tcb_ t)) TCB_BPTSET then
    eprintf "PANIC: TCB already set in pid %u\n" [PZ (pid (tcb_ t))] ;;; retM (-1)%Z
  else
    let* a := conf personality in
    let* n := known_scno i in
    if (n =? SYS_vfork_ a)%Z || (n =? SYS_fork_ a)%Z then setbpt_fork a i
    else if (n =? SYS_clone_ a)%Z then setbpt_clone a i
    else eprintf "PANIC: setbpt for syscall %ld on %u???\n" [PZ (scno t); PZ (pid (tcb_ t))] ;;; retM (-1)%Z.

(** ** New processes *)

(** There will be a tcb for the child. *)
Definition fork_tcb (i : nat) : M state unit :=
  let* n := gets (fun s => nprocs (procs s)) in
  let* size := tcbtabsize in
  when (n =? Z.of_nat size)%Z expand_tcbtab ;;;
  or_flags i TCB_FOLLOWFORK.

Definition add_children (i : nat) (d : Z) : M state unit :=
  mod_slot i (fun t => t {{ nchildren := (nchildren t + d)%Z }}).
Definition set_parent (i : nat) (p : option nat) : M state unit :=
  mod_slot i (fun t => t {{ parent_ix := p }}).

(** The place of a child made by clone: a thread's children are its process's; a thread
    is counted; CLONE_PARENT makes it a sibling. *)
Definition place_clone (tcp tcpchild : nat) : M state unit :=
  let* t := slot_at tcp in
  let call_flags := to_int (nth 0 (u_arg (tcb_ t)) 0%Z) in
  let* tcp :=
    match parent_ix t with
    | Some p =>
      if has_flag (flags (tcb_ t)) TCB_CLONE_THREAD then
        add_children tcp (-1) ;;; set_parent tcpchild (Some p) ;;; add_children p 1 ;;; retM p
      else retM tcp
    | None => retM tcp
    end in
  when (has_flag call_flags CLONE_THREAD)
    (or_flags tcpchild TCB_CLONE_THREAD ;;;
     mod_slot tcp (fun t => t {{ nclone_threads := Z.succ (nclone_threads t) }})) ;;;
  when (has_flag call_flags CLONE_PARENT && negb (has_flag call_flags CLONE_THREAD))
    (add_children tcp (-1) ;;;
     set_parent tcpchild None ;;;
     let* t := slot_at tcp in
     match parent_ix t with
     | Some p => set_parent tcpchild (Some p) ;;; add_children p 1
     | None => skip
     end).

(** The three flags of a child that has stopped before its parent's call has returned *)
Definition preattached : Z := Z.lor TCB_STARTUP (Z.lor TCB_ATTACHED TCB_SUSPENDED).

(** The tcb of a new child: the one it has already, or a new one. *)
Definition child_tcb (tcp : nat) (p : Z) : M state nat :=
  let* c := pid2tcb p in
  match c with
  | Some c =>
    let* f := flags_at c in
    when (negb (Z.land f preattached =? preattached)%Z)
      (let* pp := pid_at tcp in eprintf "[preattached child %d of %d in weird state!]\n" [PZ p; PZ pp]) ;;;
    retM c
  | None => fork_tcb tcp ;;; alloc_tcb p
  end.

Definition handle_new_child (tcp : nat) (p : Z) (bpt : bool) : M state Z :=
  let* tcpchild := child_tcb tcp p in
  when bpt (let* _ := clearbpt tcp in skip) ;;;
  or_flags tcpchild TCB_ATTACHED ;;;
  when bpt
    (or_flags tcpchild TCB_BPTSET ;;;
     let* t := slot_at tcp in mod_slot tcpchild (fun c => c {{ inst := inst t }})) ;;;
  set_parent tcpchild (Some tcp) ;;;
  on_tcb tcpchild CDE_init_tcb_dir_fields ;;;
  on_tcb tcpchild print_spawn_prov ;;;
  add_children tcp 1 ;;;
  let* susp := flag_at tcpchild TCB_SUSPENDED in
  let* r := (if susp then
               when bpt (let* _ := clearbpt tcpchild in skip) ;;;
               clear_flags tcpchild (Z.lor TCB_SUSPENDED TCB_STARTUP) ;;;
               ptrace_restart PTRACE_SYSCALL tcpchild 0
             else retM 0%Z) in
  if (r <? 0)%Z then retM (-1)%Z
  else
    let* e := entry_at tcp in
    when (String.eqb (func_name e) "sys_clone") (place_clone tcp tcpchild) ;;;
    retM 0%Z.

(** The kernel reports the three kinds of new children. *)
Definition trace_events : Z := Z.lor PTRACE_O_TRACECLONE (Z.lor PTRACE_O_TRACEFORK PTRACE_O_TRACEVFORK).

Definition internal_fork (i : nat) : M state Z :=
  let* opts := gets (fun s => ptrace_setoptions (procs s)) in
  if (Z.land opts trace_events =? trace_events)%Z then retM 0%Z
  else
    let* ent := entering i in
    if ent then
      clear_flags i TCB_FOLLOWFORK ;;;
      let* ff := gets (fun s => followfork (procs s)) in
      if negb ff then retM 0%Z
      else
        let* e := entry_at i in
        let* f := arg_at i 0 in
        if String.eqb (func_name e) "sys_clone" && has_flag f CLONE_UNTRACED then retM 0%Z
        else fork_tcb i ;;; let* _ := setbpt i in retM 0%Z
    else
      let* t := slot_at i in
      if negb (has_flag (flags (tcb_ t)) TCB_FOLLOWFORK) then retM 0%Z
      else
        let bpt := has_flag (flags (tcb_ t)) TCB_BPTSET in
        if negb (u_error (tcb_ t) =? 0)%Z then
          when bpt (let* _ := clearbpt i in skip) ;;; retM 0%Z
        else handle_new_child i (to_int (u_rval (tcb_ t))) bpt.

(** ** Waits *)

(** The process whose children a wait is for: that of a thread *)
Definition waiter (i : nat) (t : slot) : M state nat :=
  if has_flag (flags (tcb_ t)) TCB_CLONE_THREAD then deref (parent_ix t) else retM i.

(** A process is suspended when it waits for a traced child; not if it has zombies that
    it may reap, or if it names a process that is not a child that is traced. *)
Definition suspend_waiter (i : nat) (t : slot) : M state unit :=
  let target := nth 0 (u_arg (tcb_ t)) 0%Z in
  let* child := (if (0 <? nzombies t)%Z && (target =? -1)%Z then retM None else pid2tcb (to_int target)) in
  if (0 <? nzombies t)%Z && bool_decide (child = None) then skip
  else
    let* w := waiter i t in
    let* go :=
      (if (0 <? target)%Z then
         match child with
         | None => retM false
         | Some c => let* ct := slot_at c in
                     retM (bool_decide (parent_ix ct = Some w) && negb (has_flag (flags (tcb_ ct)) TCB_EXITING))
         end
       else retM true) in
    when go
      (or_flags i TCB_SUSPENDED ;;;
       mod_slot i (fun t => t {{ waitpid := to_int target }}) ;;;
       when (has_flag (flags (tcb_ t)) TCB_CLONE_THREAD)
         (mod_slot w (fun q => q {{ nclone_waiting := Z.succ (nclone_waiting q) }}))).

Definition internal_wait (i : nat) (flagarg : nat) : M state Z :=
  let* t := slot_at i in
  let* w := waiter i t in
  let* wt := slot_at w in
  let got_kids := (nclone_threads wt <? nchildren wt)%Z in
  let nohang := has_flag (nth flagarg (u_arg (tcb_ t)) 0%Z) WNOHANG in
  let ent := negb (has_flag (flags (tcb_ t)) TCB_INSYSCALL) in
  if ent then when (got_kids && negb nohang) (suspend_waiter i t) ;;; retM 0%Z
  else if (u_error (tcb_ t) =? ECHILD)%Z && got_kids then
    if nohang then force_result i 0 0 else retM 0%Z
  else if (u_error (tcb_ t) =? 0)%Z && (0 <? u_rval (tcb_ t))%Z && (0 <? nzombies t)%Z then
    let* c := pid2tcb (to_int (u_rval (tcb_ t))) in
    when (bool_decide (c = None)) (mod_slot i (fun t => t {{ nzombies := Z.pred (nzombies t) }})) ;;;
    retM 0%Z
  else retM 0%Z.

(** ** Exits, and the call that PTU takes over *)

Definition internal_exit (i : nat) : M state Z :=
  let* ent := entering i in
  when ent
    (or_flags i TCB_EXITING ;;;
     let* a := conf personality in
     let* n := known_scno i in
     when (n =? NR_exit_group a)%Z (or_flags i TCB_GROUP_EXITING)) ;;;
  on_tcb i print_exit_prov ;;;
  retM 0%Z.

Definition sys_exit (i : nat) : M state Z :=
  let* ent := entering i in
  if ent then set_tcp_last None ;;; retM 0%Z
  else eprintf "_exit returned!\n" [] ;;; retM (-1)%Z.

(** The request -2 of ptrace is logged, and made to succeed. *)
Definition sys_ptrace (i : nat) : M state Z :=
  let* ent := entering i in
  if ent then retM 0%Z
  else
    let* request := arg_at i 0 in
    when (request =? -2)%Z
      (on_tcb i print_ptrace_prov ;;; let* _ := force_result i 0 0 in skip) ;;;
    retM 0%Z.
End Forks.
