(* ===== verification/ProcTabSpec.v ===== *)
(** * The table of processes is well formed (strace.c, process.c)

    An element is in use exactly when it has a pid, the pids are positive and distinct,
    and [nprocs] counts the elements in use: what [pid2tcb], [alloc_tcb] and the end of the
    loop rely on.  [droptcb] calls itself while elements are half dropped, so the invariant
    has a set of these, [D]. *)
From S2P Require Import Prelude CString Os PerfTimers SysLimits OkapiPath OkapiMirror Trie State Redirect Shm ProcTab ProcTabSafe.
From S2P Require Import Provenance Sysent Forks.

Definition pid_of (t : slot) : Z := pid (tcb_ t).
Definition in_use (t : slot) : bool := has_flag (flags (tcb_ t)) TCB_INUSE.
Definition live_pids (tab : list slot) : list Z := filter (fun p => p <> 0%Z) (pid_of <$> tab).

Record table_ok (D : list nat) (tab : list slot) (n : Z) : Prop := {
  table_used : forall i t, tab !! i = Some t -> i ∉ D -> in_use t = negb (pid_of t =? 0)%Z;
  table_dropped : forall i t, tab !! i = Some t -> i ∈ D -> pid_of t = 0%Z;
  table_count : n = Z.of_nat (length (live_pids tab));
  table_distinct : NoDup (live_pids tab);
  table_positive : Forall (fun p => 0 < p)%Z (live_pids tab);
  table_nonempty : length tab <> 0;
}.

(** The pids of [F] are not in the table. *)
Definition free_of (F : Z -> Prop) (tab : list slot) : Prop := forall p, F p -> p ∉ live_pids tab.

(** ** The list of pids *)

Lemma live_pids_app l1 l2 : live_pids (l1 ++ l2) = live_pids l1 ++ live_pids l2.
Proof. unfold live_pids. by rewrite fmap_app, filter_app. Qed.
Lemma live_pids_one t : live_pids [t] = if (pid_of t =? 0)%Z then [] else [pid_of t].
Proof.
  unfold live_pids. cbn [fmap list_fmap]. rewrite filter_cons. destruct (Z.eqb_spec (pid_of t) 0); case_decide; (done || congruence).
Qed.
Lemma live_pids_alter tab i t f : tab !! i = Some t ->
  exists l1 l2, live_pids tab = l1 ++ live_pids [t] ++ l2 /\ live_pids (alter f i tab) = l1 ++ live_pids [f t] ++ l2.
Proof.
  intros Hi. pose proof (take_drop_middle tab i t Hi) as E. pose proof (lookup_lt_Some _ _ _ Hi) as Hlt.
  assert (El : length (take i tab) = i) by (rewrite length_take; lia).
  set (l1 := take i tab) in *. set (l2 := drop (S i) tab) in *. clearbody l1 l2. subst tab i.
  exists (live_pids l1), (live_pids l2). rewrite alter_app_r_alt, Nat.sub_diag by lia.
  rewrite <- !live_pids_app. done.
Qed.
Lemma live_pids_same tab i f : (forall t, tab !! i = Some t -> pid_of (f t) = pid_of t) ->
  live_pids (alter f i tab) = live_pids tab.
Proof.
  intros Hf. unfold live_pids. f_equal. apply list_eq. intros j. rewrite !list_lookup_fmap, list_lookup_alter.
  case_decide; [subst j|done]. destruct (tab !! i) as [t|]; [|done]. simpl. by rewrite Hf.
Qed.
Lemma elem_of_live tab p : p ∈ live_pids tab <-> p <> 0%Z /\ exists i t, tab !! i = Some t /\ pid_of t = p.
Proof.
  unfold live_pids. rewrite list_elem_of_filter, list_elem_of_fmap. split; intros [Hp H]; (split; [done|]).
  - destruct H as (t & -> & [i Hi]%list_elem_of_lookup). eauto.
  - destruct H as (i & t & Hi & <-). exists t. split; [done|]. by apply list_elem_of_lookup_2 with i.
Qed.
Lemma live_pids_length tab : length (live_pids tab) <= length tab.
Proof. unfold live_pids. etransitivity; [apply length_filter|]. by rewrite length_fmap. Qed.

(** ** The invariant *)

(** What else is kept: the options of ptrace, the exit code and the program's pid *)
Definition settings (ps : strace) : Z * Z * Z := (ptrace_setoptions ps, exit_code ps, strace_child ps).

(** What an operation of the table is in the middle of: the elements that it drops, pids
    that it will add, and how far [nprocs] is behind. *)
Record phase := { dropping : list nat; absent : Z -> Prop; pending : Z }.
Definition steady : phase := {| dropping := []; absent := fun _ => False; pending := 0 |}.

Section Invariant.
Context {Fu : Fuel} (K : contract) (C : config -> options -> Prop) (E : Z * Z * Z -> Prop).

Definition table_inv (ph : phase) (s : state) : Prop :=
  C (cfg s) (opts s) /\ E (settings (procs s))
  /\ table_ok (dropping ph) (tcbtab (procs s)) (nprocs (procs s) + pending ph) /\ free_of (absent ph) (tcbtab (procs s)).
(** [cur] is the tcb of the element [i]. *)
Definition viewed (ph : phase) (i : nat) (s : state) : Prop :=
  table_inv ph s /\ tcp_ix s = i /\
  exists t, tcbtab (procs s) !! i = Some t /\ pid (cur s) = pid_of t /\ flags (cur s) = flags (tcb_ t).

(** A change of an element that keeps its pid and whether it is in use keeps the table. *)
Lemma table_ok_alter D tab n i f :
  (forall t, tab !! i = Some t -> pid_of (f t) = pid_of t /\ in_use (f t) = in_use t) ->
  table_ok D tab n -> table_ok D (alter f i tab) n.
Proof.
  intros Hf [H1 H2 H3 H4 H5 H6].
  assert (Hl : live_pids (alter f i tab) = live_pids tab).
  { apply live_pids_same. intros t Ht. by apply Hf. }
  split; rewrite ?Hl, ?length_alter; try done.
  - intros j t Ht Hj. rewrite list_lookup_alter in Ht. case_decide; [subst j|by apply (H1 j)].
    destruct (tab !! i) as [t'|] eqn:Hi; simplify_eq/=. destruct (Hf _ eq_refl) as [-> ->]. by apply (H1 i).
  - intros j t Ht Hj. rewrite list_lookup_alter in Ht. case_decide; [subst j|by apply (H2 j)].
    destruct (tab !! i) as [t'|] eqn:Hi; simplify_eq/=. destruct (Hf _ eq_refl) as [-> _]. by apply (H2 i).
Qed.
Lemma free_of_alter F tab i f : (forall t, tab !! i = Some t -> pid_of (f t) = pid_of t) ->
  free_of F tab -> free_of F (alter f i tab).
Proof. intros Hf H p Hp. rewrite live_pids_same by done. by apply H. Qed.

Lemma inv_alter ph i f s :
  (forall t, tcbtab (procs s) !! i = Some t -> pid_of (f t) = pid_of t /\ in_use (f t) = in_use t) ->
  table_inv ph s -> table_inv ph (s {{ procs -> tcbtab := alter f i (tcbtab (procs s)) }}).
Proof.
  intros Hf (HC & HE & HT & HF). split_and!; [done|done| |].
  - by apply table_ok_alter.
  - apply free_of_alter; [|done]. intros t Ht. by apply Hf.
Qed.

Lemma wp_ok (I : state -> Prop) {A} (m : M state A) s (Q : A -> state -> Prop) :
  okT K I m -> I s -> (forall a s', I s' -> Q a s') -> wpM K m s Q (fun _ => True).
Proof. intros Hm Hs HQ. eapply wpM_mono; [by apply Hm| |done]. intros a s' [_ Hs']. by apply HQ. Qed.
Lemma wp_slot_at i s (Q : slot -> state -> Prop) :
  (forall t, tcbtab (procs s) !! i = Some t -> Q t s) -> wpM K (slot_at i) s Q (fun _ => True).
Proof. intros H. unfold slot_at. wp1. wp1. wp1; [by apply H|done]. Qed.
Lemma wp_mod_slot i f s (Q : unit -> state -> Prop) :
  (forall t, tcbtab (procs s) !! i = Some t -> Q tt (s {{ procs -> tcbtab := alter f i (tcbtab (procs s)) }})) ->
  wpM K (mod_slot i f) s Q (fun _ => True).
Proof. intros H. unfold mod_slot. wp1. apply wp_slot_at. intros t Ht. wp1. by apply (H t). Qed.

Lemma ok_shape ph i f : (forall t, pid_of (f t) = pid_of t) -> (forall t, in_use (f t) = in_use t) ->
  okT K (table_inv ph) (mod_slot i f).
Proof. intros H1 H2 s Hs. apply wp_mod_slot. intros t Ht. split; [done|]. by apply inv_alter. Qed.
Lemma table_benign ph i f : benign f -> okT K (table_inv ph) (mod_slot i f).
Proof. intros Hf. apply ok_shape; intros t; by destruct (Hf t) as (? & ? & ? & _). Qed.
Lemma table_keep ph f : keeps_table f -> okT K (table_inv ph) (modM f).
Proof.
  intros Hf s (HC & HE & HT & HF). apply wpM_mod. split; [done|]. unfold table_inv, free_of, settings.
  destruct (Hf s) as (-> & -> & -> & -> & -> & -> & ->). by split_and!.
Qed.
Lemma table_view ph i f : keeps_view f -> okT K (viewed ph i) (modM f).
Proof.
  intros Hf s Hs. apply wpM_mod. split; [done|]. unfold viewed, table_inv.
  by destruct (Hf s) as (-> & -> & -> & -> & -> & ->).
Qed.

Lemma table_load ph i s : table_inv ph s -> wpM K (load_tcb i) s (fun _ s' => viewed ph i s') (fun _ => True).
Proof.
  intros Hs. unfold load_tcb. wp1. apply wp_slot_at. intros t Ht. wp1. destruct (parent_ix t) as [p|].
  - wp1. apply wp_slot_at. intros q Hq. wp1. wp1. split; [done|]. split; [done|]. by exists t.
  - wp1. wp1. split; [done|]. split; [done|]. by exists t.
Qed.
Lemma table_store ph i s : viewed ph i s -> wpM K (store_tcb i) s (fun _ s' => table_inv ph s') (fun _ => True).
Proof.
  intros (Hs & Hi & t & Ht & Hp & Hf). unfold store_tcb. wp1. wp1. apply wp_mod_slot. intros t' Ht'.
  apply inv_alter; [|done]. intros t1 Ht1. assert (t1 = t) as -> by congruence.
  split; [exact Hp|]. exact (f_equal (fun f => has_flag f TCB_INUSE) Hf).
Qed.
Lemma table_on_tcb ph {A} i (m : M state A) : okT K (viewed ph i) m -> okT K (table_inv ph) (on_tcb i m).
Proof.
  intros Hm s Hs. unfold on_tcb. wp1. eapply wpM_mono; [by apply (table_load ph)| |done]. intros [] s1 H1. simpl.
  wp1. eapply wpM_mono; [by apply Hm| |done]. intros a s2 [_ H2]. simpl.
  wp1. eapply wpM_mono; [by apply (table_store ph)| |done]. intros [] s3 H3. by wp1.
Qed.

(** ** Giving back an element *)

#[local] Hint Extern 1 (ok _ _ (modM _) _) => apply table_view; intros ?; by repeat split : okdb.
#[local] Hint Extern 1 (ok _ _ (mod_slot _ _) _) => apply table_benign; intros ?; by repeat split : okdb.
#[local] Hint Resolve ok_slot_at : okdb.
#[local] Hint Resolve table_gets table_conf | 1 : okdb.
Lemma viewed_gets ph i {A} (f : state -> A) : okT K (viewed ph i) (gets f).
Proof. by intros s Hs. Qed.
Lemma viewed_tcp ph i {A} (f : tcb -> A) : okT K (viewed ph i) (tcp f).
Proof. by intros s Hs. Qed.
Lemma viewed_conf ph i {A} (f : config -> A) : okT K (viewed ph i) (conf f).
Proof. by intros s Hs. Qed.
#[local] Hint Resolve viewed_gets viewed_tcp viewed_conf | 1 : okdb.

Context (Kany : forall c, fs_write_target c = None -> may K c).
#[local] Hint Extern 0 (may K _) => apply Kany; reflexivity : okdb.
Ltac view_step :=
  lazymatch goal with
  | |- ok _ _ (modM _) _ => apply table_view; intros ?; by repeat split
  | |- ok _ _ (bindM (modM _) _) _ =>
    eapply (ok_bind _ _ _ _ (fun _ => True)); [apply table_view; intros ?; by repeat split|intros ? _]
  | _ => ok_step
  end.
Ltac view := repeat (view_step; to_prop; try done); auto with okdb.

Lemma view_free ph i : okT K (viewed ph i) free_tcb_cde_fields.
Proof. unfold free_tcb_cde_fields, max_open_files. view. Qed.

(** The element is emptied, then its flags are cleared. *)
Lemma table_ok_empty D tab n i t f : (forall t, pid_of (f t) = 0%Z) ->
  i ∉ D -> tab !! i = Some t -> pid_of t <> 0%Z -> table_ok D tab n -> table_ok (i :: D) (alter f i tab) (Z.pred n).
Proof.
  intros Hf HD Hi Hp [H1 H2 H3 H4 H5 H6].
  destruct (live_pids_alter tab i t f Hi) as (l1 & l2 & E1 & E2).
  rewrite live_pids_one in E1, E2. rewrite Hf in E2. destruct (Z.eqb_spec (pid_of t) 0); [done|]. simpl in E1, E2.
  rewrite E1 in H3, H4, H5. split; rewrite ?E2, ?length_alter; try done.
  - intros j t' Hj [Hne HjD]%not_elem_of_cons. rewrite list_lookup_alter_ne in Hj by done. by apply (H1 j).
  - intros j t' Hj HjD. rewrite list_lookup_alter in Hj. case_decide; [subst j|].
    + rewrite Hi in Hj. simplify_eq/=. by rewrite Hf.
    + apply elem_of_cons in HjD as [->|HjD]; [done|]. by apply (H2 j).
  - rewrite H3, !length_app. cbn [length]. lia.
  - apply NoDup_app in H4 as (N1 & N2 & N3). apply NoDup_cons in N3 as [_ N3].
    apply NoDup_app. split_and!; [done| |done]. intros x Hx Hx'. apply (N2 x Hx). by right.
  - apply Forall_app in H5 as [F1 F2]. apply Forall_app. split; [done|]. by inversion F2.
Qed.
Lemma table_ok_clear D tab n i f : (forall t, pid_of (f t) = pid_of t) -> (forall t, in_use (f t) = false) ->
  table_ok (i :: D) tab n -> table_ok D (alter f i tab) n.
Proof.
  intros Hf Hu [H1 H2 H3 H4 H5 H6].
  assert (Hl : live_pids (alter f i tab) = live_pids tab) by (by apply live_pids_same).
  split; rewrite ?Hl, ?length_alter; try done.
  - intros j t Hj HjD. rewrite list_lookup_alter in Hj. case_decide as Hji; [subst j|].
    + destruct (tab !! i) as [t'|] eqn:Hi; [|done]. injection Hj as <-.
      rewrite Hu, Hf, (H2 i t'); [done|done|left].
    + apply (H1 j); [done|]. by apply not_elem_of_cons.
  - intros j t Hj HjD. rewrite list_lookup_alter in Hj. case_decide as Hji; [subst j|].
    + destruct (tab !! i) as [t'|] eqn:Hi; [|done]. injection Hj as <-. rewrite Hf. apply (H2 i t'); [done|left].
    + apply (H2 j); [done|]. by right.
Qed.

Lemma table_ok_eq D tab n m : table_ok D tab n -> n = m -> table_ok D tab m.
Proof. by intros ? <-. Qed.
Lemma free_of_less F tab i t f : (forall t, pid_of (f t) = 0%Z) -> tab !! i = Some t -> free_of F tab -> free_of F (alter f i tab).
Proof.
  intros Hf Hi H p Hp Hin. apply (H p Hp). destruct (live_pids_alter tab i t f Hi) as (l1 & l2 & E1 & E2).
  rewrite E2, live_pids_one, Hf in Hin. simpl in Hin. rewrite E1. rewrite !elem_of_app in *. tauto.
Qed.

Lemma table_droptcb_rec depth ph i : okT K (table_inv ph) (droptcb_rec depth i).
Proof.
  revert ph i; induction depth as [|depth IH]; intros ph i; simpl; [by apply ok_stop|].
  intros s Hs. wp1. apply wp_slot_at. intros t Ht. destruct (Z.eqb_spec (pid (tcb_ t)) 0); [by wp1|].
  destruct (0 <? nclone_threads t)%Z; [exact (table_benign ph i _ (benign_lor TCB_EXITING ltac:(done)) s Hs)|].
  destruct Hs as (HC & HE & HT & HF).
  assert (HiD : i ∉ dropping ph) by (intros HiD; by apply (table_dropped _ _ _ HT i t Ht) in HiD).
  unfold set_nprocs. wp1. wp1. wp1. apply wp_mod_slot. intros t' Ht'. wp1.
  apply (wp_ok (table_inv (ph {{ dropping := i :: dropping ph }}))).
  { oks; auto with okdb. by apply ok_shape. }
  { split_and!; [exact HC|exact HE| |by apply (free_of_less _ _ i t)].
    eapply table_ok_eq; [apply (table_ok_empty _ _ (nprocs (procs s) + pending ph) i t); done|].
    change (Z.pred (nprocs (procs s) + pending ph) = Z.pred (nprocs (procs s)) + pending ph)%Z. lia. }
  intros [] s1 (HC1 & HE1 & HT1 & HF1). wp1. apply wp_mod_slot. intros t1 Ht1.
  apply table_on_tcb; [apply view_free|]. split_and!; [exact HC1|exact HE1| |].
  - by apply table_ok_clear.
  - by apply free_of_alter.
Qed.
Lemma table_droptcb ph i : okT K (table_inv ph) (droptcb i).
Proof. unfold droptcb, tcbtabsize. pose proof table_droptcb_rec. oks. Qed.

(** ** A new element *)

Lemma live_pids_repeat n : live_pids (repeat slot0 n) = [].
Proof. induction n as [|n IH]; [done|]. exact IH. Qed.
Lemma table_ok_expand D tab n k : table_ok D tab n -> table_ok D (tab ++ repeat slot0 k) n.
Proof.
  intros [H1 H2 H3 H4 H5 H6]. split; rewrite ?live_pids_app, ?live_pids_repeat, ?app_nil_r, ?length_app; try (done || lia).
  - intros i t Hi Hd. apply lookup_app_Some in Hi as [Hi|[_ Hi]]; [by apply (H1 i)|].
    apply list_elem_of_lookup_2, list_elem_of_In, repeat_spec in Hi as ->. done.
  - intros i t Hi Hd. apply lookup_app_Some in Hi as [Hi|[_ Hi]]; [by apply (H2 i)|].
    apply list_elem_of_lookup_2, list_elem_of_In, repeat_spec in Hi as ->. done.
Qed.
Lemma table_expand ph : okT K (table_inv ph) expand_tcbtab.
Proof.
  intros s (HC & HE & HT & HF). unfold expand_tcbtab. wp1. split; [done|]. split_and!; [exact HC|exact HE| |].
  - by apply table_ok_expand.
  - intros q Hq. change (q ∉ live_pids (tcbtab (procs s) ++ repeat slot0 (length (tcbtab (procs s))))).
    rewrite live_pids_app, live_pids_repeat, app_nil_r. by apply HF.
Qed.
(** The table is full when it has as many live elements as elements. *)
Lemma unused_exists tab n : table_ok [] tab n -> (n < Z.of_nat (length tab))%Z ->
  exists i t, list_find (fun t => Is_true (unused t)) tab = Some (i, t).
Proof.
  intros HT Hn. destruct (list_find _ tab) as [[i t]|] eqn:E1; [by exists i, t|exfalso].
  apply list_find_None in E1. rewrite (table_count _ _ _ HT) in Hn.
  enough (length (live_pids tab) = length tab) by lia.
  assert (Hl : forall l, (forall t, t ∈ l -> pid_of t <> 0%Z) -> length (live_pids l) = length l).
  { induction l as [|t l IH]; intros Hl; [done|]. change (t :: l) with ([t] ++ l).
    rewrite live_pids_app, live_pids_one. destruct (Z.eqb_spec (pid_of t) 0) as [E2|_].
    - destruct (Hl t); [left|done].
    - simpl. f_equal. apply IH. intros t' Ht'. apply Hl. by right. }
  apply Hl. intros t [i Hi]%list_elem_of_lookup Hp.
  rewrite Forall_forall in E1. apply (E1 t); [by apply list_elem_of_lookup_2 with i|].
  unfold unused. fold (in_use t). rewrite (table_used _ _ _ HT i t Hi), Hp; [done|]. apply not_elem_of_nil.
Qed.
Lemma table_ok_fill tab n i t f p : (0 < p)%Z -> p ∉ live_pids tab -> (forall t, pid_of (f t) = p) -> (forall t, in_use (f t) = true) ->
  tab !! i = Some t -> pid_of t = 0%Z -> table_ok [] tab n -> table_ok [] (alter f i tab) (Z.succ n).
Proof.
  intros Hp Hfresh Hf Hu Hi Ht [H1 H2 H3 H4 H5 H6].
  destruct (live_pids_alter tab i t f Hi) as (l1 & l2 & E1 & E2).
  rewrite live_pids_one in E1, E2. rewrite Hf in E2. rewrite Ht in E1. destruct (Z.eqb_spec p 0); [lia|]. simpl in E1, E2.
  rewrite E1 in H3, H4, H5, Hfresh. split; rewrite ?E2, ?length_alter; try done.
  - intros j t' Hj HjD. rewrite list_lookup_alter in Hj. case_decide; [subst j|by apply (H1 j)].
    rewrite Hi in Hj. simplify_eq/=. rewrite Hu, Hf. by destruct (Z.eqb_spec p 0).
  - intros j t' _ Hd. by apply elem_of_nil in Hd.
  - rewrite H3, !length_app. cbn [length]. lia.
  - by apply (NoDup_Permutation_proper _ _ (Permutation_middle l1 l2 p)), NoDup_cons.
  - apply Forall_app in H5 as [F1 F2]. apply Forall_app. split; [done|]. by constructor.
Qed.

Lemma view_shmget ph i n : okT K (viewed ph i) (shmget_loop n).
Proof. induction n; simpl; view. Qed.
#[local] Hint Resolve view_shmget : okdb.
Lemma view_max_open ph i : okT K (viewed ph i) max_open_files.
Proof. unfold max_open_files. view. Qed.
#[local] Hint Resolve view_max_open : okdb.
Lemma view_eprintf ph i fmt args : okT K (viewed ph i) (eprintf fmt args).
Proof. unfold eprintf. view. Qed.
#[local] Hint Resolve view_eprintf : okdb.
Lemma view_alloc_fields ph i : okT K (viewed ph i) alloc_tcb_cde_fields.
Proof. unfold alloc_tcb_cde_fields. view. Qed.

(** The pid is new: there is an element for it. *)
Lemma table_alloc p s (Q : nat -> state -> Prop) : (0 < p)%Z -> table_inv (steady {{ absent := eq p }}) s ->
  (forall i s', table_inv steady s' -> Q i s') -> wpM K (alloc_tcb p) s Q (fun _ => True).
Proof.
  intros Hp Hs HQ. unfold alloc_tcb. wp1. wp1. wp1. unfold tcbtabsize. wp1. wp1.
  set (full := (_ =? _)%Z).
  assert (Hexp : wpM K (when full expand_tcbtab) s (fun _ s' => table_inv (steady {{ absent := eq p }}) s'
            /\ (nprocs (procs s') < Z.of_nat (length (tcbtab (procs s'))))%Z) (fun _ => True)).
  { destruct Hs as (HC & HE & HT & HF). simpl in HT. rewrite Z.add_0_r in HT.
    pose proof (table_count _ _ _ HT) as Hc. pose proof (live_pids_length (tcbtab (procs s))) as Hle.
    subst full. wp1.
    - assert (Hs : table_inv (steady {{ absent := eq p }}) s).
      { split_and!; [exact HC|exact HE| |exact HF]. simpl. by rewrite Z.add_0_r. }
      pose proof (table_expand _ s Hs) as [_ Hs1]. unfold expand_tcbtab. wp1. split; [exact Hs1|].
      change (nprocs (procs s) < Z.of_nat (length (tcbtab (procs s) ++ repeat slot0 (length (tcbtab (procs s))))))%Z.
      rewrite length_app, repeat_length. pose proof (table_nonempty _ _ _ HT). lia.
    - split; [|lia]. split_and!; [exact HC|exact HE| |exact HF]. simpl. by rewrite Z.add_0_r. }
  eapply wpM_mono; [exact Hexp| |done]. clear Hexp. intros [] s1 [(HC & HE & HT & HF) Hlt].
  simpl in HT. rewrite Z.add_0_r in HT. wp1. wp1.
  destruct (unused_exists _ _ HT Hlt) as (i & t & Hfind). rewrite Hfind.
  apply list_find_Some in Hfind as (Hi & Hun & _).
  assert (Ht0 : pid_of t = 0%Z).
  { pose proof (table_used _ _ _ HT i t Hi (not_elem_of_nil i)) as Hu. unfold unused in Hun. fold (in_use t) in Hun.
    rewrite Hu in Hun. by destruct (Z.eqb_spec (pid_of t) 0). }
  wp1. apply wp_mod_slot. intros t' Ht'. wp1.
  apply (wp_ok (table_inv (steady {{ pending := 1%Z }}))).
  - apply table_on_tcb, view_alloc_fields.
  - split_and!; [exact HC|exact HE| |by intros q []].
    apply (table_ok_eq _ _ (Z.succ (nprocs (procs s1)))); [|done].
    apply (table_ok_fill _ _ i t _ p); try done. by apply HF.
  - intros [] s2 (HC2 & HE2 & HT2 & HF2). unfold set_nprocs. wp1. wp1. wp1. apply HQ.
    split_and!; [exact HC2|exact HE2| |exact HF2]. eapply table_ok_eq; [exact HT2|]. simpl. unfold constant. lia.
Qed.

(** ** Looking up, and the children *)

Lemma pid_is_live D tab n i t p : table_ok D tab n -> D = [] -> (0 < p)%Z -> tab !! i = Some t ->
  Is_true (pid_is p t) <-> pid_of t = p.
Proof.
  intros HT -> Hp Hi. unfold pid_is. fold (in_use t) (pid_of t).
  rewrite (table_used _ _ _ HT i t Hi (not_elem_of_nil i)).
  destruct (Z.eqb_spec (pid_of t) p), (Z.eqb_spec (pid_of t) 0); simpl; split; intros; (done || lia).
Qed.
(** Two elements have different pids. *)
Lemma pids_distinct tab i j t t' : NoDup (live_pids tab) -> j < i -> tab !! i = Some t -> tab !! j = Some t' ->
  pid_of t <> 0%Z -> pid_of t' <> pid_of t.
Proof.
  intros Hd Hlt Hi Hj Hp He. rewrite <- (take_drop_middle tab i t Hi) in Hd.
  change (t :: ?l) with ([t] ++ l) in Hd. rewrite !live_pids_app in Hd. apply NoDup_app in Hd as (_ & Hd & _).
  apply (Hd (pid_of t)).
  - apply elem_of_live. split; [done|]. exists j, t'. split; [by rewrite lookup_take_lt|done].
  - rewrite live_pids_one. destruct (Z.eqb_spec (pid_of t) 0); [done|]. left.
Qed.

(** [pid2tcb] finds the element that has the pid. *)
Lemma table_lookup tab n i p : table_ok [] tab n -> (0 < p)%Z ->
  fst <$> list_find (fun t => Is_true (pid_is p t)) tab = Some i <-> (exists t, tab !! i = Some t /\ pid_of t = p).
Proof.
  intros HT Hp. split.
  - intros ([i' t] & Hf & ->)%fmap_Some. apply list_find_Some in Hf as (Hi & Hpid & _).
    exists t. split; [done|]. by apply (pid_is_live _ _ _ _ _ _ HT eq_refl Hp Hi).
  - intros (t & Hi & Hpid). assert (list_find (fun t => Is_true (pid_is p t)) tab = Some (i, t)) as ->; [|done].
    apply list_find_Some. split_and!; [done|by apply (pid_is_live _ _ _ _ _ _ HT eq_refl Hp Hi)|].
    intros j t' Hj Hlt Hpid'. apply (pid_is_live _ _ _ _ _ _ HT eq_refl Hp Hj) in Hpid'.
    apply (pids_distinct tab i j t t'); try done; [by apply (table_distinct _ _ _ HT)|lia|congruence].
Qed.
Lemma wp_pid2tcb p s (Q : option nat -> state -> Prop) : (0 < p)%Z -> table_inv steady s ->
  (forall i t, list_find (fun t => Is_true (pid_is p t)) (tcbtab (procs s)) = Some (i, t) -> Q (Some i) s) ->
  (list_find (fun t => Is_true (pid_is p t)) (tcbtab (procs s)) = None ->
   table_inv (steady {{ absent := eq p }}) s -> Q None s) ->
  wpM K (pid2tcb p) s Q (fun _ => True).
Proof.
  intros Hp Hs H1 H2. unfold pid2tcb. destruct (Z.leb_spec p 0); [lia|]. wp1. wp1. wp1.
  destruct (list_find _ _) as [[i t]|] eqn:Hf; [by apply (H1 i t)|]. apply H2; [done|].
  destruct Hs as (HC & HE & HT & HF). split_and!; [exact HC|exact HE|exact HT|].
  intros q <- [Hne (i & t & Hi & Hpid)]%elem_of_live. simpl in HT.
  pose proof (proj2 (table_lookup _ _ i p HT Hp) (ex_intro _ t (conj Hi Hpid))) as Hl.
  by rewrite Hf in Hl.
Qed.

Ltac table := repeat (ok_step; to_prop; try done); auto with okdb.
#[local] Hint Resolve table_expand table_keep : okdb.
#[local] Hint Extern 0 (plain_flags _) => split; reflexivity : okdb.
Lemma table_or ph i v : plain_flags v -> okT K (table_inv ph) (or_flags i v).
Proof. intros Hv. by apply table_benign, benign_lor. Qed.
Lemma table_clear ph i v : plain_flags v -> okT K (table_inv ph) (clear_flags i v).
Proof. intros Hv. by apply table_benign, benign_ldiff. Qed.
#[local] Hint Resolve table_or table_clear ok_flags_at ok_flag_at ok_pid_at : okdb.
Lemma table_eprintf ph fmt args : okT K (table_inv ph) (eprintf fmt args).
Proof. unfold eprintf. table. Qed.
#[local] Hint Resolve table_eprintf : okdb.
Lemma table_fork_tcb ph i : okT K (table_inv ph) (fork_tcb i).
Proof. unfold fork_tcb, tcbtabsize. table. Qed.

(** A child gets an element of its own. *)
Lemma table_child_tcb i p : (0 < p)%Z -> okT K (table_inv steady) (child_tcb i p).
Proof.
  intros Hp s Hs. unfold child_tcb. wp1. apply wp_pid2tcb; [done|done| |].
  - intros c t _. to_ok (table_inv steady). table.
  - intros _ Hs'. wp1. apply (wp_ok (table_inv (steady {{ absent := eq p }}))); [apply table_fork_tcb|done|].
    intros _ s1 H1. by apply table_alloc.
Qed.
#[local] Hint Resolve table_child_tcb table_on_tcb : okdb.

Lemma view_log_line ph i l : okT K (viewed ph i) (log_line l).
Proof. unfold log_line, fprintf_log, time_int, prv. view. Qed.
#[local] Hint Resolve view_log_line : okdb.
Lemma view_repo ph i p : okT K (viewed ph i) (get_repo_path_id p).
Proof. unfold get_repo_path_id, opt. view. Qed.
#[local] Hint Resolve view_repo : okdb.
Lemma view_dir_fields ph i : okT K (viewed ph i) CDE_init_tcb_dir_fields.
Proof. unfold CDE_init_tcb_dir_fields. view. Qed.
Lemma view_spawn ph i : okT K (viewed ph i) print_spawn_prov.
Proof. unfold print_spawn_prov, in_prov_mode, prv. view. Qed.
#[local] Hint Resolve view_dir_fields view_spawn : okdb.

Lemma table_set_parent ph i p : okT K (table_inv ph) (set_parent i p).
Proof. by apply ok_shape. Qed.
Lemma table_add_children ph i d : okT K (table_inv ph) (add_children i d).
Proof. unfold add_children. table. Qed.
Lemma table_clearbpt ph i : okT K (table_inv ph) (clearbpt i).
Proof. unfold clearbpt. table. Qed.
Lemma table_restart ph op i sig : okT K (table_inv ph) (ptrace_restart op i sig).
Proof. unfold ptrace_restart. table. Qed.
Lemma table_entry_at ph i : okT K (table_inv ph) (entry_at i).
Proof. unfold entry_at. table. Qed.
#[local] Hint Resolve table_set_parent table_add_children table_clearbpt table_restart table_entry_at : okdb.
Lemma or_thread_flag t : in_use (t {{ tcb_ -> flags := Z.lor (flags (tcb_ t)) TCB_CLONE_THREAD }}) = in_use t.
Proof. apply has_flag_lor. reflexivity. Qed.
Lemma table_or_thread ph i : okT K (table_inv ph) (or_flags i TCB_CLONE_THREAD).
Proof. apply ok_shape; [done|apply or_thread_flag]. Qed.
#[local] Hint Resolve table_or_thread : okdb.
Lemma table_place ph i c : okT K (table_inv ph) (place_clone i c).
Proof. unfold place_clone. table. Qed.
#[local] Hint Resolve table_place : okdb.
Lemma table_new_child i p b : (0 < p)%Z -> okT K (table_inv steady) (handle_new_child i p b).
Proof. intros Hp. unfold handle_new_child. table. Qed.
End Invariant.

(** ** [droptcb] ends *)

(** The calls go up the parents, and each empties an element: there are not more of them
    than live elements. *)
Section Ends.
Context {Fu : Fuel}.
Definition any_system : contract := {| may _ := True; rep _ _ := True |}.
Let K := any_system.
Definition not_out_of_fuel (e : stop) : Prop := forall x, e <> OutOfFuel x.
Definition live_at_most (n : nat) (s : state) : Prop := length (live_pids (tcbtab (procs s))) <= n.

Lemma ends_slot_at i s (Q : slot -> state -> Prop) :
  (forall t, tcbtab (procs s) !! i = Some t -> Q t s) -> wpM K (slot_at i) s Q not_out_of_fuel.
Proof. intros H. unfold slot_at. wp1. wp1. wp1; [by apply H|by intros x]. Qed.
Lemma ends_mod_slot i f s (Q : unit -> state -> Prop) :
  (forall t, tcbtab (procs s) !! i = Some t -> Q tt (s {{ procs -> tcbtab := alter f i (tcbtab (procs s)) }})) ->
  wpM K (mod_slot i f) s Q not_out_of_fuel.
Proof. intros H. unfold mod_slot. wp1. apply ends_slot_at. intros t Ht. wp1. by apply (H t). Qed.
Lemma ends_same n i f s : (forall t, pid_of (f t) = pid_of t) -> live_at_most n s ->
  wpM K (mod_slot i f) s (fun _ => live_at_most n) not_out_of_fuel.
Proof.
  intros Hf Hs. apply ends_mod_slot. intros t Ht. unfold live_at_most in *.
  change (length (live_pids (alter f i (tcbtab (procs s)))) <= n). by rewrite live_pids_same.
Qed.
Lemma ends_bind {A B} (R : state -> Prop) (m : M state A) (f : A -> M state B) s Q :
  wpM K m s (fun _ => R) not_out_of_fuel -> (forall a s', R s' -> wpM K (f a) s' Q not_out_of_fuel) ->
  wpM K (bindM m f) s Q not_out_of_fuel.
Proof. intros Hm Hf. wp1. eapply wpM_mono; [exact Hm|exact Hf|done]. Qed.

(** The copy of the element's tcb while a function works on it *)
Definition copy_of (tab : list slot) (p : Z) (s : state) : Prop := tcbtab (procs s) = tab /\ pid (cur s) = p.
Lemma ends_free_fields tab p s : copy_of tab p s -> wpM K free_tcb_cde_fields s (fun _ => copy_of tab p) not_out_of_fuel.
Proof.
  intros Hs. unfold free_tcb_cde_fields, max_open_files, tcp. repeat (wp1; try (done || by intros x)).
Qed.
Lemma ends_load i s (Q : unit -> state -> Prop) : 
  (forall t s', tcbtab (procs s) !! i = Some t -> copy_of (tcbtab (procs s)) (pid_of t) s' -> Q tt s') ->
  wpM K (load_tcb i) s Q not_out_of_fuel.
Proof.
  intros HQ. unfold load_tcb. wp1. apply ends_slot_at. intros t Ht. wp1. destruct (parent_ix t) as [p|].
  - wp1. apply ends_slot_at. intros q Hq. wp1. wp1. by apply (HQ t).
  - wp1. wp1. by apply (HQ t).
Qed.
Lemma ends_free n i s : live_at_most n s -> wpM K (on_tcb i free_tcb_cde_fields) s (fun _ => live_at_most n) not_out_of_fuel.
Proof.
  intros Hs. unfold on_tcb. wp1. apply ends_load. intros t s1 Ht H1. wp1.
  eapply wpM_mono; [by apply ends_free_fields| |done]. intros u s2 [E1 E2]. unfold store_tcb. wp1. wp1. wp1.
  apply ends_mod_slot. intros t' Ht'. wp1. unfold live_at_most in *.
  change (length (live_pids (alter (fun t => t {{ tcb_ := cur s2 }}) i (tcbtab (procs s2)))) <= n).
  rewrite live_pids_same; [by rewrite E1|]. intros t1 Ht1. rewrite E1 in Ht1. assert (t1 = t) as -> by congruence. exact E2.
Qed.

Lemma live_at_most_self s : live_at_most (length (live_pids (tcbtab (procs s)))) s.
Proof. unfold live_at_most. lia. Qed.
Lemma live_at_most_le n m s : n <= m -> live_at_most n s -> live_at_most m s.
Proof. unfold live_at_most. lia. Qed.
Lemma ends_rec depth i s : length (live_pids (tcbtab (procs s))) < depth ->
  wpM K (droptcb_rec depth i) s (fun _ => live_at_most (length (live_pids (tcbtab (procs s))))) not_out_of_fuel.
Proof.
  revert i s; induction depth as [|depth IH]; intros i s Hd; [lia|]. simpl. pose proof (live_at_most_self s) as Hs.
  wp1. apply ends_slot_at. intros t Ht. destruct (Z.eqb_spec (pid (tcb_ t)) 0) as [_|Hp]; [by wp1|].
  destruct (0 <? nclone_threads t)%Z; [by apply ends_same|].
  set (n := length (live_pids (tcbtab (procs s)))) in *.
  assert (Hless : forall f, (forall t, pid_of (f t) = 0%Z) -> length (live_pids (alter f i (tcbtab (procs s)))) <= pred n /\ 0 < n).
  { intros f Hf. destruct (live_pids_alter _ i t f Ht) as (l1 & l2 & E1 & E2). subst n. rewrite E1, E2, !live_pids_one, Hf.
    unfold pid_of. destruct (Z.eqb_spec (pid (tcb_ t)) 0); [done|]. rewrite !length_app. simpl. lia. }
  unfold set_nprocs. wp1. wp1. wp1. apply ends_mod_slot. intros t' Ht'.
  destruct (Hless (fun t => t {{ tcb_ -> pid := 0%Z }}) ltac:(done)) as [Hl Hn].
  apply (ends_bind (live_at_most (pred n))).
  - destruct (parent_ix t) as [p|]; [|by wp1].
    apply (ends_bind (live_at_most (pred n))); [by apply ends_same|intros u1 s1 H1].
    apply (ends_bind (live_at_most (pred n))); [apply wpM_when; [intros _; by apply ends_same|done]|intros u2 s2 H2].
    apply (ends_bind (live_at_most (pred n))); [by apply ends_same|intros u3 s3 H3].
    wp1. apply ends_slot_at. intros q Hq.
    apply (ends_bind (live_at_most (pred n))); [|intros u4 s4 H4; by apply ends_same].
    apply wpM_when; [intros _|done]. eapply wpM_mono; [apply IH| |done].
    + unfold live_at_most in H3. lia.
    + intros u4 s4. by apply live_at_most_le.
  - intros u s1 H1. apply (ends_bind (live_at_most (pred n))); [by apply ends_same|]. intros u2 s2 H2.
    apply ends_free. apply (live_at_most_le (pred n)); [lia|done].
Qed.

(** C16.  Giving back the element of a process ends: the calls that [droptcb] makes to
    itself, for the leader of a thread, are not more than the live processes. It holds for
    any table, with parents that form cycles too, and whatever the system answers. *)
Theorem droptcb_ends {W} (h : forall c, W -> reply c * W) (i : nat) (s : state) (w : W) (x : string) :
  (run h (droptcb i s) w).1.2 <> inr (OutOfFuel x).
Proof.
  intros E. assert (Hwp : wpM K (droptcb i) s (fun _ _ => True) not_out_of_fuel).
  { unfold droptcb, tcbtabsize. wp1. wp1. eapply wpM_mono; [apply ends_rec|done|done].
    pose proof (live_pids_length (tcbtab (procs s))). lia. }
  destruct (wp_run K h _ _ _ w ltac:(done) Hwp) as [_ Hout]. unfold outcome in Hout. rewrite E in Hout. by apply (Hout x).
Qed.
End Ends.
