(* ===== verification/ForksSpec.v ===== *)
(** * What a new process gets (process.c: handle_new_child; cde.c: CDE_init_tcb_dir_fields)

    A child starts in the directory, the repository and with the directives of the process
    that made it; what it gets as its program depends on the element that it is given. *)
From S2P Require Import Prelude CString Os PerfTimers SysLimits Trie State Redirect Shm ProcTab ProcTabSafe.
From S2P Require Import Provenance Sysent Forks ProcTabSpec.

(** What a child may inherit *)
Definition heritage (t : tcb) := (pid t, current_dir t, current_repo_ind t, p_ignores t, perceived_program_fullpath t).

Section Kin.
Context {Fu : Fuel}.
Let K := any_system.
(** What some elements hold *)
Context (Phi : list (nat * (Z * option cstring * Z * option PI * option cstring))).
Definition holding (s : state) : Prop :=
  forall i x, (i, x) ∈ Phi -> exists t, tcbtab (procs s) !! i = Some t /\ heritage (tcb_ t) = x.
(** ... while a function works on the element [i] *)
Definition working (i : nat) (s : state) : Prop :=
  holding s /\ forall x, (i, x) ∈ Phi -> heritage (cur s) = x.

#[local] Hint Extern 0 (may K _) => exact Logic.I : okdb.
Lemma holding_alter i f s : (forall t, heritage (tcb_ (f t)) = heritage (tcb_ t)) -> holding s ->
  holding (s {{ procs -> tcbtab := alter f i (tcbtab (procs s)) }}).
Proof.
  intros Hf Hs j x Hx. destruct (Hs j x Hx) as (t & Ht & Hh).
  change (exists t, alter f i (tcbtab (procs s)) !! j = Some t /\ heritage (tcb_ t) = x).
  rewrite list_lookup_alter. case_decide; [subst j|by exists t]. rewrite Ht. exists (f t). by rewrite Hf.
Qed.
Lemma kin_mod_slot i f : (forall t, heritage (tcb_ (f t)) = heritage (tcb_ t)) -> okT K holding (mod_slot i f).
Proof. intros Hf s Hs. apply wp_mod_slot. intros t Ht. split; [done|]. by apply holding_alter. Qed.
Lemma kin_mod f : (forall s, tcbtab (procs (f s)) = tcbtab (procs s)) -> okT K holding (modM f).
Proof. intros Hf s Hs. apply wpM_mod. split; [done|]. intros i x Hx. rewrite Hf. by apply Hs. Qed.
Lemma kin_expand : okT K holding expand_tcbtab.
Proof.
  intros s Hs. apply wpM_mod. split; [done|]. intros i x Hx. destruct (Hs i x Hx) as (t & Ht & Hh).
  exists t. split; [|done]. change ((tcbtab (procs s) ++ repeat slot0 (length (tcbtab (procs s)))) !! i = Some t).
  by apply lookup_app_l_Some.
Qed.
Lemma work_mod i f : (forall s, tcbtab (procs (f s)) = tcbtab (procs s)) -> (forall s, heritage (cur (f s)) = heritage (cur s)) ->
  okT K (working i) (modM f).
Proof.
  intros Hf Hc s [Hs Hi]. apply wpM_mod. split; [done|]. split; [|intros x Hx; rewrite Hc; by apply Hi].
  intros j x Hx. rewrite Hf. by apply Hs.
Qed.
Lemma kin_load i s : holding s -> wpM K (load_tcb i) s (fun _ => working i) (fun _ => True).
Proof.
  intros Hs. unfold load_tcb. wp1. apply wp_slot_at. intros t Ht.
  assert (Hw : forall x, (i, x) ∈ Phi -> heritage (tcb_ t) = x).
  { intros x Hx. destruct (Hs i x Hx) as (t' & Ht' & <-). congruence. }
  wp1. destruct (parent_ix t) as [p|].
  - wp1. apply wp_slot_at. intros q Hq. wp1. wp1. by split.
  - wp1. wp1. by split.
Qed.
Lemma kin_store i s : working i s -> wpM K (store_tcb i) s (fun _ => holding) (fun _ => True).
Proof.
  intros [Hs Hi]. unfold store_tcb. wp1. wp1. apply wp_mod_slot. intros t Ht j x Hx.
  destruct (Hs j x Hx) as (t' & Ht' & Hh).
  change (exists u, alter (fun t => t {{ tcb_ := cur s }}) i (tcbtab (procs s)) !! j = Some u /\ heritage (tcb_ u) = x).
  rewrite list_lookup_alter. case_decide; [subst j|by exists t'].
  rewrite Ht'. exists (t' {{ tcb_ := cur s }}). split; [done|]. by apply Hi.
Qed.
Lemma kin_on_tcb {A} i (m : M state A) : okT K (working i) m -> okT K holding (on_tcb i m).
Proof.
  intros Hm s Hs. unfold on_tcb. wp1. eapply wpM_mono; [by apply kin_load| |done]. intros u s1 H1.
  wp1. eapply wpM_mono; [by apply Hm| |done]. intros a s2 [_ H2].
  wp1. eapply wpM_mono; [by apply kin_store| |done]. intros u2 s3 H3. by wp1.
Qed.

(** ** The operations keep it *)

#[local] Hint Extern 1 (ok _ _ (modM _) _) => apply kin_mod; reflexivity : okdb.
#[local] Hint Extern 1 (ok _ _ (modM _) _) => apply work_mod; reflexivity : okdb.
#[local] Hint Extern 1 (ok _ _ (mod_slot _ _) _) => apply kin_mod_slot; reflexivity : okdb.
#[local] Hint Resolve kin_expand ok_slot_at ok_pid_at ok_flags_at ok_flag_at : okdb.
#[local] Hint Resolve table_gets table_conf | 1 : okdb.
Ltac kin_step :=
  lazymatch goal with
  | |- ok _ _ (modM _) _ => first [apply kin_mod; reflexivity|apply work_mod; reflexivity]
  | |- ok _ _ (bindM (modM _) _) _ =>
    eapply (ok_bind _ _ _ _ (fun _ => True)); [first [apply kin_mod; reflexivity|apply work_mod; reflexivity]|intros ? _]
  | _ => ok_step
  end.
Ltac kin := repeat (kin_step; to_prop; try done); auto with okdb.

Lemma kin_eprintf fmt args : okT K holding (eprintf fmt args).
Proof. unfold eprintf. kin. Qed.
#[local] Hint Resolve kin_eprintf : okdb.
Lemma kin_or i v : okT K holding (or_flags i v).
Proof. unfold or_flags. kin. Qed.
Lemma kin_clear i v : okT K holding (clear_flags i v).
Proof. unfold clear_flags. kin. Qed.
Lemma kin_parent i p : okT K holding (set_parent i p).
Proof. unfold set_parent. kin. Qed.
Lemma kin_children i d : okT K holding (add_children i d).
Proof. unfold add_children. kin. Qed.
Lemma kin_restart op i sig : okT K holding (ptrace_restart op i sig).
Proof. unfold ptrace_restart. kin. Qed.
Lemma kin_entry i : okT K holding (entry_at i).
Proof. unfold entry_at. kin. Qed.
#[local] Hint Resolve kin_or kin_clear kin_parent kin_children kin_restart kin_entry : okdb.
Lemma kin_fork_tcb i : okT K holding (fork_tcb i).
Proof. unfold fork_tcb, tcbtabsize. kin. Qed.
Lemma kin_place i c : okT K holding (place_clone i c).
Proof. unfold place_clone. kin. Qed.
#[local] Hint Resolve kin_place : okdb.
Lemma work_gets i {A} (f : state -> A) : okT K (working i) (gets f).
Proof. by intros s Hs. Qed.
#[local] Hint Resolve work_gets | 1 : okdb.
Lemma work_log_line i l : okT K (working i) (log_line l).
Proof. unfold log_line, fprintf_log, time_int, prv, conf, eprintf. kin. Qed.
#[local] Hint Resolve work_log_line : okdb.
Lemma work_spawn i : okT K (working i) print_spawn_prov.
Proof. unfold print_spawn_prov, in_prov_mode, prv, tcp. kin. Qed.
#[local] Hint Resolve work_spawn kin_on_tcb : okdb.

(** What follows the setting of the child's fields *)
Lemma kin_finish i c : okT K holding
  (on_tcb c print_spawn_prov ;;;
   add_children i 1 ;;;
   let* susp := flag_at c TCB_SUSPENDED in
   let* r := (if susp then
                when false (let* _ := clearbpt c in skip) ;;;
                clear_flags c (Z.lor TCB_SUSPENDED TCB_STARTUP) ;;;
                ptrace_restart PTRACE_SYSCALL c 0
              else retM 0%Z) in
   if (r <? 0)%Z then retM (-1)%Z
   else
     let* e := entry_at i in
     when (String.eqb (func_name e) "sys_clone") (place_clone i c) ;;;
     retM 0%Z).
Proof. kin. Qed.
End Kin.

Section Child.
Context {Fu : Fuel}.
Let K := any_system.

(** The program of the process that had the element before *)
Definition recycled (tab : list slot) (c : nat) : option cstring := tab !! c ≫= fun t => perceived_program_fullpath (tcb_ t).
(** An element for a new process: it was not in use. *)
Definition spare (tab : list slot) (c : nat) : Prop := forall t, tab !! c = Some t -> in_use t = false.

(** Elements at the end of the table do not matter. *)
Definition extends (tab tab' : list slot) : Prop := exists n, tab' = tab ++ repeat slot0 n.
Lemma extends_spare tab tab' c t : extends tab tab' -> tab' !! c = Some t -> in_use t = false ->
  spare tab c /\ perceived_program_fullpath (tcb_ t) = recycled tab c.
Proof.
  intros [n ->] Ht Hu. unfold spare, recycled. apply lookup_app_Some in Ht as [Ht|[Hle Ht]].
  - rewrite Ht. split; [|done]. by intros ? [= <-].
  - rewrite lookup_ge_None_2 by done. split; [done|].
    by apply list_elem_of_lookup_2, list_elem_of_In, repeat_spec in Ht as ->.
Qed.

Definition worked_on (tab : list slot) (p : Z) (f : option cstring) (s : state) : Prop :=
  tcbtab (procs s) = tab /\ pid (cur s) = p /\ perceived_program_fullpath (cur s) = f.
Lemma worked_mod tab p f g : (forall s, tcbtab (procs (g s)) = tcbtab (procs s)) -> (forall s, pid (cur (g s)) = pid (cur s)) ->
  (forall s, perceived_program_fullpath (cur (g s)) = perceived_program_fullpath (cur s)) -> okT K (worked_on tab p f) (modM g).
Proof. intros H1 H2 H3 s (<- & <- & <-). apply wpM_mod. split; [done|]. by split_and!. Qed.
#[local] Hint Extern 1 (ok _ _ (modM _) _) => apply worked_mod; reflexivity : okdb.
#[local] Hint Extern 0 (may K _) => exact Logic.I : okdb.
Lemma worked_shmget tab p f n : okT K (worked_on tab p f) (shmget_loop n).
Proof. induction n; simpl; oks; auto with okdb. Qed.
Lemma worked_max_open tab p f : okT K (worked_on tab p f) max_open_files.
Proof. unfold max_open_files. oks; auto with okdb. Qed.
Lemma alloc_fields_heritage tab p f s : worked_on tab p f s ->
  wpM K alloc_tcb_cde_fields s (fun _ s' => tcbtab (procs s') = tab /\ heritage (cur s') = (p, None, -1, None, f)%Z) (fun _ => True).
Proof.
  intros Hs. unfold alloc_tcb_cde_fields. wp1. wp1. wp1. apply (wp_ok K (worked_on tab p f)); [apply worked_shmget|done|].
  intros id s1 H1. wp1. wp1. wp1. wp1; [done|]. destruct r as [a|].
  2: { unfold eprintf. by repeat (wp1; try done). }
  wp1. wp1. wp1. wp1; [done|]. wp1.
  apply (wp_ok K (worked_on tab p f)); [destruct (_ =? _)%Z; unfold eprintf; oks; auto with okdb|done|].
  intros u s2 H2. wp1. wp1; [|done]. wp1. apply (wp_ok K (worked_on tab p f)); [apply worked_max_open|done|].
  intros m s3 (<- & <- & <-). by wp1.
Qed.
(** A function that works on the element, and what it leaves *)
Lemma on_new_element c t y m s (Q : unit -> state -> Prop) : tcbtab (procs s) !! c = Some t ->
  (forall s1, tcbtab (procs s1) = tcbtab (procs s) -> cur s1 = tcb_ t -> parent s1 = (parent_ix t ≫= fun q => tcb_ <$> tcbtab (procs s) !! q) ->
     wpM K m s1 (fun _ s2 => tcbtab (procs s2) = tcbtab (procs s) /\ heritage (cur s2) = y) (fun _ => True)) ->
  (forall s3, (exists f, tcbtab (procs s3) = alter f c (tcbtab (procs s)) /\ heritage (tcb_ (f t)) = y) -> Q tt s3) ->
  wpM K (on_tcb c m) s Q (fun _ => True).
Proof.
  intros Hc Hm HQ. unfold on_tcb, load_tcb. wp1. wp1. apply wp_slot_at. intros t' Ht'. assert (t' = t) as -> by congruence.
  assert (Hrest : forall par, par = (parent_ix t ≫= fun q => tcb_ <$> tcbtab (procs s) !! q) -> wpM K (let* a := m in store_tcb c ;;; retM a) (s {{ cur := tcb_ t; parent := par; tcp_ix := c }}) Q (fun _ => True)).
  { intros par Hpar. wp1. eapply wpM_mono; [by apply Hm| |done]. intros u s2 [Ht2 Hh2]. unfold store_tcb. wp1. wp1. wp1.
    apply wp_mod_slot. intros t2 _. wp1. destruct u. apply HQ. exists (fun t => t {{ tcb_ := cur s2 }}). split; [|done].
    change (alter (fun t => t {{ tcb_ := cur s2 }}) c (tcbtab (procs s2)) = alter (fun t => t {{ tcb_ := cur s2 }}) c (tcbtab (procs s))).
    by rewrite Ht2. }
  wp1. destruct (parent_ix t) as [q|].
  - wp1. apply wp_slot_at. intros qt Hq. wp1. wp1. apply Hrest. simpl. by rewrite Hq.
  - wp1. wp1. by apply Hrest.
Qed.
Lemma new_element p tab i t s (Q : nat -> state -> Prop) : 
  extends tab (tcbtab (procs s)) -> tab !! i = Some t -> in_use t = true ->
  (forall c s', c <> i -> spare tab c ->
     holding [(i, heritage (tcb_ t)); (c, (p, None, -1, None, recycled tab c)%Z)] s' -> Q c s') ->
  wpM K (alloc_tcb p) s Q (fun _ => True).
Proof.
  intros Hext Hi Hu HQ. unfold alloc_tcb, tcbtabsize. wp1. wp1. wp1. wp1. wp1.
  set (R := fun s => extends tab (tcbtab (procs s))).
  assert (Hexp : forall b, wpM K (when b expand_tcbtab) s (fun _ => R) (fun _ => True)).
  { intros b. wp1; [|done]. unfold expand_tcbtab. wp1. destruct Hext as [n Hn].
    exists (n + length (tcbtab (procs s))).
    change (tcbtab (procs s) ++ repeat slot0 (length (tcbtab (procs s))) = tab ++ repeat slot0 (n + length (tcbtab (procs s)))).
    rewrite Hn at 1. by rewrite repeat_app, (assoc (++)). }
  eapply wpM_mono; [apply Hexp| |done]. clear Hexp. intros u s1 H1. wp1. wp1.
  destruct (list_find _ _) as [[c t0]|] eqn:Hf; [|wp1].
  - apply list_find_Some in Hf as (Hc & Hun & _).
    assert (Hu0 : in_use t0 = false) by (unfold unused in Hun; unfold in_use; by destruct (has_flag _ _)).
    destruct (extends_spare tab _ c t0 H1 Hc Hu0) as [Hsp Hrec].
    assert (Hci : c <> i). { intros ->. specialize (Hsp t Hi). congruence. }
    wp1. apply wp_mod_slot. intros t1 Ht1. assert (t1 = t0) as -> by congruence.
    wp1. set (s2 := s1 {{ procs -> tcbtab := _ }}).
    assert (Hc2 : tcbtab (procs s2) !! c = Some (init_slot p t0)).
    { change (alter (init_slot p) c (tcbtab (procs s1)) !! c = Some (init_slot p t0)). by rewrite list_lookup_alter_eq, Hc. }
    assert (Hi2 : tcbtab (procs s2) !! i = Some t).
    { change (alter (init_slot p) c (tcbtab (procs s1)) !! i = Some t). rewrite list_lookup_alter_ne by done.
      destruct H1 as [n ->]. by apply lookup_app_l_Some. }
    clearbody s2. apply (on_new_element c (init_slot p t0) (p, None, -1, None, recycled tab c)%Z _ s2); [done|..].
    { intros s3 Ht3 Hc3 _. apply alloc_fields_heritage. split; [exact Ht3|]. rewrite Hc3, <- Hrec. done. }
    intros s3 (g & E3 & Hh3). unfold set_nprocs. wp1. wp1. wp1. apply HQ; [done|done|].
    intros j x [[= -> ->]|[[= -> ->]|[]%not_elem_of_nil]%elem_of_cons]%elem_of_cons.
    + exists t. split; [|done]. change (tcbtab (procs s3) !! i = Some t). by rewrite E3, list_lookup_alter_ne.
    + exists (g (init_slot p t0)). split; [|done]. change (tcbtab (procs s3) !! c = Some (g (init_slot p t0))).
      by rewrite E3, list_lookup_alter_eq, Hc2.
  - apply (wp_ok K (fun _ => True)); [unfold eprintf; by oks; auto with okdb|done|]. intros u2 s2 _. wp1.
    apply (wp_ok K (fun _ => True)); [|done|by intros; wp1].
    apply ok_cleanup; [done|intros ? ? _|intros ? ?|intros ?].
    + by apply (plain_mod_slot K (fun _ _ => True)).
    + by apply (plain_keep K (fun _ _ => True)).
    + by apply (plain_droptcb K (fun _ _ => True)).
Qed.

(** The fields that come from the parent [q], for an element that has the program [f] *)
Definition inherited (p : Z) (q : tcb) (f : option cstring) :=
  (p, current_dir q, current_repo_ind q, p_ignores q, match f with Some f => Some f | None => perceived_program_fullpath q end).
Lemma dir_fields tab (p : Z) q f y s : tcbtab (procs s) = tab -> heritage (cur s) = (p, None, -1, None, f)%Z -> parent s = Some q ->
  y = inherited p q f ->
  wpM K CDE_init_tcb_dir_fields s (fun _ s' => tcbtab (procs s') = tab /\ heritage (cur s') = y) (fun _ => True).
Proof.
  intros Ht Hc Hp ->. unfold heritage in Hc. injection Hc as H1 H2 H3 H4 H5.
  unfold CDE_init_tcb_dir_fields, tcp. wp1. wp1. wp1. wp1; [|done]. wp1. wp1. rewrite Hp. wp1. wp1.
  destruct (current_dir q) as [d|] eqn:Hd; cbn [assert_some]; wp1; [|done].
  wp1. wp1. wp1. change (perceived_program_fullpath (cur (s {{ cur -> current_dir := Some d; cur -> current_repo_ind := current_repo_ind q; cur -> p_ignores := p_ignores q }}))) with (perceived_program_fullpath (cur s)).
  unfold inherited. rewrite H5, Hd. destruct f as [f|].
  - wp1. split; [exact Ht|]. change ((pid (cur s), Some d, current_repo_ind q, p_ignores q, perceived_program_fullpath (cur s)) =
      (p, Some d, current_repo_ind q, p_ignores q, Some f)). by rewrite H1, H5.
  - wp1. split; [exact Ht|]. change ((pid (cur s), Some d, current_repo_ind q, p_ignores q, perceived_program_fullpath q) =
      (p, Some d, current_repo_ind q, p_ignores q, perceived_program_fullpath q)). by rewrite H1.
Qed.

(** The table when a child is looked for: that of the parent is marked *)
Lemma fork_tcb_tab i t s (Q : unit -> state -> Prop) : tcbtab (procs s) !! i = Some t ->
  (forall s1 g, extends (alter g i (tcbtab (procs s))) (tcbtab (procs s1)) ->
     heritage (tcb_ (g t)) = heritage (tcb_ t) -> (in_use t = true -> in_use (g t) = true) -> Q tt s1) ->
  wpM K (fork_tcb i) s Q (fun _ => True).
Proof.
  intros Hi HQ. unfold fork_tcb, tcbtabsize. wp1. wp1. wp1. wp1. wp1.
  assert (Hexp : forall b, wpM K (when b expand_tcbtab) s (fun _ s1 => extends (tcbtab (procs s)) (tcbtab (procs s1))) (fun _ => True)).
  { intros b. wp1; [unfold expand_tcbtab; wp1; by eexists|]. exists 0. cbn [repeat]. by rewrite app_nil_r. }
  eapply wpM_mono; [apply Hexp| |done]. intros u s1 [n Hn]. unfold or_flags. apply wp_mod_slot. intros t1 _.
  apply (HQ _ (fun t => t {{ tcb_ -> flags := Z.lor (flags (tcb_ t)) TCB_FOLLOWFORK }})); [|done|].
  - exists n. change (alter (fun t => t {{ tcb_ -> flags := Z.lor (flags (tcb_ t)) TCB_FOLLOWFORK }}) i (tcbtab (procs s1)) =
      alter (fun t => t {{ tcb_ -> flags := Z.lor (flags (tcb_ t)) TCB_FOLLOWFORK }}) i (tcbtab (procs s)) ++ repeat slot0 n).
    rewrite Hn. by rewrite alter_app_l by (by eapply lookup_lt_Some).
  - unfold in_use. intros Hu. change (has_flag (Z.lor (flags (tcb_ t)) TCB_FOLLOWFORK) TCB_INUSE = true).
    rewrite has_flag_lor by reflexivity. exact Hu.
Qed.

Lemma child_heritage i p t s : tcbtab (procs s) !! i = Some t -> in_use t = true ->
  list_find (fun t => Is_true (pid_is p t)) (tcbtab (procs s)) = None ->
  wpM K (handle_new_child i p false) s (fun _ s' => exists c u, c <> i /\ spare (tcbtab (procs s)) c /\
     tcbtab (procs s') !! c = Some u /\ heritage (tcb_ u) = inherited p (tcb_ t) (recycled (tcbtab (procs s)) c)) (fun _ => True).
Proof.
  intros Hi Hu Hnew. set (tab := tcbtab (procs s)) in *. unfold handle_new_child. wp1. unfold child_tcb. wp1. unfold pid2tcb.
  assert (Hf : forall Q : option nat -> state -> Prop, Q None s -> wpM K (if (p <=? 0)%Z then retM None else let* t := gets (fun s => tcbtab (procs s)) in retM (fst <$> list_find (fun t => Is_true (pid_is p t)) t)) s Q (fun _ => True)).
  { intros Q HQ. wp1; [by wp1|]. wp1. wp1. wp1. fold tab. by rewrite Hnew. }
  apply Hf. clear Hf. wp1. apply (fork_tcb_tab i t); [done|]. intros s1 g He Hg Hgu.
  apply (new_element p (alter g i tab) i (g t)); [done|by rewrite list_lookup_alter_eq, Hi|by apply Hgu|].
  intros c s2 Hci Hsp H2. unfold spare, recycled in Hsp, H2. rewrite list_lookup_alter_ne in Hsp, H2 by done. fold (recycled tab c) in H2.
  rewrite Hg in H2. set (Phi := [_; _]) in H2. simpl when. wp1. wp1.
  wp1. apply (wp_ok K (holding Phi)); [apply kin_or|done|]. intros u3 s3 H3. wp1. wp1.
  unfold set_parent. wp1. apply wp_mod_slot. intros u0 Hu0.
  destruct (H3 c (p, None, -1, None, recycled tab c)%Z) as (u0' & Hu0' & Hh0); [set_solver|].
  assert (u0' = u0) as -> by congruence. clear Hu0'.
  destruct (H3 i (heritage (tcb_ t))) as (t0 & Ht0 & Ht0h); [set_solver|].
  set (s4 := s3 {{ procs -> tcbtab := _ }}).
  assert (Hc4 : tcbtab (procs s4) !! c = Some (u0 {{ parent_ix := Some i }})).
  { change (alter (fun t => t {{ parent_ix := Some i }}) c (tcbtab (procs s3)) !! c = Some (u0 {{ parent_ix := Some i }})).
    by rewrite list_lookup_alter_eq, Hu0. }
  assert (Hi4 : tcbtab (procs s4) !! i = Some t0).
  { change (alter (fun t => t {{ parent_ix := Some i }}) c (tcbtab (procs s3)) !! i = Some t0). by rewrite list_lookup_alter_ne. }
  clearbody s4. set (y := inherited p (tcb_ t) (recycled tab c)).
  wp1. apply (on_new_element c (u0 {{ parent_ix := Some i }}) y _ s4); [done|..].
  { intros s5 Ht5 Hc5 Hp5. apply (dir_fields _ p (tcb_ t0) (recycled tab c)); [done|by rewrite Hc5| |].
    - rewrite Hp5. simpl. by rewrite Hi4.
    - unfold heritage in Ht0h. injection Ht0h as _ E1 E2 E3 E4. unfold y, inherited. by rewrite E1, E2, E3, E4. }
  intros s5 (f & E5 & Hh5).
  assert (H5 : holding [(c, y)] s5).
  { intros j x [[= -> ->]|[]%not_elem_of_nil]%elem_of_cons. exists (f (u0 {{ parent_ix := Some i }})).
    split; [|done]. by rewrite E5, list_lookup_alter_eq, Hc4. }
  eapply (wp_ok K (holding [(c, y)])); [apply kin_finish|done|]. intros r s6 H6.
  destruct (H6 c y) as (u & Hcu & Hhu); [set_solver|]. by exists c, u.
Qed.
End Child.

Lemma any_system_rep {W} (h : forall c, W -> reply c * W) c w : rep any_system c (h c w).1.
Proof. exact Logic.I. Qed.

(** C12.  A new process gets an element that was not in use, the pid that its parent's call
    returned, and its parent's current directory, repository and directives. Its program
    is its parent's only if the element was never used: an element that is used again
    keeps the path of the program of the process that has ended, since
    free_tcb_cde_fields does not clear it. Whatever the system answers. *)
Theorem new_child_inherits {Fu : Fuel} {W} (h : forall c, W -> reply c * W) (i : nat) (p : Z) (t : slot) (s s' : state) (w : W) r
    (Hi : tcbtab (procs s) !! i = Some t) (Hu : in_use t = true)
    (Hp : forall j q, tcbtab (procs s) !! j = Some q -> in_use q = true -> pid (tcb_ q) <> p)
    (Hr : (run h (handle_new_child i p false s) w).1.2 = inl (r, s')) :
  exists c u, c <> i /\ spare (tcbtab (procs s)) c /\ tcbtab (procs s') !! c = Some u
    /\ heritage (tcb_ u) = inherited p (tcb_ t) (recycled (tcbtab (procs s)) c).
Proof.
  assert (Hnew : list_find (fun t => Is_true (pid_is p t)) (tcbtab (procs s)) = None).
  { apply list_find_None, Forall_forall. intros q [j Hj]%list_elem_of_lookup Hq. unfold pid_is in Hq.
    apply andb_prop_elim in Hq as [Hq%Is_true_true Hlive%Is_true_true]. apply Z.eqb_eq in Hq. by apply (Hp j q). }
  destruct (wp_run any_system h _ _ _ w (any_system_rep h) (child_heritage i p t s Hi Hu Hnew)) as [_ Hout].
  unfold outcome in Hout. by rewrite Hr in Hout.
Qed.

(** ** A run *)

(** A machine that numbers the new children, from 8 on. *)
Definition fork_os (c : sys) (n : nat) : reply c * nat :=
  match c return reply c * nat with
  | Ptrace_geteventmsg _ => (inl (Z.of_nat (8 + n mod 1000)), S n)
  | Ptrace_setoptions _ _ => (0%Z, n)
  | Wait4 _ _ => (inr ECHILD, n)
  | Sysconf_open_max => ((16, 0)%Z, n)
  | Shmget _ => (inl 5%Z, n)
  | Shmat _ => (Some 4096%Z, n)
  | Shmctl_rmid _ => (0%Z, n)
  | Ptrace_restart _ _ _ => (0%Z, n)
  | c => (null_reply c, n)
  end.
(** The program /bin/sh, and the element of a process that has ended, which ran /bin/ls *)
Definition shell_slot : slot :=
  slot0 {{ tcb_ -> pid := 7%Z; tcb_ -> flags := Z.lor TCB_INUSE TCB_ATTACHED; tcb_ -> current_dir := Some (lit "/home/alice");
           tcb_ -> perceived_program_fullpath := Some (lit "/bin/sh") }}.
Definition ended_slot : slot := slot0 {{ tcb_ -> perceived_program_fullpath := Some (lit "/bin/ls") }}.
Definition shell_state : state :=
  state0 {{ procs -> tcbtab := [shell_slot; ended_slot]; procs -> nprocs := 1%Z; max_open_ := 16%Z }}.

Lemma new_child_inherits_witness :
  match (run fork_os (@handle_new_child 5 0 8 false shell_state) 0).1.2 with
  | inl (_, s') => exists c u, c <> 0 /\ spare [shell_slot; ended_slot] c /\ tcbtab (procs s') !! c = Some u
      /\ heritage (tcb_ u) = inherited 8 (tcb_ shell_slot) (recycled [shell_slot; ended_slot] c)
  | inr _ => False
  end.
Proof.
  destruct (run fork_os (@handle_new_child 5 0 8 false shell_state) 0).1.2 as [[r s']|e] eqn:E; [|vm_compute in E; discriminate E].
  apply (@new_child_inherits 5 _ fork_os 0 8 shell_slot shell_state s' 0 r).
  - reflexivity.
  - reflexivity.
  - intros [|[|j]] q Hj Hu; [injection Hj as <-|injection Hj as <-|discriminate Hj]; discriminate.
  - exact E.
Defined.

(** ** A child is not in the recorder's list *)

(** The list of the recorder thread is not changed when a process gets a child: a process
    is only put in it when it makes an execve. *)
Section Unlisted.
Context {Fu : Fuel} (l : list Z).
Let K := any_system.
Definition listed_are (s : state) : Prop := pidlist (prov s) = l.
Let I := listed_are.
#[local] Hint Extern 0 (may K _) => exact Logic.I : okdb.
Lemma unlisted_mod f : (forall s, prov (f s) = prov s) -> okT K I (modM f).
Proof. intros Hf s Hs. apply wpM_mod. split; [done|]. unfold I, listed_are. by rewrite Hf. Qed.
Lemma unlisted_gets {A} (f : state -> A) : okT K I (gets f).
Proof. by intros s Hs. Qed.
#[local] Hint Extern 1 (ok _ _ (modM _) _) => apply unlisted_mod; reflexivity : okdb.
#[local] Hint Resolve unlisted_gets | 1 : okdb.
Ltac unlisted := unfold prv, conf, tcp, opt, eprintf; oks; auto with okdb.
Lemma unlisted_slot i : okT K I (slot_at i).
Proof. unfold slot_at. unlisted. Qed.
#[local] Hint Resolve unlisted_slot : okdb.
Lemma unlisted_mod_slot i f : okT K I (mod_slot i f).
Proof. unfold mod_slot. unlisted. Qed.
#[local] Hint Resolve unlisted_mod_slot : okdb.
Lemma unlisted_on_tcb {A} i (m : M state A) : okT K I m -> okT K I (on_tcb i m).
Proof. intros Hm. unfold on_tcb, load_tcb, store_tcb. unlisted. Qed.
Lemma unlisted_log x : okT K I (log_line x).
Proof. unfold log_line, fprintf_log, time_int. unlisted. Qed.
#[local] Hint Resolve unlisted_log unlisted_on_tcb : okdb.
Lemma unlisted_exit {A B} (m : M state A) e : okT K I (m ;;; @stopM state B e).
Proof.
  intros s _. apply wpM_bind. unfold wpM. induction (m s) as [[a s1]|x|c k IH]; simpl; [done|done|]. split; [done|]. intros r _. apply IH.
Qed.
Lemma unlisted_shmget n : okT K I (shmget_loop n).
Proof. induction n; simpl; unlisted. Qed.
Lemma unlisted_max_open : okT K I max_open_files.
Proof. unfold max_open_files. unlisted. Qed.
#[local] Hint Resolve unlisted_shmget unlisted_max_open : okdb.
Lemma unlisted_alloc_fields : okT K I alloc_tcb_cde_fields.
Proof. unfold alloc_tcb_cde_fields. unlisted. Qed.
#[local] Hint Resolve unlisted_exit unlisted_alloc_fields : okdb.
Lemma unlisted_nprocs f : okT K I (set_nprocs f).
Proof. unfold set_nprocs. unlisted. Qed.
#[local] Hint Resolve unlisted_nprocs : okdb.
Lemma unlisted_child_tcb i p : okT K I (child_tcb i p).
Proof.
  unfold child_tcb, pid2tcb, alloc_tcb, fork_tcb, expand_tcbtab, flags_at, pid_at, tcbtabsize. unlisted.
Qed.
Lemma unlisted_init_fields : okT K I CDE_init_tcb_dir_fields.
Proof. unfold CDE_init_tcb_dir_fields, get_repo_path_id. unlisted. Qed.
Lemma unlisted_spawn : okT K I print_spawn_prov.
Proof. unfold print_spawn_prov, in_prov_mode. unlisted. Qed.
Lemma unlisted_clearbpt i : okT K I (clearbpt i).
Proof. unfold clearbpt. unlisted. Qed.
#[local] Hint Resolve unlisted_child_tcb unlisted_init_fields unlisted_spawn unlisted_clearbpt : okdb.
Lemma unlisted_new_child i p bpt : okT K I (handle_new_child i p bpt).
Proof.
  unfold handle_new_child, or_flags, clear_flags, flag_at, flags_at, set_parent, add_children, entry_at, ptrace_restart, pid_at, place_clone. unlisted.
Qed.
End Unlisted.

Theorem new_child_unlisted {Fu : Fuel} {W} (h : forall c, W -> reply c * W) i p bpt (s : state) (w : W) :
  match outcome h (handle_new_child i p bpt s) w with
  | inl (_, s') => pidlist (prov s') = pidlist (prov s)
  | inr _ => True
  end.
Proof.
  destruct (wp_run any_system h _ _ _ w (fun _ _ => Logic.I) (unlisted_new_child (pidlist (prov s)) i p bpt s eq_refl)) as [_ Ho].
  destruct (outcome _ _ w) as [[a s']|e]; [|done]. apply Ho.
Qed.
