(* ===== verification/Execve.v ===== *)
(** * execve (cde.c)

    When a process calls execve, the tracer looks for the program interpreter of the new
    program ("/lib/ld-linux.so.2"), which for a script is that of the command in its
    first line.  In audit mode it copies the program and the interpreter into the
    package.  In exec mode the call is rewritten: the interpreter of the package is run
    with the program as its argument; its path, the program's and the new argument
    vector are written in the shared segment. *)
From S2P Require Import Prelude CString Os StrUtils OkapiPath OkapiMirror Trie State Environ.
From S2P Require Import ChildMem Redirect Shm ProcTab Syscalls Provenance.

Definition ELF_MAGIC : cstring := "127"%char :: lit "ELF".

(** ** What kind of program a file is *)

(** The command in the first line of a script, and whether the file is one. *)
Definition get_script_command (script_file_path : cstring) : M state (option cstring * bool) :=
  let* infile := sysM (Fopen script_file_path F_read) in
  let* infile := deref infile in
  let* line := sysM (Getline infile) in
  let firstline := str_rstrip (until_nul (default [] line)) in
  let script_command :=
    if (2 <? length (default [] line)) && str_startswith firstline (lit "#!") then Some (drop 2 firstline)
    else if str_endswith script_file_path (lit ".sh") then Some (lit "/bin/sh")
    else None in
  let* _ := sysM (Fclose infile) in
  retM (script_command, match script_command with Some _ => true | None => false end).

(** Whether the file starts with the four bytes of an ELF header. *)
Definition has_elf_header (path_to_executable : cstring) : M state bool :=
  let* f := sysM (Fopen path_to_executable F_read) in
  let* f := assert_some f in
  let* header := sysM (Fgets f 5) in
  let* _ := sysM (Fclose f) in
  retM (strcmp_eq (until_nul (default [] header)) ELF_MAGIC).

Section Execve.
Context {Fu : Fuel}.

(** ** The argument vector in the shared segment *)

(** [*(char** )(base + off) = v]: a pointer of the tracer is stored. *)
Definition shm_store_ptr (off : nat) (v : Z) : M state unit :=
  let* ws := word_size in
  let* l := tcp localshm in
  let* _ := deref l in
  let* id := tcp shmid in
  if off + ws <=? shared_page_size
  then let* _ := sysM (Shm_store id off (word_bytes ws v)) in skip
  else stopM Segv.

(** [new_argv[i] = v] and the message that shows the string it points to. *)
Definition set_new_argv (new_argv i : nat) (v : Z) : M state unit :=
  let* a := conf personality in
  shm_store_ptr (new_argv + i * personality_wordsize a) v ;;;
  let* verbose := conf Cde_verbose_mode in
  when (verbose && negb (v =? 0)%Z)
    (let* tmp := strcpy_from_child v in
     vbprintf "   new_argv[%d]='%s'" [PZ (Z.of_nat i); PS tmp]).

(** The arguments of the process's own vector from [i] on, up to its NULL, are stored [k]
    places further; [cur_arg] has the value of the turn before. *)
Fixpoint copy_argv (n : nat) (new_argv k i : nat) (cur_arg : Z) : M state unit :=
  match n with
  | O => stopM (OutOfFuel "execve argv")
  | S n' =>
    let* child_argv := arg 1 in
    let* a := conf personality in
    let pws := personality_wordsize a in
    let* r := umoven (child_argv + Z.of_nat (i * pws))%Z pws in
    match r with
    | None => EXITIF true ;;; stopM (Exit 1)
    | Some laddr =>
      let cur_arg := word_of (overwrite laddr (word_bytes (sizeof_long a) cur_arg)) in
      set_new_argv new_argv (i + k) cur_arg ;;;
      if (cur_arg =? 0)%Z then skip else copy_argv n' new_argv k (i + 1) cur_arg
    end
  end.
(** Each turn fills a place of the segment, so there are fewer turns than bytes. *)
Definition copy_args (new_argv k : nat) : M state unit := copy_argv (S shared_page_size) new_argv k 1 0.

(** ** A script *)

(** The tokens of the command, one after the other from [cur_loc] on: where each starts,
    and the end of the last one.  The array of the starts has 200 elements. *)
Fixpoint put_tokens (tokens : list cstring) (cur_loc : nat) (starts : list nat) : M state (list nat * nat) :=
  match tokens with
  | [] => retM (starts, cur_loc)
  | p :: tokens' =>
    let* full := tcp perceived_program_fullpath in
    let* use_linker := conf CDE_use_linker_from_package in
    let* q :=
      match full with
      | Some _ => retM p
      | None =>
        modM (fun s => s {{ cur -> perceived_program_fullpath := Some p }}) ;;;
        if use_linker then retM p
        else
          let* d := tcp current_dir in
          let* r := redirect_filename_into_cderoot p d true in deref r
      end in
    shm_strcpy cur_loc q ;;;
    (if length starts <? 200 then skip else stopM Segv) ;;;
    put_tokens tokens' (cur_loc + length q + 1) (starts ++ [cur_loc])
  end.

(** [new_argv[first + i] = childshm + starts[i]] *)
Fixpoint point_tokens (new_argv i : nat) (starts : list nat) : M state unit :=
  match starts with
  | [] => skip
  | off :: starts' =>
    let* c := tcp childshm in
    set_new_argv new_argv i (c + Z.of_nat off)%Z ;;;
    point_tokens new_argv (i + 1) starts'
  end.

Definition rewrite_script (ld_linux_fullpath script_command : cstring) : M state unit :=
  let* use_linker := conf CDE_use_linker_from_package in
  when use_linker (shm_strcpy 0 ld_linux_fullpath) ;;;
  let ld_linux_offset := if use_linker then length ld_linux_fullpath + 1 else 0 in
  modM (fun s => s {{ cur -> perceived_program_fullpath := None }}) ;;;
  let* tokens := put_tokens (strtok " "%char script_command) ld_linux_offset [] in
  let '(starts, new_argv) := tokens in
  let* c := tcp childshm in
  set_new_argv new_argv 0 c ;;;
  let first := if use_linker then 1 else 0 in
  point_tokens new_argv first starts ;;;
  let first_nontoken_index := length starts + first in
  let* name := arg 0 in
  set_new_argv new_argv first_nontoken_index name ;;;
  copy_args new_argv first_nontoken_index ;;;
  point_args [(1, 0); (2, new_argv)].

(** ** A dynamically linked program *)

(** For java the path with its links resolved, as the program sees it. *)
Definition follow_java_links : M state unit :=
  let* full := tcp_str perceived_program_fullpath in
  when (strcmp_eq (basename full) (lit "java"))
    (let* d := tcp current_dir in
     let* r := redirect_filename_into_cderoot full d true in
     match r with
     | None => skip
     | Some program_full_path_in_cderoot =>
       let* real := realpath_strdup program_full_path_in_cderoot in
       let* p := extract_sandboxed_pwd real true in
       modM (fun s => s {{ cur -> perceived_program_fullpath := Some p }})
     end).

(** The linker, the program, the arguments after the first one. *)
Definition put_binary_argv (new_argv offset1 : nat) : M state unit :=
  let* c := tcp childshm in
  set_new_argv new_argv 0 c ;;;
  set_new_argv new_argv 1 (c + Z.of_nat offset1)%Z ;;;
  copy_args new_argv 1.

Definition rewrite_binary (ld_linux_fullpath exe_filename : cstring) : M state unit :=
  shm_strcpy 0 ld_linux_fullpath ;;;
  let offset1 := length ld_linux_fullpath + 1 in
  let* a0 := arg 0 in
  let* name := strcpy_from_child a0 in
  modM (fun s => s {{ cur -> perceived_program_fullpath := Some name }}) ;;;
  follow_java_links ;;;
  let* full := tcp_str perceived_program_fullpath in
  shm_strcpy offset1 full ;;;
  let new_argv := offset1 + length full + 1 in
  put_binary_argv new_argv offset1 ;;;
  let* use_linker := conf CDE_use_linker_from_package in
  if use_linker then point_args [(1, 0); (2, new_argv)]
  else modify_syscall_single_arg 1 exe_filename.

(** The program as the process is to see it: the part after the package's root of where a
    (perhaps relative) path is redirected to. *)
Definition make_perceived_absolute : M state unit :=
  let* full := tcp perceived_program_fullpath in
  match full with
  | None => skip
  | Some full =>
    let* d := tcp current_dir in
    let* r := redirect_filename_into_cderoot full d true in
    match r with
    | None => skip
    | Some redirected_path =>
      let* p := extract_sandboxed_pwd redirected_path true in
      modM (fun s => s {{ cur -> perceived_program_fullpath := Some p }})
    end
  end.

(** ** The hook *)

(** How the first part ends: at the label [done], with the count that says whether the
    call is logged, or with the path of the program. *)
Inductive lookup_result := Done (is_runable_count : nat) | Found (path_to_executable : option cstring).

(** A program that cde.options ignores, or that has directives of its own. *)
Definition punt_ignored (path : cstring) : M state bool :=
  let* ign := ignore_path path true in
  if ign then retM true
  else
    let* procs := opt process_ignores in
    match List.find (fun p => strcmp_eq path (process_name p)) procs with
    | Some p => modM (fun s => s {{ cur -> p_ignores := Some p }}) ;;; retM true
    | None => retM false
    end.

(** A PTU program is not traced. *)
Definition detach_cde (count : nat) : M state lookup_result :=
  let* f := tcp flags in
  if (Z.land f TCB_ATTACHED =? 0)%Z then retM (Done 0)
  else
    print_begin_execve_prov ;;;
    detach_tcp 0 ;;;
    retM (Done count).

(** Another repository's environment is loaded; the repository is not the one at the
    index [id] but at the index that the loop over [process_ignores] ended with. *)
Definition load_repo_environment (opened_filename_abspath : cstring) : M state unit :=
  let* id := get_repo_path_id opened_filename_abspath in
  let* repo := tcp current_repo_ind in
  when ((0 <=? id)%Z && negb (id =? repo)%Z)
    (let* procs := opt process_ignores in
     let* repos := opt multi_repo_paths in
     CDE_load_environment_vars (repos !! length procs)).

Definition lookup_exec (exe_filename : cstring) : M state lookup_result :=
  let* d := tcp_str current_dir in
  let* sandboxed := extract_sandboxed_pwd d true in
  let* opened_filename_abspath := assert_some (canonicalize_path exe_filename sandboxed) in
  if is_cde_binary (Some exe_filename) then detach_cde 8
  else
    let* punt := punt_ignored opened_filename_abspath in
    if punt then retM (Done 0)
    else
      let* redirected_path := redirect_filename_into_cderoot exe_filename (Some d) true in
      load_repo_environment opened_filename_abspath ;;;
      retM (Found redirected_path).

Definition lookup_audit (exe_filename : cstring) : M state lookup_result :=
  let* d := tcp current_dir in
  let* exe_filename_abspath := assert_some (canonicalize_path exe_filename (default [] d)) in
  if is_cde_binary (Some exe_filename_abspath) then detach_cde 16
  else
    let* other := is_in_another_repo exe_filename_abspath in
    if other then retM (Done 0) else retM (Found (Some exe_filename_abspath)).

(** The interpreter of the script's command; [None] if the hook is done with. *)
Definition script_interpreter (script_command : option cstring) (exe_filename : cstring)
    (path_to_executable : cstring) : M state (option cstring) :=
  let* exec := conf Cde_exec_mode in
  match script_command with
  | None =>
    eprintf "Ignored: Fatal error: '%s' seems to be a script without a #! line." [PS path_to_executable]
  | Some _ => skip
  end ;;;
  let* tmp := deref script_command in
  let p := head (strtok " "%char tmp) in
  let* filename :=
    if exec then
      let* d := tcp_str current_dir in
      let* sandboxed := extract_sandboxed_pwd d true in
      let* p := deref p in
      let* script_command_abspath := assert_some (canonicalize_path p sandboxed) in
      let* punt := punt_ignored script_command_abspath in
      if punt then retM None
      else
        let* r := redirect_filename_into_cderoot p (Some d) true in
        retM (Some (default p r))
    else let* p := deref p in retM (Some p) in
  match filename with
  | None => retM None
  | Some script_command_filename =>
    let* ld := sysM (Find_ELF_program_interpreter script_command_filename) in
    match ld with
    | None => when exec (modify_syscall_single_arg 1 exe_filename) ;;; retM None
    | Some ld => assertM (IS_ABSPATH ld) ;;; retM (Some ld)
    end
  end.

(** The same for a binary; one that is statically linked is run, or copied, as it is. *)
Definition binary_interpreter (exe_filename path_to_executable : cstring) : M state (option cstring) :=
  let* ld := sysM (Find_ELF_program_interpreter path_to_executable) in
  match ld with
  | None =>
    let* exec := conf Cde_exec_mode in
    (if exec then modify_syscall_single_arg 1 exe_filename
     else let* d := tcp current_dir in copy_file_into_cde_root exe_filename d) ;;;
    retM None
  | Some ld => assertM (IS_ABSPATH ld) ;;; retM (Some ld)
  end.

Definition rewrite_execve (ld_linux_filename exe_filename : cstring) (script_command : option cstring)
    (is_textual_script : bool) : M state unit :=
  let* ld_linux_fullpath := create_abspath_within_cderoot ld_linux_filename in
  (if is_textual_script then
     let* cmd := deref script_command in rewrite_script ld_linux_fullpath cmd
   else rewrite_binary ld_linux_fullpath exe_filename) ;;;
  make_perceived_absolute.

(** The program, its interpreter and the command of a script are copied. *)
Definition copy_program (ld_linux_filename exe_filename : cstring) (script_command : option cstring)
    (is_textual_script : bool) : M state unit :=
  let* d := tcp current_dir in
  copy_file_into_cde_root exe_filename d ;;;
  copy_file_into_cde_root ld_linux_filename d ;;;
  when is_textual_script
    (let* cmd := deref script_command in
     match strtok " "%char cmd with
     | [] => skip
     | p :: _ =>
       let* p_stat := sysM (Stat p) in
       match p_stat with
       | Some _ => copy_file_into_cde_root p d
       | None => skip
       end
     end).

(** The second part, for a program that exists; the result is [is_runable_count]. *)
Definition handle_program (exe_filename path_to_executable : cstring) : M state nat :=
  let* is_elf_binary := has_elf_header path_to_executable in
  let* script :=
    if is_elf_binary then retM (None, false) else get_script_command path_to_executable in
  let '(script_command, is_textual_script) := script in
  let* ld :=
    if is_elf_binary then binary_interpreter exe_filename path_to_executable
    else script_interpreter script_command exe_filename path_to_executable in
  match ld with
  | None => retM 0
  | Some ld_linux_filename =>
    let* c := tcp childshm in
    if (c =? 0)%Z then begin_setup_shmat ;;; retM 32
    else
      let* exec := conf Cde_exec_mode in
      (if exec then rewrite_execve ld_linux_filename exe_filename script_command is_textual_script
       else copy_program ld_linux_filename exe_filename script_command is_textual_script) ;;;
      retM 0
  end.

(** The label [done]: the call is logged unless it was already, or will be made again. *)
Definition done_execve (is_runable_count : nat) : M state unit :=
  in_prov_mode
    (vbprintf "  will %sbe captured in provenance (%d)."
       [PS (if 0 <? is_runable_count then lit "NOT " else []); PZ (Z.of_nat is_runable_count)] ;;;
     when (is_runable_count =? 0) print_begin_execve_prov).

Definition CDE_begin_execve : M state unit :=
  let* a0 := arg 0 in
  let* exe_filename := strcpy_from_child a0 in
  modM (fun s => s {{ cur -> p_ignores := None }}) ;;;
  (let* p := tcp pid in vbprintf "[%d] CDE_begin_execve '%s'" [PZ p; PS exe_filename]) ;;;
  let* exec := conf Cde_exec_mode in
  let* r := if exec then lookup_exec exe_filename else lookup_audit exe_filename in
  let* count :=
    match r with
    | Done count => retM count
    | Found None => retM 0
    | Found (Some path_to_executable) =>
      let* filename_stat := sysM (Stat path_to_executable) in
      match filename_stat with
      | None => retM 0
      | Some _ => handle_program exe_filename path_to_executable
      end
    end in
  done_execve count.

(** execve detaches the segment, so it is attached again at the next call. *)
Definition CDE_end_execve : M state unit :=
  hook_message "[%d] CDE_end_execve" ;;;
  let* exec := conf Cde_exec_mode in
  when exec (modM (fun s => s {{ cur -> childshm := 0%Z }})) ;;;
  let* rval := tcp u_rval in
  when (rval =? 0)%Z print_end_execve_prov.
End Execve.
