(* ===== verification/Calls.v ===== *)
(** * The system calls that are traced (file.c, desc.c, net.c, process.c)

    For each system call, what is done when the process enters it and when it leaves it:
    the hooks of cde.c and the lines of the log, in the order of the code. *)
From S2P Require Import Prelude CString Os Trie State Shm Syscalls Provenance Execve.

Inductive syscall :=
| SYS_open | SYS_openat | SYS_creat | SYS_access | SYS_faccessat | SYS_truncate
| SYS_truncate64 | SYS_stat | SYS_stat64 | SYS_newfstatat | SYS_oldstat | SYS_lstat
| SYS_lstat64 | SYS_oldlstat | SYS_statfs | SYS_statfs64 | SYS_chdir | SYS_mkdir | SYS_mkdirat
| SYS_rmdir | SYS_fchdir | SYS_link | SYS_linkat | SYS_unlink | SYS_unlinkat | SYS_symlink
| SYS_symlinkat | SYS_readlink | SYS_readlinkat | SYS_rename | SYS_renameat | SYS_chown
| SYS_fchownat | SYS_chmod | SYS_fchmodat | SYS_utimes | SYS_futimesat | SYS_utime | SYS_mknod
| SYS_mknodat | SYS_getcwd | SYS_setxattr | SYS_getxattr | SYS_listxattr | SYS_removexattr
| SYS_close | SYS_bind | SYS_connect | SYS_execve | SYS_exit.
#[export] Instance syscall_dec : EqDecision syscall.
Proof. solve_decision. Defined.

Definition AT_REMOVEDIR : Z := 512.

Section Calls.
Context {Fu : Fuel}.

(** [CDE_standard_fileop_macro], [CDE_at_fileop_macro] and [print_syscall_write_prov_macro] *)
Definition CDE_standard_fileop_macro (entering : bool) (name : string) : M state unit :=
  when entering (CDE_begin_standard_fileop name).
Definition CDE_at_fileop_macro (entering : bool) (name : string) : M state unit :=
  when entering (CDE_begin_at_fileop name).
Definition print_syscall_write_prov_macro (entering : bool) (pos : nat) : M state unit :=
  when (negb entering) (print_write_prov pos).

Definition sys_open (entering : bool) : M state unit :=
  if entering then CDE_begin_standard_fileop "sys_open" else print_open_prov "sys_open".
Definition sys_openat (entering : bool) : M state unit :=
  if entering then CDE_begin_at_fileop "sys_openat" else print_open_prov "sys_openat".
Definition sys_creat (entering : bool) : M state unit :=
  CDE_standard_fileop_macro entering "sys_creat" ;;; print_syscall_write_prov_macro entering 0.
Definition sys_access (entering : bool) : M state unit :=
  CDE_standard_fileop_macro entering "sys_access".
Definition sys_faccessat (entering : bool) : M state unit :=
  CDE_at_fileop_macro entering "sys_faccessat".
Definition sys_truncate (entering : bool) : M state unit :=
  CDE_standard_fileop_macro entering "sys_truncate" ;;; print_syscall_write_prov_macro entering 0.
Definition sys_truncate64 (entering : bool) : M state unit :=
  CDE_standard_fileop_macro entering "sys_truncate64" ;;; print_syscall_write_prov_macro entering 0.
Definition sys_stat (entering : bool) : M state unit :=
  CDE_standard_fileop_macro entering "sys_stat".
Definition sys_stat64 (entering : bool) : M state unit :=
  CDE_standard_fileop_macro entering "sys_stat64".
Definition sys_newfstatat (entering : bool) : M state unit :=
  CDE_at_fileop_macro entering "sys_newfstatat".
Definition sys_oldstat (entering : bool) : M state unit :=
  CDE_standard_fileop_macro entering "sys_oldstat".
Definition sys_lstat (entering : bool) : M state unit :=
  CDE_standard_fileop_macro entering "sys_lstat".
Definition sys_lstat64 (entering : bool) : M state unit :=
  CDE_standard_fileop_macro entering "sys_lstat64".
Definition sys_oldlstat (entering : bool) : M state unit :=
  CDE_standard_fileop_macro entering "sys_oldlstat".
Definition sys_statfs (entering : bool) : M state unit :=
  CDE_standard_fileop_macro entering "sys_statfs".
Definition sys_statfs64 (entering : bool) : M state unit :=
  CDE_standard_fileop_macro entering "sys_statfs64".
Definition sys_chdir (entering : bool) : M state unit :=
  if entering then CDE_begin_chdir else CDE_end_chdir.
Definition sys_mkdir (entering : bool) : M state unit :=
  if entering then CDE_begin_mkdir else CDE_end_mkdir 0.
Definition sys_mkdirat (entering : bool) : M state unit :=
  if entering then CDE_begin_mkdirat else CDE_end_mkdirat.
Definition sys_rmdir (entering : bool) : M state unit :=
  if entering then CDE_begin_rmdir else CDE_end_rmdir 0.
Definition sys_fchdir (entering : bool) : M state unit :=
  if entering then skip else CDE_end_fchdir.
Definition sys_link (entering : bool) : M state unit :=
  if entering then CDE_begin_file_link else print_link_prov 0 1.
Definition sys_linkat (entering : bool) : M state unit :=
  if entering then CDE_begin_file_linkat else print_link_prov 1 3.
Definition sys_unlink (entering : bool) : M state unit :=
  when entering CDE_begin_file_unlink.
Definition sys_unlinkat (entering : bool) : M state unit :=
  let* flags := arg 2 in
  if (flags =? AT_REMOVEDIR)%Z then
    if entering then CDE_begin_unlinkat_rmdir else CDE_end_unlinkat_rmdir
  else when entering CDE_begin_file_unlinkat.
Definition sys_symlink (entering : bool) : M state unit :=
  if entering then CDE_begin_file_symlink else print_link_prov 0 1.
Definition sys_symlinkat (entering : bool) : M state unit :=
  if entering then CDE_begin_file_symlinkat else print_link_prov 0 2.
Definition sys_readlink (entering : bool) : M state unit :=
  if entering then CDE_begin_standard_fileop "sys_readlink" else CDE_end_readlink.
Definition sys_readlinkat (entering : bool) : M state unit :=
  if entering then CDE_begin_at_fileop "sys_readlinkat" else CDE_end_readlinkat.
Definition sys_rename (entering : bool) : M state unit :=
  if entering then CDE_begin_file_rename else (CDE_end_file_rename ;;; print_rename_prov false).
Definition sys_renameat (entering : bool) : M state unit :=
  if entering then CDE_begin_file_renameat else (CDE_end_file_renameat ;;; print_rename_prov true).
Definition sys_chown (entering : bool) : M state unit :=
  CDE_standard_fileop_macro entering "sys_chown".
Definition sys_fchownat (entering : bool) : M state unit :=
  CDE_at_fileop_macro entering "sys_fchownat".
Definition sys_chmod (entering : bool) : M state unit :=
  CDE_standard_fileop_macro entering "sys_chmod".
Definition sys_fchmodat (entering : bool) : M state unit :=
  CDE_at_fileop_macro entering "sys_fchmodat".
Definition sys_utimes (entering : bool) : M state unit :=
  CDE_standard_fileop_macro entering "sys_utimes".
Definition sys_futimesat (entering : bool) : M state unit :=
  CDE_at_fileop_macro entering "sys_futimesat".
Definition sys_utime (entering : bool) : M state unit :=
  CDE_standard_fileop_macro entering "sys_utime".
Definition sys_mknod (entering : bool) : M state unit :=
  CDE_standard_fileop_macro entering "sys_mknod" ;;; print_syscall_write_prov_macro entering 0.
Definition sys_mknodat (entering : bool) : M state unit :=
  CDE_at_fileop_macro entering "sys_mknodat" ;;; print_syscall_write_prov_macro entering 1.
Definition sys_getcwd (entering : bool) : M state unit :=
  when (negb entering) CDE_end_getcwd.
Definition sys_setxattr (entering : bool) : M state unit :=
  CDE_standard_fileop_macro entering "sys_setxattr".
Definition sys_getxattr (entering : bool) : M state unit :=
  CDE_standard_fileop_macro entering "sys_getxattr".
Definition sys_listxattr (entering : bool) : M state unit :=
  CDE_standard_fileop_macro entering "sys_listxattr".
Definition sys_removexattr (entering : bool) : M state unit :=
  CDE_standard_fileop_macro entering "sys_removexattr".
Definition sys_close (entering : bool) : M state unit :=
  when entering print_close_prov.
Definition sys_bind (_ : bool) : M state unit :=
  CDE_begin_socket_bind_or_connect.
Definition sys_connect (_ : bool) : M state unit :=
  CDE_begin_socket_bind_or_connect.
Definition sys_execve (entering : bool) : M state unit :=
  if entering then CDE_begin_execve else CDE_end_execve.
Definition exit_hook (_ : bool) : M state unit :=
  print_exit_prov.

(** The function of the call in strace's table; the argument is [entering(tcp)]. *)
Definition sys_func (call : syscall) : bool -> M state unit :=
  match call with
  | SYS_open => sys_open
  | SYS_openat => sys_openat
  | SYS_creat => sys_creat
  | SYS_access => sys_access
  | SYS_faccessat => sys_faccessat
  | SYS_truncate => sys_truncate
  | SYS_truncate64 => sys_truncate64
  | SYS_stat => sys_stat
  | SYS_stat64 => sys_stat64
  | SYS_newfstatat => sys_newfstatat
  | SYS_oldstat => sys_oldstat
  | SYS_lstat => sys_lstat
  | SYS_lstat64 => sys_lstat64
  | SYS_oldlstat => sys_oldlstat
  | SYS_statfs => sys_statfs
  | SYS_statfs64 => sys_statfs64
  | SYS_chdir => sys_chdir
  | SYS_mkdir => sys_mkdir
  | SYS_mkdirat => sys_mkdirat
  | SYS_rmdir => sys_rmdir
  | SYS_fchdir => sys_fchdir
  | SYS_link => sys_link
  | SYS_linkat => sys_linkat
  | SYS_unlink => sys_unlink
  | SYS_unlinkat => sys_unlinkat
  | SYS_symlink => sys_symlink
  | SYS_symlinkat => sys_symlinkat
  | SYS_readlink => sys_readlink
  | SYS_readlinkat => sys_readlinkat
  | SYS_rename => sys_rename
  | SYS_renameat => sys_renameat
  | SYS_chown => sys_chown
  | SYS_fchownat => sys_fchownat
  | SYS_chmod => sys_chmod
  | SYS_fchmodat => sys_fchmodat
  | SYS_utimes => sys_utimes
  | SYS_futimesat => sys_futimesat
  | SYS_utime => sys_utime
  | SYS_mknod => sys_mknod
  | SYS_mknodat => sys_mknodat
  | SYS_getcwd => sys_getcwd
  | SYS_setxattr => sys_setxattr
  | SYS_getxattr => sys_getxattr
  | SYS_listxattr => sys_listxattr
  | SYS_removexattr => sys_removexattr
  | SYS_close => sys_close
  | SYS_bind => sys_bind
  | SYS_connect => sys_connect
  | SYS_execve => sys_execve
  | SYS_exit => exit_hook
  end.
End Calls.
