(* ===== verification/TraceSyscall.v ===== *)
(** * A stop of a process at a system call (syscall.c)

    [trace_syscall] is called when a process enters a call and when it leaves it: it reads
    the number, the arguments or the result, follows forks, waits and exits, and calls the
    function of the call's entry, which for the calls that PTU changed runs the hooks. *)
From S2P Require Import Prelude CString Os PerfTimers SysLimits Trie State ChildMem Shm Sysent Qualify ProcTab Provenance Forks Calls.

(** The functions of the tables that run hooks. *)
Definition hooks : list (string * syscall) :=
  [("sys_open", SYS_open); ("sys_openat", SYS_openat); ("sys_creat", SYS_creat); ("sys_access", SYS_access);
   ("sys_faccessat", SYS_faccessat); ("sys_truncate", SYS_truncate); ("sys_truncate64", SYS_truncate64);
   ("sys_stat", SYS_stat); ("sys_stat64", SYS_stat64); ("sys_newfstatat", SYS_newfstatat); ("sys_oldstat", SYS_oldstat);
   ("sys_lstat", SYS_lstat); ("sys_lstat64", SYS_lstat64); ("sys_oldlstat", SYS_oldlstat); ("sys_statfs", SYS_statfs);
   ("sys_statfs64", SYS_statfs64); ("sys_chdir", SYS_chdir); ("sys_mkdir", SYS_mkdir); ("sys_mkdirat", SYS_mkdirat);
   ("sys_rmdir", SYS_rmdir); ("sys_fchdir", SYS_fchdir); ("sys_link", SYS_link); ("sys_linkat", SYS_linkat);
   ("sys_unlink", SYS_unlink); ("sys_unlinkat", SYS_unlinkat); ("sys_symlink", SYS_symlink);
   ("sys_symlinkat", SYS_symlinkat); ("sys_readlink", SYS_readlink); ("sys_readlinkat", SYS_readlinkat);
   ("sys_rename", SYS_rename); ("sys_renameat", SYS_renameat); ("sys_chown", SYS_chown); ("sys_fchownat", SYS_fchownat);
   ("sys_chmod", SYS_chmod); ("sys_fchmodat", SYS_fchmodat); ("sys_utimes", SYS_utimes);
   ("sys_futimesat", SYS_futimesat); ("sys_utime", SYS_utime); ("sys_mknod", SYS_mknod); ("sys_mknodat", SYS_mknodat);
   ("sys_getcwd", SYS_getcwd); ("sys_setxattr", SYS_setxattr); ("sys_getxattr", SYS_getxattr);
   ("sys_listxattr", SYS_listxattr); ("sys_removexattr", SYS_removexattr); ("sys_close", SYS_close);
   ("sys_bind", SYS_bind); ("sys_connect", SYS_connect); ("sys_execve", SYS_execve)]%string.
Definition hook_of (name : string) : option syscall := snd <$> List.find (fun p => String.eqb name p.1) hooks.

Definition SYS_exit_ (a : abi) : Z := if multi a then 60 else 1.
Definition MAX_ARGS : Z := 32.
(** [argreg]; the array is filled with zeros, which is the offset of R15. *)
Definition argregs (a : abi) : list reg :=
  match a with X86_64 => [RDI; RSI; RDX; R10; R8; R9] | _ => [RBX; RCX; RDX; RSI; RDI; RBP] end.

(** What a step says to its caller: 0 (ignore the stop), 1 (go on), or an error. *)
Inductive step_result := Ignore | Go | Failed.
#[export] Instance step_result_dec : EqDecision step_result.
Proof. solve_decision. Defined.

Section Syscall.
Context {Fu : Fuel}.

(** [current_personality]: 0 or 1 in a 64-bit tracer *)
Definition set_personality (n : Z) : M state unit :=
  modM (fun s => s {{ cfg -> personality := if (n =? 0)%Z then X86_64 else X86_64_32BIT_EMU }}).
Definition current_personality (a : abi) : Z := match a with X86_64_32BIT_EMU => 1 | _ => 0 end.

(** The code segment tells the personality of the process. *)
Definition detect_personality (i : nat) : M state step_result :=
  let* v := upeek i CS in
  match v with
  | None => retM Failed
  | Some v =>
    let* a := conf personality in
    let* p := pid_at i in
    let* currpers :=
      (if (v =? 35)%Z then retM 1%Z
       else if (v =? 51)%Z then retM 0%Z
       else eprintf "Unknown value CS=0x%02X while detecting personality of process PID=%d\n" [PZ (to_int v); PZ p] ;;;
            retM (current_personality a)) in
    when (negb (currpers =? current_personality a)%Z)
      (set_personality currpers ;;; eprintf "[ Process PID=%d runs in %s mode. ]\n" [PZ p; PZ currpers]) ;;;
    retM Go
  end.

Definition get_scno (i : nat) : M state step_result :=
  let* n := upeek i ORIG_RAX in
  match n with
  | None => retM Failed
  | Some n =>
    let* ent := entering i in
    let* a := conf personality in
    let* r := (if ent && multi a then detect_personality i else retM Go) in
    if bool_decide (r = Go) then
      when ent (mod_slot i (fun t => t {{ scno := n }})) ;;; retM Go
    else retM r
  end.

Definition sign_extend32 (z : Z) : Z := to_int z.

(** The result register holds -ENOSYS when a call is entered; if it does not, the stop is
    not that of a call. *)
Definition syscall_fixup (i : nat) : M state step_result :=
  let* v := upeek i RAX in
  match v with
  | None => retM Failed
  | Some v =>
    let* a := conf personality in
    let v := if (current_personality a =? 1)%Z then sign_extend32 v else v in
    modM (fun s => s {{ procs -> rax := v }}) ;;;
    let* ent := entering i in
    if negb (v =? - ENOSYS)%Z && ent then retM Ignore else retM Go
  end.

(** The value as an unsigned word of the process is above that of [-nerrnos]. *)
Definition is_negated_errno (a : abi) (v : Z) : bool :=
  let m := (2 ^ (8 * Z.of_nat (personality_wordsize a)))%Z in ((- nerrnos) mod m <? v mod m)%Z.

Definition get_error (i : nat) : M state step_result :=
  let* a := conf personality in
  let* t := slot_at i in
  let never_fails := match (if in_range a (scno t) then entry a (scno t) else None) with
                     | Some e => negb (Z.land (sys_flags e) NF =? 0)%Z
                     | None => false
                     end in
  let* v := gets (fun s => rax (procs s)) in
  (if negb never_fails && is_negated_errno a v
   then mod_slot i (fun t => t {{ tcb_ -> u_rval := (-1)%Z; tcb_ -> u_error := to_int (- v) }})
   else mod_slot i (fun t => t {{ tcb_ -> u_rval := v; tcb_ -> u_error := 0%Z }})) ;;;
  retM Go.

(** The number of arguments of a call *)
Definition u_nargs_of (a : abi) (n : Z) : Z :=
  match (if in_range a n then entry a n else None) with
  | Some e => if (nargs e =? -1)%Z then MAX_ARGS else nargs e
  | None => MAX_ARGS
  end.

Fixpoint read_args (n k i : nat) : M state step_result :=
  match n with
  | O => retM Go
  | S n' =>
    let* a := conf personality in
    let* v := upeek i (nth k (argregs a) R15) in
    match v with
    | None => retM Failed
    | Some v => mod_slot i (fun t => t {{ tcb_ -> u_arg := <[k:=v]> (u_arg (tcb_ t)) }}) ;;; read_args n' (S k) i
    end
  end.

Definition syscall_enter (i : nat) : M state step_result :=
  let* a := conf personality in
  let* t := slot_at i in
  let n := u_nargs_of a (scno t) in
  mod_slot i (fun t => t {{ u_nargs := n }}) ;;;
  read_args (Z.to_nat n) 0 i.

(** ** Calls with subcalls *)

Definition SYS_socket_subcall : Z := 400.
Definition SYS_socket_nsubcalls : Z := 20.
Definition SYS_ipc_subcall : Z := 420.
Definition SYS_ipc_nsubcalls : Z := 25.
(** The numbers of the tracer's architecture; where it has no such call, that of the table *)
Definition SYS_socketcall (a : abi) : Z := if multi a then SYS_socket_subcall else 102.
Definition SYS_ipc (a : abi) : Z := if multi a then SYS_ipc_subcall else 117.

(** The entry is looked up without a test of the range. *)
Definition set_subcall (i : nat) (n : Z) : M state sysent_entry :=
  mod_slot i (fun t => t {{ scno := n }}) ;;; entry_at i.

(** The call's number is the first argument, its arguments the others. *)
Definition decode_shift (i : nat) (subcall nsubcalls : Z) : M state unit :=
  let* n := arg_at i 0 in
  if (n <? 0)%Z || (nsubcalls <=? n)%Z then skip
  else
    let* e := set_subcall i (subcall + n) in
    mod_slot i (fun t => t {{ u_nargs := if (nargs e =? -1)%Z then (u_nargs t - 1)%Z else nargs e }}) ;;;
    mod_slot i (fun t =>
      let k := Z.to_nat (u_nargs t) in
      t {{ tcb_ -> u_arg := take k (tail (u_arg (tcb_ t))) ++ drop k (u_arg (tcb_ t)) }}).

(** [umove] of a word of the process; 0 when it cannot be read *)
Definition umove_word (i : nat) (addr : Z) (size : nat) : M state Z :=
  let* b := on_tcb i (umoven addr size) in
  retM (match b with
        | Some b => foldr (fun c acc => (Z.of_nat (code c) + 256 * acc)%Z) 0%Z b
        | None => 0%Z
        end).

Fixpoint deref_args (n k i : nat) (addr : Z) (size : nat) : M state unit :=
  match n with
  | O => skip
  | S n' =>
    let* v := umove_word i addr size in
    mod_slot i (set_arg k (if size =? 8 then ((v + 2 ^ 63) mod 2 ^ 64 - 2 ^ 63)%Z else v)) ;;;
    deref_args n' (S k) i (addr + Z.of_nat size) size
  end.

(** The arguments are in an array that the second argument points to. *)
Definition decode_deref (i : nat) (subcall nsubcalls : Z) : M state unit :=
  let* n := arg_at i 0 in
  if (n <? 0)%Z || (nsubcalls <=? n)%Z then skip
  else
    let* e := set_subcall i (subcall + n) in
    let* addr := arg_at i 1 in
    let* a := conf personality in
    deref_args (Z.to_nat (nargs e)) 0 i addr (personality_wordsize a) ;;;
    mod_slot i (fun t => t {{ u_nargs := nargs e }}).

Definition decode_subcalls (i : nat) : M state unit :=
  let* a := conf personality in
  let* n := known_scno i in
  if (n =? SYS_socketcall a)%Z then decode_deref i SYS_socket_subcall SYS_socket_nsubcalls
  else if (n =? SYS_ipc a)%Z then decode_shift i SYS_ipc_subcall SYS_ipc_nsubcalls
  else skip.

(** ** The calls that are always followed *)

Definition internal_syscall (i : nat) : M state unit :=
  let* a := conf personality in
  let* t := slot_at i in
  match (if in_range a (scno t) then entry a (scno t) else None) with
  | None => skip
  | Some e =>
    let f := func_name e in
    let* _ :=
      (if String.eqb f "sys_exit" then internal_exit i
       else if String.eqb f "sys_fork" || String.eqb f "sys_vfork" || String.eqb f "sys_clone" then internal_fork i
       else if String.eqb f "sys_waitpid" || String.eqb f "sys_wait4" then internal_wait i 2
       else if String.eqb f "sys_waitid" then internal_wait i 3
       else retM 0%Z) in
    skip
  end.

(** The arguments are printed when a call is entered. *)
Fixpoint printargs_loop (n k i : nat) : M state unit :=
  match n with
  | O => skip
  | S n' =>
    let* v := arg_at i k in
    eprintf "%s%#lx" [PS (if k =? 0 then [] else lit ", "); PZ v] ;;;
    printargs_loop n' (S k) i
  end.
Definition printargs (i : nat) : M state Z :=
  let* ent := entering i in
  when ent (let* t := slot_at i in printargs_loop (Z.to_nat (u_nargs t)) 0 i) ;;;
  retM 0%Z.

(** The function of the entry; [sys_listen] and [sys_accept], the only others that are
    called, do nothing. *)
Definition run_sys_func (i : nat) (e : sysent_entry) : M state Z :=
  let* ent := entering i in
  if String.eqb (func_name e) "sys_exit" then sys_exit i
  else if String.eqb (func_name e) "sys_ptrace" then sys_ptrace i
  else if String.eqb (func_name e) "printargs" then printargs i
  else match hook_of (func_name e) with
       | Some c => on_tcb i (sys_func c ent) ;;; retM 0%Z
       | None => retM 0%Z
       end.

(** The flags of the call of a process *)
Definition qualified (i : nat) (bit : Z) : M state bool :=
  let* a := conf personality in
  let* t := slot_at i in
  gets (fun s => qual a (procs s) (scno t) bit).
Definition scno_in_range (i : nat) : M state bool :=
  let* a := conf personality in let* t := slot_at i in retM (in_range a (scno t)).

(** ** The two stops of a call; the result is negative when ptrace failed. *)

Definition code_of (r : step_result) : Z := match r with Ignore => 0 | Go => 1 | Failed => -1 end.

Definition trace_syscall_exiting (i : nat) : M state Z :=
  let* res := get_scno i in
  let* res := (if bool_decide (res = Go) then syscall_fixup i else retM res) in
  let* res := (if bool_decide (res = Go) then get_error i else retM res) in
  match res with
  | Ignore => retM 0%Z
  | Failed =>
    set_tcp_last None ;;; clear_flags i TCB_INSYSCALL ;;; retM (-1)%Z
  | Go =>
    internal_syscall i ;;;
    let* known := scno_in_range i in
    let* traced := qualified i QUAL_TRACE in
    if known && negb traced then clear_flags i TCB_INSYSCALL ;;; retM 0%Z
    else
      let* setting := (let* t := slot_at i in retM (setting_up_shm (tcb_ t))) in
      (if setting then on_tcb i finish_setup_shmat
       else
         let* raw := qualified i QUAL_RAW in
         let* a := conf personality in
         let* n := (let* t := slot_at i in retM (scno t)) in
         let* e := (if known then let* e := entry_at i in retM (Some e) else retM None) in
         match e with
         | Some e =>
           if raw && negb (n =? SYS_exit_ a)%Z then skip
           else let* _ := run_sys_func i e in skip
         | None => skip
         end) ;;;
      set_tcp_last None ;;; clear_flags i TCB_INSYSCALL ;;; retM 0%Z
  end.

Definition trace_syscall_entering (i : nat) : M state Z :=
  let* res := get_scno i in
  let* res := (if bool_decide (res = Go) then syscall_fixup i else retM res) in
  let* res := (if bool_decide (res = Go) then syscall_enter i else retM res) in
  match res with
  | Ignore => retM 0%Z
  | Failed =>
    clear_flags i TCB_REPRINT ;;; set_tcp_last (Some i) ;;; or_flags i TCB_INSYSCALL ;;; retM (-1)%Z
  | Go =>
    decode_subcalls i ;;;
    internal_syscall i ;;;
    let* known := scno_in_range i in
    let* traced := qualified i QUAL_TRACE in
    if known && negb traced then or_flags i TCB_INSYSCALL ;;; retM 0%Z
    else
      clear_flags i TCB_REPRINT ;;; set_tcp_last (Some i) ;;;
      let* raw := qualified i QUAL_RAW in
      let* r :=
        (if known then
           let* e := entry_at i in
           if raw && negb (String.eqb (func_name e) "sys_exit") then printargs i else run_sys_func i e
         else printargs i) in
      or_flags i TCB_INSYSCALL ;;; retM r
  end.

Definition trace_syscall (i : nat) : M state Z :=
  let* ent := entering i in if ent then trace_syscall_entering i else trace_syscall_exiting i.
End Syscall.
