(* ===== verification/TraceLoop.v ===== *)
(** * The loop of the tracer (strace.c, signal.c)

    [trace] waits for a traced process to stop or end and handles the stop, until no
    process is left.  A run of the loop is bounded by the fuel [n], a bound on the number
    of stops; each stop is handled by [handle_stop]. *)
From S2P Require Import Prelude CString Os PerfTimers SysLimits OkapiMirror Trie State ChildMem Shm Sysent Qualify ProcTab.
From S2P Require Import Provenance Forks Calls TraceSyscall.

Definition SIGTSTP : Z := 20.
Definition SIGTTIN : Z := 21.
Definition SIGTTOU : Z := 22.
Definition SIGURG : Z := 23.
Definition SIGWINCH : Z := 28.
Definition SIGIO : Z := 29.
Definition PTRACE_EVENT_FORK : Z := 1.
Definition PTRACE_EVENT_VFORK : Z := 2.
Definition PTRACE_EVENT_CLONE : Z := 3.

Definition hex_value (c : ascii) : option Z :=
  let n := Z.of_nat (code c) in
  if (48 <=? n)%Z && (n <=? 57)%Z then Some (n - 48)%Z
  else if (97 <=? n)%Z && (n <=? 102)%Z then Some (n - 87)%Z
  else if (65 <=? n)%Z && (n <=? 70)%Z then Some (n - 55)%Z
  else None.

(** The digits from the last on; the set as a mask, in which the signal n is the bit n - 1 *)
Fixpoint sigset_digits (rev_digits : cstring) : Z :=
  match rev_digits with
  | c :: l => match hex_value c with Some d => (d + 16 * sigset_digits l)%Z | None => 0%Z end
  | [] => 0%Z
  end.
Definition parse_sigset_t (str : cstring) : Z :=
  sigset_digits (rev (match strchr str newline with Some n => take n str | None => str end)) mod 2 ^ 64.
Definition sigismember (set sig : Z) : bool := Z.testbit set (sig - 1).

(** The string at the start of a buffer *)
Definition c_string (b : cstring) : cstring := match strchr b NUL with Some n => take n b | None => b end.

Section Loop.
Context {Fu : Fuel}.

(** ** Does a process survive a signal? *)

Definition status_set (buf : cstring) (name : string) : option Z :=
  match strstr buf (lit name ++ [":"%char; "009"%char]) with
  | Some n => Some (parse_sigset_t (drop (n + 8) buf))
  | None => None
  end.

Definition sigishandled (i : nat) (sig : Z) : M state bool :=
  if existsb (Z.eqb sig) [SIGCONT; SIGSTOP; SIGTSTP; SIGTTIN; SIGTTOU; SIGCHLD; SIGIO; SIGURG; SIGWINCH] then retM true
  else
    let* p := pid_at i in
    let sname := lit "/proc/" ++ itoa p ++ lit "/status" in
    let* fd := sysM (Open_read sname) in
    match fd with
    | None => eprintf "%s" [PS sname] ;;; retM true
    | Some fd =>
      let size := Z.to_nat 2048 in
      let* b := sysM (Read fd size) in
      let* b := deref b in
      (** [buf[i]] must be in the buffer. *)
      (if length b =? size then stopM Segv else skip) ;;;
      let buf := c_string b in
      let* _ := sysM (Close fd) in
      let bad := eprintf "/proc/pid/status format error\n" [] ;;; retM true in
      match status_set buf "SigIgn", status_set buf "SigCgt" with
      | None, _ => bad
      | Some _, None => bad
      | Some ignored, Some caught => retM (sigismember ignored sig || sigismember caught sig)
      end
    end.

(** ** Exits *)

(** The leader of a thread *)
Definition leader_of (i : nat) : M state (option nat) :=
  let* t := slot_at i in
  retM (if has_flag (flags (tcb_ t)) TCB_CLONE_THREAD then parent_ix t else None).
Definition other_leader (leader : option nat) (i : nat) : option nat :=
  match leader with Some l => if l =? i then None else Some l | None => None end.

(** The end of a process, or of the process of a thread.  [sig] is -1 when it has ended,
    0 before exit_group, or the signal that will end it. *)
Definition handle_group_exit (i : nat) (sig : Z) : M state Z :=
  let* leader := leader_of i in
  if (sig <? 0)%Z then
    match other_leader leader i with
    | Some l =>
      let* lf := flags_at l in
      let* f := flags_at i in
      let* p := pid_at i in
      let* lp := pid_at l in
      when (negb (has_flag lf TCB_GROUP_EXITING) && negb (has_flag f TCB_STARTUP))
        (eprintf "PANIC: handle_group_exit: %d leader %d\n" [PZ p; PZ lp])
    | None => skip
    end ;;;
    let* _ := resume_from_tcp i in
    droptcb i ;;;
    retM 0%Z
  else
    or_flags i (Z.lor TCB_EXITING TCB_GROUP_EXITING) ;;;
    let* att := flag_at i TCB_ATTACHED in
    if att then
      let* _ := detach i sig in
      match other_leader leader i with Some l => or_flags l TCB_GROUP_EXITING | None => skip end ;;;
      retM 0%Z
    else
      let* r := ptrace_restart PTRACE_CONT i sig in
      if (r <? 0)%Z then cleanup ;;; retM (-1)%Z
      else
        match leader with
        | Some l => or_flags l TCB_GROUP_EXITING ;;; when (negb (l =? i)) (droptcb i)
        | None => skip
        end ;;;
        retM 0%Z.

(** ** New children that the kernel reports; 1 is another event. *)
Definition handle_ptrace_event (st : Z) (i : nat) : M state Z :=
  let ev := Z.shiftr st 16 in
  if (ev =? PTRACE_EVENT_VFORK)%Z || (ev =? PTRACE_EVENT_CLONE)%Z || (ev =? PTRACE_EVENT_FORK)%Z then
    let* p := pid_at i in
    let* r := sysM (Ptrace_geteventmsg p) in
    match r with
    | inl childpid => handle_new_child i (to_int childpid) false
    | inr e =>
      if (e =? ESRCH)%Z then
        mod_slot i (fun t => t {{ ptrace_errno := ESRCH }}) ;;; retM (-1)%Z
      else
        eprintf "%s: handle_ptrace_event: ptrace cannot get new child's pid\n" [] ;;; cleanup ;;; stopM (Exit 1)
    end
  else retM 1%Z.

(** ** Messages *)

Definition printleader (i : nat) : M state unit :=
  let* last := gets (fun s => tcp_last (procs s)) in
  match last with
  | Some l =>
    let* t := slot_at l in
    if negb (ptrace_errno t =? 0)%Z then
      when (has_flag (flags (tcb_ t)) TCB_INSYSCALL) (eprintf " <unavailable>)" []) ;;;
      eprintf "= ? <unavailable>\n" [] ;;;
      mod_slot l (fun t => t {{ ptrace_errno := 0%Z }})
    else or_flags l TCB_REPRINT ;;; eprintf " <unfinished ...>\n" []
  | None => skip
  end ;;;
  let* n := gets (fun s => nprocs (procs s)) in
  let* p := pid_at i in
  when (1 <? n)%Z (eprintf "[pid %5u] " [PZ p]).
Definition printtrailer : M state unit := set_tcp_last None.

(** ** Waiting *)

(** [wait4] for any process, with the fall-backs of an old kernel *)
Definition wait_any : M state ((Z * Z) + Z) :=
  let* wall := gets (fun s => wait4_wall (procs s)) in
  let* r := sysM (Wait4 (-1) (if wall then WALL else 0%Z)) in
  let* r :=
    match r with
    | inr e =>
      if wall && (e =? EINVAL)%Z then
        modM (fun s => s {{ procs -> wait4_wall := false }}) ;;; sysM (Wait4 (-1) 0)
      else retM r
    | inl _ => retM r
    end in
  let* wall := gets (fun s => wait4_wall (procs s)) in
  match r with
  | inr e =>
    if negb wall && (e =? ECHILD)%Z then
      let* r := sysM (Wait4 (-1) WCLONE) in
      match r with inr e => eprintf "strace: clone wait4 failed: %s\n" [PZ e] | inl _ => skip end ;;;
      retM r
    else retM r
  | inl _ => retM r
  end.

(** ** A stop.  [Some r]: the loop ends with the result [r]. *)

Definition set_exit_code (p v : Z) : M state unit :=
  modM (fun s => if (p =? strace_child (procs s))%Z then s {{ procs -> exit_code := v }} else s).

Definition restart_or_end (op : restart) (i : nat) (sig : Z) : M state (option Z) :=
  let* r := ptrace_restart op i sig in
  if (r <? 0)%Z then cleanup ;;; retM (Some (-1)%Z) else retM None.

(** The label [tracing] *)
Definition tracing (i : nat) : M state (option Z) := restart_or_end PTRACE_SYSCALL i 0.

(** What follows the setting of the exit code *)
Definition end_killed (i : nat) (st : Z) : M state (option Z) :=
  let* a := conf personality in
  let* q := gets (fun s => qual a (procs s) (WTERMSIG st) QUAL_SIGNAL) in
  when q (printleader i ;;; eprintf "+++ killed by %s %s+++" [PZ (WTERMSIG st)] ;;; printtrailer) ;;;
  let* _ := handle_group_exit i (-1) in
  retM None.
Definition handle_killed (i : nat) (p st : Z) : M state (option Z) :=
  set_exit_code p (Z.lor 256 (WTERMSIG st)) ;;; end_killed i st.

Definition end_exited (i : nat) (p st : Z) : M state (option Z) :=
  let* t := slot_at i in
  let* pf := match parent_ix t with Some q => flag_at q TCB_GROUP_EXITING | None => retM false end in
  when ((Z.land (flags (tcb_ t)) (Z.lor TCB_ATTACHED TCB_STARTUP) =? TCB_ATTACHED)%Z && negb pf
        && negb (has_flag (flags (tcb_ t)) TCB_GROUP_EXITING))
    (eprintf "PANIC: attached pid %u exited with %d\n" [PZ p; PZ (WEXITSTATUS st)]) ;;;
  let* last := gets (fun s => tcp_last (procs s)) in
  when (bool_decide (last = Some i))
    (when (Z.land (flags (tcb_ t)) (Z.lor TCB_INSYSCALL TCB_REPRINT) =? TCB_INSYSCALL)%Z
       (eprintf " <unfinished ... exit status %d>\n" [PZ (WEXITSTATUS st)]) ;;;
     set_tcp_last None) ;;;
  let* _ := handle_group_exit i (-1) in
  retM None.
Definition handle_exited (i : nat) (p st : Z) : M state (option Z) :=
  set_exit_code p (WEXITSTATUS st) ;;; end_exited i p st.

(** The stop that a new process starts with *)
Definition handle_startup (i : nat) : M state (option Z) :=
  clear_flags i TCB_STARTUP ;;;
  let* b := flag_at i TCB_BPTSET in
  let* ok := (if b then let* r := clearbpt i in retM (0 <=? r)%Z else retM true) in
  if negb ok then droptcb i ;;; cleanup ;;; retM (Some (-1)%Z)
  else
    let* t := slot_at i in
    let* ps := gets procs in
    when (followfork ps && bool_decide (parent_ix t = None) && negb (ptrace_setoptions ps =? 0)%Z)
      (let* e := sysM (Ptrace_setoptions (pid (tcb_ t)) (ptrace_setoptions ps)) in
       when (negb (e =? 0)%Z && negb (e =? ESRCH)%Z) (modM (fun s => s {{ procs -> ptrace_setoptions := 0%Z }}))) ;;;
    tracing i.

(** A signal is passed on; the process is let go if it will not survive it. *)
Definition handle_signal (i : nat) (sig : Z) : M state (option Z) :=
  let* t := slot_at i in
  if (sig =? SIGSTOP)%Z && has_flag (flags (tcb_ t)) TCB_SIGTRAPPED then
    clear_flags i (Z.lor TCB_INSYSCALL TCB_SIGTRAPPED) ;;;
    restart_or_end PTRACE_SYSCALL i 0
  else
    let* fatal :=
      (if has_flag (flags (tcb_ t)) TCB_ATTACHED || (0 <? nclone_threads t)%Z
       then let* h := sigishandled i sig in retM (negb h) else retM false) in
    if fatal then let* _ := handle_group_exit i sig in retM None
    else
      let* r := restart_or_end PTRACE_SYSCALL i sig in
      match r with
      | Some _ => retM r
      | None => clear_flags i TCB_SUSPENDED ;;; retM None
      end.

(** ptrace failed in [trace_syscall]: the process has gone. *)
Definition handle_vanished (i : nat) : M state (option Z) :=
  let* att := flag_at i TCB_ATTACHED in
  if att then
    let* last := gets (fun s => tcp_last (procs s)) in
    match last with
    | Some l => or_flags l TCB_REPRINT ;;; eprintf " <unfinished ...>" [] ;;; printtrailer
    | None => skip
    end ;;;
    let* _ := detach i 0 in retM None
  else
    let* p := pid_at i in
    let* _ := sysM (Ptrace_restart PTRACE_KILL p SIGTERM) in
    droptcb i ;;; retM None.

Definition handle_syscall (i : nat) : M state (option Z) :=
  let* r := trace_syscall i in
  let* t := slot_at i in
  if (r <? 0)%Z && (ptrace_errno t =? 0)%Z then handle_vanished i
  else
    let f := flags (tcb_ t) in
    if has_flag f TCB_EXITING then
      if has_flag f TCB_GROUP_EXITING then
        let* r := handle_group_exit i 0 in
        retM (if (r <? 0)%Z then Some (-1)%Z else None)
      else if has_flag f TCB_ATTACHED then let* _ := detach i 0 in retM None
      else restart_or_end PTRACE_CONT i 0
    else if has_flag f TCB_SUSPENDED then retM None
    else tracing i.

(** A process that has stopped *)
Definition handle_stopped (i : nat) (st : Z) : M state (option Z) :=
  let* opts := gets (fun s => ptrace_setoptions (procs s)) in
  let* ev := (if negb (opts =? 0)%Z && negb (Z.shiftr st 16 =? 0)%Z then handle_ptrace_event st i else retM 1%Z) in
  if negb (ev =? 1)%Z then tracing i
  else
    let* startup := flag_at i TCB_STARTUP in
    if startup && (WSTOPSIG st =? SIGSTOP)%Z then handle_startup i
    else if negb (WSTOPSIG st =? SIGTRAP)%Z then handle_signal i (WSTOPSIG st)
    else handle_syscall i.

(** The tcb of a process, with a new one for a process that is not known yet. *)
Definition stopped_tcb (p st : Z) : M state nat :=
  let* o := pid2tcb p in
  match o with
  | Some i => retM i
  | None =>
    let* ff := gets (fun s => followfork (procs s)) in
    if ff then
      let* i := alloc_tcb p in
      or_flags i (Z.lor TCB_ATTACHED TCB_SUSPENDED) ;;;
      retM i
    else
      eprintf "unknown pid: %u\n" [PZ p] ;;;
      when (WIFSTOPPED st) (let* _ := sysM (Ptrace_restart PTRACE_CONT p 0) in skip) ;;;
      stopM (Exit 1)
  end.

Definition handle_stop (p st : Z) : M state (option Z) :=
  let* i := stopped_tcb p st in
  let* susp := flag_at i TCB_SUSPENDED in
  if susp then retM None
  else if WIFSIGNALED st then handle_killed i p st
  else if WIFEXITED st then handle_exited i p st
  else if negb (WIFSTOPPED st) then
    eprintf "PANIC: pid %u not stopped\n" [PZ p] ;;; droptcb i ;;; retM None
  else handle_stopped i st.

Fixpoint trace (n : nat) : M state Z :=
  match n with
  | O => stopM (OutOfFuel "trace")
  | S n' =>
    let* count := gets (fun s => nprocs (procs s)) in
    if (count =? 0)%Z then retM 0%Z
    else
      let* r := wait_any in
      match r with
      | inr e =>
        if (e =? EINTR)%Z then trace n'
        else if (e =? ECHILD)%Z then retM 0%Z
        else eprintf "strace: wait" [] ;;; retM (-1)%Z
      | inl (p, st) =>
        let* r := handle_stop p st in
        match r with Some r => retM r | None => trace n' end
      end
  end.

(** ** The end of main: the exit status is that of the program. *)
Definition run_trace (n : nat) : M state unit :=
  let* r := trace n in
  if (r <? 0)%Z then stopM (Exit 1)
  else
    cleanup ;;;
    let* c := gets (fun s => exit_code (procs s)) in
    let* c := (if (255 <? c)%Z then
                 let sig := Z.land c 255 in
                 let* me := sysM Getpid in
                 let* _ := sysM (Kill me sig) in
                 retM (sig + 128)%Z
               else retM c) in
    let* t := get_total_perf_time AUDIT_FILE_COPYING in
    match t.2 with
    | Some _ => let* _ := sysM (Printf "total time doing file copying during audit: %.3f\n" []) in skip
    | None => skip
    end ;;;
    stopM (Exit c).
End Loop.
