(* ===== verification/Handlers.v ===== *)
(** * What the system call hooks may do

    For each hook, the calls it makes in the two modes: in audit mode it never changes
    the traced process, and writes only below the package's root; in exec mode it never
    changes a file. *)
From S2P Require Import Prelude CString Os StrUtils PerfTimers OkapiPath OkapiMirror OkapiContain Trie State.
From S2P Require Import ChildMem Redirect RedirectSpec Shm ProcTab ProcTabSafe Syscalls Provenance Environ Execve Calls.

(** Calls that change neither a file nor the process. *)
Definition passive (c : sys) : bool :=
  okapi_reads c ||
  match c with
  | Printf _ _ | Peekdata _ _ | Getregs _ | Fopen _ F_read | Fgets _ _ | Getline _ | Fputs _ _ | Fclose _ | Time => true
  | Wait4 _ _ | Shmdt _ | Sysconf_open_max | Getpid | Find_ELF_program_interpreter _ | Mmap _ _ | Munmap _ | Setenv _ _ _ | Clearenv => true
  | _ => false
  end.
(** Calls that change the registers of the process, or let it go. *)
Definition steers (c : sys) : bool :=
  match c with
  | Setregs _ _ | Pokeuser _ _ _ | Ptrace_restart _ _ _ | Tgkill _ _ _ | Kill _ _ => true
  | _ => false
  end.
(** Calls that change the process. *)
Definition active (c : sys) : bool :=
  match c with Pokedata _ _ _ | Shm_store _ _ _ => true | _ => steers c end.
(** Calls that change the file at [q]. *)
Definition changes (q : cstring) (c : sys) : Prop := fs_write_target c = Some q.

Definition canonical (p : cstring) : Prop := exists l, p = render l /\ Forall normal l.

(** A stop of a process: its tcb and its parent's, as they are then; the call; whether the
    process enters it.  A session handles the stops one after the other. *)
Definition stop_event : Type := tcb * option tcb * syscall * bool.
Definition session {Fu : Fuel} (l : list stop_event) : M state unit :=
  forM l (fun '(t, par, call, entering) =>
    modM (fun s => s {{ cur := t; parent := par }}) ;;; sys_func call entering).

(** A process enters execve. *)
Definition has_execve (l : list stop_event) : Prop := exists t par, (t, par, SYS_execve, true) ∈ l.

Section Hooks.
Context {Fu : Fuel} (K : contract) (P : config -> options -> strace -> nat -> Z -> Z -> Prop) (R : cstring -> Prop).
Context (mode : bool) (exe : Prop).
(** The invariant is of what the hooks leave as it is: all but the log, the cache and the
    other fields of the tcb. *)
Let I (s : state) : Prop := P (cfg s) (opts s) (procs s) (tcp_ix s) (pid (cur s)) (flags (cur s)).

(** The mode of the run; what the contract allows in it; what redirection gives. *)
Context (Hmode : forall cf op ps i p f, P cf op ps i p f -> Cde_exec_mode cf = mode).
Context (Kp : forall c, passive c = true -> may K c).
Context (Kx : mode = true -> forall c, active c = true -> may K c).
Context (Ke : exe -> forall c, steers c = true -> may K c).
Context (Kf : mode = false -> forall q c, R q -> changes q c -> may K c).
Context (Hrepo : forall cf op ps i q f p, P cf op ps i q f -> (0 <=? repo_search 0 (multi_repo_paths op) p)%Z = true -> R p).
Context (Hcreate_any : forall p, okT K I (create_abspath_within_cderoot p)).
Context (Hcreate : forall p, canonical p -> ok K I (create_abspath_within_cderoot p) R).
Context (Hcopy : mode = false -> forall f d, okT K I (copy_file_into_cde_root f d)).
Context (Hdirs : mode = false -> forall p b, okT K I (make_mirror_dirs_in_cde_package p b)).
Context (Hdetach : mode = true \/ exe -> forall sig, okT K I (detach_tcp sig)).

#[local] Hint Extern 0 (may K _) => apply Kp; reflexivity : okdb.
#[local] Hint Extern 1 (may K _) => apply Kx; [assumption || reflexivity|reflexivity] : okdb.
#[local] Hint Extern 2 (may K _) => eapply Kf; [assumption || reflexivity|eassumption|reflexivity] : okdb.
#[local] Hint Extern 3 (may K _) => apply Ke; [assumption|reflexivity] : okdb.

(** In this mode, or at this call, the registers may be changed. *)
Definition steering : Prop := mode = true \/ exe.
Lemma steering_may c : steering -> steers c = true -> may K c.
Proof. intros [Hx|Hx] Hc; [apply Kx; [done|]|by apply Ke]. by destruct c. Qed.
Lemma mode_steering : mode = true -> steering.
Proof. by left. Qed.
#[local] Hint Resolve mode_steering : okdb.
#[local] Hint Extern 4 (may K _) => apply steering_may; [assumption|reflexivity] : okdb.

(** ** Primitives *)

Lemma ok_mode : ok K I (conf Cde_exec_mode) (fun b => b = mode).
Proof. intros s Hs. apply wpM_gets. split; [|done]. exact (Hmode _ _ _ _ _ _ Hs). Qed.
Lemma ok_conf_any {A} (f : config -> A) : okT K I (conf f).
Proof. by intros s Hs. Qed.
Lemma ok_tcp {A} (f : tcb -> A) : okT K I (tcp f).
Proof. by intros s Hs. Qed.
Lemma ok_arg i : okT K I (arg i).
Proof. by intros s Hs. Qed.
Lemma ok_conf_str f : okT K I (conf_str f).
Proof. unfold conf_str, conf. oks. Qed.
Lemma ok_tcp_str f : okT K I (tcp_str f).
Proof. unfold tcp_str, tcp. oks. Qed.
Lemma ok_vbprintf fmt args : okT K I (vbprintf fmt args).
Proof. unfold vbprintf, conf. oks; auto with okdb. Qed.
Lemma ok_eprintf fmt args : okT K I (eprintf fmt args).
Proof. unfold eprintf. oks; auto with okdb. Qed.
#[local] Hint Resolve ok_mode | 0 : okdb.
#[local] Hint Resolve ok_conf_any ok_tcp ok_arg ok_conf_str ok_tcp_str ok_vbprintf ok_eprintf | 1 : okdb.

(** A change of the tcb keeps the configuration and the options. *)
Lemma ok_mod_cur f : (forall s, cfg (f s) = cfg s) -> (forall s, opts (f s) = opts s) -> (forall s, procs (f s) = procs s) ->
  (forall s, tcp_ix (f s) = tcp_ix s) -> (forall s, pid (cur (f s)) = pid (cur s)) ->
  (forall s, flags (cur (f s)) = flags (cur s)) -> okT K I (modM f).
Proof. intros H1 H2 H3 H4 H5 H6 s Hs. apply wpM_mod. split; [done|]. unfold I. by rewrite H1, H2, H3, H4, H5, H6. Qed.
#[local] Hint Extern 1 (ok _ _ (modM _) _) => apply ok_mod_cur; reflexivity : okdb.

(** The tests of the mode are kept as facts on [mode]. *)
Ltac hook_step :=
  lazymatch goal with
  | |- ok _ _ (bindM (conf Cde_exec_mode) _) _ => eapply ok_bind; [apply ok_mode|intros ? ->]
  | |- ok _ _ (if mode then _ else _) _ => case_eq mode; intros ?
  | |- ok _ _ (bindM (if mode then _ else _) _) _ => case_eq mode; intros ?
  | _ => ok_step
  end.
Ltac hooks := repeat (hook_step; to_prop; try done); auto with okdb.

Lemma ok_word_size : okT K I word_size.
Proof. by intros s Hs. Qed.
Lemma ok_perror who addr e : okT K I (perror_ptrace who addr e).
Proof. unfold perror_ptrace. hooks. Qed.
#[local] Hint Resolve ok_word_size ok_perror : okdb.
Lemma ok_umoven_loop n b a len l : okT K I (umoven_loop n b a len l).
Proof. revert b a len l; induction n; intros; simpl; hooks. Qed.
Lemma ok_umovestr_loop n b a len l : okT K I (umovestr_loop n b a len l).
Proof. revert b a len l; induction n; intros; simpl; hooks. Qed.
#[local] Hint Resolve ok_umoven_loop ok_umovestr_loop : okdb.
Lemma ok_umoven a len : okT K I (umoven a len).
Proof. unfold umoven. hooks. Qed.
Lemma ok_umovestr a len : okT K I (umovestr a len).
Proof. unfold umovestr. hooks. Qed.
#[local] Hint Resolve ok_umoven ok_umovestr : okdb.
Lemma ok_strcpy_or_null a : okT K I (strcpy_from_child_or_null a).
Proof. unfold strcpy_from_child_or_null, strdup_buffer. hooks. Qed.
#[local] Hint Resolve ok_strcpy_or_null : okdb.
Lemma ok_exitif b : okT K I (EXITIF b).
Proof. apply ok_EXITIF; [|done]. intros. apply Kp. reflexivity. Qed.
#[local] Hint Resolve ok_exitif : okdb.
Lemma ok_strcpy a : okT K I (strcpy_from_child a).
Proof. unfold strcpy_from_child. hooks. Qed.
#[local] Hint Resolve ok_strcpy : okdb.
Lemma ok_memcpy p a b n : mode = true -> okT K I (memcpy_to_child p a b n).
Proof.
  intros Hx. unfold memcpy_to_child. generalize (S n) at 1. generalize 0 at 1. intros off k.
  revert a off n; induction k; intros; simpl; hooks.
Qed.
Lemma ok_getregs : okT K I getregs.
Proof. unfold getregs. hooks. Qed.
Lemma ok_setregs rs : steering -> okT K I (setregs rs).
Proof. intros Hx. unfold setregs. hooks. Qed.
Lemma ok_setregs_or_exit rs : steering -> okT K I (setregs_or_exit rs).
Proof. intros Hx. unfold setregs_or_exit. hooks. Qed.
#[local] Hint Resolve ok_memcpy ok_getregs ok_setregs ok_setregs_or_exit : okdb.

(** ** Redirection *)

Lemma ok_repo_id p : ok K I (get_repo_path_id p) (fun id => (0 <=? id)%Z = true -> R p).
Proof. intros s Hs. unfold get_repo_path_id. repeat wp1. split; [|done]. by apply Hrepo with (1 := Hs). Qed.
Lemma ok_process_ignores f p : okT K I (process_ignores_path f p).
Proof. unfold process_ignores_path. hooks. Qed.
#[local] Hint Resolve Hcreate_any ok_repo_id ok_process_ignores : okdb.
Lemma ok_ignore_path f b : okT K I (ignore_path f b).
Proof. unfold ignore_path. hooks. Qed.
#[local] Hint Resolve ok_ignore_path : okdb.
Lemma ok_extract d b : okT K I (extract_sandboxed_pwd d b).
Proof. unfold extract_sandboxed_pwd. hooks. Qed.
#[local] Hint Resolve ok_extract : okdb.

Definition all_R (r : option cstring) : Prop := forall q, r = Some q -> R q.

Lemma ok_canonicalize f d : ok K I (assert_some (canonicalize_path f d)) canonical.
Proof. apply ok_assert_some. intros a Ha. by apply canonicalize_path_normal in Ha. Qed.

Lemma ok_redirect f d b : ok K I (redirect_filename_into_cderoot f d b) all_R.
Proof.
  unfold redirect_filename_into_cderoot. ok1. hook_step.
  eapply (ok_bind _ _ _ _ canonical).
  { case_eq mode; intros _; [eapply ok_bind; [apply ok_extract|]; intros ? _|]; apply ok_canonicalize. }
  intros p Hp. eapply ok_bind; [apply ok_repo_id|]. intros id Hid. simpl in Hid.
  destruct (0 <=? id)%Z; [apply ok_ret; intros q [= <-]; auto|].
  destruct (is_cde_binary _); [by apply ok_ret|].
  eapply ok_bind; [apply ok_ignore_path|]. intros ign _. destruct ign; [by apply ok_ret|].
  eapply ok_bind; [by apply Hcreate|]. intros r Hr. simpl in Hr.
  eapply ok_bind; [apply ok_vbprintf|]. intros _ _. apply ok_ret. by intros q [= <-].
Qed.
#[local] Hint Resolve ok_redirect : okdb.

(** ** The segment *)

Lemma ok_maps_loop n f prot size : okT K I (maps_loop n f prot size).
Proof. induction n; simpl; hooks. Qed.
#[local] Hint Resolve ok_maps_loop : okdb.
Lemma ok_find_free p prot size : okT K I (find_free_addr p prot size).
Proof. unfold find_free_addr. hooks. Qed.
#[local] Hint Resolve ok_find_free : okdb.
Lemma ok_shmat_by_ipc rs : okT K I (shmat_by_ipc rs).
Proof. unfold shmat_by_ipc. hooks. Qed.
#[local] Hint Resolve ok_shmat_by_ipc : okdb.
Lemma ok_begin_setup : steering -> okT K I begin_setup_shmat.
Proof. intros Hx. unfold begin_setup_shmat. hooks. Qed.
Lemma ok_shm_strcpy off q : mode = true -> okT K I (shm_strcpy off q).
Proof. intros Hx. unfold shm_strcpy. hooks. Qed.
Lemma ok_point_args l : mode = true -> okT K I (point_args l).
Proof. intros Hx. unfold point_args. hooks. Qed.
#[local] Hint Resolve ok_begin_setup ok_shm_strcpy ok_point_args : okdb.
Lemma ok_single_arg n f : mode = true -> okT K I (modify_syscall_single_arg n f).
Proof. intros Hx. unfold modify_syscall_single_arg. hooks. Qed.
Lemma ok_redirect_two n1 n2 : mode = true -> okT K I (redirect_two n1 n2).
Proof. intros Hx. unfold redirect_two. hooks. Qed.
#[local] Hint Resolve ok_single_arg ok_redirect_two : okdb.
#[local] Hint Resolve Hcopy Hdirs : okdb.

(** ** The hooks *)

Lemma all_R_Some q : all_R (Some q) -> R q.
Proof. intros H. by apply H. Qed.
#[local] Hint Resolve all_R_Some : okdb.
#[local] Hint Extern 3 (may K _) =>
  eapply Kf; [assumption || reflexivity|apply all_R_Some; eassumption|reflexivity] : okdb.

Lemma ok_begin_message n f : okT K I (begin_message n f).
Proof. unfold begin_message. hooks. Qed.
Lemma ok_hook_message fmt : okT K I (hook_message fmt).
Proof. unfold hook_message. hooks. Qed.
Lemma ok_warn_dirfd n f : okT K I (warn_dirfd n f).
Proof. unfold warn_dirfd. hooks. Qed.
#[local] Hint Resolve ok_begin_message ok_hook_message ok_warn_dirfd : okdb.

Lemma ok_standard_fileop n : okT K I (CDE_begin_standard_fileop n).
Proof. unfold CDE_begin_standard_fileop. hooks. Qed.
Lemma ok_at_fileop n : okT K I (CDE_begin_at_fileop n).
Proof. unfold CDE_begin_at_fileop. hooks. Qed.
#[local] Hint Resolve ok_standard_fileop ok_at_fileop : okdb.

Lemma ok_fake_readlink out q : mode = true -> okT K I (fake_readlink out q).
Proof. intros Hx. unfold fake_readlink. hooks. Qed.
Lemma ok_unmunge_readlink out : mode = true -> okT K I (unmunge_readlink out).
Proof. intros Hx. unfold unmunge_readlink. hooks. Qed.
#[local] Hint Resolve ok_fake_readlink ok_unmunge_readlink : okdb.
Lemma ok_end_readlink i o : okT K I (CDE_end_readlink_internal i o).
Proof. unfold CDE_end_readlink_internal. hooks. Qed.

Lemma ok_unlink_redirected f : mode = false -> okT K I (unlink_redirected f).
Proof. intros Hx. unfold unlink_redirected. hooks. Qed.
#[local] Hint Resolve ok_unlink_redirected : okdb.
Lemma ok_link_in_package f m : mode = false -> okT K I m -> okT K I (link_in_package f m).
Proof. intros Hx Hm. unfold link_in_package. hooks. Qed.
Lemma ok_symlink_in_package f g : mode = false -> okT K I (symlink_in_package f g).
Proof. intros Hx. unfold symlink_in_package. hooks. Qed.
#[local] Hint Resolve ok_link_in_package ok_symlink_in_package : okdb.
Lemma ok_retT {A} (x : A) : okT K I (retM x).
Proof. by apply ok_ret. Qed.
#[local] Hint Resolve ok_retT : okdb.

Lemma ok_unlink : okT K I CDE_begin_file_unlink.
Proof. unfold CDE_begin_file_unlink. hooks. Qed.
Lemma ok_unlinkat : okT K I CDE_begin_file_unlinkat.
Proof. unfold CDE_begin_file_unlinkat. hooks. Qed.
Lemma ok_link : okT K I CDE_begin_file_link.
Proof. unfold CDE_begin_file_link, modify_syscall_two_args. hooks. Qed.
Lemma ok_linkat : okT K I CDE_begin_file_linkat.
Proof. unfold CDE_begin_file_linkat, modify_syscall_second_and_fourth_args. hooks. Qed.
Lemma ok_symlink : okT K I CDE_begin_file_symlink.
Proof. unfold CDE_begin_file_symlink, modify_syscall_two_args. hooks. Qed.
Lemma ok_symlinkat : okT K I CDE_begin_file_symlinkat.
Proof. unfold CDE_begin_file_symlinkat, modify_syscall_first_and_third_args. hooks. Qed.
Lemma ok_begin_rename : okT K I CDE_begin_file_rename.
Proof. unfold CDE_begin_file_rename, modify_syscall_two_args. hooks. Qed.
Lemma ok_begin_renameat : okT K I CDE_begin_file_renameat.
Proof. unfold CDE_begin_file_renameat, modify_syscall_second_and_fourth_args. hooks. Qed.
Lemma ok_end_rename o n : okT K I (end_rename o n).
Proof. unfold end_rename. hooks. Qed.
#[local] Hint Resolve ok_end_rename : okdb.
Lemma ok_end_file_rename : okT K I CDE_end_file_rename.
Proof. unfold CDE_end_file_rename. hooks. Qed.
Lemma ok_end_file_renameat : okT K I CDE_end_file_renameat.
Proof. unfold CDE_end_file_renameat. hooks. Qed.

Lemma ok_end_fchdir : okT K I CDE_end_fchdir.
Proof. unfold CDE_end_fchdir. hooks. Qed.
Lemma ok_end_mkdir i : okT K I (CDE_end_mkdir i).
Proof. unfold CDE_end_mkdir. hooks. Qed.
Lemma ok_end_rmdir i : okT K I (CDE_end_rmdir i).
Proof. unfold CDE_end_rmdir. hooks. Qed.
Lemma ok_end_getcwd : okT K I CDE_end_getcwd.
Proof. unfold CDE_end_getcwd. hooks. Qed.
Lemma ok_set_addrlen n : mode = true -> okT K I (set_addrlen n).
Proof. intros Hx. unfold set_addrlen. hooks. Qed.
#[local] Hint Resolve ok_set_addrlen : okdb.
Lemma ok_redirect_socket a : mode = true -> okT K I (redirect_unix_socket a).
Proof. intros Hx. unfold redirect_unix_socket. hooks. Qed.
#[local] Hint Resolve ok_redirect_socket : okdb.
Lemma ok_socket : okT K I CDE_begin_socket_bind_or_connect.
Proof. unfold CDE_begin_socket_bind_or_connect. hooks. Qed.

(** ** The log *)

Lemma ok_prv {A} (f : provenance -> A) : okT K I (prv f).
Proof. by intros s Hs. Qed.
#[local] Hint Resolve ok_prv : okdb.
Lemma ok_fprintf_log x : okT K I (fprintf_log x).
Proof. unfold fprintf_log. hooks. Qed.
Lemma ok_time_int : okT K I time_int.
Proof. unfold time_int. hooks. Qed.
#[local] Hint Resolve ok_fprintf_log ok_time_int : okdb.
Lemma ok_log_line l : okT K I (log_line l).
Proof. unfold log_line. hooks. Qed.
Lemma ok_set_pidlist l : okT K I (set_pidlist l).
Proof. unfold set_pidlist. hooks. Qed.
#[local] Hint Resolve ok_log_line ok_set_pidlist : okdb.
Lemma ok_curr_prov_loop n t i rss : okT K I (curr_prov_loop n t i rss).
Proof. revert i rss; induction n; intros; simpl; hooks. Qed.
#[local] Hint Resolve ok_curr_prov_loop : okdb.
Lemma ok_print_curr_prov : okT K I print_curr_prov.
Proof. unfold print_curr_prov, uninitialised_long. hooks. Qed.
#[local] Hint Resolve ok_print_curr_prov : okdb.
Lemma ok_drop_pid p : okT K I (drop_pid p).
Proof. unfold drop_pid. hooks. Qed.
#[local] Hint Resolve ok_drop_pid : okdb.
Lemma ok_rm_pid_prov p : okT K I (rm_pid_prov p).
Proof. unfold rm_pid_prov. hooks. Qed.
Lemma ok_assert_someT {A} (o : option A) : okT K I (assert_some o).
Proof. by apply ok_assert_some. Qed.
#[local] Hint Resolve ok_rm_pid_prov ok_assert_someT : okdb.
Lemma ok_abspath_of_arg i : okT K I (abspath_of_arg i).
Proof. unfold abspath_of_arg. hooks. Qed.
#[local] Hint Resolve ok_abspath_of_arg : okdb.
Lemma ok_print_io_prov i a : okT K I (print_io_prov i a).
Proof. unfold print_io_prov. hooks. Qed.
#[local] Hint Resolve ok_print_io_prov : okdb.
Lemma ok_in_prov_mode m : okT K I m -> okT K I (in_prov_mode m).
Proof. intros Hm. unfold in_prov_mode. hooks. Qed.
Lemma ok_opened_path fd : okT K I (opened_path fd).
Proof. unfold opened_path. hooks. Qed.
#[local] Hint Resolve ok_in_prov_mode ok_opened_path : okdb.
Lemma ok_print_open_prov name : okT K I (print_open_prov name).
Proof. unfold print_open_prov, set_opened_path. hooks. Qed.
Lemma ok_print_write_prov i : okT K I (print_write_prov i).
Proof. unfold print_write_prov, when_call_succeeded. apply ok_in_prov_mode. hooks. Qed.
Lemma ok_print_link_prov i j : okT K I (print_link_prov i j).
Proof. unfold print_link_prov. apply ok_in_prov_mode. hooks. Qed.
Lemma ok_print_rename_prov b : okT K I (print_rename_prov b).
Proof. unfold print_rename_prov. apply ok_in_prov_mode. hooks. Qed.
Lemma ok_print_close_prov : okT K I print_close_prov.
Proof. unfold print_close_prov. apply ok_in_prov_mode. hooks. Qed.
Lemma ok_print_exit_prov : okT K I print_exit_prov.
Proof. unfold print_exit_prov. apply ok_in_prov_mode. hooks. Qed.
#[local] Hint Resolve ok_print_open_prov ok_print_write_prov ok_print_link_prov ok_print_rename_prov
  ok_print_close_prov ok_print_exit_prov : okdb.

(** ** execve *)

Lemma ok_opt {A} (f : options -> A) : okT K I (opt f).
Proof. by intros s Hs. Qed.
#[local] Hint Resolve ok_opt : okdb.
Lemma ok_load_one name val : okT K I (load_one_envvar name val).
Proof. unfold load_one_envvar. hooks. Qed.
#[local] Hint Resolve ok_load_one : okdb.
Lemma ok_environ_loop n e : okT K I (environ_loop n e).
Proof. revert e; induction n; intros; simpl; hooks. Qed.
#[local] Hint Resolve ok_environ_loop : okdb.
Lemma ok_load_environment repo : okT K I (CDE_load_environment_vars repo).
Proof. unfold CDE_load_environment_vars, load_environment_vars_from_mem. hooks. Qed.
#[local] Hint Resolve ok_load_environment : okdb.

Lemma ok_is_in_another_repo p : okT K I (is_in_another_repo p).
Proof. unfold is_in_another_repo. hooks. Qed.
Lemma ok_script_command p : okT K I (get_script_command p).
Proof. unfold get_script_command. hooks. Qed.
Lemma ok_elf_header p : okT K I (has_elf_header p).
Proof. unfold has_elf_header. hooks. Qed.
Lemma ok_punt p : okT K I (punt_ignored p).
Proof. unfold punt_ignored. hooks. Qed.
Lemma ok_load_repo p : okT K I (load_repo_environment p).
Proof. unfold load_repo_environment. hooks. Qed.
Lemma ok_realpath p : okT K I (realpath_strdup p).
Proof. unfold realpath_strdup. hooks. Qed.
#[local] Hint Resolve ok_is_in_another_repo ok_script_command ok_elf_header ok_punt ok_load_repo ok_realpath : okdb.

Lemma ok_shm_store_ptr off v : mode = true -> okT K I (shm_store_ptr off v).
Proof. intros Hx. unfold shm_store_ptr. hooks. Qed.
#[local] Hint Resolve ok_shm_store_ptr : okdb.
Lemma ok_set_new_argv na i v : mode = true -> okT K I (set_new_argv na i v).
Proof. intros Hx. unfold set_new_argv. hooks. Qed.
#[local] Hint Resolve ok_set_new_argv : okdb.
Lemma ok_copy_argv n na k i c : mode = true -> okT K I (copy_argv n na k i c).
Proof. intros Hx. revert i c; induction n; intros; cbn [copy_argv]; hooks. Qed.
#[local] Hint Resolve ok_copy_argv : okdb.
Lemma ok_put_tokens l cl st : mode = true -> okT K I (put_tokens l cl st).
Proof. intros Hx. revert cl st; induction l; intros; cbn [put_tokens]; hooks. Qed.
Lemma ok_point_tokens na i st : mode = true -> okT K I (point_tokens na i st).
Proof. intros Hx. revert i; induction st; intros; cbn [point_tokens]; hooks. Qed.
#[local] Hint Resolve ok_put_tokens ok_point_tokens : okdb.
Lemma ok_rewrite_script ld cmd : mode = true -> okT K I (rewrite_script ld cmd).
Proof. intros Hx. unfold rewrite_script, copy_args. hooks. Qed.
Lemma ok_java : okT K I follow_java_links.
Proof. unfold follow_java_links. hooks. Qed.
#[local] Hint Resolve ok_rewrite_script ok_java : okdb.
Lemma ok_put_binary_argv na off : mode = true -> okT K I (put_binary_argv na off).
Proof. intros Hx. unfold put_binary_argv, copy_args. hooks. Qed.
#[local] Hint Resolve ok_put_binary_argv : okdb.
Lemma ok_rewrite_binary ld f : mode = true -> okT K I (rewrite_binary ld f).
Proof. intros Hx. unfold rewrite_binary. hooks. Qed.
Lemma ok_perceived : okT K I make_perceived_absolute.
Proof. unfold make_perceived_absolute. hooks. Qed.
#[local] Hint Resolve ok_rewrite_binary ok_perceived : okdb.
Lemma ok_rewrite_execve ld f cmd b : mode = true -> okT K I (rewrite_execve ld f cmd b).
Proof. intros Hx. unfold rewrite_execve. hooks. Qed.
Lemma ok_copy_program ld f cmd b : mode = false -> okT K I (copy_program ld f cmd b).
Proof. intros Hx. unfold copy_program. hooks. Qed.
#[local] Hint Resolve ok_rewrite_execve ok_copy_program : okdb.
Lemma ok_script_interpreter cmd f p : okT K I (script_interpreter cmd f p).
Proof. unfold script_interpreter. hooks. Qed.
Lemma ok_binary_interpreter f p : okT K I (binary_interpreter f p).
Proof. unfold binary_interpreter. hooks. Qed.
#[local] Hint Resolve ok_script_interpreter ok_binary_interpreter : okdb.
Lemma ok_handle_program f p : steering -> okT K I (handle_program f p).
Proof. intros Hx. unfold handle_program. hooks. Qed.

Lemma ok_print_arg_loop m n sep addr cp_ argstr : okT K I (print_arg_loop m n sep addr cp_ argstr).
Proof.
  revert n sep addr cp_ argstr; induction m; intros; cbn [print_arg_loop]; unfold get_str_prov, set_str_buf; hooks.
Qed.
#[local] Hint Resolve ok_print_arg_loop : okdb.
Lemma ok_begin_execve_prov : okT K I print_begin_execve_prov.
Proof. unfold print_begin_execve_prov, print_arg_prov. apply ok_in_prov_mode. hooks. Qed.
#[local] Hint Resolve ok_handle_program ok_begin_execve_prov : okdb.
Lemma ok_detach_hook sig : steering -> okT K I (detach_tcp sig).
Proof. intros Hx. by apply Hdetach. Qed.
#[local] Hint Resolve ok_detach_hook : okdb.
Lemma ok_detach_cde n : steering -> okT K I (detach_cde n).
Proof. intros Hx. unfold detach_cde. hooks. Qed.
#[local] Hint Resolve ok_detach_cde : okdb.
Lemma ok_lookup_exec f : steering -> okT K I (lookup_exec f).
Proof. intros Hx. unfold lookup_exec. hooks. Qed.
Lemma ok_lookup_audit f : steering -> okT K I (lookup_audit f).
Proof. intros Hx. unfold lookup_audit. hooks. Qed.
Lemma ok_done_execve n : okT K I (done_execve n).
Proof. unfold done_execve. apply ok_in_prov_mode. hooks. Qed.
#[local] Hint Resolve ok_lookup_exec ok_lookup_audit ok_done_execve : okdb.
Lemma ok_begin_execve : steering -> okT K I CDE_begin_execve.
Proof. intros Hx. unfold CDE_begin_execve. hooks. Qed.
Lemma ok_push_pid p : okT K I (push_pid p).
Proof. unfold push_pid. hooks. Qed.
#[local] Hint Resolve ok_push_pid : okdb.
Lemma ok_end_execve_prov : okT K I print_end_execve_prov.
Proof. unfold print_end_execve_prov, add_pid_prov. apply ok_in_prov_mode. hooks. Qed.
#[local] Hint Resolve ok_end_execve_prov : okdb.
Lemma ok_end_execve : okT K I CDE_end_execve.
Proof. unfold CDE_end_execve. hooks. Qed.

(** ** Every traced call, at its entry and at its exit *)

(** The fact of a hook, by its name. *)
Ltac hook_fact :=
  lazymatch goal with
  | |- ok _ _ (CDE_begin_standard_fileop _) _ => apply ok_standard_fileop
  | |- ok _ _ (CDE_begin_at_fileop _) _ => apply ok_at_fileop
  | |- ok _ _ CDE_begin_chdir _ => exact (ok_standard_fileop _)
  | |- ok _ _ CDE_begin_mkdir _ => exact (ok_standard_fileop _)
  | |- ok _ _ CDE_begin_rmdir _ => exact (ok_standard_fileop _)
  | |- ok _ _ CDE_begin_mkdirat _ => exact (ok_at_fileop _)
  | |- ok _ _ CDE_begin_unlinkat_rmdir _ => exact (ok_at_fileop _)
  | |- ok _ _ CDE_end_readlink _ => exact (ok_end_readlink _ _)
  | |- ok _ _ CDE_end_readlinkat _ => exact (ok_end_readlink _ _)
  | |- ok _ _ CDE_begin_file_unlink _ => exact ok_unlink
  | |- ok _ _ CDE_begin_file_unlinkat _ => exact ok_unlinkat
  | |- ok _ _ CDE_begin_file_link _ => exact ok_link
  | |- ok _ _ CDE_begin_file_linkat _ => exact ok_linkat
  | |- ok _ _ CDE_begin_file_symlink _ => exact ok_symlink
  | |- ok _ _ CDE_begin_file_symlinkat _ => exact ok_symlinkat
  | |- ok _ _ CDE_begin_file_rename _ => exact ok_begin_rename
  | |- ok _ _ CDE_begin_file_renameat _ => exact ok_begin_renameat
  | |- ok _ _ CDE_end_file_rename _ => exact ok_end_file_rename
  | |- ok _ _ CDE_end_file_renameat _ => exact ok_end_file_renameat
  | |- ok _ _ CDE_end_chdir _ => exact ok_end_fchdir
  | |- ok _ _ CDE_end_fchdir _ => exact ok_end_fchdir
  | |- ok _ _ (CDE_end_mkdir _) _ => apply ok_end_mkdir
  | |- ok _ _ CDE_end_mkdirat _ => exact (ok_end_mkdir _)
  | |- ok _ _ (CDE_end_rmdir _) _ => apply ok_end_rmdir
  | |- ok _ _ CDE_end_unlinkat_rmdir _ => exact (ok_end_rmdir _)
  | |- ok _ _ CDE_end_getcwd _ => exact ok_end_getcwd
  | |- ok _ _ CDE_begin_socket_bind_or_connect _ => exact ok_socket
  | |- ok _ _ (print_open_prov _) _ => apply ok_print_open_prov
  | |- ok _ _ (print_write_prov _) _ => apply ok_print_write_prov
  | |- ok _ _ (print_link_prov _ _) _ => apply ok_print_link_prov
  | |- ok _ _ (print_rename_prov _) _ => apply ok_print_rename_prov
  | |- ok _ _ print_close_prov _ => exact ok_print_close_prov
  | |- ok _ _ print_exit_prov _ => exact ok_print_exit_prov
  | |- ok _ _ CDE_begin_execve _ => by apply ok_begin_execve; auto
  | |- ok _ _ CDE_end_execve _ => exact ok_end_execve
  | |- ok _ _ skip _ => by apply ok_skip
  end.

Lemma ok_unlinkat_call entering : okT K I (sys_unlinkat entering).
Proof.
  unfold sys_unlinkat. eapply ok_bind; [apply ok_arg|]. intros flags _.
  destruct (_ =? _)%Z; destruct entering; cbn [when]; hook_fact.
Qed.

Lemma ok_sys_func call entering : (call = SYS_execve -> entering = true -> steering) -> okT K I (sys_func call entering).
Proof.
  intros Hx. destruct call; cbn [sys_func]; try apply ok_unlinkat_call;
    unfold sys_open, sys_openat, sys_creat, sys_access, sys_faccessat, sys_truncate, sys_truncate64,
      sys_stat, sys_stat64, sys_newfstatat, sys_oldstat, sys_lstat, sys_lstat64, sys_oldlstat, sys_statfs,
      sys_statfs64, sys_chdir, sys_mkdir, sys_mkdirat, sys_rmdir, sys_fchdir, sys_link, sys_linkat,
      sys_unlink, sys_symlink, sys_symlinkat, sys_readlink, sys_readlinkat, sys_rename, sys_renameat,
      sys_chown, sys_fchownat, sys_chmod, sys_fchmodat, sys_utimes, sys_futimesat, sys_utime, sys_mknod,
      sys_mknodat, sys_getcwd, sys_setxattr, sys_getxattr, sys_listxattr, sys_removexattr, sys_close,
      sys_bind, sys_connect, sys_execve, exit_hook, sys_func;
    destruct entering;
    unfold CDE_standard_fileop_macro, CDE_at_fileop_macro, print_syscall_write_prov_macro; cbn [when negb];
    lazymatch goal with
    | |- ok _ _ (bindM _ _) _ => eapply (ok_bind _ _ _ _ (fun _ => True)); [hook_fact|intros _ _; hook_fact]
    | _ => hook_fact
    end.
Qed.

Lemma ok_session l : (forall s t par, I s -> I (s {{ cur := t; parent := par }})) ->
  mode = true \/ (has_execve l -> exe) -> okT K I (session l).
Proof.
  intros Hcur Hx. apply ok_forM. intros [[[t par] call] entering] Hin.
  eapply (ok_bind _ _ _ _ (fun _ => True)); [intros s Hs; apply wpM_mod; split; [exact Logic.I|by apply Hcur]|]. intros _ _. apply ok_sys_func.
  intros -> ->. destruct Hx as [Hx|Hx]; [by left|]. right. apply Hx. by exists t, par.
Qed.
End Hooks.

(** ** Exec mode *)

(** The rest of the state that the hooks leave as it is *)
Definition frame : Type := config -> strace -> nat -> Z -> Z -> Prop.
Definition framed (P : config -> options -> Prop) (Q : frame) cf op ps i p f : Prop := P cf op /\ Q cf ps i p f.
Definition holds (P : config -> options -> strace -> nat -> Z -> Z -> Prop) (s : state) : Prop :=
  P (cfg s) (opts s) (procs s) (tcp_ix s) (pid (cur s)) (flags (cur s)).
Definition no_frame : frame := fun _ _ _ _ _ => True.

Definition no_file_change : contract := {| may c := fs_write_target c = None; rep _ _ := True |}.
Definition exec_config (cf : config) (op : options) : Prop :=
  Cde_exec_mode cf = true /\ CDE_exec_streaming_mode cf = false.

Lemma ok_create_exec {Fu : Fuel} (Q : frame) p :
  okT no_file_change (holds (framed exec_config Q)) (create_abspath_within_cderoot p).
Proof.
  intros s [[He Hs] HQ]. unfold create_abspath_within_cderoot, conf.
  wp1. wp1; [|done]. wp1. wp1. rewrite He. wp1. wp1.
  destruct (strncmp_eq _ _ _); [by wp1|]. wp1. wp1. rewrite Hs. wp1. wp1; [done|]. by wp1.
Qed.

(** Without a frame the table's operations keep the invariant. *)
Lemma ok_detach_frame {Fu : Fuel} (K : contract) (P : config -> options -> Prop) :
  (forall c, table_call c = true -> may K c) -> forall sig, okT K (holds (framed P no_frame)) (detach_tcp sig).
Proof.
  intros Kt sig s [HP _]. eapply wpM_mono; [exact (plain_detach_tcp K P Kt sig s HP)| |done].
  intros a s' [_ HP']. by split.
Qed.

(** In exec mode (without streaming) the tracer changes no file: whatever the system
    answers, through any sequence of stops of any processes, entering or leaving any of the
    traced calls, nothing is created, removed or opened for writing. The package and the
    rest of the disk are only changed by the program's own calls. *)
Theorem exec_hooks_change_no_file {Fu : Fuel} {W} (h : forall c, W -> reply c * W) (l : list stop_event) (s : state) (w : W)
    (He : Cde_exec_mode (cfg s) = true) (Hs : CDE_exec_streaming_mode (cfg s) = false) :
  Forall (fun e : event => fs_write_target (projT1 e) = None) (trace h (session l s) w).
Proof.
  assert (Hok : okT no_file_change (holds (framed exec_config no_frame)) (session l)).
  { apply (ok_session no_file_change (framed exec_config no_frame) (fun _ => True) true False); try done.
    - by intros cf op ps i p f [[] _].
    - intros c Hc. destruct c; try done. simpl in *. by case_match.
    - intros _ c Hc. by destruct c.
    - apply ok_create_exec.
    - intros p _. apply ok_create_exec.
    - intros _. apply (ok_detach_frame _ exec_config). intros c Hc. by destruct c.
    - by left. }
  by destruct (wp_run no_file_change h _ _ _ w ltac:(done) (Hok s (conj (conj He Hs) Logic.I))).
Qed.

(** A process that opens, then removes /etc/passwd. *)
Definition path_call (t : tcb) : tcb := t {{ u_arg := [1000%Z] }}.
Definition open_state (s : state) : state := s {{ cur -> u_arg := [1000%Z] }}.
Definition open_memory : Z -> ascii := memory_with 1000 (lit "/etc/passwd").
Definition open_unlink (t : tcb) : list stop_event :=
  [(path_call t, None, SYS_open, true); (path_call t, None, SYS_open, false);
   (path_call t, None, SYS_unlink, true); (path_call t, None, SYS_unlink, false)].

Lemma exec_hooks_change_no_file_witness :
  Forall (fun e : event => fs_write_target (projT1 e) = None)
    (trace (byte_os 8) (@session 5 (open_unlink (cur exec_state)) exec_state) open_memory).
Proof.
  apply (@exec_hooks_change_no_file 5 _ (byte_os 8) (open_unlink (cur exec_state)) exec_state open_memory); reflexivity.
Defined.

(** ** Audit mode *)

(** The package's root or a path below it. *)
Definition inside (root p : cstring) : Prop := p = root \/ below root p.

Definition audit_contract (exe : Prop) (rp : cstring -> cstring) (root : cstring) : contract :=
  {| may c := (forall p, fs_write_target c = Some p -> inside root p) /\ (touches_child c -> exe /\ steers c = true);
     rep := tame rp [] |}.
Definition audit_config (root : cstring) (cf : config) (op : options) : Prop :=
  Cde_exec_mode cf = false /\ CDE_ROOT_DIR cf = Some root /\ multi_repo_paths op = [].

Lemma render_app r l : r <> [] -> l <> [] -> render (r ++ l) = render r ++ render l.
Proof.
  intros Hr Hl. unfold render. simpl. f_equal. induction r as [|c r IH]; [done|].
  destruct r as [|d r]; [by destruct l|]. simpl app. rewrite !(join_slash_cons c).
  rewrite <- app_assoc. simpl. do 2 f_equal. apply IH. done.
Qed.

Section Audit.
Context {Fu : Fuel} (exe : Prop) (rp : cstring -> cstring) (r : list cstring) (Hr : Forall normal r) (Hne : r <> []).
Context (Q : frame).
Let root := render r.
Let K := audit_contract exe rp root.
Let P := framed (audit_config root) Q.
Let I : state -> Prop := holds P.

Lemma canonical_inside l : Forall normal l -> inside root (render (resolve (root ++ render l))).
Proof.
  intros Hl.
  assert (E : resolve (root ++ render l) = r ++ l).
  { unfold resolve, root. change (render l) with (slash :: join_slash l). rewrite walk_app, walk_render by done.
    rewrite <- walk_slash. change (slash :: join_slash l) with (render l). by rewrite walk_render. }
  rewrite E.
  destruct (decide (l = [])) as [->|Hl']; [left; by rewrite app_nil_r|right].
  exists (render l). split_and!; [by apply render_app|done|by apply no_escape_render].
Qed.

Lemma ok_create_audit p : okT K I (create_abspath_within_cderoot p).
Proof.
  intros s Hs. pose proof Hs as ((He & Hroot & _) & _). unfold create_abspath_within_cderoot, prepend_cderoot, conf_str, conf.
  wp1. wp1; [|done]. wp1. wp1. rewrite He. repeat (wp1; try done).
Qed.

Lemma ok_create_inside p : canonical p -> ok K I (create_abspath_within_cderoot p) (inside root).
Proof.
  intros (l & -> & Hl) s Hs. destruct Hs as ((He & Hroot & Hs) & HQ). unfold create_abspath_within_cderoot, prepend_cderoot, conf_str, conf.
  wp1. wp1; [|done]. wp1. wp1. rewrite He. wp1. wp1. wp1; [|done]. wp1. wp1. wp1. rewrite Hroot. wp1.
  assert (Habs : IS_ABSPATH (root ++ render l) = true) by done.
  wp1; [|done]. wp1. wp1. wp1. rewrite canonicalize_path_abs by done. wp1. wp1. wp1; [|done]. wp1.
  split; [by apply canonical_inside|by repeat split].
Qed.

(** The calls of okapi below the root are allowed, and its invariant is kept. *)
Lemma may_read c : okapi_reads c = true -> may K c.
Proof. destruct c; try done; intros _; split; try done; auto. Qed.
Lemma may_write q c : IS_ABSPATH q = true -> no_escape q -> okapi_writes (root ++ q) c -> may K c.
Proof.
  intros Ha Hn Hc. split; [|destruct c; simpl in *; tauto].
  intros p Hp. right. exists q. destruct c; simpl in *; try done; injection Hp as <-; rewrite Hc; by split_and!.
Qed.
Lemma sub_no_escape l suf : Forall normal l -> render l = [] ++ suf -> IS_ABSPATH suf = true -> no_escape suf.
Proof. intros Hl E Hs. by apply (contained_render [] l). Qed.
Lemma link_no_escape p t d suf : rep K (Readlink p) (Some t) -> rep K (Realpath (dirname p)) (Some d) ->
  link_path d t = [] ++ suf -> IS_ABSPATH suf = true -> no_escape suf.
Proof. intros Ht Hd. simpl in Ht, Hd. rewrite (Hd d eq_refl). apply (Ht t eq_refl). Qed.

Lemma ok_mirror_file q : no_escape q -> okT K I (create_mirror_file fuel fuel q [] root).
Proof.
  intros Hq. apply (ok_create_mirror_file K I [] root no_escape); try done.
  - apply may_read. - apply may_write. - apply sub_no_escape. - apply no_escape_render. - apply link_no_escape.
Qed.
Lemma ok_mirror_dirs_in q b : okT K I (create_mirror_dirs fuel fuel q [] root b).
Proof.
  apply (ok_create_mirror_dirs K I [] root no_escape); try done.
  - apply may_read. - apply may_write. - apply sub_no_escape. - apply no_escape_render. - apply link_no_escape.
Qed.

Lemma may_passive c : passive c = true -> may K c.
Proof.
  intros Hc. split; [|destruct c; simpl in *; try tauto; done].
  intros p Hp. destruct c; simpl in *; try done. by case_match.
Qed.

Lemma ok_root_dir : ok K I (conf_str CDE_ROOT_DIR) (fun d => d = root).
Proof.
  intros s Hs. pose proof Hs as ((_ & Hroot & _) & _). unfold conf_str, conf. wp1. wp1. rewrite Hroot. by wp1.
Qed.

Lemma ok_copy_audit f d : okT K I (copy_file_into_cde_root f d).
Proof.
  unfold copy_file_into_cde_root. eapply ok_bind; [apply ok_conf_any|]. intros e _.
  ok1. eapply ok_bind; [apply ok_canonicalize|]. intros p (l & -> & Hl).
  eapply ok_bind; [apply (ok_ignore_path K _ may_passive ok_create_audit)|]. intros b _. destruct b; [by apply ok_skip|].
  eapply ok_bind; [apply (ok_repo_id K _ (fun _ => True)); done|]. intros id _. destruct (0 <=? id)%Z; [by apply ok_skip|].
  eapply ok_bind; [apply ok_conf_any|]. intros log _.
  eapply (ok_bind _ _ _ _ (fun _ => True)).
  { destruct log; [|by apply ok_skip]. oks. }
  intros _ _. eapply ok_bind; [apply ok_root_dir|]. intros ? ->.
  unfold create_mirror_file_in_cde_package, prv. ok1.
  eapply (ok_bind _ _ _ _ (fun _ => True)).
  { apply ok_when; [|done]. intros _. apply ok_mirror_file. by apply no_escape_render. }
  intros _ _. apply (ok_vbprintf K _ may_passive).
Qed.

Lemma ok_dirs_audit p b : okT K I (make_mirror_dirs_in_cde_package p b).
Proof.
  unfold make_mirror_dirs_in_cde_package, prv. ok1.
  eapply (ok_bind _ _ _ _ (fun _ => True)).
  { apply ok_when; [|done]. intros _. eapply ok_bind; [apply ok_root_dir|]. intros ? ->. apply ok_mirror_dirs_in. }
  intros _ _. eapply ok_bind; [apply ok_conf_any|]. intros d _. apply (ok_vbprintf K _ may_passive).
Qed.

(** What [Hooks] asks for *)
Lemma audit_mode cf op ps i p f : P cf op ps i p f -> Cde_exec_mode cf = false.
Proof. by intros [[] _]. Qed.
Lemma audit_repo cf op ps i q f p : P cf op ps i q f ->
  (0 <=? repo_search 0 (multi_repo_paths op) p)%Z = true -> inside root p.
Proof. by intros [(_ & _ & ->) _]. Qed.
Lemma audit_steers : exe -> forall c, steers c = true -> may K c.
Proof. intros He c Hc. split; [intros p Hp; by destruct c|by split]. Qed.
Lemma audit_changes q c : inside root q -> changes q c -> may K c.
Proof.
  intros Hq Hc. split; [intros p Hp; unfold changes in Hc; congruence|].
  unfold changes in Hc. destruct c; simpl in *; try done; tauto.
Qed.
End Audit.

Lemma ok_session_audit {Fu : Fuel} exe rp r l : Forall normal r -> r <> [] -> (has_execve l -> exe) ->
  okT (audit_contract exe rp (render r)) (holds (framed (audit_config (render r)) no_frame)) (session l).
Proof.
  intros Hr Hne Hx. apply (ok_session _ _ (inside (render r)) false exe).
  - apply audit_mode.
  - apply may_passive.
  - done.
  - apply audit_steers.
  - intros _. apply audit_changes.
  - apply audit_repo.
  - by apply ok_create_audit.
  - by apply ok_create_inside.
  - intros _. by apply ok_copy_audit.
  - intros _. by apply ok_dirs_audit.
  - intros [Hm|He]; [done|]. apply ok_detach_frame. intros c Hc.
    destruct c; try done; first [by apply may_passive|by apply audit_steers].
  - intros s t par [HP _]. by split.
  - by right.
Qed.

(** In audit mode the tracer is an observer.  If no symbolic link of the file system
    climbs above the root directory and no repositories are configured, then whatever the
    system answers, through any sequence of stops of any processes, entering or leaving any
    of the traced calls (their hooks and the log), every file that is created, linked,
    removed or opened for writing is the package's root or below it; the memory of the
    processes is never written, and their registers are only set, or a process let go, if
    a process calls execve. *)
Theorem audit_hooks_confined {Fu : Fuel} {W} (h : forall c, W -> reply c * W) (rp : cstring -> cstring)
    (r : list cstring) (l : list stop_event) (s : state) (w : W)
    (Hr : Forall normal r) (Hne : r <> []) (Hh : forall c w, tame rp [] c (h c w).1)
    (He : Cde_exec_mode (cfg s) = false)
    (Hroot : CDE_ROOT_DIR (cfg s) = Some (render r)) (Hrepos : multi_repo_paths (opts s) = []) :
  Forall (fun e : event => (touches_child (projT1 e) -> has_execve l /\ steers (projT1 e) = true)
            /\ forall p, fs_write_target (projT1 e) = Some p -> inside (render r) p)
    (trace h (session l s) w).
Proof.
  pose proof (ok_session_audit (has_execve l) rp r l Hr Hne id s (conj (conj He (conj Hroot Hrepos)) Logic.I)) as Hwp.
  destruct (wp_run (audit_contract (has_execve l) rp (render r)) h _ _ _ w Hh Hwp) as [Htr _].
  eapply Forall_impl; [exact Htr|]. intros e [H1 H2]. by split.
Qed.

Definition audit_state : state :=
  state0 {{ cfg -> cde_options_initialized := true; cfg -> CDE_ROOT_DIR := Some (lit "/home/alice/pkg/cde-root");
            cfg -> cde_starting_pwd := lit "/home/alice"; cur -> current_dir := Some (lit "/home/alice") }}.

Lemma audit_hooks_confined_witness :
  Forall (fun e : event => (touches_child (projT1 e) -> has_execve (open_unlink (cur audit_state)) /\ steers (projT1 e) = true)
            /\ forall p, fs_write_target (projT1 e) = Some p -> inside (lit "/home/alice/pkg/cde-root") p)
    (trace (byte_os 8) (@session 5 (open_unlink (cur audit_state)) audit_state) open_memory).
Proof.
  apply (@audit_hooks_confined 5 _ (byte_os 8) (fun p => p) [lit "home"; lit "alice"; lit "pkg"; lit "cde-root"]
    (open_unlink (cur audit_state)) audit_state open_memory).
  - repeat constructor; by apply (bool_decide_eq_true_1 _).
  - done.
  - intros c w. destruct c; try exact Logic.I; intros t Ht; discriminate Ht.
  - reflexivity.
  - reflexivity.
  - reflexivity.
Defined.

(** The hook did remove the file of the package. *)
Example unlink_removes :
  map (@projT1 _ _) (trace (byte_os 8) (@CDE_begin_file_unlink 5 (open_state audit_state)) open_memory)
  = [Peekdata 0 1000; Peekdata 0 1008; Unlink (lit "/home/alice/pkg/cde-root/etc/passwd")].
Proof. vm_compute. reflexivity. Qed.

(** A path in a repository is redirected to itself in audit mode too, so there the
    hook of unlink removes the file of the repository itself, before the program's own
    call, which then fails: the one call that is made is the unlink of the real path. *)
Theorem repo_file_unlinked {Fu : Fuel} {W} (h : forall c, W -> reply c * W) (s : state) (d f p : cstring) (w : W)
    (He : Cde_exec_mode (cfg s) = false) (Hd : current_dir (cur s) = Some d)
    (Hp : canonicalize_path f d = Some p) (Hrepo : in_repo (multi_repo_paths (opts s)) p = true) :
  returns h (unlink_redirected f) s w [existT (Unlink p) (h (Unlink p) w).1] tt s (h (Unlink p) w).2.
Proof.
  unfold unlink_redirected. eapply returns_pure_bind; [reflexivity|]. rewrite Hd.
  eapply (returns_pure_bind _ _ _ _ s (Some p)).
  - unfold redirect_filename_into_cderoot, bindM, conf, get_repo_path_id, opt, gets. simpl.
    rewrite He, Hp. simpl. rewrite repo_search_nonneg by lia. by rewrite Hrepo.
  - eapply returns_sys_bind; [reflexivity|reflexivity|]. apply returns_ret.
Qed.

Definition repo_state : state := audit_state {{ opts -> multi_repo_paths := [lit "/home/alice/repo"] }}.

Lemma repo_file_unlinked_witness :
  returns (byte_os 8) (@unlink_redirected 0 (lit "repo/data")) repo_state open_memory
    [existT (Unlink (lit "/home/alice/repo/data")) EPERM] tt repo_state open_memory.
Proof.
  exact (@repo_file_unlinked 0 _ (byte_os 8) repo_state (lit "/home/alice") (lit "repo/data") (lit "/home/alice/repo/data")
    open_memory eq_refl eq_refl eq_refl eq_refl).
Defined.
