(* ===== verification/TraceSafe.v ===== *)
(** * What the tracer may do, from its start to its end

    The loop of the tracer makes no calls that change a file but those of the hooks; with
    the theorems on the hooks this confines whole runs. *)
From S2P Require Import Prelude CString Os PerfTimers SysLimits OkapiPath OkapiMirror OkapiContain Trie State ChildMem Redirect RedirectSpec.
From S2P Require Import Shm Sysent Qualify QualifySpec ProcTab ProcTabSafe Syscalls Provenance Execve Forks Calls TraceSyscall TraceLoop Handlers.

(** An invariant [I] of the loop, and what it is while a hook runs, [J], are kept by the
    whole loop if the operations that change the table or its size keep them. *)
Record loop_laws {Fu : Fuel} (K : contract) (I : state -> Prop) (J : nat -> state -> Prop) (good_pid : Z -> Prop) : Prop := {
  Kfile : forall c, fs_write_target c = None -> may K c;
  Hbenign : forall i f, benign f -> okT K I (mod_slot i f);
  Hkeep : forall f, keeps_table f -> okT K I (modM f);
  Hview : forall j f, keeps_view f -> okT K (J j) (modM f);
  Hon : forall A i (m : M state A), okT K (J i) m -> okT K I (on_tcb i m);
  Hpers : forall n, okT K I (set_personality n);
  Hopts : forall p o e, rep K (Ptrace_setoptions p o) e -> e <> 0%Z -> e <> ESRCH ->
    okT K I (modM (fun s => s {{ procs -> ptrace_setoptions := 0%Z }}));
  Hdrop : forall i, okT K I (droptcb i);
  Hfork : forall i, okT K I (internal_fork i);
  Hevent : forall st i, okT K I (handle_ptrace_event st i);
  Hwait : forall o p st, rep K (Wait4 (-1) o) (inl (p, st)) -> good_pid p;
  Hstopped : forall p st, good_pid p -> okT K I (stopped_tcb p st);
  Khook : forall j c e, okT K (J j) (sys_func c e);
}.
Arguments Kfile {Fu K I J good_pid}.
Arguments Hbenign {Fu K I J good_pid}.
Arguments Hkeep {Fu K I J good_pid}.
Arguments Hview {Fu K I J good_pid}.
Arguments Hon {Fu K I J good_pid} _ [A].
Arguments Hpers {Fu K I J good_pid}.
Arguments Hopts {Fu K I J good_pid}.
Arguments Hdrop {Fu K I J good_pid}.
Arguments Hfork {Fu K I J good_pid}.
Arguments Hevent {Fu K I J good_pid}.
Arguments Hwait {Fu K I J good_pid}.
Arguments Hstopped {Fu K I J good_pid}.
Arguments Khook {Fu K I J good_pid}.

Section Loop.
Context {Fu : Fuel} (K : contract) (I : state -> Prop) (J : nat -> state -> Prop) (good_pid : Z -> Prop).
Context (L : loop_laws K I J good_pid).

#[local] Hint Extern 0 (may K _) => apply (Kfile L); reflexivity : okdb.
Ltac keep := first [apply (Hkeep L); intros ?; by repeat split | apply (Hview L); intros ?; by repeat split].
Ltac loop_step :=
  lazymatch goal with
  | |- ok _ _ (modM _) _ => keep
  | |- ok _ _ (bindM (modM _) _) _ => eapply (ok_bind _ _ _ _ (fun _ => True)); [keep|intros ? _]
  | _ => ok_step
  end.
Ltac loop := repeat (loop_step; to_prop; try done); auto with okdb.

(** ** The functions of cde.c and provenance.c that the loop calls itself *)

Lemma ok_tcp_J {A} j (f : tcb -> A) : okT K (J j) (tcp f).
Proof. by intros s Hs. Qed.
Lemma ok_conf_J {A} j (f : config -> A) : okT K (J j) (conf f).
Proof. by intros s Hs. Qed.
Lemma ok_eprint_J j fmt args : okT K (J j) (eprintf fmt args).
Proof. unfold eprintf. loop. Qed.
#[local] Hint Resolve ok_tcp_J ok_conf_J ok_eprint_J | 1 : okdb.
Lemma loop_log_line j l : okT K (J j) (log_line l).
Proof. unfold log_line, fprintf_log, time_int, prv. loop. Qed.
#[local] Hint Resolve loop_log_line : okdb.
Lemma ok_ptrace_prov j : okT K (J j) print_ptrace_prov.
Proof. unfold print_ptrace_prov, in_prov_mode, prv. loop. Qed.
Lemma ok_exit_prov j : okT K (J j) print_exit_prov.
Proof. exact (Khook L j SYS_exit true). Qed.
Lemma ok_exitif_ j b : okT K (J j) (EXITIF b).
Proof. apply ok_EXITIF; [|done]. intros. by apply (Kfile L). Qed.
#[local] Hint Resolve ok_ptrace_prov ok_exit_prov ok_exitif_ : okdb.
Lemma ok_finish_setup j : okT K (J j) finish_setup_shmat.
Proof. unfold finish_setup_shmat, getregs, setregs_or_exit, shmat_result_by_ipc, peek_or_exit. loop. Qed.
Lemma ok_umoven_ j l n : okT K (J j) (umoven l n).
Proof.
  assert (Hl : forall n b a len l, okT K (J j) (umoven_loop n b a len l)).
  { induction n0; intros; simpl; unfold perror_ptrace, word_size; loop. }
  unfold umoven, perror_ptrace, word_size. loop.
Qed.
#[local] Hint Resolve ok_finish_setup ok_umoven_ : okdb.


(** ** The functions of process.c *)

#[local] Hint Extern 0 (plain_flags _) => split; reflexivity : okdb.
#[local] Hint Extern 1 (ok _ _ (mod_slot _ _) _) => apply (Hbenign L); intros ?; repeat split : okdb.
Lemma Kt c : table_call c = true -> may K c.
Proof. intros Hc. apply (Kfile L). by destruct c. Qed.
Lemma loop_pers n : okT K I (set_personality n).
Proof. exact (Hpers L n). Qed.
Lemma loop_drop i : okT K I (droptcb i).
Proof. exact (Hdrop L i). Qed.
Lemma loop_fork i : okT K I (internal_fork i).
Proof. exact (Hfork L i). Qed.
Lemma loop_event st i : okT K I (handle_ptrace_event st i).
Proof. exact (Hevent L st i). Qed.
Lemma loop_on_tcb {A} i (m : M state A) : okT K (J i) m -> okT K I (on_tcb i m).
Proof. exact (Hon L i m). Qed.
Lemma loop_benign i f : benign f -> okT K I (mod_slot i f).
Proof. exact (Hbenign L i f). Qed.
Lemma loop_keep f : keeps_table f -> okT K I (modM f).
Proof. exact (Hkeep L f). Qed.
Lemma loop_hook j c e : okT K (J j) (sys_func c e).
Proof. exact (Khook L j c e). Qed.
#[local] Hint Resolve loop_hook Kt loop_pers loop_drop loop_fork loop_event loop_on_tcb loop_benign loop_keep : okdb.
#[local] Hint Resolve ok_slot_at ok_pid_at ok_flags_at ok_flag_at ok_or_flags ok_clear_flags ok_tcbtabsize : okdb.
#[local] Hint Resolve ok_set_tcp_last ok_pid2tcb ok_restart ok_clearbpt ok_resume_from ok_detach ok_cleanup : okdb.
#[local] Hint Resolve table_gets table_conf table_eprint | 1 : okdb.

Lemma ok_upeek i r : okT K I (upeek i r).
Proof. unfold upeek. loop. Qed.
Lemma ok_force_result i e v : okT K I (force_result i e v).
Proof. unfold force_result. loop. Qed.
Lemma ok_arg_at i n : okT K I (arg_at i n).
Proof. unfold arg_at. loop. Qed.
Lemma ok_entering i : okT K I (entering i).
Proof. unfold entering. loop. Qed.
Lemma ok_entry_at i : okT K I (entry_at i).
Proof. unfold entry_at. loop. Qed.
Lemma ok_poke p r v : okT K I (poke_ok p r v).
Proof. unfold poke_ok. loop. Qed.
Lemma ok_known i : okT K I (known_scno i).
Proof. unfold known_scno. loop. Qed.
#[local] Hint Resolve ok_upeek ok_force_result ok_arg_at ok_entering ok_entry_at ok_poke ok_known : okdb.
Lemma ok_change p n : okT K I (change_syscall p n).
Proof. unfold change_syscall. loop. Qed.
#[local] Hint Resolve ok_change : okdb.
Lemma ok_waiter i t : okT K I (waiter i t).
Proof. unfold waiter. loop. Qed.
#[local] Hint Resolve ok_waiter : okdb.
Lemma ok_suspend i t : okT K I (suspend_waiter i t).
Proof. unfold suspend_waiter. loop. Qed.
#[local] Hint Resolve ok_suspend : okdb.
Lemma ok_internal_wait i n : okT K I (internal_wait i n).
Proof. unfold internal_wait. loop. Qed.
Lemma ok_internal_exit i : okT K I (internal_exit i).
Proof. unfold internal_exit. loop. Qed.
Lemma ok_sys_exit i : okT K I (sys_exit i).
Proof. unfold sys_exit. loop. Qed.
Lemma ok_sys_ptrace i : okT K I (sys_ptrace i).
Proof. unfold sys_ptrace. loop. Qed.
#[local] Hint Resolve ok_internal_wait ok_internal_exit ok_sys_exit ok_sys_ptrace : okdb.

(** ** The functions of syscall.c *)

Lemma ok_detect i : okT K I (detect_personality i).
Proof. unfold detect_personality. loop. Qed.
#[local] Hint Resolve ok_detect : okdb.
Lemma ok_get_scno i : okT K I (get_scno i).
Proof. unfold get_scno. loop. Qed.
Lemma ok_fixup i : okT K I (syscall_fixup i).
Proof. unfold syscall_fixup. loop. Qed.
Lemma ok_get_error i : okT K I (get_error i).
Proof. unfold get_error. loop. Qed.
Lemma ok_read_args n k i : okT K I (read_args n k i).
Proof. revert k; induction n; intros k; simpl; loop. Qed.
#[local] Hint Resolve ok_get_scno ok_fixup ok_get_error ok_read_args : okdb.
Lemma ok_syscall_enter i : okT K I (syscall_enter i).
Proof. unfold syscall_enter. loop. Qed.
Lemma ok_set_subcall i n : okT K I (set_subcall i n).
Proof. unfold set_subcall. loop. Qed.
#[local] Hint Resolve ok_syscall_enter ok_set_subcall : okdb.
Lemma ok_shift i a b : okT K I (decode_shift i a b).
Proof. unfold decode_shift. loop. Qed.
#[local] Hint Resolve ok_shift : okdb.
Lemma ok_umove_word i a n : okT K I (umove_word i a n).
Proof. unfold umove_word. loop. Qed.
#[local] Hint Resolve ok_umove_word : okdb.
Lemma ok_deref_args n k i a z : okT K I (deref_args n k i a z).
Proof. revert k a; induction n; intros k a; simpl; loop. Qed.
#[local] Hint Resolve ok_deref_args : okdb.
Lemma ok_deref_call i a b : okT K I (decode_deref i a b).
Proof. unfold decode_deref. loop. Qed.
#[local] Hint Resolve ok_deref_call : okdb.
Lemma ok_subcalls i : okT K I (decode_subcalls i).
Proof. unfold decode_subcalls. loop. Qed.
Lemma ok_internal_syscall i : okT K I (internal_syscall i).
Proof. unfold internal_syscall. loop. Qed.
Lemma ok_printargs_loop n k i : okT K I (printargs_loop n k i).
Proof. revert k; induction n; intros k; simpl; loop. Qed.
#[local] Hint Resolve ok_printargs_loop : okdb.
Lemma ok_printargs i : okT K I (printargs i).
Proof. unfold printargs. loop. Qed.
#[local] Hint Resolve ok_printargs : okdb.
Lemma ok_run_sys_func i e : okT K I (run_sys_func i e).
Proof. unfold run_sys_func. loop. Qed.
Lemma ok_qualified i b : okT K I (qualified i b).
Proof. unfold qualified. loop. Qed.
Lemma ok_in_range i : okT K I (scno_in_range i).
Proof. unfold scno_in_range. loop. Qed.
#[local] Hint Resolve ok_subcalls ok_internal_syscall ok_run_sys_func ok_qualified ok_in_range : okdb.
Lemma ok_exiting i : okT K I (trace_syscall_exiting i).
Proof. unfold trace_syscall_exiting. loop. Qed.
Lemma ok_entering_ i : okT K I (trace_syscall_entering i).
Proof. unfold trace_syscall_entering. loop. Qed.
#[local] Hint Resolve ok_exiting ok_entering_ : okdb.
Lemma ok_trace_syscall i : okT K I (trace_syscall i).
Proof. unfold trace_syscall. loop. Qed.
#[local] Hint Resolve ok_trace_syscall : okdb.

(** ** The loop *)

Lemma ok_sigishandled i sig : okT K I (sigishandled i sig).
Proof. unfold sigishandled. loop. Qed.
Lemma ok_leader i : okT K I (leader_of i).
Proof. unfold leader_of. loop. Qed.
#[local] Hint Resolve ok_sigishandled ok_leader : okdb.
Lemma ok_group_exit i sig : okT K I (handle_group_exit i sig).
Proof. unfold handle_group_exit. loop. Qed.
Lemma ok_printleader i : okT K I (printleader i).
Proof. unfold printleader. loop. Qed.
Definition good_wait (r : (Z * Z) + Z) : Prop := match r with inl (p, _) => good_pid p | inr _ => True end.
Lemma ok_wait4 o : ok K I (sysM (Wait4 (-1) o)) good_wait.
Proof. apply ok_sys; [by apply (Kfile L)|]. intros [[p st]|e] Hr; [by apply ((Hwait L) o p st)|done]. Qed.
Lemma ok_wait_any : ok K I wait_any good_wait.
Proof.
  unfold wait_any. eapply ok_bind; [apply table_gets|]. intros wall _.
  eapply ok_bind; [apply ok_wait4|]. intros r Hr.
  eapply (ok_bind _ _ _ _ good_wait).
  { destruct r as [x|e]; [by apply ok_ret|]. destruct (wall && _); [|by apply ok_ret].
    eapply (ok_bind _ _ _ _ (fun _ => True)); [keep|intros _ _; apply ok_wait4]. }
  intros r' Hr'. eapply ok_bind; [apply table_gets|]. intros wall' _.
  destruct r' as [x|e]; [by apply ok_ret|]. destruct (_ && _); [|by apply ok_ret].
  eapply ok_bind; [apply ok_wait4|]. intros r'' Hr''.
  eapply (ok_bind _ _ _ _ (fun _ => True)); [|intros _ _; by apply ok_ret].
  destruct r''; [by apply ok_skip|auto with okdb].
Qed.
Lemma ok_restart_or_end op i sig : okT K I (restart_or_end op i sig).
Proof. unfold restart_or_end. loop. Qed.
#[local] Hint Resolve ok_group_exit ok_printleader ok_restart_or_end : okdb.
Lemma ok_end_killed i st : okT K I (end_killed i st).
Proof. unfold end_killed, printtrailer. loop. Qed.
Lemma ok_end_exited i p st : okT K I (end_exited i p st).
Proof. unfold end_exited. loop. Qed.
#[local] Hint Resolve ok_end_killed ok_end_exited : okdb.
Lemma ok_unset_options p o e : rep K (Ptrace_setoptions p o) e -> (e =? 0)%Z = false -> (e =? ESRCH)%Z = false ->
  okT K I (modM (fun s => s {{ procs -> ptrace_setoptions := 0%Z }})).
Proof. intros He H1%Z.eqb_neq H2%Z.eqb_neq. by apply ((Hopts L) p o e). Qed.
Lemma ok_handle_startup i : okT K I (handle_startup i).
Proof. unfold handle_startup, tracing. loop; eapply ok_unset_options; eassumption. Qed.
Lemma ok_handle_signal i sig : okT K I (handle_signal i sig).
Proof. unfold handle_signal. loop. Qed.
Lemma ok_vanished i : okT K I (handle_vanished i).
Proof. unfold handle_vanished, printtrailer. loop. Qed.
#[local] Hint Resolve ok_handle_startup ok_handle_signal ok_vanished : okdb.
Lemma ok_handle_syscall i : okT K I (handle_syscall i).
Proof. unfold handle_syscall, tracing. loop. Qed.
#[local] Hint Resolve ok_handle_syscall : okdb.
Lemma ok_handle_stopped i st : okT K I (handle_stopped i st).
Proof. unfold handle_stopped, tracing. loop. Qed.
#[local] Hint Resolve ok_handle_stopped : okdb.

(** The exit code is set on the way. *)
Context (Hexit : forall p v, okT K I (set_exit_code p v)).
#[local] Hint Resolve Hexit : okdb.
Lemma ok_handle_killed i p st : okT K I (handle_killed i p st).
Proof. unfold handle_killed. loop. Qed.
Lemma ok_handle_exited i p st : okT K I (handle_exited i p st).
Proof. unfold handle_exited. loop. Qed.
#[local] Hint Resolve ok_handle_killed ok_handle_exited : okdb.
Lemma ok_handle_stop p st : good_pid p -> okT K I (handle_stop p st).
Proof. intros Hp. pose proof ((Hstopped L) p st Hp). unfold handle_stop. loop. Qed.
Lemma ok_trace n : okT K I (trace n).
Proof.
  induction n as [|n IH]; simpl; [by apply ok_stop|].
  eapply ok_bind; [apply table_gets|]. intros count _. destruct (count =? 0)%Z; [by apply ok_ret|].
  eapply ok_bind; [apply ok_wait_any|]. intros [[p st]|e] Hr; [|loop].
  eapply ok_bind; [by apply ok_handle_stop|]. intros [r|] _; loop.
Qed.
#[local] Hint Resolve ok_trace : okdb.
Lemma ok_get_total t : okT K I (get_total_perf_time t).
Proof. unfold get_total_perf_time, get_total_time, PerfTimers.slot. loop. Qed.
#[local] Hint Resolve ok_get_total : okdb.
Lemma ok_run_trace n : okT K I (run_trace n).
Proof. unfold run_trace. loop. Qed.
End Loop.


(** ** Invariants of the configuration *)

Section Plain.
Context {Fu : Fuel} (K : contract) (P : config -> options -> Prop).
Let I (s : state) : Prop := P (cfg s) (opts s).
Context (Pers : forall cf op a, P cf op -> P (cf {{ personality := a }}) op).
Context (Kfile : forall c, fs_write_target c = None -> may K c).
Context (Khook : forall c e, okT K I (sys_func c e)).

#[local] Hint Extern 0 (may K _) => apply Kfile; reflexivity : okdb.
Lemma plain_table c : table_call c = true -> may K c.
Proof. intros Hc. apply Kfile. by destruct c. Qed.
#[local] Hint Resolve plain_table : okdb.
Lemma plain_keeps f : keeps_table f -> okT K I (modM f).
Proof. exact (plain_keep K P f). Qed.
#[local] Hint Resolve plain_keeps : okdb.
#[local] Hint Extern 1 (ok _ _ (modM _) _) => apply (plain_mod K P); reflexivity : okdb.
#[local] Hint Resolve plain_mod_slot plain_on_tcb plain_max_open plain_set_nprocs plain_tcp plain_droptcb plain_detach : okdb.
#[local] Hint Resolve ok_slot_at ok_pid_at ok_flags_at ok_flag_at ok_tcbtabsize ok_pid2tcb ok_restart ok_clearbpt : okdb.
#[local] Hint Resolve table_gets table_conf table_eprint | 1 : okdb.
Ltac loop := repeat (ok_step; to_prop; try done); auto with okdb.
Lemma plain_upeek i r : okT K I (upeek i r).
Proof. unfold upeek. loop. Qed.
Lemma plain_arg_at i n : okT K I (arg_at i n).
Proof. unfold arg_at. loop. Qed.
Lemma plain_entering i : okT K I (entering i).
Proof. unfold entering. loop. Qed.
Lemma plain_entry_at i : okT K I (entry_at i).
Proof. unfold entry_at. loop. Qed.
Lemma plain_poke p r v : okT K I (poke_ok p r v).
Proof. unfold poke_ok. loop. Qed.
Lemma plain_known i : okT K I (known_scno i).
Proof. unfold known_scno. loop. Qed.
#[local] Hint Resolve plain_upeek plain_arg_at plain_entering plain_entry_at plain_poke plain_known : okdb.
Lemma plain_change p n : okT K I (change_syscall p n).
Proof. unfold change_syscall. loop. Qed.
#[local] Hint Resolve plain_change : okdb.
Lemma plain_or i v : okT K I (or_flags i v).
Proof. unfold or_flags. loop. Qed.
Lemma plain_clear i v : okT K I (clear_flags i v).
Proof. unfold clear_flags. loop. Qed.
Lemma plain_cleanup : okT K I cleanup.
Proof. apply ok_cleanup; eauto with okdb. Qed.
#[local] Hint Resolve plain_or plain_clear plain_cleanup : okdb.
Lemma plain_expand : okT K I expand_tcbtab.
Proof. unfold expand_tcbtab. loop. Qed.
#[local] Hint Resolve plain_expand : okdb.
Lemma plain_shmget n : okT K I (shmget_loop n).
Proof. induction n; simpl; loop. Qed.
#[local] Hint Resolve plain_shmget : okdb.
Lemma plain_alloc_fields : okT K I alloc_tcb_cde_fields.
Proof. unfold alloc_tcb_cde_fields. loop. Qed.
#[local] Hint Resolve plain_alloc_fields : okdb.
Lemma plain_alloc p : okT K I (alloc_tcb p).
Proof. unfold alloc_tcb. loop. Qed.
#[local] Hint Resolve plain_alloc : okdb.

Lemma plain_setbpt i : okT K I (setbpt i).
Proof. unfold setbpt, setbpt_fork, setbpt_clone. loop. Qed.
Lemma plain_fork_tcb i : okT K I (fork_tcb i).
Proof. unfold fork_tcb. loop. Qed.
Lemma plain_add_children i d : okT K I (add_children i d).
Proof. unfold add_children. loop. Qed.
Lemma plain_set_parent i p : okT K I (set_parent i p).
Proof. unfold set_parent. loop. Qed.
#[local] Hint Resolve plain_setbpt plain_fork_tcb plain_add_children plain_set_parent : okdb.
Lemma plain_place i c : okT K I (place_clone i c).
Proof. unfold place_clone. loop. Qed.
Lemma plain_child_tcb i p : okT K I (child_tcb i p).
Proof. unfold child_tcb. loop. Qed.
#[local] Hint Resolve plain_place plain_child_tcb : okdb.

Lemma plain_in_prov m : okT K I m -> okT K I (in_prov_mode m).
Proof. intros Hm. unfold in_prov_mode, prv. loop. Qed.
Lemma plain_log_line l : okT K I (log_line l).
Proof. unfold log_line, fprintf_log, time_int, prv. loop. Qed.
#[local] Hint Resolve plain_in_prov plain_log_line : okdb.
Lemma plain_repo_path p : okT K I (get_repo_path_id p).
Proof. unfold get_repo_path_id, opt. loop. Qed.
#[local] Hint Resolve plain_repo_path : okdb.
Lemma plain_dir_fields : okT K I CDE_init_tcb_dir_fields.
Proof. unfold CDE_init_tcb_dir_fields. loop. Qed.
Lemma plain_spawn : okT K I print_spawn_prov.
Proof. unfold print_spawn_prov. apply plain_in_prov. loop. Qed.
#[local] Hint Resolve plain_dir_fields plain_spawn : okdb.
Lemma plain_new_child i p b : okT K I (handle_new_child i p b).
Proof. unfold handle_new_child. loop. Qed.
#[local] Hint Resolve plain_new_child : okdb.
Lemma plain_internal_fork i : okT K I (internal_fork i).
Proof. unfold internal_fork. loop. Qed.
Lemma plain_event st i : okT K I (handle_ptrace_event st i).
Proof. unfold handle_ptrace_event. loop. Qed.
Lemma plain_stopped_tcb p st : okT K I (stopped_tcb p st).
Proof. unfold stopped_tcb. loop. Qed.
Lemma plain_set_personality n : okT K I (set_personality n).
Proof. intros s Hs. apply wpM_mod. split; [done|]. by apply Pers. Qed.
Lemma plain_laws : loop_laws K I (fun _ => I) (fun _ => True).
Proof.
  constructor.
  - exact Kfile.
  - intros i f _. exact (plain_mod_slot K P i f).
  - exact (plain_keep K P).
  - intros _ f Hf. apply (plain_mod K P); intros s; by destruct (Hf s) as (? & ? & _).
  - intros A i m Hm. by apply (plain_on_tcb K P).
  - exact plain_set_personality.
  - intros. by apply (plain_mod K P).
  - exact (plain_droptcb K P plain_table).
  - exact plain_internal_fork.
  - exact plain_event.
  - done.
  - intros p st _. exact (plain_stopped_tcb p st).
  - intros _. exact Khook.
Qed.
Lemma plain_run_trace n : okT K I (run_trace n).
Proof.
  apply (ok_run_trace K I (fun _ => I) (fun _ => True) plain_laws).
  intros p v. apply (plain_mod K P); intros s; by case_match.
Qed.
End Plain.

(** ** Whole runs *)

Lemma ok_inv {A} (K K' : contract) (I I' : state -> Prop) (m : M state A) :
  (forall c, may K c -> may K' c) -> (forall c r, rep K' c r -> rep K c r) -> (forall s, I s <-> I' s) ->
  okT K I m -> okT K' I' m.
Proof.
  intros Hm Hr HI H s Hs. apply HI in Hs. eapply wp_contract; [done..|]. eapply wpM_mono; [by apply H| |done].
  intros a s' [_ Hs']. split; [done|]. by apply HI.
Qed.

Lemma ok_hooks_exec {Fu : Fuel} call e :
  okT no_file_change (fun s => exec_config (cfg s) (opts s)) (sys_func call e).
Proof.
  apply (ok_inv no_file_change _ (holds (framed exec_config no_frame))); [done|done|unfold holds, framed, no_frame; tauto|].
  apply (ok_sys_func no_file_change (framed exec_config no_frame) (fun _ => True) true False); try done.
  - by intros cf op ps i p f [[] _].
  - intros c Hc. destruct c; try done. simpl in *. by case_match.
  - intros _ c Hc. by destruct c.
  - apply ok_create_exec.
  - intros p _. apply ok_create_exec.
  - intros _. apply (ok_detach_frame _ exec_config). intros c Hc. by destruct c.
  - intros _ _. by left.
Qed.

(** In exec mode (without streaming) a whole run of the tracer's loop changes no file:
    from any state, for any number of processes that stop, end, fork and make calls in any
    order, and whatever the system answers, nothing is created, removed or opened for
    writing by the tracer. *)
Theorem trace_exec_changes_no_file {Fu : Fuel} {W} (h : forall c, W -> reply c * W) (n : nat) (s : state) (w : W)
    (He : Cde_exec_mode (cfg s) = true) (Hs : CDE_exec_streaming_mode (cfg s) = false) :
  Forall (fun e : event => fs_write_target (projT1 e) = None) (Os.trace h (run_trace n s) w).
Proof.
  assert (Hok : okT no_file_change (fun s => exec_config (cfg s) (opts s)) (run_trace n)).
  { apply (plain_run_trace no_file_change exec_config); [by intros cf op a []|done|apply ok_hooks_exec]. }
  by destruct (wp_run no_file_change h _ _ _ w ltac:(done) (Hok s (conj He Hs))).
Qed.

(** The files that change are in the package. *)
Definition package_contract (rp : cstring -> cstring) (root : cstring) : contract :=
  {| may c := forall p, fs_write_target c = Some p -> inside root p; rep := tame rp [] |}.

Lemma ok_hooks_audit {Fu : Fuel} rp r (Hr : Forall normal r) (Hne : r <> []) call e :
  okT (package_contract rp (render r)) (fun s => audit_config (render r) (cfg s) (opts s)) (sys_func call e).
Proof.
  apply (ok_inv (audit_contract True rp (render r)) _ (holds (framed (audit_config (render r)) no_frame)));
    [by intros c []|done|unfold holds, framed, no_frame; tauto|].
  apply (ok_sys_func _ _ (inside (render r)) false True).
  - apply audit_mode.
  - apply may_passive.
  - done.
  - apply audit_steers.
  - intros _. apply audit_changes.
  - apply audit_repo.
  - by apply ok_create_audit.
  - by apply ok_create_inside.
  - intros _. by apply ok_copy_audit.
  - intros _. by apply ok_dirs_audit.
  - intros _. apply ok_detach_frame. intros c Hc. destruct c; try done; first [by apply may_passive|by apply audit_steers].
  - intros _ _. by right.
Qed.

(** C3.  In audit mode, with no link that climbs above the root directory and no
    repositories, every file that a whole run of the tracer's loop creates, links, removes
    or opens for writing is the package's root or below it: from any state, for any number
    of processes that stop, end, fork and make calls in any order, whatever the system
    answers. *)
Theorem trace_audit_confined {Fu : Fuel} {W} (h : forall c, W -> reply c * W) (rp : cstring -> cstring)
    (r : list cstring) (n : nat) (s : state) (w : W)
    (Hr : Forall normal r) (Hne : r <> []) (Hh : forall c w, tame rp [] c (h c w).1)
    (He : Cde_exec_mode (cfg s) = false)
    (Hroot : CDE_ROOT_DIR (cfg s) = Some (render r)) (Hrepos : multi_repo_paths (opts s) = []) :
  Forall (fun e : event => forall p, fs_write_target (projT1 e) = Some p -> inside (render r) p)
    (Os.trace h (run_trace n s) w).
Proof.
  assert (Hok : okT (package_contract rp (render r)) (fun s => audit_config (render r) (cfg s) (opts s)) (run_trace n)).
  { apply (plain_run_trace _ (audit_config (render r))); [by intros cf op a (? & ? & ?)| |by apply ok_hooks_audit].
    intros c Hc p Hp. congruence. }
  by destruct (wp_run (package_contract rp (render r)) h _ _ _ w Hh (Hok s (conj He (conj Hroot Hrepos)))).
Qed.

(** ** A run *)

(** A machine whose traced processes stop and end as a list says, with their registers,
    and have the same memory. *)
Record stop_of := { stop_pid : Z; stop_status : Z; stop_regs : regs }.
Definition machine : Type := list stop_of * regs * (Z -> ascii).
Definition script_os (c : sys) (w : machine) : reply c * machine :=
  let '(l, rs, m) := w in
  match c return reply c * machine with
  | Wait4 _ _ =>
    match l with
    | x :: l' => (inl (stop_pid x, stop_status x), (l', stop_regs x, m))
    | [] => (inr ECHILD, w)
    end
  | Peekuser _ r => (inl (rs r), w)
  | Peekdata p a => ((byte_os 8 (Peekdata p a) m).1, w)
  | Getregs _ => (Some rs, w)
  | Ptrace_restart _ _ _ => (0%Z, w)
  | Ptrace_setoptions _ _ => (0%Z, w)
  | Sysconf_open_max => ((16, 0)%Z, w)
  | Unlink _ => (0%Z, w)
  | c => (null_reply c, w)
  end.

Definition call_regs (n ret a0 : Z) : regs := set_reg ORIG_RAX n (set_reg RAX ret (set_reg RDI a0 (set_reg CS 51 (fun _ => 0%Z)))).
Definition SIGTRAP_stop (p : Z) (rs : regs) : stop_of := {| stop_pid := p; stop_status := 1407; stop_regs := rs |}.
(** A process of a 64-bit machine that starts, removes /etc/passwd and ends. *)
Definition unlink_run : list stop_of :=
  [{| stop_pid := 7; stop_status := 4991; stop_regs := fun _ => 0%Z |};
   SIGTRAP_stop 7 (call_regs 87 (-38) 1000); SIGTRAP_stop 7 (call_regs 87 0 1000);
   {| stop_pid := 7; stop_status := 0; stop_regs := fun _ => 0%Z |}].
Definition child_slot : slot :=
  slot0 {{ tcb_ -> pid := 7%Z; tcb_ -> flags := 11%Z; tcb_ -> current_dir := Some (lit "/home/alice");
           tcb_ -> opened_file_paths := repeat None 16 }}.
Definition tracing_state (s : state) : state :=
  s {{ procs := started X86_64; procs -> tcbtab := [child_slot; slot0]; procs -> nprocs := 1%Z;
       procs -> strace_child := 7%Z; max_open_ := 16%Z }}.
Definition run_machine : machine := (unlink_run, fun _ => 0%Z, open_memory).

Example unlink_run_calls :
  (fun r => (omap (fun e : event => match projT1 e with Unlink p => Some p | _ => None end) r.1.1, r.1.2))
    (run script_os (@run_trace 5 9 (tracing_state audit_state)) run_machine)
  = ([lit "/home/alice/pkg/cde-root/etc/passwd"], inr (Exit 0)).
Proof. vm_compute. reflexivity. Qed.

Lemma trace_exec_changes_no_file_witness :
  Forall (fun e : event => fs_write_target (projT1 e) = None)
    (Os.trace script_os (@run_trace 5 9 (tracing_state exec_state)) run_machine).
Proof. apply (@trace_exec_changes_no_file 5 _ script_os 9 (tracing_state exec_state) run_machine); reflexivity. Defined.

Lemma trace_audit_confined_witness :
  Forall (fun e : event => forall p, fs_write_target (projT1 e) = Some p -> inside (lit "/home/alice/pkg/cde-root") p)
    (Os.trace script_os (@run_trace 5 9 (tracing_state audit_state)) run_machine).
Proof.
  apply (@trace_audit_confined 5 _ script_os (fun p => p) [lit "home"; lit "alice"; lit "pkg"; lit "cde-root"] 9
    (tracing_state audit_state) run_machine).
  - repeat constructor; by apply (bool_decide_eq_true_1 _).
  - done.
  - intros c [[l rs] m]. destruct c; try exact Logic.I; intros t Ht; discriminate Ht.
  - reflexivity.
  - reflexivity.
  - reflexivity.
Defined.
