(* ===== verification/TraceTable.v ===== *)
(** * The table of processes in a whole run (strace.c: trace)

    The invariant of the table ([ProcTabSpec]) through every stop of every process,
    hooks included, on a kernel that reports new children and gives positive pids. *)
From S2P Require Import Prelude CString Os PerfTimers SysLimits OkapiPath OkapiMirror OkapiContain Trie State ChildMem Redirect RedirectSpec.
From S2P Require Import Shm Sysent Qualify ProcTab ProcTabSafe Syscalls Provenance Forks ProcTabSpec ForksSpec Execve Calls TraceSyscall TraceLoop Handlers TraceSafe.

(** What the tracer counts on: [wait4] for any process and [PTRACE_GETEVENTMSG] give
    positive pids, and [PTRACE_SETOPTIONS] fails only when the process has gone. *)
Definition sane_reply (c : sys) : reply c -> Prop :=
  match c return reply c -> Prop with
  | Wait4 p _ => fun r => match r with inl (q, _) => p = (-1)%Z -> (0 < q)%Z | inr _ => True end
  | Ptrace_geteventmsg _ => fun r => match r with inl m => (0 < to_int m)%Z | inr _ => True end
  | Ptrace_setoptions _ _ => fun e => e = 0%Z \/ e = ESRCH
  | _ => fun _ => True
  end.
Definition sane_kernel : contract := {| may _ := True; rep := sane_reply |}.

(** The kernel reports the three kinds of new children. *)
Definition reports_children (o : Z) : Prop := Z.land o trace_events = trace_events.
(** The settings that a run keeps; the exit code is one that [ex] allows. *)
Definition run_settings (child : Z) (ex : Z -> Prop) (x : Z * Z * Z) : Prop :=
  reports_children x.1.1 /\ ex x.1.2 /\ x.2 = child.

Section Hooks.
Context {Fu : Fuel} (mode : bool) (child : Z) (ex : Z -> Prop).
Let E := run_settings child ex.
Let K := sane_kernel.
Let C (cf : config) (_ : options) : Prop := Cde_exec_mode cf = mode.
Let I : state -> Prop := table_inv C E steady.
Let J (i : nat) : state -> Prop := viewed C E steady i.

#[local] Hint Extern 0 (may K _) => exact Logic.I : okdb.
Lemma Kall c : fs_write_target c = None -> may K c.
Proof. done. Qed.
Ltac view_step :=
  lazymatch goal with
  | |- ok _ _ (modM _) _ => apply table_view; intros ?; by repeat split
  | |- ok _ _ (bindM (modM _) _) _ =>
    eapply (ok_bind _ _ _ _ (fun _ => True)); [apply table_view; intros ?; by repeat split|intros ? _]
  | _ => ok_step
  end.
Ltac view := repeat (view_step; to_prop; try done); auto with okdb.

Section View.
Context (i : nat).
Lemma J_timers t s : J i s -> J i (put_timers t s).
Proof. done. Qed.
Lemma J_gets {A} (f : state -> A) : okT K (J i) (gets f).
Proof. by intros s Hs. Qed.
Lemma J_conf {A} (f : config -> A) : okT K (J i) (conf f).
Proof. by intros s Hs. Qed.
Lemma J_conf_str f : okT K (J i) (conf_str f).
Proof. unfold conf_str, conf. view. Qed.
#[local] Hint Resolve J_conf J_conf_str J_gets | 1 : okdb.
Lemma J_vbprintf fmt args : okT K (J i) (vbprintf fmt args).
Proof. unfold vbprintf. view. Qed.
#[local] Hint Resolve J_vbprintf : okdb.
Lemma J_mirror_file q src dst : okT K (J i) (create_mirror_file fuel fuel q src dst).
Proof. by apply (ok_create_mirror_file K (J i) src dst (fun _ => True)). Qed.
Lemma J_mirror_dirs q src dst b : okT K (J i) (create_mirror_dirs fuel fuel q src dst b).
Proof. by apply (ok_create_mirror_dirs K (J i) src dst (fun _ => True)). Qed.
#[local] Hint Resolve J_mirror_file J_mirror_dirs : okdb.
Lemma J_mirror_in_package q src dst : okT K (J i) (create_mirror_file_in_cde_package q src dst).
Proof. unfold create_mirror_file_in_cde_package, prv. view. Qed.
Lemma J_dirs q b : okT K (J i) (make_mirror_dirs_in_cde_package q b).
Proof. unfold make_mirror_dirs_in_cde_package, prv. view. Qed.
#[local] Hint Resolve J_mirror_in_package : okdb.
Lemma J_fetch p : okT K (J i) (fetch_remote p).
Proof. unfold fetch_remote. view. Qed.
Lemma J_prepend p : okT K (J i) (prepend_cderoot p).
Proof. unfold prepend_cderoot. view. Qed.
#[local] Hint Resolve J_fetch J_prepend : okdb.
Lemma J_create p : okT K (J i) (create_abspath_within_cderoot p).
Proof. unfold create_abspath_within_cderoot. view. Qed.

(** [J] as an invariant of [Handlers] *)
Definition view_frame : frame := fun _ ps j p f =>
  (E (settings ps) /\ table_ok [] (tcbtab ps) (nprocs ps + 0) /\ free_of (fun _ => False) (tcbtab ps))
  /\ j = i /\ exists t, tcbtab ps !! i = Some t /\ p = pid_of t /\ f = flags (tcb_ t).
Lemma J_framed s : holds (framed C view_frame) s <-> J i s.
Proof. unfold holds, framed, view_frame, J, viewed, table_inv, steady. simpl. tauto. Qed.
Lemma framed_ok {A} (m : M state A) : okT K (J i) m <-> okT K (holds (framed C view_frame)) m.
Proof. split; apply ok_inv; try done; intros s; rewrite J_framed; done. Qed.

(** ** The hooks *)

Lemma framed_create p : okT K (holds (framed C view_frame)) (create_abspath_within_cderoot p).
Proof. apply framed_ok, J_create. Qed.
Lemma J_ignore f b : okT K (J i) (ignore_path f b).
Proof. apply framed_ok. by apply (ok_ignore_path K _ (fun _ _ => Logic.I) framed_create). Qed.
Lemma J_repo_id p : okT K (J i) (get_repo_path_id p).
Proof. unfold get_repo_path_id, opt. view. Qed.
#[local] Hint Resolve J_ignore J_repo_id : okdb.
Lemma J_copy f d : okT K (J i) (copy_file_into_cde_root f d).
Proof. unfold copy_file_into_cde_root. view. Qed.

Lemma J_detach sig : okT K (J i) (detach_tcp sig).
Proof.
  intros s Hs. unfold detach_tcp. wp1. wp1. destruct Hs as (Hs & Hi & Ht). rewrite Hi.
  wp1. eapply wpM_mono; [by apply (table_store K C E steady)| |done]. intros [] s1 H1. simpl.
  wp1. apply (wp_ok K I); [|done|].
  - apply ok_detach; [done|apply table_benign|]. intros. by apply table_droptcb.
  - intros e s2 H2. eapply wpM_mono; [by apply (table_load K C E steady)| |done]. done.
Qed.

Lemma J_hook call e : okT K (J i) (sys_func call e).
Proof.
  apply framed_ok. apply (ok_sys_func K (framed C view_frame) (fun _ => True) mode True); try done.
  - by intros cf op ps j p f [HC _].
  - exact framed_create.
  - intros. apply framed_create.
  - intros _ f d. apply framed_ok, J_copy.
  - intros _ p b. apply framed_ok, J_dirs.
  - intros _ sig. apply framed_ok, J_detach.
  - intros _ _. by right.
Qed.
End View.

(** ** The operations of the loop *)

Lemma I_benign j f : benign f -> okT K I (mod_slot j f).
Proof. apply table_benign. Qed.
Lemma I_event st j : okT K I (handle_ptrace_event st j).
Proof.
  unfold handle_ptrace_event. cbn beta zeta. destruct (_ || _ || _); [|by apply ok_ret].
  eapply ok_bind; [apply ok_pid_at|]. intros p _.
  eapply ok_bind; [apply ok_sys; [done|intros r Hr; exact Hr]|]. intros [m|e] Hr.
  - apply table_new_child; done.
  - destruct (e =? ESRCH)%Z.
    + eapply (ok_bind _ _ _ _ (fun _ => True)); [by apply I_benign|]. intros _ _. by apply ok_ret.
    + eapply (ok_bind _ _ _ _ (fun _ => True)); [by apply table_eprintf|]. intros _ _.
      eapply (ok_bind _ _ _ _ (fun _ => True)); [|intros _ _; by apply ok_stop].
      apply ok_cleanup; [done|apply table_benign|apply table_keep|]. intros. by apply table_droptcb.
Qed.
Lemma I_fork j : okT K I (internal_fork j).
Proof.
  intros s Hs. unfold internal_fork. wp1. wp1. pose proof Hs as (_ & [HE _] & _).
  unfold reports_children in HE. simpl in HE. rewrite HE, Z.eqb_refl. by wp1.
Qed.
Lemma I_eprintf fmt args : okT K I (eprintf fmt args).
Proof. by apply table_eprintf. Qed.
#[local] Hint Resolve I_eprintf : okdb.
Lemma I_stopped p st : (0 < p)%Z -> okT K I (stopped_tcb p st).
Proof.
  intros Hp s Hs. unfold stopped_tcb. wp1. apply (wp_pid2tcb K C E); [done|done| |].
  - intros i t _. by wp1.
  - intros _ Hs'. wp1. wp1. wp1.
    + wp1. apply (table_alloc K C E); [done|done|done|]. intros i s1 H1.
      wp1. apply (wp_ok K I); [by apply table_or|done|]. intros _ s2 H2. by wp1.
    + clear Hs'. to_ok I. view.
Qed.

Lemma table_laws : loop_laws K I J (fun p => 0 < p)%Z.
Proof.
  constructor.
  - done.
  - exact I_benign.
  - apply table_keep.
  - intros j f. apply table_view.
  - intros A i m. apply table_on_tcb.
  - intros n s Hs. apply wpM_mod. by split.
  - intros p o e [He|He] H1 H2; [by destruct H1|by destruct H2].
  - intros i. by apply table_droptcb.
  - exact I_fork.
  - exact I_event.
  - intros o p st Hr. by apply Hr.
  - exact I_stopped.
  - exact J_hook.
Qed.
End Hooks.

(** ** The table through any stops *)

(** Processes stop or end, one after the other. *)
Definition handle_stops {Fu : Fuel} (l : list (Z * Z)) : M state unit :=
  forM l (fun x => let* _ := handle_stop x.1 x.2 in skip).

Lemma table_stop {Fu : Fuel} mode child ex p st : (forall v, ex v) -> (0 < p)%Z ->
  okT sane_kernel (table_inv (fun cf _ => Cde_exec_mode cf = mode) (run_settings child ex) steady) (handle_stop p st).
Proof.
  intros Hex Hp. apply (ok_handle_stop _ _ _ _ (table_laws mode child ex)); [|done].
  intros q v s (HC & (HE1 & _ & HE3) & HT & HF). apply wpM_mod. split; [done|].
  case_match; split_and!; try done; split_and!; done || apply Hex.
Qed.

(** C10.  The table of processes stays well formed: in either mode, through any sequence of
    stops and ends of processes, known or new, whatever calls they make and whatever the
    system answers to the tracer (with positive pids, and new children reported), an
    element is in use exactly when it has a pid, the pids are distinct and positive, and
    [nprocs] is the number of elements in use. *)
Theorem stops_keep_table {Fu : Fuel} {W} (h : forall c, W -> reply c * W) (l : list (Z * Z)) (s s' : state) (w : W)
    (Hh : forall c w, sane_reply c (h c w).1)
    (Hl : Forall (fun x => 0 < x.1)%Z l)
    (Ho : reports_children (ptrace_setoptions (procs s)))
    (Ht : table_ok [] (tcbtab (procs s)) (nprocs (procs s)))
    (Hr : (run h (handle_stops l s) w).1.2 = inl (tt, s')) :
  table_ok [] (tcbtab (procs s')) (nprocs (procs s')).
Proof.
  set (I := table_inv (fun cf _ => Cde_exec_mode cf = Cde_exec_mode (cfg s))
              (run_settings (strace_child (procs s)) (fun _ => True)) steady).
  assert (Hok : okT sane_kernel I (handle_stops l)).
  { apply ok_forM. intros x Hx. eapply ok_bind; [|intros _ _; by apply ok_skip].
    apply table_stop; [done|]. by apply (proj1 (Forall_forall _ _) Hl). }
  assert (Hs : I s) by (split_and!; [done..| |by intros ? []]; by apply (table_ok_eq _ _ _ _ Ht (eq_sym (Z.add_0_r _)))).
  destruct (wp_run sane_kernel h _ _ _ w Hh (Hok s Hs)) as [_ Hout]. unfold outcome in Hout. rewrite Hr in Hout.
  destruct Hout as (_ & _ & _ & HT & _). by apply (table_ok_eq _ _ _ _ HT (Z.add_0_r _)).
Qed.

(** ** The exit code *)

(** The stop is of a process that waits, or that is not known yet. *)
Definition set_aside (ps : strace) (p : Z) : bool :=
  match list_find (fun t => Is_true (pid_is p t)) (tcbtab ps) with
  | Some (_, t) => has_flag (flags (tcb_ t)) TCB_SUSPENDED
  | None => true
  end.
(** What the tracer will exit with: that of the program it started, or 256 and the signal
    that killed it. *)
Definition exit_code_after (ps : strace) (p st : Z) : Z :=
  if set_aside ps p || negb (p =? strace_child ps)%Z then exit_code ps
  else if WIFSIGNALED st then Z.lor 256 (WTERMSIG st)
  else if WIFEXITED st then WEXITSTATUS st
  else exit_code ps.

Lemma tcbtab_set s tab : tcbtab (procs (s {{ procs -> tcbtab := tab }})) = tab.
Proof. done. Qed.
Lemma flags_set t v : flags (tcb_ (t {{ tcb_ -> flags := v }})) = v.
Proof. done. Qed.

Section Exit.
Context {Fu : Fuel} (mode : bool) (child : Z).
Let K := sane_kernel.
Let C (cf : config) (_ : options) : Prop := Cde_exec_mode cf = mode.
Definition codes (v : Z) : Z * Z * Z -> Prop := run_settings child (eq v).
Let I (v : Z) : state -> Prop := table_inv C (codes v) steady.
Let laws (v : Z) := table_laws mode child (eq v).

Lemma I_set_exit v p v' s : I v s -> I (if (p =? child)%Z then v' else v)
  (if (p =? strace_child (procs s))%Z then s {{ procs -> exit_code := v' }} else s).
Proof.
  intros (HC & (HE1 & HE2 & HE3) & HT & HF). simpl in HE2, HE3. rewrite <- HE3.
  case_match; by split_and!.
Qed.
(** The exit code after a stop of a known process *)
Lemma exit_known v i p st s : I v s -> 
  let new := if (p =? child)%Z then (if WIFSIGNALED st then Z.lor 256 (WTERMSIG st)
                 else if WIFEXITED st then WEXITSTATUS st else v) else v in
  wpM K (if WIFSIGNALED st then handle_killed i p st
         else if WIFEXITED st then handle_exited i p st
         else if negb (WIFSTOPPED st) then eprintf "PANIC: pid %u not stopped\n" [PZ p] ;;; droptcb i ;;; retM None
         else handle_stopped i st) s (fun _ s' => I new s') (fun _ => True).
Proof.
  intros Hs. cbn zeta. destruct (WIFSIGNALED st); [|destruct (WIFEXITED st)].
  - unfold handle_killed, set_exit_code. wp1. wp1. eapply (wp_ok K (I _)); [apply (ok_end_killed _ _ _ _ (laws _))|by apply I_set_exit|done].
  - unfold handle_exited, set_exit_code. wp1. wp1. eapply (wp_ok K (I _)); [apply (ok_end_exited _ _ _ _ (laws _))|by apply I_set_exit|done].
  - assert (Hn : (if (p =? child)%Z then v else v) = v) by (by case_match). rewrite Hn.
    apply (wp_ok K (I v)); [|done|done]. destruct (negb _).
    + eapply (ok_bind _ _ _ _ (fun _ => True)); [by apply table_eprintf|]. intros _ _.
      eapply (ok_bind _ _ _ _ (fun _ => True)); [by apply table_droptcb|]. intros _ _. by apply ok_ret.
    + apply (ok_handle_stopped _ _ _ _ (laws v)).
Qed.

Lemma exit_stop v p st s : I v s -> (0 < p)%Z ->
  wpM K (handle_stop p st) s (fun _ s' => I (exit_code_after (procs s) p st) s') (fun _ => True).
Proof.
  intros Hs Hp. unfold handle_stop, stopped_tcb. pose proof Hs as (_ & (_ & Hv & Hc) & _). simpl in Hv, Hc.
  unfold exit_code_after, set_aside. rewrite <- Hv, Hc.
  wp1. wp1. apply (wp_pid2tcb K C (codes v)); [done|done| |].
  - intros i t Hf. rewrite Hf. apply list_find_Some in Hf as (Hi & _ & _). wp1. unfold flag_at, flags_at. wp1. wp1. wp1.
    apply wp_slot_at. intros t' Ht'. assert (t' = t) as -> by congruence. wp1. wp1.
    destruct (has_flag _ TCB_SUSPENDED); [by wp1|]. simpl.
    eapply wpM_mono; [by apply (exit_known v i p st s Hs)| |done]. intros a s'. by destruct (p =? child)%Z.
  - intros -> Hs'. wp1. wp1. simpl. destruct (followfork (procs s)).
    + wp1. apply (table_alloc K C (codes v)); [done|done|done|]. intros i s1 H1.
      wp1. unfold or_flags. apply wp_mod_slot. intros t Ht. wp1. unfold flag_at, flags_at. wp1. wp1. wp1.
      apply wp_slot_at. intros t' Ht'. wp1. wp1.
      rewrite tcbtab_set, list_lookup_alter_eq, Ht in Ht'. apply (inj Some) in Ht' as <-.
      assert (has_flag (Z.lor (flags (tcb_ t)) (Z.lor TCB_ATTACHED TCB_SUSPENDED)) TCB_SUSPENDED = true) as Hf
        by (by apply has_flag_set).
      rewrite flags_set.
      rewrite Hf. wp1. apply inv_alter; [|exact H1]. intros t0 _. split; [done|]. by apply has_flag_lor.
    + unfold eprintf. repeat (wp1; try done).
Qed.
End Exit.

(** C11.  What PTU will exit with is what the program that it started ends with: a stop or
    an end of a process sets the exit code only if the process is the program, and it has
    ended, to its exit status or to 256 and the signal that killed it; whatever the hooks
    do, whatever else ends, and whatever the system answers. *)
Theorem exit_code_of_program {Fu : Fuel} {W} (h : forall c, W -> reply c * W) (p st : Z) (s s' : state) (w : W) r
    (Hh : forall c w, sane_reply c (h c w).1) (Hp : (0 < p)%Z)
    (Ho : reports_children (ptrace_setoptions (procs s)))
    (Ht : table_ok [] (tcbtab (procs s)) (nprocs (procs s)))
    (Hr : (run h (handle_stop p st s) w).1.2 = inl (r, s')) :
  exit_code (procs s') = exit_code_after (procs s) p st.
Proof.
  set (child := strace_child (procs s)). set (v := exit_code (procs s)). set (mode := Cde_exec_mode (cfg s)).
  assert (Hs : table_inv (fun cf _ => Cde_exec_mode cf = mode) (codes child v) steady s).
  { split_and!; [done..| |by intros ? []]. by apply (table_ok_eq _ _ _ _ Ht (eq_sym (Z.add_0_r _))). }
  destruct (wp_run sane_kernel h _ _ _ w Hh (exit_stop mode child v p st s Hs Hp)) as [_ Hout].
  unfold outcome in Hout. rewrite Hr in Hout. by destruct Hout as (_ & (_ & -> & _) & _).
Qed.

(** ** A run *)

Lemma fork_os_sane c n : sane_reply c (fork_os c n).1.
Proof.
  destruct c; try exact Logic.I; [by left|]. cbn [fork_os fst sane_reply].
  pose proof (Nat.mod_upper_bound n 1000 ltac:(done)). unfold to_int. rewrite Z.mod_small; lia.
Qed.

(** The program starts, forks and is killed; its child starts. *)
Definition fork_run : list (Z * Z) := [(7, 4991); (7, 66943); (8, 4991); (7, 9)]%Z.
Definition forking_state (s : state) : state :=
  s {{ procs -> tcbtab := [child_slot; slot0]; procs -> nprocs := 1%Z; procs -> strace_child := 7%Z;
       procs -> ptrace_setoptions := trace_events; max_open_ := 16%Z }}.

Lemma one_process_ok : table_ok [] [child_slot; slot0] 1.
Proof.
  split; try done.
  - intros [|[|i]] t Ht _; simpl in Ht; simplify_eq; reflexivity.
  - intros i t _ Hi. by apply elem_of_nil in Hi.
  - by apply NoDup_singleton.
  - by repeat constructor.
Qed.

Lemma stops_keep_table_witness :
  match (run fork_os (@handle_stops 5 fork_run (forking_state audit_state)) 0).1.2 with
  | inl (_, s') => table_ok [] (tcbtab (procs s')) (nprocs (procs s'))
  | inr _ => False
  end.
Proof.
  destruct (run fork_os (@handle_stops 5 fork_run (forking_state audit_state)) 0).1.2 as [[[] s']|e] eqn:E;
    [|vm_compute in E; discriminate E].
  apply (@stops_keep_table 5 _ fork_os fork_run (forking_state audit_state) s' 0).
  - apply fork_os_sane.
  - repeat constructor.
  - reflexivity.
  - exact one_process_ok.
  - exact E.
Defined.

Lemma exit_code_of_program_witness :
  match (run fork_os (@handle_stop 5 7 11 (forking_state audit_state)) 0).1.2 with
  | inl (_, s') => exit_code (procs s') = exit_code_after (procs (forking_state audit_state)) 7 11
  | inr _ => False
  end.
Proof.
  destruct (run fork_os (@handle_stop 5 7 11 (forking_state audit_state)) 0).1.2 as [[r s']|e] eqn:E;
    [|vm_compute in E; discriminate E].
  apply (@exit_code_of_program 5 _ fork_os 7 11 (forking_state audit_state) s' 0 r).
  - apply fork_os_sane.
  - reflexivity.
  - reflexivity.
  - exact one_process_ok.
  - exact E.
Defined.

(** ** Orphans *)

(** The program forks 8, which forks 9 and ends; the program forks 10, 9 ends, 10 forks
    11: a stop of a process is its pid and status. *)
Definition fork_event : Z := 66943.
Definition orphan_run : list (Z * Z) :=
  [(7, 4991); (7, fork_event); (8, 4991); (8, fork_event); (9, 4991); (8, 0);
   (7, fork_event); (10, 4991); (9, 0); (10, fork_event); (11, 4991)]%Z.
(** The same without the orphan *)
Definition family_run : list (Z * Z) :=
  [(7, 4991); (7, fork_event); (8, 4991); (7, fork_event); (9, 4991); (8, 0); (9, fork_event); (10, 4991)]%Z.

(** The live elements whose parent is [i] *)
Definition children_in (tab : list slot) (i : nat) : nat :=
  length (filter (fun t => parent_ix t = Some i /\ pid_of t <> 0%Z) tab).
(** After a run the process in the element [i] enters a wait for any child: its counted
    and its real children, and whether it is suspended until one of them ends. *)
Definition waits_after (l : list (Z * Z)) (i : nat) : option (Z * nat * bool) :=
  match (run fork_os ((@handle_stops 5 l ;;; internal_wait i 2) (forking_state audit_state)) 0).1.2 with
  | inl (_, s) =>
    (fun t => (nchildren t, children_in (tcbtab (procs s)) i, has_flag (flags (tcb_ t)) TCB_SUSPENDED))
      <$> tcbtab (procs s) !! i
  | inr _ => None
  end.

(** [droptcb] leaves the [parent] of the children of the process that has ended; when
    another process gets the element, the end of such an orphan is counted there. A
    process with a live child then has no children, and is not suspended in its wait
    (the kernel gives it ECHILD, as the tracer has its child); without the orphan it is. *)
Theorem orphan_miscounted :
  waits_after orphan_run 1 = Some (0%Z, 1, false) /\ waits_after family_run 2 = Some (1%Z, 1, true).
Proof. split; vm_compute; reflexivity. Qed.
