(* ===== verification/TraceSpec.v ===== *)
(** * What a stop at a call does (syscall.c)

    The results of calls, the calls with subcalls, and which calls are traced. *)
From S2P Require Import Prelude CString Os PerfTimers SysLimits Trie State ChildMem Shm Sysent Qualify QualifySpec ProcTab ProcTabSafe Provenance Forks.
From S2P Require Import Calls TraceSyscall.

(** ** Steps *)

Lemma bind_eq {A B} (m : M state A) (f : A -> M state B) s a s' : m s = Ret (a, s') -> bindM m f s = f a s'.
Proof. intros H. unfold bindM. by rewrite H. Qed.
Lemma slot_at_eq i t s : tcbtab (procs s) !! i = Some t -> slot_at i s = Ret (t, s).
Proof. intros H. unfold slot_at. rewrite (bind_eq _ _ _ (tcbtab (procs s)) s) by done. by rewrite H. Qed.
Lemma mod_slot_eq i f t s : tcbtab (procs s) !! i = Some t ->
  mod_slot i f s = Ret (tt, s {{ procs -> tcbtab := alter f i (tcbtab (procs s)) }}).
Proof. intros H. unfold mod_slot. by rewrite (bind_eq _ _ _ t s) by (by apply slot_at_eq). Qed.

(** ** Results *)

(** The width of a result, and the values of that width as they are kept *)
Definition result_bits (a : abi) : Z := 8 * Z.of_nat (personality_wordsize a).
Definition is_result (a : abi) (v : Z) : Prop := (- 2 ^ (result_bits a - 1) <= v < 2 ^ (result_bits a - 1))%Z.

Lemma negated_errno_iff a v : is_result a v -> is_negated_errno a v = true <-> (- nerrnos < v < 0)%Z.
Proof.
  intros Hv. unfold is_negated_errno. rewrite Z.ltb_lt. fold (result_bits a).
  assert (Hb : result_bits a = 64%Z \/ result_bits a = 32%Z) by (destruct a; auto).
  unfold is_result in Hv. assert (Hn : (0 < nerrnos < 1000)%Z) by done. revert Hv Hn. generalize nerrnos. intros k.
  destruct Hb as [-> | ->]; simpl; intros Hv Hn.
  - rewrite <- (Z.mod_add (- k) 1), Z.mod_small by lia.
    destruct (Z.lt_ge_cases v 0); [rewrite <- (Z.mod_add v 1), Z.mod_small by lia|rewrite Z.mod_small by lia]; lia.
  - rewrite <- (Z.mod_add (- k) 1), Z.mod_small by lia.
    destruct (Z.lt_ge_cases v 0); [rewrite <- (Z.mod_add v 1), Z.mod_small by lia|rewrite Z.mod_small by lia]; lia.
Qed.

(** The call cannot fail: its result is not looked at. *)
Definition never_fails (a : abi) (n : Z) : bool :=
  match entry a n with Some e => negb (Z.land (sys_flags e) NF =? 0)%Z | None => false end.
Definition result_of (a : abi) (n v : Z) : Z * Z :=
  if negb (never_fails a n) && (- nerrnos <? v)%Z && (v <? 0)%Z then (-1, - v)%Z else (v, 0%Z).

Lemma entry_out a n : in_range a n = false -> entry a n = None.
Proof.
  unfold in_range, entry, nsyscalls. destruct (Z.ltb_spec n 0) as [|Hn]; [done|]. intros H.
  apply andb_false_iff in H as [H|H]; [apply Z.leb_gt in H; lia|]. apply Z.ltb_ge in H.
  apply lookup_ge_None. lia.
Qed.

(** C13.  The result of a call: the register's value, as a word of the process's width,
    between -530 and -1 is an error, stored as -1 and the positive error number; any
    other value, and any value of a call that never fails, is stored as it is, without an
    error. On both widths, whatever else the process's element holds. *)
Theorem get_error_correct {Fu : Fuel} (i : nat) (t : slot) (s : state)
    (Hi : tcbtab (procs s) !! i = Some t) (Hv : is_result (personality (cfg s)) (rax (procs s))) :
  let r := result_of (personality (cfg s)) (scno t) (rax (procs s)) in
  get_error i s = Ret (Go, s {{ procs -> tcbtab :=
    alter (fun t => t {{ tcb_ -> u_rval := r.1; tcb_ -> u_error := r.2 }}) i (tcbtab (procs s)) }}).
Proof.
  cbn zeta. set (a := personality (cfg s)) in *. set (v := rax (procs s)) in *.
  assert (Hnf : match (if in_range a (scno t) then entry a (scno t) else None) with
                | Some e => negb (Z.land (sys_flags e) NF =? 0)%Z
                | None => false
                end = never_fails a (scno t)).
  { unfold never_fails. destruct (in_range a (scno t)) eqn:E; [done|]. by rewrite entry_out. }
  assert (Hneg : is_negated_errno a v = (- nerrnos <? v)%Z && (v <? 0)%Z).
  { apply eq_true_iff_eq. rewrite negated_errno_iff, andb_true_iff, !Z.ltb_lt by done. lia. }
  unfold get_error, result_of. rewrite (bind_eq _ _ _ a s) by done. rewrite (bind_eq _ _ _ t s) by (by apply slot_at_eq).
  cbn zeta. rewrite Hnf. rewrite (bind_eq _ _ _ v s) by done. rewrite Hneg, <- andb_assoc.
  destruct (negb (never_fails a (scno t)) && _) eqn:E; [|by rewrite (bind_eq _ _ _ tt _ (mod_slot_eq _ _ _ _ Hi))].
  apply andb_true_iff in E as [_ [H1%Z.ltb_lt H2%Z.ltb_lt]%andb_true_iff].
  assert (Hint : to_int (- v) = (- v)%Z). { unfold to_int. unfold nerrnos in H1. rewrite Z.mod_small; lia. }
  rewrite Hint. by rewrite (bind_eq _ _ _ tt _ (mod_slot_eq _ _ _ _ Hi)).
Qed.

(** ** Calls with subcalls *)

Definition subcall_numbers : list Z :=
  map (fun n => SYS_socket_subcall + Z.of_nat n)%Z (seq 0 (Z.to_nat SYS_socket_nsubcalls))
  ++ map (fun n => SYS_ipc_subcall + Z.of_nat n)%Z (seq 0 (Z.to_nat SYS_ipc_nsubcalls)).
Lemma subcalls_in_tables :
  forallb (fun n => match entry I386 n, entry X86_64_32BIT_EMU n with Some _, Some _ => true | _, _ => false end) subcall_numbers = true
  /\ forallb (fun n => match entry X86_64 n with Some _ => false | None => true end) subcall_numbers = true.
Proof. split; vm_compute; reflexivity. Qed.
Lemma no_entry n : (303 <= n)%Z -> entry X86_64 n = None.
Proof.
  intros Hn. unfold entry. destruct (Z.ltb_spec n 0); [done|]. apply lookup_ge_None.
  change (length (sysent X86_64)) with 303. lia.
Qed.

(** C17.  A 64-bit process can crash the tracer: the numbers 400 and 420, which are no calls
    of x86-64, are taken for socketcall and ipc, and the entry of the subcall is read
    behind the end of the table (of 303 entries), whatever the subcall is; the tables of
    32-bit processes have these entries. *)
Theorem subcall_outside_table {Fu : Fuel} (i : nat) (t : slot) (s : state)
    (Hi : tcbtab (procs s) !! i = Some t) (Hp : personality (cfg s) = X86_64)
    (Hn : (scno t = 400 /\ 0 <= nth 0 (u_arg (tcb_ t)) 0 < 20)%Z \/ (scno t = 420 /\ 0 <= nth 0 (u_arg (tcb_ t)) 0 < 25)%Z) :
  decode_subcalls i s = Stop Segv
  /\ forallb (fun n => match entry I386 n, entry X86_64_32BIT_EMU n with Some _, Some _ => true | _, _ => false end) subcall_numbers = true.
Proof.
  split; [|apply subcalls_in_tables]. set (x := nth 0 (u_arg (tcb_ t)) 0%Z) in *.
  assert (Harg : arg_at i 0 s = Ret (x, s)) by (unfold arg_at; by rewrite (bind_eq _ _ _ t s) by (by apply slot_at_eq)).
  assert (Hset : forall n, (303 <= n)%Z -> set_subcall i n s = Stop Segv).
  { intros n Hn'. unfold set_subcall. rewrite (bind_eq _ _ _ tt _ (mod_slot_eq _ _ _ _ Hi)). unfold entry_at.
    set (s' := s {{ procs -> tcbtab := _ }}).
    rewrite (bind_eq _ _ _ X86_64 s') by (unfold conf, gets; by rewrite <- Hp).
    rewrite (bind_eq _ _ _ (t {{ scno := n }}) s').
    - cbn [scno]. change (scno (t {{ scno := n }})) with n. by rewrite no_entry.
    - apply slot_at_eq. subst s'. change (alter (fun t => t {{ scno := n }}) i (tcbtab (procs s)) !! i = Some (t {{ scno := n }})).
      by rewrite list_lookup_alter_eq, Hi. }
  unfold decode_subcalls. rewrite (bind_eq _ _ _ X86_64 s) by (unfold conf, gets; by rewrite <- Hp).
  rewrite (bind_eq _ _ _ (scno t) s).
  2: { unfold known_scno. rewrite (bind_eq _ _ _ X86_64 s) by (unfold conf, gets; by rewrite <- Hp).
       rewrite (bind_eq _ _ _ t s) by (by apply slot_at_eq). unfold known_scno_of, retM.
       rewrite no_entry; [done|]. destruct Hn as [[-> _]|[-> _]]; lia. }
  destruct Hn as [[-> Hx]|[-> Hx]]; cbn [Z.eqb]; unfold decode_deref, decode_shift; simpl; rewrite (bind_eq _ _ _ x s Harg);
    (destruct (_ || _) eqn:E; [to_prop; unfold SYS_socket_nsubcalls, SYS_ipc_nsubcalls in *; lia|]);
    unfold bindM; rewrite Hset; unfold SYS_socket_subcall, SYS_ipc_subcall; done || lia.
Qed.

(** ** What is traced *)

(** The names of the functions of the traced calls *)
Definition traced_functions (a : abi) : list string :=
  let ps := started a in
  omap (fun ne => if qual a ps (Z.of_nat ne.1) QUAL_TRACE then Some (func_name ne.2) else None)
       (imap (fun i e => (i, e)) (sysent a)).
(** The functions that the model has *)
Definition modelled_functions : list string :=
  map fst hooks ++ ["sys_exit"; "sys_ptrace"; "sys_listen"; "sys_accept"; "printargs"]%string.

(** C15.  Of the calls that have a hook, PTU traces all but statfs and newfstatat (statfs64
    for 32-bit processes): these reach the kernel with their paths as they are, in an
    execution run too. And no function is called for a traced call but the hooks and five
    others, on each of the personalities. *)
Theorem traced_calls :
  untraced X86_64 (map fst hooks) = ["statfs"; "newfstatat"]%string
  /\ untraced I386 (map fst hooks) = ["statfs"; "statfs64"]%string
  /\ untraced X86_64_32BIT_EMU (map fst hooks) = ["statfs"; "statfs64"]%string
  /\ forall a, forallb (fun f => existsb (String.eqb f) modelled_functions) (traced_functions a) = true.
Proof. split_and!; [vm_compute; reflexivity..|]. intros []; vm_compute; reflexivity. Qed.

(** ** Runs *)

(** A stopped 64-bit process in the call [n] with the first argument [a], and the result [v] *)
Definition call_slot (n a : Z) : slot := slot0 {{ tcb_ -> pid := 7%Z; tcb_ -> u_arg := [a; 0; 0; 0; 0; 0]%Z; scno := n }}.
Definition call_state (n a v : Z) : state :=
  state0 {{ procs := started X86_64; procs -> tcbtab := [call_slot n a]; procs -> rax := v%Z; cfg -> personality := X86_64 }}.

(** open fails with ENOENT; the same value is no error for getuid, which never fails. *)
Lemma get_error_correct_witness :
  get_error 0 (call_state 2 0 (-2)) = Ret (Go, (call_state 2 0 (-2)) {{ procs -> tcbtab :=
    [(call_slot 2 0) {{ tcb_ -> u_rval := (-1)%Z; tcb_ -> u_error := 2%Z }}] }})
  /\ get_error 0 (call_state 102 0 (-2)) = Ret (Go, (call_state 102 0 (-2)) {{ procs -> tcbtab :=
    [(call_slot 102 0) {{ tcb_ -> u_rval := (-2)%Z; tcb_ -> u_error := 0%Z }}] }}).
Proof.
  split.
  - apply (@get_error_correct 0 0 (call_slot 2 0)); [reflexivity|split; [discriminate|reflexivity]].
  - apply (@get_error_correct 0 0 (call_slot 102 0)); [reflexivity|split; [discriminate|reflexivity]].
Defined.

Lemma subcall_outside_table_witness : decode_subcalls 0 (call_state 400 1 0) = Stop Segv.
Proof.
  apply (@subcall_outside_table 0 0 (call_slot 400 1)); [reflexivity|reflexivity|].
  left. split; [reflexivity|split; [discriminate|reflexivity]].
Defined.
