(* ===== verification/ReadlinkSpec.v ===== *)
(** * Links read back

    The absolute links that mirroring made relative are seen by the program as they
    were: [CDE_end_readlink] undoes the rewriting of [mirror_absolute_link]. *)
From S2P Require Import Prelude CString Os StrUtils OkapiPath OkapiMirror OkapiContain OkapiSpec Trie State.
From S2P Require Import ChildMem Redirect RedirectSpec Shm MapsSpec ShmSpec Syscalls.

(** ** The text of a munged link *)

Lemma strstr_step c h n : strncmp_eq (c :: h) n (length n) = false -> strstr (c :: h) n = S <$> strstr h n.
Proof. intros H. simpl. by rewrite H. Qed.

(** The marker is the first double slash, where the target begins. *)
Lemma munged_marker n t :
  strstr (slash :: strcat_n n (lit "../") ++ slash :: t) (lit "//") = Some (3 * n)
  /\ drop (3 * n) (slash :: strcat_n n (lit "../") ++ slash :: t) = slash :: slash :: t.
Proof.
  induction n as [|n [IH1 IH2]]; [done|]. cbn [strcat_n].
  change (slash :: (lit "../" ++ strcat_n n (lit "../")) ++ slash :: t)
    with (slash :: dot :: dot :: (slash :: strcat_n n (lit "../") ++ slash :: t)).
  replace (3 * S n) with (3 + 3 * n) by lia. split; [|exact IH2].
  do 3 (rewrite strstr_step by reflexivity). by rewrite IH1.
Qed.

Lemma unmunge_munged n t : IS_ABSPATH t = true -> unmunge (munged_target n t) = Some t.
Proof.
  intros [t' ->]%IS_ABSPATH_cons. unfold unmunge, munged_target.
  assert (H1 : strncmp_eq (lit "./" ++ strcat_n n (lit "../") ++ slash :: t') (lit "./") 2 = true) by done.
  rewrite H1. change (lit "./" ++ strcat_n n (lit "../") ++ slash :: t')
    with (dot :: (slash :: strcat_n n (lit "../") ++ slash :: t')).
  rewrite strstr_step by reflexivity. destruct (munged_marker n t') as [-> H2]. revert H2. generalize (3 * n). intros k H2.
  change (S <$> Some k) with (Some (S k)). cbv iota beta. f_equal.
  replace (S k + 1) with (S (k + 1)) by lia. cbn [drop]. by rewrite <- drop_drop, H2.
Qed.

(** ** The hook *)

Section Readlink.
Context {Fu : Fuel} {W : Type} (h : forall c, W -> reply c * W) (s : state).
Let ws := sizeof_long (personality (cfg s)).
Let p := pid (cur s).
Context (regs_of : W -> regs) (mem : W -> Z -> ascii) (Ht : tracee h ws p (fun _ => True) regs_of mem).

Lemma memcpy_returns a b w :
  exists tr w', returns h (memcpy_to_child p a b (length b)) s w tr tt s w'
  /\ read_mem (mem w') a (length b) = b /\ regs_of w' = regs_of w.
Proof.
  destruct (memcpy_loop_copies h s p mem (tc_mem _ _ _ _ _ _ Ht) b (fun w w' => regs_of w' = regs_of w)
    ltac:(done) ltac:(intros x y z H1 H2; congruence) (tc_poke_regs _ _ _ _ _ _ Ht)
    (S (length b)) a 0 (length b) w) as (tr & w' & Hret & Hafter & Hregs); [lia|lia|].
  exists tr, w'. split; [exact Hret|]. split; [|done].
  apply nth_ext_nul; rewrite read_mem_length; [done|]. intros i Hi. rewrite read_mem_nth by done.
  rewrite (Hafter (a + Z.of_nat i)%Z).
  assert (Hp : length b <= poked ws (length b)).
  { unfold poked. destruct (_ && _) eqn:E; [|done]. pose proof (Nat.div_mod (length b) 4).
    pose proof (Nat.mod_upper_bound (length b) 4). lia. }
  destruct (in_range_dec a (a + Z.of_nat i) (poked ws (length b))) as [[_ E]|[Hn _]]; [|lia].
  unfold ws in E. rewrite E. unfold source. rewrite app_nth1 by lia. f_equal. lia.
Qed.

Lemma setregs_soft_returns rs w : exists tr w', returns h (setregs rs) s w tr tt s w'
  /\ regs_of w' = rs /\ forall b, mem w' b = mem w b.
Proof.
  destruct (tc_set _ _ _ _ _ _ Ht rs w) as (_ & Hrs & Hm). eexists _, _. split; [|by split].
  unfold setregs. eapply returns_pure_bind; [reflexivity|]. eapply returns_sys_bind; [done..|]. apply returns_ret.
Qed.

(** The file of the package is there, and looking for it changes nothing. *)
Context (root t : cstring) (Hroot : cde_cderoot_dir (cfg s) = root) (Habs : IS_ABSPATH t = true).
Context (Hthere : forall w, is_Some (h (Lstat (root ++ t)) w).1 /\ untouched regs_of mem w (h (Lstat (root ++ t)) w).2).

Lemma unmunge_returns n out w :
  let T := munged_target n t in
  regs_of w RAX = Z.of_nat (length T) -> read_mem (mem w) out (length T) = T -> length T < MAXPATHLEN -> (NUL ∉ T) ->
  exists tr w', returns h (unmunge_readlink out) s w tr tt s w'
  /\ string_at (mem w') out t /\ regs_of w' = set_reg RAX (Z.of_nat (length t)) (regs_of w).
Proof.
  intros T Hrax Hbuf Hlen Hnul.
  assert (Hint : to_int (regs_of w RAX) = Z.of_nat (length T)).
  { rewrite Hrax. unfold to_int. assert (Z.of_nat MAXPATHLEN < 2 ^ 31)%Z by reflexivity.
    rewrite Z.mod_small; lia. }
  assert (Hum : unmunge T = Some t) by by apply unmunge_munged.
  assert (HT : 0 < length T) by (unfold T, munged_target; simpl; lia).
  destruct (umoven_reads h s (fun _ => True) mem (tc_mem _ _ _ _ _ _ Ht) out (length T) w) as (t1 & Hr1); [by intros x _|done|].
  rewrite Hbuf in Hr1. destruct (Hthere w) as [[st Hst] [Hq1 Hq2]].
  set (w1 := (h (Lstat (root ++ t)) w).2) in *.
  destruct (memcpy_returns out (t ++ [NUL]) w1) as (t2 & w2 & Hr2 & Hm2 & Hrs2).
  destruct (setregs_soft_returns (set_reg RAX (Z.of_nat (length t)) (regs_of w)) w2) as (t3 & w3 & Hr3 & Hrs3 & Hm3).
  assert (Hun : until_nul T = T).
  { unfold until_nul. clear -Hnul. induction T as [|c T IH]; [done|]. apply not_elem_of_cons in Hnul as [Hc Hn].
    simpl. rewrite bool_decide_eq_false_2 by done. simpl. by rewrite IH. }
  eexists _, w3. split.
  - unfold unmunge_readlink. eapply returns_bind; [by apply (getregs_returns h s (fun _ => True) regs_of mem Ht)|].
    cbv zeta. rewrite Hint.
    assert (E : ((Z.of_nat (length T) <? 0) || (Z.of_nat MAXPATHLEN <=? Z.of_nat (length T)))%Z = false).
    { apply orb_false_iff. split; [apply Z.ltb_ge; lia|apply Z.leb_gt; lia]. }
    rewrite E, Nat2Z.id. eapply returns_bind; [exact Hr1|]. cbv iota beta.
    rewrite Nat.ltb_irrefl. eapply returns_pure_bind; [reflexivity|]. rewrite Hun, Hum.
    rewrite Habs. eapply returns_pure_bind; [reflexivity|]. eapply returns_pure_bind; [reflexivity|]. rewrite Hroot.
    eapply (returns_pure_bind _ _ _ _ s (root ++ t)).
    { apply IS_ABSPATH_cons in Habs as [t' ->]. by destruct root. }
    eapply returns_sys_bind; [exact Hst|reflexivity|]. cbv iota. eapply returns_pure_bind; [reflexivity|].
    fold p. eapply returns_bind; [|exact Hr3].
    replace (length t + 1) with (length (t ++ [NUL])) by (rewrite length_app; done). exact Hr2.
  - split; [|done]. unfold string_at. rewrite length_app in Hm2. simpl in Hm2.
    rewrite <- Hm2. apply map_ext. intros i. apply Hm3.
Qed.

(** A path that the hook does not fake on its own. *)
Definition plain_path (f : cstring) : Prop :=
  f <> lit "/proc/self/cwd" /\ (perceived_program_fullpath (cur s) = None
    \/ (f <> lit "/proc/self/exe" /\ f <> lit "/proc/" ++ itoa p ++ lit "/exe")).

(** C19.  Links read back.  A link to the absolute path [t] that mirroring made relative
    (the text [munged_target] that [mirror_absolute_link] gives it) is read by the program
    as [t] again: after readlink returned that text, [CDE_end_readlink] leaves [t] and its
    NUL in the program's buffer and [t]'s length as the result, and changes no other
    register. *)
Theorem readlink_roundtrip i o f n w
    (He : Cde_exec_mode (cfg s) = true) (Hrval : (0 <=? u_rval (cur s))%Z = true) (Hf : plain_path f)
    (Hin : path_in s (fun _ => True) mem w (nth i (u_arg (cur s)) 0%Z) f)
    (Hrax : regs_of w RAX = Z.of_nat (length (munged_target n t)))
    (Hbuf : read_mem (mem w) (nth o (u_arg (cur s)) 0%Z) (length (munged_target n t)) = munged_target n t)
    (Hlen : length (munged_target n t) < MAXPATHLEN) (Hnul : NUL ∉ munged_target n t) :
  exists tr w', returns h (CDE_end_readlink_internal i o) s w tr tt s w'
  /\ string_at (mem w') (nth o (u_arg (cur s)) 0%Z) t
  /\ regs_of w' = set_reg RAX (Z.of_nat (length t)) (regs_of w).
Proof.
  destruct Hin as (Hm & Hs & Hn & Hl).
  destruct (strcpy_from_child_reads h s (fun _ => True) mem w _ f (tc_mem _ _ _ _ _ _ Ht) Hm Hs Hn Hl) as (t1 & Hr1).
  destruct (unmunge_returns n (nth o (u_arg (cur s)) 0%Z) w Hrax Hbuf Hlen Hnul) as (t2 & w2 & Hr2 & Hstr & Hregs).
  eexists _, w2. split; [|by split].
  unfold CDE_end_readlink_internal. eapply returns_pure_bind; [reflexivity|].
  eapply returns_bind; [exact Hr1|]. eapply returns_pure_bind; [reflexivity|]. rewrite He.
  eapply returns_pure_bind; [reflexivity|]. rewrite Hrval. cbn [andb when].
  eapply returns_pure_bind; [reflexivity|]. fold p.
  eapply (returns_pure_bind _ _ _ _ s (lit "/proc/" ++ itoa p ++ lit "/exe")); [reflexivity|].
  eapply returns_pure_bind; [reflexivity|]. eapply returns_pure_bind; [reflexivity|]. cbv zeta.
  destruct Hf as [Hcwd Hexe].
  assert (E : (if strcmp_eq f (lit "/proc/self/exe") || strcmp_eq f (lit "/proc/" ++ itoa p ++ lit "/exe")
    then perceived_program_fullpath (cur s) else None) = None).
  { destruct Hexe as [->|[H1 H2]]; [by case_match|]. unfold strcmp_eq. by rewrite !bool_decide_eq_false_2. }
  rewrite E. unfold strcmp_eq. rewrite bool_decide_eq_false_2 by done. exact Hr2.
Qed.
End Readlink.

(** The program reads the link /usr/bin/java, which is in the package with a relative text. *)
Definition java_state : state :=
  exec_state {{ cur -> pid := 77%Z; cur -> u_arg := [1000; 2000; 64]%Z }}.
Definition java_text : cstring := munged_target 2 (lit "/etc/alternatives/java").
Definition java_memory (x : Z) : ascii :=
  if (x <? 2000)%Z then memory_with 1000 (lit "/usr/bin/java") x else memory_with 2000 java_text x.
(** All files exist. *)
Definition java_os (c : sys) (w : proc) : reply c * proc :=
  match c return reply c * proc with
  | Lstat _ => (Some {| st_kind := REG; st_mode := 493; st_mtime := 0; st_size := 1; st_uid := 0; st_gid := 0 |}, w)
  | c => proc_os 8 [] c w
  end.
Definition java_world : proc := (set_reg RAX (Z.of_nat (length java_text)) (fun _ => 0%Z), java_memory, []).

Lemma java_os_tracee p : tracee java_os 8 p (fun _ => True) (fun w => w.1.1) (fun w => w.1.2).
Proof. destruct (proc_os_tracee 8 [] p) as [[H1 H2] H3 H4 H5]. by split; [split| | |]. Qed.

Lemma readlink_roundtrip_witness :
  exists tr w', returns java_os (@CDE_end_readlink_internal 0 0 1) java_state java_world tr tt java_state w'
  /\ string_at (w'.1.2) 2000 (lit "/etc/alternatives/java")
  /\ w'.1.1 = set_reg RAX 22 (java_world.1.1).
Proof.
  apply (@readlink_roundtrip 0 _ java_os java_state (fun w => w.1.1) (fun w => w.1.2) (java_os_tracee 77)
    (lit "/home/bob/pkg/cde-root") (lit "/etc/alternatives/java") eq_refl eq_refl) with (f := lit "/usr/bin/java") (n := 2).
  - intros w. split; [|done]. by eexists.
  - reflexivity.
  - reflexivity.
  - split; [|by left]. by apply (bool_decide_eq_true_1 _).
  - split; [by intros x _|]. split; [reflexivity|]. split; [by apply (bool_decide_eq_true_1 _)|apply Nat.ltb_lt; reflexivity].
  - reflexivity.
  - reflexivity.
  - apply Nat.ltb_lt. reflexivity.
  - by apply (bool_decide_eq_true_1 _).
Defined.

(** ** AT_FDCWD *)

(** A relative path given with AT_FDCWD is taken for an unsupported one when the
    program passed the descriptor as a 32-bit value that the processor extended with
    zeros: it is compared as a 64-bit number, and the path is neither redirected nor
    copied; the hook reads the path and only prints messages. *)
Theorem at_fdcwd_not_recognised {Fu : Fuel} {W} (h : forall c, W -> reply c * W) (s : state) (mem : W -> Z -> ascii)
    name f w (Hm : child_memory h (sizeof_long (personality (cfg s))) (pid (cur s)) (fun _ => True) mem)
    (Hin : path_in s (fun _ => True) mem w (nth 1 (u_arg (cur s)) 0%Z) f)
    (Hfd : nth 0 (u_arg (cur s)) 0%Z = 4294967196%Z) (Hrel : IS_ABSPATH f = false)
    (Hquiet : Cde_verbose_mode (cfg s) = false) :
  to_int (nth 0 (u_arg (cur s)) 0%Z) = AT_FDCWD
  /\ exists t1 r w', returns h (CDE_begin_at_fileop name) s w
    (t1 ++ [existT (Eprintf "CDE WARNING (unsupported operation): %s '%s' is a relative path and dirfd != AT_FDCWD"
                     [PS (lit name); PS f]) r]) tt s w'
    /\ returns h (strcpy_from_child (nth 1 (u_arg (cur s)) 0%Z)) s w t1 f s w.
Proof.
  split; [by rewrite Hfd|]. destruct Hin as (Hr & Hs & Hn & Hl).
  destruct (strcpy_from_child_reads h s (fun _ => True) mem w _ f Hm Hr Hs Hn Hl) as (t1 & Hr1).
  eexists t1, _, _. split; [|exact Hr1].
  unfold CDE_begin_at_fileop. eapply returns_pure_bind; [reflexivity|].
  eapply returns_bind; [exact Hr1|]. eapply returns_pure_bind; [reflexivity|]. unfold vbprintf.
  eapply (returns_pure_bind _ _ _ s s tt).
  { unfold bindM, tcp, conf, gets. simpl. by rewrite Hquiet. }
  rewrite Hfd, Hrel. cbn [negb andb].
  change (4294967196 =? AT_FDCWD)%Z with false. cbn [negb].
  eapply returns_sys_bind; [reflexivity|reflexivity|]. apply returns_ret.
Qed.

(** openat(AT_FDCWD, "data.csv"), the descriptor moved to a 32-bit register. *)
Definition openat_state : state := exec_state {{ cur -> u_arg := [4294967196; 1000]%Z }}.

Lemma at_fdcwd_not_recognised_witness :
  to_int 4294967196 = AT_FDCWD
  /\ exists t1 r w', returns (byte_os 8) (@CDE_begin_at_fileop 0 "openat") openat_state (memory_with 1000 (lit "data.csv"))
    (t1 ++ [existT (Eprintf "CDE WARNING (unsupported operation): %s '%s' is a relative path and dirfd != AT_FDCWD"
                     [PS (lit "openat"); PS (lit "data.csv")]) r]) tt openat_state w'
    /\ returns (byte_os 8) (strcpy_from_child 1000) openat_state (memory_with 1000 (lit "data.csv")) t1 (lit "data.csv") openat_state
         (memory_with 1000 (lit "data.csv")).
Proof.
  apply (@at_fdcwd_not_recognised 0 _ (byte_os 8) openat_state (fun m => m)
    "openat" (lit "data.csv") (memory_with 1000 (lit "data.csv"))).
  - apply byte_os_memory.
  - split; [by intros x _|]. split; [reflexivity|]. split; [by apply (bool_decide_eq_true_1 _)|apply Nat.ltb_lt; reflexivity].
  - reflexivity.
  - reflexivity.
  - reflexivity.
Defined.
