(* ===== verification/ProvSpec.v ===== *)
(** * What the provenance log says

    The lines that the operations of [Provenance.v] write: an opened file and its close,
    the memory of the processes, the name of the log file. *)
From S2P Require Import Prelude CString Os OkapiPath OkapiMirror Trie State.
From S2P Require Import ChildMem StrQuote Provenance.

(** ** The writes of a run *)

Definition put_of (e : event) : option (Z * cstring) :=
  match projT1 e with Fputs f s => Some (f, s) | _ => None end.
(** What was written to files, in order. *)
Definition logged (tr : list event) : list (Z * cstring) := omap put_of tr.

Lemma logged_app t1 t2 : logged (t1 ++ t2) = logged t1 ++ logged t2.
Proof. apply omap_app. Qed.

(** A line of the log. *)
Definition line (t : Z) (l : list cstring) : cstring := words (itoa t :: l) ++ [newline].

Definition no_put (c : sys) : Prop := match c with Fputs _ _ => False | _ => True end.

Lemma logged_silent {W S A} (h : forall c, W -> reply c * W) (m : M S A) s w tr a s' w' :
  returns h m s w tr a s' w' -> issues_only no_put m s -> logged tr = [].
Proof.
  intros Hr Hm. destruct (wp_run (any_answer no_put) h (m s) _ _ w ltac:(done) Hm) as [Htr _].
  unfold returns in Hr. unfold trace in Htr. rewrite Hr in Htr. simpl in Htr. clear Hr.
  induction Htr as [|e tr He _ IH]; [done|].
  change (logged (e :: tr)) with (match put_of e with Some x => x :: logged tr | None => logged tr end).
  rewrite IH. unfold put_of. by destruct (projT1 e).
Qed.

Section Reads.
Context (K : contract) (I : state -> Prop).
Context (Kpeek : forall p a, may K (Peekdata p a)) (Kprint : forall f l, may K (Eprintf f l)).
#[local] Hint Resolve Kpeek Kprint : okdb.

Lemma ok_word_size_any : okT K I word_size.
Proof. by intros s Hs. Qed.
Lemma ok_tcp_any {A} (f : tcb -> A) : okT K I (tcp f).
Proof. by intros s Hs. Qed.
#[local] Hint Resolve ok_word_size_any ok_tcp_any : okdb.
Lemma ok_perror_any who a e : okT K I (perror_ptrace who a e).
Proof. unfold perror_ptrace, eprintf. oks. Qed.
#[local] Hint Resolve ok_perror_any : okdb.
Lemma ok_umovestr_loop_any n b a len l : okT K I (umovestr_loop n b a len l).
Proof. revert b a len l; induction n; intros; simpl; oks. Qed.
Lemma ok_umoven_loop_any n b a len l : okT K I (umoven_loop n b a len l).
Proof. revert b a len l; induction n; intros; simpl; oks. Qed.
#[local] Hint Resolve ok_umovestr_loop_any ok_umoven_loop_any : okdb.
Lemma ok_umovestr_any a len : okT K I (umovestr a len).
Proof. unfold umovestr. oks. Qed.
Lemma ok_umoven_any a len : okT K I (umoven a len).
Proof. unfold umoven. oks. Qed.
#[local] Hint Resolve ok_umovestr_any : okdb.
Lemma ok_strcpy_or_null_any a : okT K I (strcpy_from_child_or_null a).
Proof. unfold strcpy_from_child_or_null, strdup_buffer. oks. Qed.
End Reads.

Lemma issues_only_ok {A} P (m : M state A) s : okT (any_answer P) any_state m -> issues_only P m s.
Proof. intros H. eapply wpM_mono; [by apply H|done|done]. Qed.

(** ** A path argument *)

Section Log.
Context {W : Type} (h : forall c, W -> reply c * W).

Lemma log_line_returns s w f l : prov_logfile (prov s) = Some f ->
  exists t tr w', returns h (log_line l) s w tr tt s w' /\ logged tr = [(f, line t l)].
Proof.
  intros Hf. set (t := to_int (h Time w).1).
  eexists t, _, _. split.
  - unfold log_line, time_int. eapply returns_bind; [eapply returns_sys_bind; [reflexivity|reflexivity|apply returns_ret]|].
    unfold fprintf_log. eapply returns_pure_bind; [reflexivity|]. rewrite Hf.
    eapply returns_pure_bind; [reflexivity|]. eapply returns_sys_bind; [reflexivity|reflexivity|apply returns_ret].
  - done.
Qed.

Context (s : state) (mapped : Z -> Prop) (mem : W -> Z -> ascii).
Context (Hm : child_memory h (sizeof_long (personality (cfg s))) (pid (cur s)) mapped mem).

Lemma strcpy_or_null_reads w a t :
  mapped_range s mapped a (a + Z.of_nat (length t)) -> string_at (mem w) a t -> (NUL ∉ t) -> length t < MAXPATHLEN ->
  exists tr, returns h (strcpy_from_child_or_null a) s w tr (Some t) s w /\ logged tr = [].
Proof.
  intros Hmap Ht Hnul Hlen.
  destruct (umovestr_reads h s mapped mem Hm a MAXPATHLEN t w Hmap Ht Hnul Hlen) as (tr & rest & Hret).
  assert (Hr : exists tr, returns h (strcpy_from_child_or_null a) s w tr (Some t) s w).
  { eexists. unfold strcpy_from_child_or_null. eapply returns_bind; [exact Hret|]. cbv iota. unfold strdup_buffer.
    rewrite strchr_nul, take_app_exact by done. apply (returns_ret h (Some t)). }
  destruct Hr as [tr' Hr]. exists tr'. split; [exact Hr|].
  eapply logged_silent; [exact Hr|]. apply issues_only_ok. by apply ok_strcpy_or_null_any.
Qed.

(** The process has the path [f] at the argument [i] of its call; it stands for [p]. *)
Definition path_arg (w : W) (i : nat) (f p : cstring) : Prop :=
  let a := nth i (u_arg (cur s)) 0%Z in
  mapped_range s mapped a (a + Z.of_nat (length f)) /\ string_at (mem w) a f /\ (NUL ∉ f) /\ length f < MAXPATHLEN
  /\ canonicalize_path f (default [] (current_dir (cur s))) = Some p.

Lemma abspath_of_arg_reads w i f p : path_arg w i f p ->
  exists tr, returns h (abspath_of_arg i) s w tr (f, p) s w /\ logged tr = [].
Proof.
  intros (Hmap & Hs & Hn & Hl & Hp).
  destruct (strcpy_or_null_reads w _ f Hmap Hs Hn Hl) as (tr & Hr & Hlog).
  eexists. split.
  - unfold abspath_of_arg. eapply returns_pure_bind; [reflexivity|]. eapply returns_bind; [exact Hr|].
    eapply returns_pure_bind; [reflexivity|]. eapply returns_pure_bind; [reflexivity|]. rewrite Hp.
    eapply returns_pure_bind; [reflexivity|]. apply returns_ret.
  - by rewrite app_nil_r.
Qed.

Lemma print_io_prov_logs w i f p action fl : path_arg w i f p -> prov_logfile (prov s) = Some fl ->
  exists t tr w', returns h (print_io_prov i action) s w tr tt s w'
  /\ logged tr = [(fl, line t [u32 (pid (cur s)); io_word action; p])].
Proof.
  intros Hp Hf. destruct (abspath_of_arg_reads w i f p Hp) as (t1 & Hr1 & Hl1).
  destruct (log_line_returns s w fl [u32 (pid (cur s)); io_word action; p] Hf) as (t & t2 & w' & Hr2 & Hl2).
  exists t. eexists _, w'. split.
  - unfold print_io_prov. eapply returns_bind; [exact Hr1|]. eapply returns_pure_bind; [reflexivity|]. exact Hr2.
  - by rewrite logged_app, Hl1, Hl2.
Qed.
End Log.

(** ** Opening and closing a file *)

Lemma quiet_returns {W} (h : forall c, W -> reply c * W) s w fmt args : Cde_verbose_mode (cfg s) = false ->
  returns h (vbprintf fmt args) s w [] tt s w.
Proof. intros Hq. unfold returns, vbprintf, bindM, conf, gets. simpl. by rewrite Hq. Qed.

(** The state with the path of the descriptor [fd] stored. *)
Definition with_open (fd : Z) (p : cstring) (s : state) : state :=
  s {{ cur -> opened_file_paths := <[Z.to_nat fd:=Some p]> (opened_file_paths (cur s)) }}.

Lemma open_prov_returns {W} (h : forall c, W -> reply c * W) (s : state) mapped mem w
    (openat : bool) f p fl
    (Hm : child_memory h (sizeof_long (personality (cfg s))) (pid (cur s)) mapped mem) :
  let i := if openat then 1 else 0 in
  path_arg s mapped mem w i f p -> prov_logfile (prov s) = Some fl -> Prov_prov_mode (prov s) = true ->
  (0 <= u_rval (cur s) < Z.of_nat (length (opened_file_paths (cur s))))%Z -> Cde_verbose_mode (cfg s) = false ->
  exists t tr w', returns h (print_open_prov (if openat then "sys_openat" else "sys_open")) s w tr tt
                    (with_open (u_rval (cur s)) p s) w'
  /\ logged tr = [(fl, line t [u32 (pid (cur s)); io_word (open_action (nth (i + 1) (u_arg (cur s)) 0%Z)); p])].
Proof.
  intros i Hp Hf Hmode Hfd Hq.
  destruct (abspath_of_arg_reads h s mapped mem Hm w i f p Hp) as (t1 & Hr1 & Hl1).
  destruct (print_io_prov_logs h s mapped mem Hm w i f p (open_action (nth (i + 1) (u_arg (cur s)) 0%Z)) fl Hp Hf)
    as (t & t2 & w' & Hr2 & Hl2).
  exists t, (t1 ++ t2 ++ []), w'. split; [|by rewrite app_nil_r, logged_app, Hl1, Hl2].
  assert (Hset : set_opened_path (u_rval (cur s)) p s = Ret (tt, with_open (u_rval (cur s)) p s)).
  { unfold set_opened_path, opened_path, bindM, tcp, gets, deref. simpl.
    destruct (Z.ltb_spec (u_rval (cur s)) 0); [lia|].
    destruct (lookup_lt_is_Some_2 (opened_file_paths (cur s)) (Z.to_nat (u_rval (cur s)))) as [x ->]; [lia|]. done. }
  assert (Hgo : returns h (let* names := abspath_of_arg i in
      let* mode := prv Prov_prov_mode in let* fd := tcp u_rval in
      when (mode && (0 <=? fd)%Z)
        (let* flags := arg (i + 1) in print_io_prov i (open_action flags) ;;; set_opened_path fd names.2) ;;;
      vbprintf "%s: fd= %ld" [PS names.2; PZ fd]) s w (t1 ++ t2 ++ []) tt (with_open (u_rval (cur s)) p s) w').
  { eapply returns_bind; [exact Hr1|]. do 2 (eapply returns_pure_bind; [reflexivity|]).
    rewrite Hmode, (proj2 (Z.leb_le 0 (u_rval (cur s)))) by lia. cbn [andb when].
    eapply returns_bind.
    - eapply returns_pure_bind; [reflexivity|]. rewrite <- (app_nil_r t2). eapply returns_bind; [exact Hr2|].
      unfold returns. cbn [snd]. rewrite Hset. reflexivity.
    - by apply quiet_returns. }
  destruct openat; exact Hgo.
Qed.

Lemma close_prov_returns {W} (h : forall c, W -> reply c * W) (s : state) w fd p fl :
  Prov_prov_mode (prov s) = true -> prov_logfile (prov s) = Some fl -> Cde_verbose_mode (cfg s) = false ->
  to_int (nth 0 (u_arg (cur s)) 0%Z) = fd -> (0 <= fd)%Z ->
  opened_file_paths (cur s) !! Z.to_nat fd = Some (Some p) ->
  exists t tr w', returns h print_close_prov s w tr tt s w'
  /\ logged tr = [(fl, line t [u32 (pid (cur s)); lit "CLOSE"; p])].
Proof.
  intros Hmode Hf Hq Ha Hfd Hp.
  destruct (log_line_returns h s w fl [u32 (pid (cur s)); lit "CLOSE"; p] Hf) as (t & tr & w' & Hr & Hl).
  exists t, (tr ++ []), w'. split; [|by rewrite app_nil_r].
  unfold print_close_prov, in_prov_mode. eapply returns_pure_bind; [reflexivity|]. rewrite Hmode. cbn [when].
  eapply returns_pure_bind; [reflexivity|]. unfold arg. rewrite Ha.
  eapply (returns_pure_bind h (opened_path fd) _ s s (Some p)).
  { unfold opened_path, bindM, tcp, gets. simpl. destruct (Z.ltb_spec fd 0); [lia|]. by rewrite Hp. }
  cbv iota beta. eapply returns_pure_bind; [reflexivity|]. eapply returns_bind; [exact Hr|].
  by apply quiet_returns.
Qed.

(** C28.  A successful open (or openat) of the path [f] is logged in one line with the way
    it was opened and the canonical path, and the path is kept for the descriptor; from
    then on, whatever else changed in the tracer's state, a close of that descriptor is
    logged with that same path, and leaves the state as it is.  (So the descriptor stays
    in the table: closing it once more is logged once more.) *)
Theorem open_close_logged {W} (h : forall c, W -> reply c * W) (s : state) mapped mem w (openat : bool) f p fl
    (Hm : child_memory h (sizeof_long (personality (cfg s))) (pid (cur s)) mapped mem)
    (Hp : path_arg s mapped mem w (if openat then 1 else 0) f p)
    (Hf : prov_logfile (prov s) = Some fl) (Hmode : Prov_prov_mode (prov s) = true)
    (Hfd : (0 <= u_rval (cur s) < Z.of_nat (length (opened_file_paths (cur s))))%Z)
    (Hq : Cde_verbose_mode (cfg s) = false) :
  let action := match Z.land (nth (if openat then 2 else 1) (u_arg (cur s)) 0) 3 with
                | 0 => lit "READ" | 1 => lit "WRITE" | 2 => lit "READ-WRITE" | _ => lit "UNKNOWNIO" end%Z in
  exists t tr s1 w1, returns h (print_open_prov (if openat then "sys_openat" else "sys_open")) s w tr tt s1 w1
  /\ logged tr = [(fl, line t [u32 (pid (cur s)); action; p])]
  /\ forall s2 w2,
       opened_file_paths (cur s2) !! Z.to_nat (u_rval (cur s)) = opened_file_paths (cur s1) !! Z.to_nat (u_rval (cur s)) ->
       Prov_prov_mode (prov s2) = true -> prov_logfile (prov s2) = Some fl -> Cde_verbose_mode (cfg s2) = false ->
       to_int (nth 0 (u_arg (cur s2)) 0%Z) = u_rval (cur s) ->
       exists t' tr' w3, returns h print_close_prov s2 w2 tr' tt s2 w3
       /\ logged tr' = [(fl, line t' [u32 (pid (cur s2)); lit "CLOSE"; p])].
Proof.
  intros action. destruct (open_prov_returns h s mapped mem w openat f p fl Hm Hp Hf Hmode Hfd Hq) as (t & tr & w1 & Hr & Hl).
  exists t, tr, (with_open (u_rval (cur s)) p s), w1. split; [exact Hr|]. split.
  - rewrite Hl. unfold action, open_action. destruct openat; cbn [Nat.add];
      (destruct (Z.land _ 3) as [|[[]|[]|]|]; reflexivity).
  - intros s2 w2 Ho Hm2 Hf2 Hq2 Ha. apply close_prov_returns with (u_rval (cur s)); try done; [lia|].
    rewrite Ho. apply (list_lookup_insert_eq (opened_file_paths (cur s))). lia.
Qed.

(** The process 77 opens results.txt, in /home/alice, for writing; the descriptor is 3. *)
Definition writer_state : state := state0 {{
  prov -> Prov_prov_mode := true; prov -> prov_logfile := Some 9%Z;
  cur -> pid := 77%Z; cur -> current_dir := Some (lit "/home/alice"); cur -> u_arg := [1000; 577; 420]%Z;
  cur -> u_rval := 3%Z; cur -> opened_file_paths := repeat None 16 }}.
Definition writer_memory : Z -> ascii := memory_with 1000 (lit "out/../results.txt").

Lemma open_close_logged_witness :
  exists t tr s1 w1, returns (byte_os 8) (print_open_prov "sys_open") writer_state writer_memory tr tt s1 w1
  /\ logged tr = [(9%Z, line t [u32 77; lit "WRITE"; lit "/home/alice/results.txt"])]
  /\ forall s2 w2,
       opened_file_paths (cur s2) !! Z.to_nat 3 = opened_file_paths (cur s1) !! Z.to_nat 3 ->
       Prov_prov_mode (prov s2) = true -> prov_logfile (prov s2) = Some 9%Z -> Cde_verbose_mode (cfg s2) = false ->
       to_int (nth 0 (u_arg (cur s2)) 0%Z) = 3%Z ->
       exists t' tr' w3, returns (byte_os 8) print_close_prov s2 w2 tr' tt s2 w3
       /\ logged tr' = [(9%Z, line t' [u32 (pid (cur s2)); lit "CLOSE"; lit "/home/alice/results.txt"])].
Proof.
  apply (open_close_logged (byte_os 8) writer_state (fun _ => True) (fun m => m) writer_memory false
    (lit "out/../results.txt")).
  - apply byte_os_memory.
  - split; [by intros x _|]. split; [reflexivity|]. split; [by apply (bool_decide_eq_true_1 _)|].
    split; [apply Nat.ltb_lt; reflexivity|reflexivity].
  - reflexivity.
  - reflexivity.
  - split; [by apply Z.leb_le|by apply Z.ltb_lt].
  - reflexivity.
Defined.

(** ** The memory of the processes *)

(** What a pass found at a process: gone, or its memory. *)
Definition visit : Type := Z * option Z.
Definition visit_line (fl t : Z) (v : visit) : Z * cstring :=
  (fl, line t match v with
              | (p, None) => [u32 p; lit "LEXIT"]
              | (p, Some rss) => [u32 p; lit "MEM"; utoa 10 (Z.to_N rss)]
              end).
Definition gone (v : list visit) : list Z := omap (fun v => match v.2 with None => Some v.1 | Some _ => None end) v.
Definition seen_alive (v : list visit) : list Z := omap (fun v => (fun _ => v.1) <$> v.2) v.

Definition with_pids (l : list Z) (s : state) : state := s {{ prov -> pidlist := l }}.
Lemma with_pids_same s : with_pids (pidlist (prov s)) s = s.
Proof. destruct s as [? ? pr]. destruct pr. reflexivity. Qed.

(** What a pass over the list [l] makes of it: the processes that are gone are removed,
    each with its line; of the others, each has its line, except at most as many as were
    removed. *)
Definition pass_of (alive : Z -> bool) (l : list Z) (visits : list visit) (kept : list Z) : Prop :=
  exists skipped, l ≡ₚ gone visits ++ kept /\ kept ≡ₚ seen_alive visits ++ skipped
  /\ length skipped <= length (gone visits)
  /\ Forall (fun p => alive p = false) (gone visits) /\ Forall (fun p => alive p = true) (seen_alive visits).

Lemma pass_nil alive : pass_of alive [] [] [].
Proof. exists []. split_and!; try done; constructor. Qed.

Lemma pass_alive alive p rss l visits kept : alive p = true -> pass_of alive l visits kept ->
  pass_of alive (p :: l) ((p, Some rss) :: visits) (p :: kept).
Proof.
  intros Hp (sk & H1 & H2 & H3 & H4 & H5). exists sk. cbn. split_and!; [|by rewrite H2|done|done|by constructor].
  rewrite H1. apply Permutation_middle.
Qed.

Lemma pass_gone_last alive p visits kept : alive p = false -> pass_of alive [] visits kept ->
  pass_of alive [p] ((p, None) :: visits) kept.
Proof.
  intros Hp (sk & H1 & H2 & H3 & H4 & H5). apply Permutation_nil_l, eq_sym, app_eq_nil in H1 as [Hg ->].
  assert (Hg' : gone ((p, None) :: visits) = [p]) by (change (p :: gone visits = [p]); by rewrite Hg).
  rewrite Hg in H3. exists sk. rewrite Hg'. split_and!; [done|exact H2|simpl in *; lia|by constructor|exact H5].
Qed.

Lemma pass_gone alive p x l visits kept : alive p = false -> pass_of alive l visits kept ->
  pass_of alive (p :: l ++ [x]) ((p, None) :: visits) (x :: kept).
Proof.
  intros Hp (sk & H1 & H2 & H3 & H4 & H5). exists (x :: sk).
  change (gone ((p, None) :: visits)) with (p :: gone visits). split_and!.
  - apply perm_skip. rewrite <- Permutation_cons_append, H1. apply Permutation_middle.
  - rewrite H2. change (seen_alive ((p, None) :: visits)) with (seen_alive visits). apply Permutation_middle.
  - simpl. lia.
  - by constructor.
  - done.
Qed.

Lemma remove_at_last (pre : list Z) p : remove_at (length pre) (pre ++ [p]) = pre.
Proof.
  unfold remove_at. rewrite last_snoc, length_app. simpl. replace (length pre + 1 - 1) with (length pre) by lia.
  rewrite insert_app_r_alt, Nat.sub_diag by lia. apply take_app_length.
Qed.
Lemma remove_at_inside (pre : list Z) p l x : remove_at (length pre) (pre ++ p :: l ++ [x]) = (pre ++ [x]) ++ l.
Proof.
  unfold remove_at. replace (pre ++ p :: l ++ [x]) with ((pre ++ p :: l) ++ [x]) by (by rewrite <- app_assoc).
  rewrite last_snoc, length_app, <- app_assoc. simpl. rewrite insert_app_r_alt, Nat.sub_diag by lia. simpl.
  rewrite <- app_assoc. simpl. rewrite length_app. simpl.
  replace (pre ++ x :: l ++ [x]) with ((pre ++ x :: l) ++ [x]) by (by rewrite <- app_assoc).
  rewrite take_app_le by (rewrite length_app; simpl; lia).
  apply take_ge. rewrite length_app. simpl. lia.
Qed.

Lemma destruct_snoc {A} (l : list A) : l = [] \/ exists k x, l = k ++ [x].
Proof. destruct l as [|x l _] using rev_ind; eauto. Qed.

Section Pass.
Context {W : Type} (h : forall c, W -> reply c * W) (alive : Z -> bool) (fl : Z).
Context (Halive : forall p w, alive p = true <-> is_Some (h (Fopen (proc_file p "/stat") F_read) w).1).

Lemma put_returns s w x : prov_logfile (prov s) = Some fl ->
  exists tr w', returns h (fprintf_log x) s w tr tt s w' /\ logged tr = [(fl, x)].
Proof.
  intros Hf. eexists _, _. split.
  - unfold fprintf_log. eapply returns_pure_bind; [reflexivity|]. rewrite Hf.
    eapply returns_pure_bind; [reflexivity|]. eapply returns_sys_bind; [reflexivity|reflexivity|apply returns_ret].
  - done.
Qed.

(** The tail of a turn for a process that is there. *)
Lemma io_returns s w p (k : M state unit) tr v s' w' :
  returns h k s (match (h (Fopen (proc_file p "/io") F_read) w).1 with
                 | None => (h (Fopen (proc_file p "/io") F_read) w).2
                 | Some g => (h (Fclose g) (h (Fopen (proc_file p "/io") F_read) w).2).2
                 end) tr v s' w' ->
  exists tr', returns h (let* g := sysM (Fopen (proc_file p "/io") F_read) in
    match g with None => skip | Some g => let* _ := sysM (Fclose g) in skip end ;;; k) s w tr' v s' w'
  /\ logged tr' = logged tr.
Proof.
  intros Hk. destruct (h (Fopen (proc_file p "/io") F_read) w) as [[g|] w1] eqn:E; simpl in Hk.
  - eexists. split.
    + eapply returns_sys_bind; [by rewrite E|by rewrite E|]. cbv iota.
      eapply returns_bind; [eapply returns_sys_bind; [reflexivity|reflexivity|apply returns_ret]|exact Hk].
    + done.
  - eexists. split.
    + eapply returns_sys_bind; [by rewrite E|by rewrite E|]. cbv iota.
      eapply returns_pure_bind; [reflexivity|exact Hk].
    + done.
Qed.

Lemma curr_prov_loop_returns t n pre suf i rss s w :
  pidlist (prov s) = pre ++ suf -> (length pre = i \/ (suf = [] /\ length pre <= i)) -> length suf < n ->
  prov_logfile (prov s) = Some fl ->
  exists visits kept tr w', returns h (curr_prov_loop n t i rss) s w tr tt (with_pids (pre ++ kept) s) w'
  /\ logged tr = map (visit_line fl t) visits /\ pass_of alive suf visits kept.
Proof.
  revert pre suf i rss s w; induction n as [|n IH]; intros pre suf i rss s w Hl Hi Hn Hf; [lia|].
  destruct suf as [|p suf].
  { exists [], [], [], w. split; [|split; [done|apply pass_nil]].
    rewrite app_nil_r in *. cbn [curr_prov_loop]. eapply returns_pure_bind; [reflexivity|].
    rewrite lookup_ge_None_2 by (rewrite Hl; lia). rewrite <- Hl, with_pids_same. apply returns_ret. }
  destruct Hi as [<-|[? _]]; [|done].
  assert (Hnth : (pre ++ p :: suf) !! length pre = Some p) by apply list_lookup_middle, eq_refl.
  destruct (h (Fopen (proc_file p "/stat") F_read) w) as [o w1] eqn:Eo.
  pose proof (Halive p w) as Ha. rewrite Eo in Ha. simpl in Ha.
  destruct o as [f|].
  - (* the process is there *)
    assert (Hap : alive p = true) by (apply Ha; eauto).
    set (b := (h (Fgets f 1024) w1).1). set (w2 := (h (Fgets f 1024) w1).2).
    set (w3 := (h (Fclose f) w2).2).
    set (rss1 := match b with None => 0%Z | Some b => default rss (sscanf_stat (sizeof_long (personality (cfg s))) b) end).
    destruct (put_returns s w3 (line t [u32 p; lit "MEM"; utoa 10 (Z.to_N rss1)]) Hf) as (t1 & w4 & Hput & Hlog1).
    destruct (IH (pre ++ [p]) suf (length pre + 1) rss1 s
      (match (h (Fopen (proc_file p "/io") F_read) w4).1 with
       | None => (h (Fopen (proc_file p "/io") F_read) w4).2
       | Some g => (h (Fclose g) (h (Fopen (proc_file p "/io") F_read) w4).2).2
       end)) as (visits & kept & t2 & w' & Hr & Hlog2 & Hpass);
      [by rewrite <- app_assoc|left; by rewrite length_app|simpl in Hn; lia|done|].
    destruct (io_returns s w4 p _ _ _ _ _ Hr) as (t3 & Hio & Hlog3).
    exists ((p, Some rss1) :: visits), (p :: kept).
    eexists ([_; _; _] ++ t1 ++ t3), w'. split; [|split].
    + cbn [curr_prov_loop]. eapply returns_pure_bind; [reflexivity|]. rewrite Hl, Hnth.
      eapply (returns_sys_bind h (Fopen (proc_file p "/stat") F_read) _ _ _ (Some f) w1); [by rewrite Eo|by rewrite Eo|]. cbv iota.
      eapply returns_pure_bind; [reflexivity|].
      eapply (returns_sys_bind h (Fgets f 1024)); [reflexivity|reflexivity|]. fold b w2. cbv zeta. fold rss1.
      eapply (returns_sys_bind h (Fclose f)); [reflexivity|reflexivity|]. fold w3.
      eapply returns_bind; [exact Hput|]. by rewrite <- app_assoc in Hio.
    + change (logged (t1 ++ t3) = map (visit_line fl t) ((p, Some rss1) :: visits)).
      rewrite logged_app, Hlog1, Hlog3, Hlog2. done.
    + by apply pass_alive.
  - (* the process is gone *)
    assert (Hap : alive p = false).
    { destruct (alive p); [|done]. by destruct (proj1 Ha eq_refl). }
    destruct (put_returns s w1 (line t [u32 p; lit "LEXIT"]) Hf) as (t1 & w2 & Hput & Hlog1).
    set (s1 := with_pids (remove_at (length pre) (pre ++ p :: suf)) s).
    assert (Hgo : forall visits kept t2 w', returns h (curr_prov_loop n t (length pre + 1) rss) s1 w2 t2 tt
        (with_pids (pre ++ kept) s1) w' -> logged t2 = map (visit_line fl t) visits ->
        pass_of alive (p :: suf) ((p, None) :: visits) kept ->
        exists visits kept tr w', returns h (curr_prov_loop (S n) t (length pre) rss) s w tr tt (with_pids (pre ++ kept) s) w'
        /\ logged tr = map (visit_line fl t) visits /\ pass_of alive (p :: suf) visits kept).
    { intros visits kept t2 w' Hr Hlog2 Hpass. exists ((p, None) :: visits), kept.
      eexists ([_] ++ t1 ++ [] ++ t2), w'. split; [|split; [|exact Hpass]].
      - cbn [curr_prov_loop]. eapply returns_pure_bind; [reflexivity|]. rewrite Hl, Hnth.
        eapply (returns_sys_bind h (Fopen (proc_file p "/stat") F_read) _ _ _ None w1); [by rewrite Eo|by rewrite Eo|]. cbv iota.
        eapply returns_bind; [exact Hput|]. eapply returns_bind; [reflexivity|]. exact Hr.
      - change (logged (t1 ++ t2) = map (visit_line fl t) ((p, None) :: visits)). by rewrite logged_app, Hlog1, Hlog2. }
    destruct (destruct_snoc suf) as [->|(suf' & x & ->)].
    + destruct (IH pre [] (length pre + 1) rss s1 w2) as (visits & kept & t2 & w' & Hr & Hlog2 & Hpass).
      { unfold s1. rewrite remove_at_last. by rewrite app_nil_r. }
      { right. split; [done|lia]. }
      { simpl in Hn |- *. lia. }
      { done. }
      eapply Hgo; [exact Hr|exact Hlog2|]. by apply pass_gone_last.
    + destruct (IH (pre ++ [x]) suf' (length pre + 1) rss s1 w2) as (visits & kept & t2 & w' & Hr & Hlog2 & Hpass).
      { unfold s1. by rewrite remove_at_inside. }
      { left. by rewrite length_app. }
      { simpl in Hn. rewrite length_app in Hn. simpl in Hn. lia. }
      { done. }
      rewrite <- app_assoc in Hr. eapply Hgo; [exact Hr|exact Hlog2|]. by apply pass_gone.
Qed.
End Pass.

Lemma print_curr_prov_returns {W} (h : forall c, W -> reply c * W) alive fl s w
    (Halive : forall p w, alive p = true <-> is_Some (h (Fopen (proc_file p "/stat") F_read) w).1)
    (Hf : prov_logfile (prov s) = Some fl) :
  exists t visits kept tr w', returns h print_curr_prov s w tr tt (with_pids kept s) w'
  /\ logged tr = map (visit_line fl t) visits /\ pass_of alive (pidlist (prov s)) visits kept.
Proof.
  set (t := to_int (h Time w).1). set (rss := load_long (sizeof_long (personality (cfg s))) (heap_junk s) [] 0).
  destruct (curr_prov_loop_returns h alive fl Halive t (S (length (pidlist (prov s)))) [] (pidlist (prov s)) 0 rss
    s (h Time w).2 eq_refl (or_introl eq_refl) (Nat.lt_succ_diag_r _) Hf) as (visits & kept & tr & w' & Hr & Hl & Hp).
  exists t, visits, kept, ([existT Time (h Time w).1] ++ tr), w'. split; [|split; [exact Hl|exact Hp]].
  unfold print_curr_prov. eapply (returns_bind h time_int _ s w [existT Time (h Time w).1]).
  - unfold time_int. eapply returns_sys_bind; [reflexivity|reflexivity|apply returns_ret].
  - do 2 (eapply returns_pure_bind; [reflexivity|]). exact Hr.
Qed.

(** C29.  A pass over the list of processes always ends, in time linear in the list, and
    accounts for every process.  The processes it removes are exactly those for which it
    writes LEXIT, and they do not exist any more; the others stay (with their number of
    occurrences), and each has a MEM line, except at most as many as were removed (the one
    that is moved to a removed place is not looked at). *)
Theorem print_curr_prov_correct {W} (h : forall c, W -> reply c * W) (alive : Z -> bool) fl (s : state) w
    (Halive : forall p w, alive p = true <-> is_Some (h (Fopen (proc_file p "/stat") F_read) w).1)
    (Hf : prov_logfile (prov s) = Some fl) :
  exists t visits kept skipped tr w', returns h print_curr_prov s w tr tt (with_pids kept s) w'
  /\ logged tr = map (visit_line fl t) visits
  /\ pidlist (prov s) ≡ₚ gone visits ++ kept /\ kept ≡ₚ seen_alive visits ++ skipped
  /\ length skipped <= length (gone visits)
  /\ Forall (fun p => alive p = false) (gone visits) /\ Forall (fun p => alive p = true) (seen_alive visits).
Proof.
  destruct (print_curr_prov_returns h alive fl s w Halive Hf) as (t & visits & kept & tr & w' & Hr & Hl & sk & Hp).
  by exists t, visits, kept, sk, tr, w'.
Qed.

(** Processes 77 and 79 exist, 78 does not; the world counts the seconds. *)
Definition stat_line : cstring :=
  lit "77 (a.out) S 1 77 77 0 -1 4194304 300 0 0 0 5 2 0 0 20 0 1 0 123456 10485760 812".
Definition proc_table (c : sys) (w : Z) : reply c * Z :=
  match c return reply c * Z with
  | Fopen p _ => (if bool_decide (p = proc_file 77%Z "/stat" \/ p = proc_file 79%Z "/stat") then Some 5%Z else None, w)
  | Fgets _ _ => (Some (stat_line ++ [newline]), w)
  | Time => (w, (w + 1)%Z)
  | c => (null_reply c, w)
  end.
Definition three_processes : state := writer_state {{ prov -> pidlist := [78; 79; 77]%Z }}.

Definition in_table (p : Z) : bool :=
  bool_decide (proc_file p "/stat" = proc_file 77%Z "/stat" \/ proc_file p "/stat" = proc_file 79%Z "/stat").

Lemma print_curr_prov_correct_witness :
  exists t visits kept skipped tr w', returns proc_table print_curr_prov three_processes 1000%Z tr tt (with_pids kept three_processes) w'
  /\ logged tr = map (visit_line 9 t) visits
  /\ [78; 79; 77]%Z ≡ₚ gone visits ++ kept /\ kept ≡ₚ seen_alive visits ++ skipped
  /\ length skipped <= length (gone visits)
  /\ Forall (fun p => in_table p = false) (gone visits) /\ Forall (fun p => in_table p = true) (seen_alive visits).
Proof.
  apply (print_curr_prov_correct proc_table in_table 9 three_processes 1000%Z).
  - intros p w. unfold in_table. simpl. by case_bool_decide; split.
  - reflexivity.
Defined.

(** 77 is moved to the place of 78 and not looked at. *)
Example skipped_process :
  logged (run proc_table (print_curr_prov three_processes) 1000%Z).1.1
  = [(9%Z, lit "1000 78 LEXIT" ++ [newline]); (9%Z, lit "1000 79 MEM 10485760" ++ [newline])].
Proof. vm_compute. reflexivity. Qed.
