(* ===== verification/Recorder.v ===== *)
(** * The recorder thread (provenance.c)

    [capture_cont_prov] runs beside the tracer: it waits for the first process, logs the
    memory of all processes once a second, and closes the log when the list of processes
    is empty.  The two threads share the list, under a mutex, and the log.  Here a turn of
    the thread and a critical section of the tracer are atomic steps, and a run is any
    interleaving of them. *)
From stdpp Require Import relations.
From S2P Require Import Prelude CString Os OkapiMirror Trie State.
From S2P Require Import ChildMem Provenance ProvSpec.

(** ** The thread *)

Inductive recorder_pc := Waiting | Recording | Closed.

(** One test of a loop condition with the body that follows it. *)
Definition recorder_turn (pc : recorder_pc) : M state recorder_pc :=
  match pc with
  | Waiting =>
    let* pv := prv pidlist in
    match pv with
    | [] => let* _ := sysM (Usleep 100000) in retM Waiting
    | _ => retM Recording
    end
  | Recording =>
    let* pv := prv pidlist in
    match pv with
    | _ :: _ => print_curr_prov ;;; let* _ := sysM (Usleep 1000000) in retM Recording
    | [] =>
      let* f := prv prov_logfile in
      match f with
      | Some f => eprintf "=== Close log file ===" [] ;;; let* _ := sysM (Fclose f) in retM Closed
      | None => retM Closed
      end
    end
  | Closed => retM Closed
  end.

Fixpoint recorder_loop (n : nat) (pc : recorder_pc) : M state unit :=
  match pc with
  | Closed => skip
  | _ =>
    match n with
    | O => stopM (OutOfFuel "capture_cont_prov")
    | S n' => let* pc' := recorder_turn pc in recorder_loop n' pc'
    end
  end.
Definition capture_cont_prov {Fu : Fuel} : M state unit := recorder_loop fuel Waiting.

(** ** The tracer's side, by critical sections *)

Inductive action :=
| Log (l : list cstring)          (** a line *)
| Push (p : Z)                    (** [pidlist.pv[pidlist.pc++] = pid] *)
| Pass                            (** [print_curr_prov] *)
| Drop (p : Z).                   (** the removal in [rm_pid_prov] *)
#[export] Instance action_dec : EqDecision action.
Proof. solve_decision. Defined.
Definition act (a : action) : M state unit :=
  match a with
  | Log l => log_line l
  | Push p => push_pid p
  | Pass => print_curr_prov
  | Drop p => drop_pid p
  end.
Definition exit_actions (p : Z) : list action := [Pass; Drop p; Log [u32 p; lit "EXIT"]].

Lemma run_bindM {W A B} (h : forall c, W -> reply c * W) (m : M state A) (f : A -> M state B) s w :
  run h (bindM m f s) w = match run h (m s) w with
    | (t1, inl (a, s1), w1) => let '(t2, o, w2) := run h (f a s1) w1 in (t1 ++ t2, o, w2)
    | (t1, inr e, w1) => (t1, inr e, w1)
    end.
Proof. unfold bindM. rewrite run_bind. by destruct (run h (m s) w) as [[t [[a s1]|e]] w1]. Qed.

Lemma run_bindM_assoc {W A B C} (h : forall c, W -> reply c * W) (m : M state A) (f : A -> M state B) (g : B -> M state C) s w :
  run h (bindM (bindM m f) g s) w = run h (bindM m (fun a => bindM (f a) g) s) w.
Proof.
  rewrite !run_bindM. destruct (run h (m s) w) as [[t [[a s1]|e]] w1]; [|done].
  rewrite run_bindM. destruct (run h (f a s1) w1) as [[t2 [[b s2]|e]] w2]; [|done].
  destruct (run h (g b s2) w2) as [[t3 o] w3]. by rewrite app_assoc.
Qed.

Lemma run_bindM_skip {W} (h : forall c, W -> reply c * W) (m : M state unit) s w :
  run h ((m ;;; skip) s) w = run h (m s) w.
Proof. rewrite run_bindM. destruct (run h (m s) w) as [[t [[[] s1]|e]] w1]; [|done]. simpl. by rewrite app_nil_r. Qed.

(** [print_exit_prov] is its actions, one after the other. *)
Lemma print_exit_prov_actions {W} (h : forall c, W -> reply c * W) s w :
  Prov_prov_mode (prov s) = true -> pidlist (prov s) <> [] ->
  run h (print_exit_prov s) w = run h (forM (exit_actions (pid (cur s))) act s) w.
Proof.
  intros Hmode Hne.
  assert (E : forall (m1 m2 m3 : M state unit), run h (((m1 ;;; m2) ;;; m3) s) w = run h ((m1 ;;; m2 ;;; m3 ;;; skip) s) w).
  { intros m1 m2 m3. rewrite run_bindM_assoc, !run_bindM. destruct (run h (m1 s) w) as [[t [[a s1]|e]] w1]; [|done].
    rewrite !run_bindM. destruct (run h (m2 s1) w1) as [[t2 [[b s2]|e]] w2]; [|done]. by rewrite run_bindM_skip. }
  unfold forM, exit_actions, act. rewrite <- E. clear E.
  set (p := pid (cur s)). set (log := log_line [u32 p; lit "EXIT"]).
  assert (H : print_exit_prov s = (rm_pid_prov p ;;; log) s).
  { unfold print_exit_prov, in_prov_mode, bindM, prv, gets. cbn [bindP]. by rewrite Hmode. }
  rewrite H, (run_bindM h (rm_pid_prov p)), (run_bindM h (print_curr_prov ;;; drop_pid p)).
  assert (Hrm : rm_pid_prov p s = (print_curr_prov ;;; drop_pid p) s).
  { change (rm_pid_prov p s) with (match pidlist (prov s) with [] => skip | _ => print_curr_prov ;;; drop_pid p end s).
    by destruct (pidlist (prov s)). }
  by rewrite Hrm.
Qed.

(** ** Interleavings *)

Section Interleaving.
Context {W : Type} (h : forall c, W -> reply c * W).

(** What the tracer has still to do, where the thread is, the shared state, the world
    and the calls made so far. *)
Record threads := {
  todo : list action;
  recorder : recorder_pc;
  shared : state;
  world : W;
  calls : list event;
}.

Inductive step : threads -> threads -> Prop :=
| step_tracer a l pc s w tr s' w' past :
    returns h (act a) s w tr tt s' w' ->
    step {| todo := a :: l; recorder := pc; shared := s; world := w; calls := past |}
         {| todo := l; recorder := pc; shared := s'; world := w'; calls := past ++ tr |}
| step_recorder l pc s w tr pc' s' w' past :
    returns h (recorder_turn pc) s w tr pc' s' w' ->
    step {| todo := l; recorder := pc; shared := s; world := w; calls := past |}
         {| todo := l; recorder := pc'; shared := s'; world := w'; calls := past ++ tr |}.
End Interleaving.

(** ** The list of processes *)

Lemma remove_at_perm (l : list Z) i q : l !! i = Some q -> l ≡ₚ q :: remove_at i l.
Proof.
  intros H. apply list_elem_of_split_length in H as (pre & suf & -> & ->).
  destruct (destruct_snoc suf) as [->|(k & x & ->)].
  - rewrite remove_at_last. symmetry. apply Permutation_cons_append.
  - rewrite remove_at_inside, <- app_assoc, <- Permutation_middle. apply perm_skip, Permutation_app_head.
    symmetry. apply Permutation_cons_append.
Qed.

Lemma index_of_lookup p l : index_of p l < length l -> l !! index_of p l = Some p.
Proof.
  induction l as [|x l IH]; simpl; [lia|]. case_bool_decide; [by subst|]. intros H0. simpl. apply IH. lia.
Qed.
Lemma index_of_in p l : p ∈ l -> index_of p l < length l.
Proof.
  induction 1 as [|? ? ? _ IH]; simpl; [|case_bool_decide; lia]. case_bool_decide; [lia|done].
Qed.

(** ** While a listed process exists the log stays open *)

Lemma ok_returns {W A} (K : contract) (I : state -> Prop) (m : M state A) (Q : A -> Prop)
    (h : forall c, W -> reply c * W) s w tr a s' w' :
  (forall c w, rep K c (h c w).1) -> ok K I m Q -> I s -> returns h m s w tr a s' w' -> Q a /\ I s'.
Proof.
  intros Hh Hm Hs Hr. destruct (wp_run K h _ _ _ w Hh (Hm s Hs)) as [_ Ho].
  unfold outcome in Ho. unfold returns in Hr. by rewrite Hr in Ho.
Qed.

Section Traced.
Context (p fl : Z).

(** The process exists: its entry in /proc can be opened. *)
Definition exists_contract : contract := {|
  may _ := True;
  rep c := match c return reply c -> Prop with
           | Fopen q F_read => fun r => q = proc_file p "/stat" -> is_Some r
           | _ => fun _ => True
           end |}.
Definition traced (s : state) : Prop := p ∈ pidlist (prov s) /\ prov_logfile (prov s) = Some fl.
Let K := exists_contract.

Lemma ok_log x : okT K traced (fprintf_log x).
Proof. unfold fprintf_log, prv. oks. Qed.
Lemma ok_conf_traced {A} (f : config -> A) : okT K traced (conf f).
Proof. by intros s Hs. Qed.
Lemma ok_word_size_traced : okT K traced word_size.
Proof. by intros s Hs. Qed.
#[local] Hint Resolve ok_log ok_conf_traced ok_word_size_traced : okdb.
Lemma ok_log_line_traced l : okT K traced (log_line l).
Proof. unfold log_line, time_int. oks. Qed.
#[local] Hint Resolve ok_log_line_traced : okdb.

Lemma ok_set_pidlist_traced l : p ∈ l -> okT K traced (set_pidlist l).
Proof. intros Hp s [_ Hf]. apply wpM_mod. split; [done|]. by split. Qed.

Lemma in_remove_at i (l : list Z) q : p ∈ l -> l !! i = Some q -> q <> p -> p ∈ remove_at i l.
Proof. intros Hp Hq Hne. rewrite (remove_at_perm l i q Hq) in Hp. apply elem_of_cons in Hp as [->|Hp]; done. Qed.

Lemma ok_pass_loop n t i rss : okT K traced (curr_prov_loop n t i rss).
Proof.
  revert i rss; induction n as [|n IH]; intros i rss; cbn [curr_prov_loop]; [by apply ok_stop|].
  unfold prv at 1. ok1. match goal with H : traced ?s |- _ => destruct H as [Hp _]; rename s into s0 end.
  destruct (pidlist (prov s0) !! i) as [q|] eqn:Hq; [|by apply ok_skip].
  ok1; [done|]. match goal with H : rep _ _ ?x |- _ => rename x into f; rename H into Hf end.
  destruct f as [f|].
  - oks.
  - assert (Hne : q <> p).
    { intros ->. by destruct (Hf eq_refl). }
    eapply ok_bind; [apply ok_log|]. intros _ _.
    eapply ok_bind; [by apply ok_set_pidlist_traced, (in_remove_at i _ q)|]. intros _ _. apply IH.
Qed.
#[local] Hint Resolve ok_pass_loop : okdb.
Lemma ok_pass : okT K traced print_curr_prov.
Proof. unfold print_curr_prov, time_int, uninitialised_long, prv. oks. Qed.

Lemma ok_act a : a <> Drop p -> okT K traced (act a).
Proof.
  intros Ha. destruct a as [l|q| |q]; simpl.
  - apply ok_log_line_traced.
  - unfold push_pid, prv. ok1. match goal with H : traced ?s |- _ => destruct H as [Hp _] end.
    destruct (_ <? _); [|by apply ok_stop]. apply ok_set_pidlist_traced. set_solver.
  - apply ok_pass.
  - unfold drop_pid, prv. ok1. match goal with H : traced ?s |- _ => destruct H as [Hp _]; rename s into s0 end.
    destruct (Nat.ltb_spec (index_of q (pidlist (prov s0))) (length (pidlist (prov s0)))) as [Hi|Hi].
    + apply ok_set_pidlist_traced. apply in_remove_at with q; [done|by apply index_of_lookup|]. congruence.
    + destruct (_ <? _); [by apply ok_skip|by apply ok_stop].
Qed.

Lemma ok_recorder_turn pc : pc <> Closed -> ok K traced (recorder_turn pc) (fun pc' => pc' <> Closed).
Proof.
  intros Hpc. destruct pc; [| |done]; unfold recorder_turn, prv; ok1;
    match goal with H : traced ?s |- _ => destruct H as [Hp _]; destruct (pidlist (prov s)) as [|y l] end;
    try by apply elem_of_nil in Hp.
  - by apply ok_ret.
  - eapply ok_bind; [apply ok_pass|]. intros _ _. ok1; [done|]. by apply ok_ret.
Qed.
End Traced.

(** The invariant of the runs in which the process [p] is not reported to end. *)
Definition tracing {W} (p fl : Z) (c : @threads W) : Prop :=
  traced p fl (shared c) /\ recorder c <> Closed /\ (Drop p ∉ todo c).

Lemma step_tracing {W} (h : forall c, W -> reply c * W) p fl c c'
    (Hp : forall w, is_Some (h (Fopen (proc_file p "/stat") F_read) w).1) :
  step h c c' -> tracing p fl c -> tracing p fl c'.
Proof.
  assert (Hh : forall k w, rep (exists_contract p) k (h k w).1).
  { intros k w. destruct k; try exact Logic.I.
    match goal with m : fmode |- _ => destruct m end; try exact Logic.I. intros ->. apply Hp. }
  intros Hs (Ht & Hc & Hd). destruct Hs as [a l pc s w tr s' w' past Hr|l pc s w tr pc' s' w' past Hr]; simpl in *.
  - destruct (ok_returns (exists_contract p) _ _ _ h s w tr tt s' w' Hh (ok_act p fl a ltac:(set_solver)) Ht Hr) as [_ Ht'].
    split_and!; [done|done|set_solver].
  - destruct (ok_returns (exists_contract p) _ _ _ h s w tr pc' s' w' Hh (ok_recorder_turn p fl pc Hc) Ht Hr) as [Hc' Ht'].
    by split_and!.
Qed.

(** C30.  As long as a process of the recorder's list - one that has made an execve, as only
    [print_end_execve_prov] puts a process in it - exists and the tracer has not been told
    that it ends, the log stays open: in every interleaving of the recorder thread with the
    critical sections of the tracer (lines of the log, new processes, passes, the end of
    other processes), the process stays in the list, and the thread does not reach the end
    of its loop, where it closes the file. *)
Theorem log_open_while_listed {W} (h : forall c, W -> reply c * W) p fl (c c' : threads)
    (Hp : forall w, is_Some (h (Fopen (proc_file p "/stat") F_read) w).1)
    (Hin : p ∈ pidlist (prov (shared c))) (Hf : prov_logfile (prov (shared c)) = Some fl)
    (Hc : recorder c <> Closed) (Hd : Drop p ∉ todo c) (Hsteps : rtc (step h) c c') :
  p ∈ pidlist (prov (shared c')) /\ prov_logfile (prov (shared c')) = Some fl /\ recorder c' <> Closed.
Proof.
  assert (Ht : tracing p fl c) by done. clear Hin Hf Hc Hd.
  induction Hsteps as [c|c1 c2 c3 H12 _ IH]; [by destruct Ht as ([] & ? & _)|].
  apply IH. by apply step_tracing with h c1.
Qed.

(** Process 78 has ended and 77 goes on; the thread makes its first turn. *)
Definition two_processes : state := writer_state {{ prov -> pidlist := [78; 77]%Z }}.
Definition before (pc : recorder_pc) : threads :=
  {| todo := exit_actions 78; recorder := pc; shared := two_processes; world := 1000%Z; calls := [] |}.

Lemma log_open_while_listed_witness :
  77%Z ∈ pidlist (prov (shared (before Recording))) /\ prov_logfile (prov (shared (before Recording))) = Some 9%Z
  /\ recorder (before Recording) <> Closed.
Proof.
  apply (log_open_while_listed proc_table 77 9 (before Waiting)).
  - intros w. by exists 5%Z.
  - apply list_elem_of_further, list_elem_of_here.
  - reflexivity.
  - discriminate.
  - by apply (bool_decide_eq_true_1 (Drop 77 ∉ exit_actions 78)).
  - apply rtc_once. apply (step_recorder proc_table (exit_actions 78) Waiting two_processes 1000%Z [] Recording). reflexivity.
Defined.

(** ** The end of the last process *)

Lemma act_pass_returns {W} (h : forall c, W -> reply c * W) alive fl s w :
  (forall p w, alive p = true <-> is_Some (h (Fopen (proc_file p "/stat") F_read) w).1) ->
  prov_logfile (prov s) = Some fl -> exists kept tr w', returns h (act Pass) s w tr tt (with_pids kept s) w'
  /\ exists g, pidlist (prov s) ≡ₚ g ++ kept.
Proof.
  intros Ha Hf. destruct (print_curr_prov_returns h alive fl s w Ha Hf) as (t & v & kept & tr & w' & Hr & _ & sk & Hp & _).
  exists kept, tr, w'. split; [exact Hr|]. by exists (gone v).
Qed.

(** The thread closes the log. *)
Lemma recorder_turn_closes {W} (h : forall c, W -> reply c * W) fl s w : pidlist (prov s) = [] -> prov_logfile (prov s) = Some fl ->
  exists tr r w', returns h (recorder_turn Recording) s w (tr ++ [existT (Fclose fl) r]) Closed s w' /\ logged tr = [].
Proof.
  intros Hl Hf. set (c := Eprintf "=== Close log file ===" []). set (w1 := (h c w).2).
  exists [existT c (h c w).1], (h (Fclose fl) w1).1, (h (Fclose fl) w1).2. split; [|done].
  unfold recorder_turn. eapply returns_pure_bind; [reflexivity|]. rewrite Hl.
  eapply returns_pure_bind; [reflexivity|]. rewrite Hf. unfold eprintf. eapply returns_bind.
  { eapply (returns_sys_bind h c); [reflexivity|reflexivity|apply returns_ret]. }
  eapply (returns_sys_bind h (Fclose fl)); [reflexivity|reflexivity|apply returns_ret].
Qed.

(** The end of the last process races with the recorder: there is an interleaving in
    which the thread finds the list empty and closes the log after the tracer took the
    process out of it and before the tracer writes the EXIT line, which then goes to the
    closed file. *)
Theorem exit_line_after_close {W} (h : forall c, W -> reply c * W) (alive : Z -> bool) p fl (s : state) (w : W)
    (Halive : forall p w, alive p = true <-> is_Some (h (Fopen (proc_file p "/stat") F_read) w).1)
    (Hl : pidlist (prov s) = [p]) (Hf : prov_logfile (prov s) = Some fl) :
  exists s' w' t before r after,
    rtc (step h) {| todo := exit_actions p; recorder := Recording; shared := s; world := w; calls := [] |}
                 {| todo := []; recorder := Closed; shared := s'; world := w';
                    calls := before ++ existT (Fclose fl) r :: after |}
    /\ logged after = [(fl, line t [u32 p; lit "EXIT"])].
Proof.
  destruct (act_pass_returns h alive fl s w Halive Hf) as (kept & tr1 & w1 & Hpass & g & Hg).
  set (s1 := with_pids kept s).
  assert (Hdrop : returns h (act (Drop p)) s1 w1 [] tt (with_pids [] s1) w1).
  { rewrite Hl in Hg. assert (Hk : kept = [] \/ kept = [p]).
    { destruct g as [|x g]; [right; by apply Permutation_singleton_l in Hg|].
      left. apply Permutation_length in Hg. simpl in Hg. rewrite length_app in Hg. destruct kept; [done|simpl in Hg; lia]. }
    unfold returns, act, drop_pid, bindM, prv, gets. simpl.
    destruct Hk as [-> | ->]; [reflexivity|]. simpl. rewrite bool_decide_eq_true_2 by done. reflexivity. }
  destruct (recorder_turn_closes h fl (with_pids [] s) w1 eq_refl Hf) as (tr2 & r & w2 & Hclose & _).
  destruct (log_line_returns h (with_pids [] s) w2 fl [u32 p; lit "EXIT"] Hf) as (t & tr3 & w3 & Hlog & Hlogged).
  exists (with_pids [] s1), w3, t, (tr1 ++ tr2), r, tr3. split; [|exact Hlogged].
  eapply rtc_l; [by apply step_tracer, Hpass|]. eapply rtc_l; [by apply step_tracer, Hdrop|].
  eapply rtc_l; [by apply step_recorder with (pc' := Closed), Hclose|].
  eapply rtc_l; [by apply step_tracer, Hlog|]. simpl. rewrite app_nil_r, <- !app_assoc. apply rtc_refl.
Qed.

Definition one_process : state := writer_state {{ prov -> pidlist := [77]%Z }}.

Lemma exit_line_after_close_witness :
  exists s' w' t before r after,
    rtc (step proc_table) {| todo := exit_actions 77; recorder := Recording; shared := one_process; world := 1000%Z; calls := [] |}
                 {| todo := []; recorder := Closed; shared := s'; world := w';
                    calls := before ++ existT (Fclose 9) r :: after |}
    /\ logged after = [(9%Z, line t [u32 77; lit "EXIT"])].
Proof.
  apply (exit_line_after_close proc_table in_table 77 9 one_process 1000%Z).
  - intros p w. unfold in_table. simpl. by case_bool_decide; split.
  - reflexivity.
  - reflexivity.
Defined.

(** ** The end of the thread *)

(** The line for a process that has disappeared, as written at time [t]. *)
Definition lexit_line (fl : Z) (e : Z * Z) : Z * cstring := (fl, line e.1 [u32 e.2; lit "LEXIT"]).

Lemma pass_all_gone alive l visits kept : pass_of alive l visits kept -> Forall (fun p => alive p = false) l ->
  seen_alive visits = [] /\ l ≡ₚ gone visits ++ kept /\ length kept <= length (gone visits)
  /\ Forall (fun p => alive p = false) kept.
Proof.
  intros (sk & H1 & H2 & H3 & _ & H5) Hl. rewrite H1 in Hl. apply Forall_app in Hl as [_ Hk].
  assert (Hs : seen_alive visits = []).
  { destruct (seen_alive visits) as [|x v]; [done|]. rewrite H2 in Hk.
    apply Forall_cons in Hk as [Hx _]. apply Forall_cons in H5 as [Hy _]. congruence. }
  split_and!; [done|done| |done]. rewrite Hs in H2. simpl in H2. by rewrite H2.
Qed.

Lemma visit_lines_gone fl t visits : seen_alive visits = [] ->
  map (visit_line fl t) visits = map (lexit_line fl) (map (pair t) (gone visits)).
Proof.
  induction visits as [|[p [r|]] v IH]; intros H; [done|discriminate H|].
  change (gone ((p, None) :: v)) with (p :: gone v). simpl. f_equal. by apply IH.
Qed.

Section Ends.
Context {W : Type} (h : forall c, W -> reply c * W) (alive : Z -> bool) (fl : Z).
Context (Halive : forall p w, alive p = true <-> is_Some (h (Fopen (proc_file p "/stat") F_read) w).1).

Lemma recorder_close n s w : pidlist (prov s) = [] -> prov_logfile (prov s) = Some fl ->
  exists tr w', returns h (recorder_loop (S n) Recording) s w tr tt s w'
  /\ logged tr = [] /\ exists before r, tr = before ++ [existT (Fclose fl) r].
Proof.
  intros Hl Hf. destruct (recorder_turn_closes h fl s w Hl Hf) as (tr & r & w' & Hr & Hlog).
  exists ((tr ++ [existT (Fclose fl) r]) ++ []), w'. split; [|split; [by rewrite !logged_app, Hlog|by exists tr, r; rewrite app_nil_r]].
  cbn [recorder_loop]. eapply (returns_bind h (recorder_turn Recording) _ s w _ Closed s); [exact Hr|destruct n; apply returns_ret].
Qed.

Lemma recorder_loop_ends n s w : length (pidlist (prov s)) < n ->
  Forall (fun p => alive p = false) (pidlist (prov s)) -> prov_logfile (prov s) = Some fl ->
  exists ends tr w', returns h (recorder_loop n Recording) s w tr tt (with_pids [] s) w'
  /\ logged tr = map (lexit_line fl) ends /\ map snd ends ≡ₚ pidlist (prov s)
  /\ exists before r, tr = before ++ [existT (Fclose fl) r].
Proof.
  remember (length (pidlist (prov s))) as k eqn:Hk.
  revert n s w Hk; induction k as [k IH] using lt_wf_ind; intros n s w Hk Hn Hd Hf.
  destruct n as [|n]; [lia|]. destruct (pidlist (prov s)) as [|x l] eqn:El.
  { destruct (recorder_close n s w El Hf) as (tr & w' & Hr & Hl & Hc). exists [], tr, w'.
    split_and!; [|done|done|done]. rewrite <- El, with_pids_same. exact Hr. }
  destruct (print_curr_prov_returns h alive fl s w Halive Hf) as (t & visits & kept & t1 & w1 & Hr1 & Hl1 & Hp).
  rewrite El in Hp. apply pass_all_gone in Hp as (Hs & Hperm & Hlen & Hdk); [|done].
  assert (Hlt : length kept < k).
  { apply Permutation_length in Hperm. rewrite length_app in Hperm. simpl in Hperm, Hk. lia. }
  destruct (IH (length kept) Hlt n (with_pids kept s) (h (Usleep 1000000) w1).2 eq_refl ltac:(lia) Hdk Hf)
    as (ends & t2 & w2 & Hr2 & Hl2 & Hperm2 & before & r & Htr).
  exists (map (pair t) (gone visits) ++ ends).
  exists ((t1 ++ [existT (Usleep 1000000) (h (Usleep 1000000) w1).1]) ++ t2), w2. split; [|split; [|split]].
  - cbn [recorder_loop]. eapply returns_bind; [|exact Hr2].
    unfold recorder_turn. eapply returns_pure_bind; [reflexivity|]. rewrite El.
    eapply returns_bind; [exact Hr1|].
    eapply (returns_sys_bind h (Usleep 1000000)); [reflexivity|reflexivity|apply returns_ret].
  - rewrite !logged_app, Hl1, Hl2, map_app, (visit_lines_gone fl t visits Hs). by rewrite app_nil_r.
  - rewrite map_app, map_map. simpl. rewrite map_id. rewrite Hperm2. symmetry. exact Hperm.
  - rewrite Htr, app_assoc. by eexists _, _.
Qed.
End Ends.

(** C32.  When the recorder thread polls while there are processes in its list, and none of
    those is left, then it ends: at most as many passes as there are processes are made,
    each process of the list gets exactly one LEXIT line and nothing else is written, the
    list is empty, and the last thing the thread does is to close the log. *)
Theorem recorder_ends {Fu : Fuel} {W} (h : forall c, W -> reply c * W) (alive : Z -> bool) fl (s : state) (w : W)
    (Halive : forall p w, alive p = true <-> is_Some (h (Fopen (proc_file p "/stat") F_read) w).1)
    (Hf : prov_logfile (prov s) = Some fl) (Hne : pidlist (prov s) <> [])
    (Hd : Forall (fun p => alive p = false) (pidlist (prov s))) (Hfuel : length (pidlist (prov s)) + 1 < fuel) :
  exists ends tr w', returns h capture_cont_prov s w tr tt (with_pids [] s) w'
  /\ logged tr = map (lexit_line fl) ends /\ map snd ends ≡ₚ pidlist (prov s)
  /\ exists before r, tr = before ++ [existT (Fclose fl) r].
Proof.
  unfold capture_cont_prov. set (n := fuel) in *. clearbody n. destruct n as [|n]; [lia|].
  destruct (recorder_loop_ends h alive fl Halive n s w ltac:(lia) Hd Hf) as (ends & tr & w' & Hr & H).
  exists ends, tr, w'. split; [|exact H]. cbn [recorder_loop].
  eapply (returns_pure_bind h (recorder_turn Waiting) _ s s Recording); [|exact Hr].
  unfold recorder_turn, bindM, prv, gets. simpl. by destruct (pidlist (prov s)).
Qed.

Definition four_gone : state := writer_state {{ prov -> pidlist := [1; 2; 3; 4]%Z }}.
Lemma recorder_ends_witness :
  exists ends tr w', returns proc_table (@capture_cont_prov 9) four_gone 1000%Z tr tt (with_pids [] four_gone) w'
  /\ logged tr = map (lexit_line 9) ends /\ map snd ends ≡ₚ [1; 2; 3; 4]%Z
  /\ exists before r, tr = before ++ [existT (Fclose 9) r].
Proof.
  apply (@recorder_ends 9 _ proc_table in_table 9 four_gone 1000%Z).
  - intros p w. unfold in_table. simpl. by case_bool_decide; split.
  - reflexivity.
  - discriminate.
  - by apply (bool_decide_eq_true_1 _).
  - apply Nat.ltb_lt. reflexivity.
Defined.

(** With an empty list the thread waits: if the program has ended between two polls, it
    polls for ever and does not close the log. *)
Theorem recorder_waits {W} (h : forall c, W -> reply c * W) n (s : state) (w : W) : pidlist (prov s) = [] ->
  outcome h (recorder_loop n Waiting s) w = inr (OutOfFuel "capture_cont_prov")
  /\ Forall (fun e : event => projT1 e = Usleep 100000) (trace h (recorder_loop n Waiting s) w).
Proof.
  intros Hl. unfold outcome, trace. revert w; induction n as [|n IH]; intros w; [by split|].
  change (recorder_loop (S n) Waiting) with (bindM (recorder_turn Waiting) (recorder_loop n)).
  assert (E : recorder_turn Waiting s = Sys (Usleep 100000) (fun _ => Ret (Waiting, s))).
  { unfold recorder_turn, bindM, prv, gets. simpl. by rewrite Hl. }
  unfold bindM at 1 2. rewrite E. cbn [bindP run]. destruct (h (Usleep 100000) w) as [r w1].
  destruct (IH w1) as [H1 H2]. destruct (run h (recorder_loop n Waiting s) w1) as [[tr o] w2]. split; [done|by constructor].
Qed.
