(* ===== verification/LogFile.v ===== *)
(** * The file of the log (provenance.c, init_prov)

    Each audit writes a new log: the first name of the series that is not taken. *)
From S2P Require Import Prelude CString Os StrUtils OkapiMirror Trie State.
From S2P Require Import Provenance ProvSpec.

Definition fopen_w (e : event) : option cstring :=
  match projT1 e with Fopen p F_write => Some p | _ => None end.
(** The files opened for writing, in order. *)
Definition truncated (tr : list event) : list cstring := omap fopen_w tr.

Definition header_field (name value : cstring) : cstring := lit "# @" ++ name ++ lit ": " ++ value ++ [newline].

Section LogFile.
Context {Fu : Fuel} {W : Type} (h : forall c, W -> reply c * W) (readable : cstring -> bool).
Context (Haccess : forall p w, (h (Access p) w).1 = 0%Z <-> readable p = true).

Definition nth_log (s : state) (n : nat) : cstring := log_path (Cde_app_dir (cfg s)) (CDE_ROOT_NAME (cfg s)) n.

Lemma log_path_buf_is s n : length (nth_log s n) < MAXPATHLEN -> log_path_buf n s = Ret (nth_log s n, s).
Proof.
  intros H. unfold log_path_buf, bindM, conf, gets, strbuf. simpl. fold (nth_log s n).
  by rewrite (proj2 (Nat.ltb_lt _ _) H).
Qed.

Lemma access_test p w : ((h (Access p) w).1 =? 0)%Z = readable p.
Proof.
  pose proof (Haccess p w) as H. destruct (readable p).
  - by apply Z.eqb_eq, H.
  - apply Z.eqb_neq. intros H0. by apply H in H0.
Qed.

(** The search from [k] on finds [n], the first name that is not taken. *)
Lemma new_log_name_finds m k n s w : k < n -> n <= k + m -> readable (nth_log s n) = false ->
  (forall i, k < i < n -> readable (nth_log s i) = true) -> (forall i, i <= n -> length (nth_log s i) < MAXPATHLEN) ->
  exists tr w', returns h (new_log_name m k) s w tr (nth_log s n, n) s w' /\ truncated tr = [] /\ logged tr = [].
Proof.
  intros Hk Hm Hn Hbefore Hlen. revert k w Hk Hm Hbefore; induction m as [|m IH]; intros k w Hk Hm Hbefore; [lia|].
  assert (Hstep : forall tr2 w', returns h
      (if readable (nth_log s (k + 1)) then new_log_name m (k + 1) else retM (nth_log s (k + 1), k + 1))
      s (h (Access (nth_log s (k + 1))) w).2 tr2 (nth_log s n, n) s w' -> truncated tr2 = [] -> logged tr2 = [] ->
    exists tr w', returns h (new_log_name (S m) k) s w tr (nth_log s n, n) s w' /\ truncated tr = [] /\ logged tr = []).
  { intros tr2 w' Hr Ht Hl.
    exists (existT (Access (nth_log s (k + 1))) (h (Access (nth_log s (k + 1))) w).1 :: tr2), w'. split; [|by split].
    cbn [new_log_name]. cbv zeta.
    eapply returns_pure_bind; [apply log_path_buf_is, Hlen; lia|].
    eapply returns_sys_bind; [reflexivity|reflexivity|]. by rewrite access_test. }
  destruct (decide (n = k + 1)) as [->|Hne].
  - apply (Hstep [] (h (Access (nth_log s (k + 1))) w).2); [|done|done]. rewrite Hn. apply returns_ret.
  - destruct (IH (k + 1) (h (Access (nth_log s (k + 1))) w).2) as (tr2 & w' & Hr & Ht & Hl); [lia|lia|intros; apply Hbefore; lia|].
    apply (Hstep tr2 w'); [|done|done]. by rewrite Hbefore by lia.
Qed.

Definition with_log (f : option Z) (s : state) : state := s {{ prov -> prov_logfile := f }}.

Lemma open_log_finds n s w f : 1 <= n -> n < fuel -> readable (nth_log s n) = false ->
  (forall i, 1 <= i < n -> readable (nth_log s i) = true) -> (forall i, i <= n -> length (nth_log s i) < MAXPATHLEN) ->
  (forall w, (h (Fopen (nth_log s n) F_write) w).1 = f) ->
  exists tr w', returns h open_log s w tr n (with_log f s) w' /\ truncated tr = [nth_log s n] /\ logged tr = [].
Proof.
  intros Hn Hfuel Hfree Hbefore Hlen Hopen. set (w1 := (h (Access (nth_log s 1)) w).2).
  assert (Hgo : forall (m : M state (cstring * nat)) t1 w2, returns h m s w1 t1 (nth_log s n, n) s w2 ->
      (if readable (nth_log s 1) then let* found := new_log_name fuel 1 in eprintf "Provenance log file: %s" [PS found.1] ;;; retM found
       else retM (nth_log s 1, 1)) = m -> truncated t1 = [] -> logged t1 = [] ->
      exists tr w', returns h open_log s w tr n (with_log f s) w' /\ truncated tr = [nth_log s n] /\ logged tr = []).
  { intros m t1 w2 Hr <- Ht Hl.
    exists ([existT (Access (nth_log s 1)) (h (Access (nth_log s 1)) w).1] ++ t1
      ++ [existT (Fopen (nth_log s n) F_write) (h (Fopen (nth_log s n) F_write) w2).1]).
    exists (h (Fopen (nth_log s n) F_write) w2).2. split; [|split].
    - unfold open_log. eapply returns_pure_bind; [apply log_path_buf_is, Hlen; lia|].
      eapply returns_sys_bind; [reflexivity|reflexivity|]. rewrite access_test. eapply returns_bind; [exact Hr|].
      eapply (returns_sys_bind h (Fopen (nth_log s n) F_write) _ _ _ _ (h (Fopen (nth_log s n) F_write) w2).2);
        [reflexivity|reflexivity|]. rewrite Hopen. eapply returns_pure_bind; [reflexivity|]. apply returns_ret.
    - unfold truncated in *. by rewrite !omap_app, Ht.
    - by rewrite !logged_app, Hl. }
  destruct (decide (n = 1)) as [->|Hne].
  - apply (Hgo (retM (nth_log s 1, 1)) [] w1); [apply returns_ret|by rewrite Hfree|done|done].
  - destruct (new_log_name_finds fuel 1 n s w1) as (t1 & w2 & Hr & Ht & Hl); [lia|lia|done|intros; apply Hbefore; lia|done|].
    set (c := Eprintf "Provenance log file: %s" [PS (nth_log s n)]).
    eapply (Hgo (let* found := new_log_name fuel 1 in eprintf "Provenance log file: %s" [PS found.1] ;;; retM found)
      (t1 ++ [existT c (h c w2).1]) (h c w2).2).
    + eapply returns_bind; [exact Hr|]. unfold eprintf.
      eapply (returns_bind h _ _ s w2 [existT c (h c w2).1] tt s); [|apply returns_ret].
      eapply (returns_sys_bind h c); [reflexivity|reflexivity|apply returns_ret].
    + by rewrite Hbefore by lia.
    + unfold truncated in *. by rewrite omap_app, Ht.
    + by rewrite logged_app, Hl.
Qed.
End LogFile.

Section Header.
Context {W : Type} (h : forall c, W -> reply c * W).

Lemma header_then s w f name v t b s' w' (k : M state unit) : prov_logfile (prov s) = Some f ->
  returns h k s (h (Fputs f (header_field (lit name) v)) w).2 t b s' w' ->
  returns h (fprintf_log (lit "# @" ++ lit name ++ lit ": " ++ v ++ [newline]) ;;; k) s w
    (existT (Fputs f (header_field (lit name) v)) tt :: t) b s' w'.
Proof.
  intros Hf Hk. set (c := Fputs f (header_field (lit name) v)).
  assert (Hr : returns h (fprintf_log (header_field (lit name) v)) s w [existT c tt] tt s (h c w).2).
  { unfold fprintf_log. eapply returns_pure_bind; [reflexivity|]. rewrite Hf. eapply returns_pure_bind; [reflexivity|].
    eapply (returns_sys_bind h c _ _ _ tt); [by destruct (h c w).1|reflexivity|apply returns_ret]. }
  destruct b. exact (returns_bind h _ _ _ _ _ _ _ _ _ _ _ _ Hr Hk).
Qed.

(** The six lines of the header. *)
Definition header_lines (f : Z) (agent machine ns parentns : cstring) (n : nat) : list (Z * cstring) :=
  map (fun x => (f, header_field (lit x.1) x.2))
    [("agent", agent); ("machine", machine); ("namespace", ns); ("subns", itoa (Z.of_nat n));
     ("fullns", ns ++ lit "." ++ itoa (Z.of_nat n)); ("parentns", parentns)].

Lemma log_header_writes n s w f : prov_logfile (prov s) = Some f ->
  length (str_or_null (CDE_ROOT_NAME (cfg s)) ++ lit "." ++ itoa (Z.of_nat n)) < MAXPATHLEN ->
  exists agent machine parentns tr w', returns h (log_header n) s w tr tt s w'
  /\ truncated tr = [] /\ logged tr = header_lines f agent machine (str_or_null (CDE_ROOT_NAME (cfg s))) parentns n.
Proof.
  intros Hf Hlen. eexists _, _, _, _, _. split; [|split].
  - unfold log_header. eapply returns_pure_bind; [reflexivity|]. rewrite Hf. eapply returns_pure_bind; [reflexivity|].
    eapply (returns_sys_bind h (Set_cloexec f) _ _ _ (h (Set_cloexec f) w).1); [reflexivity|reflexivity|].
    eapply (returns_sys_bind h Getpwuid); [reflexivity|reflexivity|].
    eapply (returns_sys_bind h Popen_uname); [reflexivity|reflexivity|]. cbv zeta.
    eapply returns_pure_bind; [reflexivity|].
    eapply returns_pure_bind; [unfold strbuf; by rewrite (proj2 (Nat.ltb_lt _ _) Hlen)|].
    eapply (header_then _ _ f "agent"); [exact Hf|]. eapply (header_then _ _ f "machine"); [exact Hf|].
    eapply (header_then _ _ f "namespace"); [exact Hf|]. eapply (header_then _ _ f "subns"); [exact Hf|].
    eapply (header_then _ _ f "fullns"); [exact Hf|].
    eapply (returns_sys_bind h (Getenv (lit "CDE_PROV_NAMESPACE"))); [reflexivity|reflexivity|].
    eapply (header_then _ _ f "parentns"); [exact Hf|].
    eapply (returns_sys_bind h (Setenv (lit "CDE_PROV_NAMESPACE") _ true)); [reflexivity|reflexivity|]. apply returns_ret.
  - reflexivity.
  - reflexivity.
Qed.
End Header.

(** An audit starts a new log.  If [n] is the first number of the series
    provenance.NAME.1.log, provenance.NAME.2.log, ... whose file cannot be read, then
    [init_prov] returns, it opens that file for writing and no other (so no earlier log is
    overwritten), it writes the six header lines to it, and the recorded list of processes
    is empty. *)
Theorem init_prov_new_log {Fu : Fuel} {W} (h : forall c, W -> reply c * W) (readable : cstring -> bool)
    (s : state) (w : W) (n : nat) (f : Z)
    (Haccess : forall p w, (h (Access p) w).1 = 0%Z <-> readable p = true)
    (Hopen : forall w, (h (Fopen (nth_log s n) F_write) w).1 = Some f)
    (Henv : (h (Getenv (lit "IN_CDE_PROVENANCE_MODE")) w).1 = None) (Haudit : Cde_exec_mode (cfg s) = false)
    (Hn : 1 <= n < fuel) (Hfree : readable (nth_log s n) = false)
    (Htaken : forall i, 1 <= i < n -> readable (nth_log s i) = true)
    (Hlen : forall i, i <= n -> length (nth_log s i) < MAXPATHLEN) :
  exists agent machine parentns tr s' w', returns h init_prov s w tr tt s' w'
  /\ prov s' = {| Prov_prov_mode := true; Prov_no_app_capture := Prov_no_app_capture (prov s);
                  prov_logfile := Some f; pidlist := []; str_buf := str_buf (prov s) |}
  /\ truncated tr = [nth_log s n]
  /\ logged tr = header_lines f agent machine (str_or_null (CDE_ROOT_NAME (cfg s))) parentns n.
Proof.
  set (s1 := s {{ prov -> Prov_prov_mode := true }}). set (env := Getenv (lit "IN_CDE_PROVENANCE_MODE")).
  set (c := Setenv (lit "IN_CDE_PROVENANCE_MODE") (lit "1") true).
  destruct (open_log_finds h readable Haccess n s1 (h c (h env w).2).2 (Some f)) as (t1 & w1 & Hr1 & Ht1 & Hl1);
    [lia|lia|exact Hfree|exact Htaken|exact Hlen|exact Hopen|].
  assert (Hfull : length (str_or_null (CDE_ROOT_NAME (cfg s)) ++ lit "." ++ itoa (Z.of_nat n)) < MAXPATHLEN).
  { pose proof (Hlen n ltac:(lia)) as H. unfold nth_log, log_path in H. rewrite !length_app in *. lia. }
  destruct (log_header_writes h n (with_log (Some f) s1) w1 f eq_refl Hfull) as (a & m & p & t2 & w2 & Hr2 & Ht2 & Hl2).
  exists a, m, p. eexists (_ :: [] ++ _ :: t1 ++ t2 ++ []), (with_pids [] (with_log (Some f) s1)), w2.
  split; [|split; [reflexivity|split]].
  - unfold init_prov. eapply (returns_sys_bind h env); [exact Henv|reflexivity|].
    eapply returns_pure_bind; [reflexivity|]. cbv zeta. rewrite Haudit. eapply returns_bind; [reflexivity|]. cbn [negb when].
    eapply (returns_sys_bind h c); [reflexivity|reflexivity|]. eapply returns_bind; [exact Hr1|].
    eapply returns_bind; [exact Hr2|]. reflexivity.
  - unfold truncated in *. simpl. by rewrite !omap_app, Ht1, Ht2.
  - change (logged (t1 ++ t2 ++ []) = header_lines f a m (str_or_null (CDE_ROOT_NAME (cfg s))) p n).
    by rewrite !logged_app, Hl1, Hl2, app_nil_r.
Qed.

(** Two audits were made before. *)
Definition audit_dir_state : state := state0 {{ cfg -> Cde_app_dir := lit "/home/alice/pkg"; cfg -> CDE_ROOT_NAME := Some (lit "cde-root") }}.
Definition taken (p : cstring) : bool := bool_decide (p = nth_log audit_dir_state 1 \/ p = nth_log audit_dir_state 2).
Definition audit_dir_os (c : sys) (w : unit) : reply c * unit :=
  match c return reply c * unit with
  | Access p => (if taken p then 0 else EPERM, w)%Z
  | Fopen _ F_write => (Some 9%Z, w)
  | Getpwuid => (Some (lit "alice"), w)
  | c => (null_reply c, w)
  end.

Lemma init_prov_new_log_witness :
  exists agent machine parentns tr s' w', returns audit_dir_os (@init_prov 9) audit_dir_state tt tr tt s' w'
  /\ prov s' = {| Prov_prov_mode := true; Prov_no_app_capture := false;
                  prov_logfile := Some 9%Z; pidlist := []; str_buf := str_buf (prov audit_dir_state) |}
  /\ truncated tr = [lit "/home/alice/pkg/provenance.cde-root.3.log"]
  /\ logged tr = header_lines 9 agent machine (lit "cde-root") parentns 3.
Proof.
  apply (@init_prov_new_log 9 _ audit_dir_os taken audit_dir_state tt 3 9).
  - intros p w. simpl. by destruct (taken p).
  - reflexivity.
  - reflexivity.
  - reflexivity.
  - split; apply Nat.leb_le; reflexivity.
  - reflexivity.
  - intros i Hi. assert (i = 1 \/ i = 2) as [-> | ->] by lia; reflexivity.
  - intros i Hi. assert (i = 0 \/ i = 1 \/ i = 2 \/ i = 3) as [-> |[-> |[-> | ->]]] by lia; apply Nat.ltb_lt; reflexivity.
Defined.
