(* ===== verification/Init.v ===== *)
(** * The start of a run (cde.c)

    [CDE_init] finds the directories of the package, or makes them; in audit mode it writes
    cde.options if there is none, copies itself and the environment into the package, and
    makes the scripts and the log with which the run is repeated. *)
From S2P Require Import Prelude CString Os StrUtils ShellUtils OkapiPath OkapiMirror Trie State CdeOptions Redirect Syscalls.

Definition CDE_IMGDIR_NAME : cstring := lit "images".

Section Init.
Context {Fu : Fuel}.

(** ** Links to directories *)

(** A path that is a symbolic link is copied. *)
Definition copy_if_link (tmp_buf : cstring) : M state unit :=
  let* st := sysM (Lstat tmp_buf) in
  match st with
  | Some st =>
    when (bool_decide (st_kind st = LNK))
      (let* start := conf cde_starting_pwd in copy_file_into_cde_root tmp_buf (Some start))
  | None => skip
  end.

(** The directories of $PATH, the parts between the colons. *)
Fixpoint path_dirs_loop (k : nat) (p : cstring) : M state unit :=
  match k, p with
  | _, [] => skip
  | O, _ => stopM (OutOfFuel "PATH")
  | S k', _ =>
    let '(n, m) := match strchr p ":"%char with Some i => (i, i + 1) | None => (length p, length p) end in
    let* tmp_buf := strbuf MAXPATHLEN (take n p) in
    copy_if_link tmp_buf ;;;
    path_dirs_loop k' (drop m p)
  end.
Definition CDE_create_path_symlink_dirs : M state unit :=
  let* p := sysM (Getenv (lit "PATH")) in
  let p := default [] p in
  path_dirs_loop (length p) p ;;;
  copy_if_link (lit "/usr/lib").

Fixpoint toplevel_loop (k : nat) (dp : Z) : M state unit :=
  match k with
  | O => stopM (OutOfFuel "readdir")
  | S k' =>
    let* ep := sysM (Readdir dp) in
    match ep with
    | None => skip
    | Some d_name =>
      let toplevel_abspath := slash :: d_name in
      let* st := sysM (Lstat toplevel_abspath) in
      match st with
      | Some st =>
        when (bool_decide (st_kind st = LNK))
          (let* real_st := sysM (Stat toplevel_abspath) in
           match real_st with
           | Some real_st =>
             when (bool_decide (st_kind real_st = DIR))
               (let* start := conf cde_starting_pwd in copy_file_into_cde_root toplevel_abspath (Some start))
           | None => skip
           end)
      | None => skip
      end ;;;
      toplevel_loop k' dp
    end
  end.
Definition CDE_create_toplevel_symlink_dirs : M state unit :=
  let* dp := sysM (Opendir [slash]) in
  let* dp := assert_some dp in
  toplevel_loop fuel dp ;;;
  let* _ := sysM (Closedir dp) in skip.

(** ** The root of the package, in exec mode *)

(** The loop over the components of the current directory: the index of the one that is a
    package's root, and its name. *)
Fixpoint find_root (comps : list cstring) (i : nat) (found : option (nat * cstring)) : M state (option (nat * cstring)) :=
  match comps with
  | [] => retM found
  | component :: comps' =>
    if is_a_repo_name component then
      match found with
      | Some _ =>
        let* start := conf cde_starting_pwd in
        eprintf "Error: More than one cde-root/ directory found in pwd: '%s'" [PS start] ;;; stopM (Exit 1)
      | None =>
        modM (fun s => s {{ cfg -> CDE_ROOT_NAME := Some component }}) ;;;
        find_root comps' (i + 1) (Some (i, component))
      end
    else find_root comps' (i + 1) found
  end.

(** [dirname(CDE_proc_self_exe)]: a NUL is stored in the array itself. *)
Definition dirname_self_exe : M state cstring :=
  let* exe := conf CDE_proc_self_exe in
  let d := dirname exe in
  when (match strchr exe slash with Some _ => true | None => false end)
    (modM (fun s => s {{ cfg -> CDE_proc_self_exe := d }})) ;;;
  retM d.

Definition set_app_dir (d : cstring) : M state unit :=
  let* d := strbuf MAXPATHLEN d in modM (fun s => s {{ cfg -> Cde_app_dir := d }}).
Definition set_cderoot_dir (d : cstring) : M state unit :=
  let* d := strbuf MAXPATHLEN d in modM (fun s => s {{ cfg -> cde_cderoot_dir := d }}).

(** What is taken for the root and for the application's directory. *)
Definition set_root_dirs (p : path) (found : option (nat * cstring)) : M state unit :=
  match found with
  | None =>
    let* d := dirname_self_exe in
    set_cderoot_dir (d ++ slash :: CDE_ROOT_NAME_DEFAULT) ;;;
    let* d := dirname_self_exe in
    set_app_dir d ;;;
    modM (fun s => s {{ cfg -> cde_exec_from_outside_cderoot := true }})
  | Some (found_index, _) =>
    let* tmp := assert_some (path2str p found_index) in
    set_cderoot_dir tmp ;;;
    assertM (0 <? found_index) ;;;
    let* tmp := assert_some (path2str p (found_index - 1)) in
    set_app_dir tmp
  end.

Definition CDE_init_pseudo_root_dir : M state unit :=
  let* exec := conf Cde_exec_mode in
  assertM exec ;;;
  let* start := conf cde_starting_pwd in
  let* p := assert_some (new_path_from_abspath start) in
  assertM (0 <? depth p) ;;;
  let* found := find_root (stack p) 1 None in
  set_root_dirs p found.

(** ** Streaming mode *)

Fixpoint seed_trie (k : nat) (f : Z) : M state unit :=
  match k with
  | O => stopM (OutOfFuel "locally-cached-files.txt")
  | S k' =>
    let* r := sysM (Getline f) in
    match r with
    | None => skip
    | Some line =>
      assertM (bool_decide (last line = Some newline)) ;;;
      let line := until_nul (removelast line) in
      (if bool_decide (line = []) then skip
       else
         let* t := gets cached_files_trie in
         let* t' := assert_some (TrieInsert t line) in
         modM (fun s => s {{ cached_files_trie := t' }})) ;;;
      seed_trie k' f
    end
  end.

Definition init_streaming : M state unit :=
  let* root := conf cde_cderoot_dir in
  let* name := conf_str CDE_ROOT_NAME in
  (if length root <? length name then stopM Segv else skip) ;;;
  let remote := take (length root - length name) root ++ lit "cde-remote-root" in
  modM (fun s => s {{ cfg -> cde_remote_root_dir := Some remote }}) ;;;
  let* remote_root_stat := sysM (Stat remote) in
  (if (match remote_root_stat with Some st => bool_decide (st_kind st = DIR) | None => false end) then skip
   else
     eprintf "Fatal error: Running in -s mode but '%s' directory does not exist" [PS remote] ;;; stopM (Exit 1)) ;;;
  modM (fun s => s {{ cached_files_trie := TrieNew }}) ;;;
  let p := root ++ lit "/../locally-cached-files.txt" in
  let* f := sysM (Fopen p F_read) in
  match f with
  | Some f => seed_trie fuel f ;;; let* _ := sysM (Fclose f) in skip
  | None => skip
  end ;;;
  let* f := sysM (Fopen p F_append) in
  modM (fun s => s {{ cfg -> cached_files_fp := f }}).

(** ** The package, in audit mode *)

Definition make_package_dirs : M state unit :=
  let* pkg := conf CDE_PACKAGE_DIR in
  let* start := conf cde_starting_pwd in
  let* pkg := assert_some (canonicalize_path (default (lit "cde-package") pkg) start) in
  modM (fun s => s {{ cfg -> CDE_PACKAGE_DIR := Some pkg }}) ;;;
  set_app_dir pkg ;;;
  let* name := conf_str CDE_ROOT_NAME in
  let root := pkg ++ slash :: name in
  let img := pkg ++ slash :: CDE_IMGDIR_NAME ++ [slash] in
  modM (fun s => s {{ cfg -> CDE_ROOT_DIR := Some root; cfg -> CDE_IMG_DIR := Some img }}) ;;;
  assertM (IS_ABSPATH root) ;;;
  assertM (IS_ABSPATH img) ;;;
  let* _ := sysM (Mkdir pkg 511) in
  let* _ := sysM (Mkdir root 511) in
  let* _ := sysM (Mkdir img 511) in
  let* st := sysM (Stat root) in
  match st with
  | Some _ => skip
  | None => eprintf "Error: Cannot create CDE root directory at '%s'" [PS root] ;;; stopM (Exit 1)
  end.

Definition quoted (s : cstring) : cstring := squote :: s ++ [squote].
Definition fput (f : Z) (s : cstring) : M state unit := let* _ := sysM (Fputs f s) in skip.

Definition save_uname : M state unit :=
  let* uname_info := sysM Uname in
  match uname_info with
  | None => skip
  | Some (sysname, release, version, machine) =>
    let* pkg := conf_str CDE_PACKAGE_DIR in
    let* f := sysM (Fopen (pkg ++ lit "/cde.uname") F_write) in
    match f with
    | None => skip
    | Some f =>
      fput f (lit "uname: " ++ quoted sysname ++ lit " " ++ quoted release ++ lit " " ++ quoted version
              ++ lit " " ++ quoted machine ++ [newline]) ;;;
      let* _ := sysM (Fclose f) in skip
    end
  end.

(** *** The default cde.options *)

Definition ln (s : string) : cstring := lit s ++ [newline].
#[local] Arguments ln _%_string_scope.

Definition tracked_options : list cstring :=
  [CDE_OPTIONS_VERSION_NUM; ln " (do not alter this first line!)";
   newline :: ln "# These directories often contain pseudo-files that shouldn't be tracked";
   ln "ignore_prefix=/dev/"; ln "ignore_exact=/dev"; ln "ignore_prefix=/proc/";
   ln "ignore_exact=/proc"; ln "ignore_prefix=/sys/"; ln "ignore_exact=/sys";
   ln "ignore_prefix=/var/cache/"; ln "ignore_prefix=/var/lock/"; ln "ignore_prefix=/var/log/";
   ln "ignore_prefix=/var/run/"; ln "ignore_prefix=/var/tmp/"; ln "ignore_prefix=/tmp/";
   ln "ignore_exact=/tmp";
   newline :: ln "# un-comment the entries below if you think they might help your app:";
   ln "#ignore_exact=/etc/ld.so.cache"; ln "#ignore_exact=/etc/ld.so.preload";
   ln "#ignore_exact=/etc/ld.so.nohwcap";
   newline :: ln "# Ignore .Xauthority to allow X Windows programs to work";
   ln "ignore_substr=.Xauthority"; ln "/home/fried-liver/Desktop/depaul/provenance-to-use"].
Definition network_options (local_network_settings : bool) : list cstring :=
  if local_network_settings then
  [ln "ignore_exact=/etc/resolv.conf"; ln "ignore_exact=/etc/host.conf";
   ln "ignore_exact=/etc/hosts"; ln "ignore_exact=/etc/nsswitch.conf";
   ln "ignore_exact=/etc/gai.conf"]
  else
  [ln "# These files might be useful to ignore if you have network issues.";
   ln "# (un-comment if you want to try them)"; ln "#ignore_exact=/etc/resolv.conf";
   ln "#ignore_exact=/etc/host.conf"; ln "#ignore_exact=/etc/hosts";
   ln "#ignore_exact=/etc/nsswitch.conf"; ln "#ignore_exact=/etc/gai.conf"].
Definition account_options : list cstring :=
  [newline :: ln "# Access the target machine's password files:";
   ln "# (some programs like texmacs need these lines to be commented-out,";
   ln "#  since they try to use home directory paths within the passwd file,";
   ln "#  and those paths might not exist within the package.)"; ln "ignore_prefix=/etc/passwd";
   ln "ignore_prefix=/etc/shadow";
   newline :: ln "# These environment vars might lead to 'overfitting' and hinder portability";
   ln "ignore_environment_var=DBUS_SESSION_BUS_ADDRESS";
   ln "ignore_environment_var=ORBIT_SOCKETDIR"; ln "ignore_environment_var=SESSION_MANAGER";
   ln "ignore_environment_var=XAUTHORITY"; ln "ignore_environment_var=DISPLAY"].
Definition default_options (local_network_settings : bool) : list cstring :=
  tracked_options ++ network_options local_network_settings ++ account_options.

Definition seed_options : M state unit :=
  let* cde_options_stat := sysM (Stat (lit "cde.options")) in
  match cde_options_stat with
  | Some _ => skip
  | None =>
    let* f := sysM (Fopen (lit "cde.options") F_write) in
    let* f := deref f in
    let* local := conf local_network_settings in
    forM (default_options local) (fput f) ;;;
    let* _ := sysM (Fclose f) in skip
  end.

(** *** The scripts *)

(** [" '%s'"] for each argument *)
Definition print_args (args : list cstring) : cstring := concat (map (fun a => " "%char :: quoted a) args).
Definition in_dquotes (s : cstring) : cstring := dquote :: s ++ [dquote].
(** The arguments of cde-exec: the options, the program, what the script is given. *)
Definition script_args (argv : list cstring) (optind : nat) (target : cstring) : cstring :=
  print_args (take (optind - 1) (drop 1 argv)) ++ lit " " ++ quoted target ++ lit " " ++ in_dquotes (lit "$@") ++ [newline].

(** From the directory of the script up to the package. *)
Definition dot_dots (depth : nat) : cstring := lit ".." ++ concat (repeat (lit "/..") depth).

Definition write_script (name : cstring) (body : list cstring) : M state unit :=
  let* f := sysM (Fopen name F_write) in
  let* f := deref f in
  forM body (fput f) ;;;
  let* _ := sysM (Fclose f) in
  let* _ := sysM (Chmod name 511) in skip.

Definition nested_script (depth : nat) (argv : list cstring) (optind : nat) (target : cstring) : list cstring :=
  [ln "#!/bin/sh"; dot_dots depth ++ lit "/cde-exec"; script_args argv optind target].
Definition toplevel_script (argv : list cstring) (optind : nat) (target : cstring) : list cstring :=
  [ln "#!/bin/sh";
   lit "HERE=" ++ in_dquotes (lit "$(dirname " ++ in_dquotes (lit "$(readlink -f " ++ in_dquotes (lit "${0}") ++ lit ")") ++ lit ")") ++ [newline];
   lit "cd " ++ in_dquotes (lit "$HERE/cde-root") ++ lit " && ../cde-exec"; script_args argv optind target].

Definition CDE_create_convenience_scripts (argv : list cstring) (optind : nat) : M state unit :=
  let* exec := conf Cde_exec_mode in
  assertM (negb exec) ;;;
  let* nocap := prv Prov_no_app_capture in
  if nocap then skip
  else
    let* target := deref (argv !! optind) in
    let cde_script_name := basename target ++ lit ".cde" in
    let* start := conf cde_starting_pwd in
    let* progname_redirected := redirect_filename_into_cderoot cde_script_name (Some start) false in
    match progname_redirected with
    | None => skip
    | Some name =>
      make_mirror_dirs_in_cde_package start false ;;;
      let* p := assert_some (new_path_from_abspath start) in
      assertM (0 <? depth p) ;;;
      let* _ := strbuf MAXPATHLEN (dot_dots (depth p)) in
      write_script name (nested_script (depth p) argv optind target)
    end ;;;
    match strchr target slash with
    | Some _ => skip
    | None =>
      let* pkg := conf_str CDE_PACKAGE_DIR in
      write_script (pkg ++ slash :: cde_script_name) (toplevel_script argv optind target)
    end.

(** *** The log of commands *)

Fixpoint put_quoted (f : Z) (args : list cstring) : M state unit :=
  match args with
  | [] => skip
  | a :: args' =>
    let* safed_arg := deref (malloc_quoted_arg_str a) in
    fput f (" "%char :: safed_arg) ;;;
    put_quoted f args'
  end.

Definition append_command (argv : list cstring) (optind : nat) : M state unit :=
  let* pkg := conf_str CDE_PACKAGE_DIR in
  let log_filename := pkg ++ lit "/cde.log" in
  let* tmp := sysM (Stat log_filename) in
  let* log_f :=
    match tmp with
    | None =>
      let* f := sysM (Fopen log_filename F_write) in
      let* f := deref f in
      let* name := conf_str CDE_ROOT_NAME in
      let* start := conf cde_starting_pwd in
      fput f (lit "cd " ++ quoted (name ++ start)) ;;;
      fput f [newline] ;;;
      retM f
    | Some _ => let* f := sysM (Fopen log_filename F_append) in deref f
    end in
  let* target := deref (argv !! optind) in
  let* safed_cmd := deref (malloc_quoted_arg_str (basename target)) in
  fput log_f (lit "./" ++ safed_cmd ++ lit ".cde") ;;;
  put_quoted log_f (drop (optind + 1) argv) ;;;
  fput log_f [newline] ;;;
  let* _ := sysM (Fclose log_f) in skip.

(** ** CDE_init *)

(** What depends on no mode: the directory, the name of the package, the tracer's path. *)
Definition init_globals : M state unit :=
  let* _ := sysM Time in
  let* d := sysM Getcwd in
  modM (fun s => s {{ cfg -> cde_starting_pwd := d }}) ;;;
  let* _ := sysM (Umask 0) in
  let* name := conf CDE_ROOT_NAME in
  modM (fun s => s {{ cfg -> CDE_ROOT_NAME := Some (default CDE_ROOT_NAME_DEFAULT name) }}) ;;;
  let* r := sysM (Readlink (lit "/proc/self/exe")) in
  let* exe := assert_some r in
  assertM (negb (bool_decide (exe = []))) ;;;
  let* exe := strbuf MAXPATHLEN exe in
  modM (fun s => s {{ cfg -> CDE_proc_self_exe := exe }}) ;;;
  vbprintf "self_exe: %s" [PS exe].

(** The package gets the tracer, the scripts, the log, the links and the environment. *)
Definition fill_package (argv : list cstring) (optind : nat) : M state unit :=
  let* pkg := conf_str CDE_PACKAGE_DIR in
  okapi_copy_file fuel (lit "/proc/self/exe") (pkg ++ lit "/cde-exec") 511 ;;;
  CDE_create_convenience_scripts argv optind ;;;
  append_command argv optind ;;;
  CDE_create_path_symlink_dirs ;;;
  CDE_create_toplevel_symlink_dirs ;;;
  let* name := conf_str CDE_ROOT_NAME in
  okapi_copy_file fuel (lit "/proc/self/environ") (pkg ++ lit "/cde.full-environment." ++ name) 438.

Definition CDE_init (argv : list cstring) (optind : nat) : M state unit :=
  init_globals ;;;
  let* exec := conf Cde_exec_mode in
  (if exec then
     CDE_init_pseudo_root_dir ;;;
     let* streaming := conf CDE_exec_streaming_mode in
     when streaming init_streaming
   else make_package_dirs ;;; save_uname ;;; seed_options) ;;;
  CDE_init_options ;;;
  when (negb exec) (fill_package argv optind).
End Init.
