(* ===== verification/Startup.v ===== *)
(** * The start of the tracer (strace.c: main)

    The options, the test of what ptrace can report, the start of the program, and [main],
    which puts the parts of PTU together: CDE_init, the log, the environment, the loop. *)
From S2P Require Import Prelude CString Os PerfTimers SysLimits OkapiPath OkapiMirror Trie State CdeOptions Redirect Shm Sysent Qualify ProcTab.
From S2P Require Import Provenance Environ Forks TraceLoop Init.

Definition SIGHUP : Z := 1.
Definition SIGINT : Z := 2.
Definition SIGQUIT : Z := 3.
Definition SIGPIPE : Z := 13.
Definition WSTOPPED : Z := 2.
Definition S_ISUID : Z := 2048.
Definition S_ISGID : Z := 1024.

(** ** The options *)

(** An option that [getopt] returns: one of the string, one that is not, one of which the
    argument is missing. *)
Inductive option_read := Opt (c : ascii) (optarg : cstring) | Unknown (c : ascii) | Missing (c : ascii).

(** The letters of the option string, without and with an argument *)
Definition flag_letters : cstring := lit "cCdfFhqrtTvVxzlsSnNbwD".
Definition arg_letters : cstring := lit "aeoOuEipPI".
(** Does the option take an argument? *)
Definition takes_arg (c : ascii) : option bool :=
  if bool_decide (c ∈ flag_letters) then Some false
  else if bool_decide (c ∈ arg_letters) then Some true else None.

(** [getopt] is the C library's: what follows is what POSIX says of it.

    The letters of a word: the options, and the last one if its argument is the next word *)
Fixpoint read_letters (nextchar : cstring) : list option_read * option ascii :=
  match nextchar with
  | [] => ([], None)
  | c :: nextchar =>
    match takes_arg c, nextchar with
    | Some true, [] => ([], Some c)
    | Some true, _ :: _ => ([Opt c nextchar], None)
    | Some false, _ => let '(l, o) := read_letters nextchar in (Opt c [] :: l, o)
    | None, _ => let '(l, o) := read_letters nextchar in (Unknown c :: l, o)
    end
  end.
(** With a string that starts with [+]: the options in front of the first
    argument that is none, and the index of that argument. *)
Fixpoint getopt_args (args : list cstring) (optind : nat) : list option_read * nat :=
  match args with
  | [] => ([], optind)
  | a :: rest =>
    match a with
    | ["-"; "-"]%char => ([], optind + 1)
    | "-"%char :: (_ :: _) =>
      let '(l, o) := read_letters (tail a) in
      match o, rest with
      | None, _ => let '(l', n) := getopt_args rest (optind + 1) in (l ++ l', n)
      | Some c, optarg :: rest => let '(l', n) := getopt_args rest (optind + 2) in (l ++ Opt c optarg :: l', n)
      | Some c, [] => (l ++ [Missing c], optind + 1)
      end
    | _ => ([], optind)
    end
  end.
Definition getopt (argv : list cstring) : list option_read * nat := getopt_args (tail argv) 1.

(** The variables of main and strace.c that the options set and the start uses *)
Record settings := {
  optF : bool;
  username : option cstring;
  run_uid : Z;
  run_gid : Z;
  daemonized_tracer : bool;
  debug : bool;
}.
Definition settings0 : settings :=
  {| optF := false; username := None; run_uid := 0; run_gid := 0; daemonized_tracer := false; debug := false |}.

Section Startup.
Context {Fu : Fuel}.

Definition usage {A} (err : bool) (exitval : Z) : M state A :=
  let* exec := conf Cde_exec_mode in
  let msg := (if exec then "PTU\nBasic usage: ptu-exec [command within cde-root/ to run]\n"
              else "PTU\nBasic usage: ptu-audit [command to run and package]\n")%string in
  let* _ := (if err then sysM (Eprintf msg []) else sysM (Printf msg [])) in
  stopM (Exit exitval).

(** [qualify(optarg)] *)
Definition qualify_opt (optarg : cstring) : M state unit :=
  let* a := conf personality in
  let* ps := gets procs in
  let* q := qualify (sysent0_of a) (sysent1_of a) optarg (qual_flags0 ps, qual_flags1 ps) in
  modM (fun s => s {{ procs -> qual_flags0 := q.1; procs -> qual_flags1 := q.2 }}).

(** The body of the loop over the options. What -C, -q, -r, -t, -T, -z and -O set is only
    read by what prints calls and their statistics. *)
Definition handle_option (o : option_read) (st : settings) : M state settings :=
  match o with
  | Unknown c => eprintf "%s: invalid option -- '%c'" [PS [c]] ;;; usage true 1
  | Missing c => eprintf "%s: option requires an argument -- '%c'" [PS [c]] ;;; usage true 1
  | Opt c optarg =>
    if bool_decide (c = "c"%char) then
      let* f := sysM (Fopen (lit "cde-copied-files.log") F_write) in
      modM (fun s => s {{ cfg -> CDE_copied_files_logfile := f }}) ;;; retM st
    else if bool_decide (c = "d"%char) then retM (st {{ debug := true }})
    else if bool_decide (c = "D"%char) then retM (st {{ daemonized_tracer := true }})
    else if bool_decide (c = "F"%char) then retM (st {{ optF := true }})
    else if bool_decide (c = "f"%char) then modM (fun s => s {{ procs -> followfork := false }}) ;;; retM st
    else if bool_decide (c = "h"%char) then usage false 0
    else if bool_decide (c = "i"%char) then CDE_add_ignore_exact_path optarg ;;; retM st
    else if bool_decide (c = "n"%char) then modM (fun s => s {{ cfg -> CDE_block_net_access := true }}) ;;; retM st
    else if bool_decide (c = "N"%char) then modM (fun s => s {{ cfg -> local_network_settings := false }}) ;;; retM st
    else if bool_decide (c = "x"%char) then modM (fun s => s {{ cfg -> xflag := S (xflag (cfg s)) }}) ;;; retM st
    else if bool_decide (c = "v"%char) then modM (fun s => s {{ cfg -> Cde_verbose_mode := true }}) ;;; retM st
    else if bool_decide (c = "V"%char) then let* _ := sysM (Printf "PALLY v0.1\n" []) in stopM (Exit 0)
    else if bool_decide (c = "a"%char) then modM (fun s => s {{ cfg -> CDE_ROOT_NAME := Some optarg }}) ;;; retM st
    else if bool_decide (c = "b"%char) then modM (fun s => s {{ prov -> Prov_no_app_capture := true }}) ;;; retM st
    else if bool_decide (c = "e"%char) then qualify_opt optarg ;;; retM st
    else if bool_decide (c = "o"%char) then modM (fun s => s {{ cfg -> CDE_PACKAGE_DIR := Some optarg }}) ;;; retM st
    else if bool_decide (c = "l"%char) then
      modM (fun s => s {{ cfg -> CDE_use_linker_from_package := false }}) ;;; retM st
    else if bool_decide (c = "p"%char) then CDE_add_ignore_prefix_path optarg ;;; retM st
    else if bool_decide (c = "s"%char) then
      modM (fun s => s {{ cfg -> CDE_exec_streaming_mode := true }}) ;;; retM st
    else if bool_decide (c = "u"%char) then retM (st {{ username := Some optarg }})
    else if bool_decide (c = "E"%char) then
      let* r := sysM (Putenv optarg) in
      if (r <? 0)%Z then eprintf "%s: out of memory\n" [] ;;; stopM (Exit 1) else retM st
    else retM st
  end.
Fixpoint handle_options (l : list option_read) (st : settings) : M state settings :=
  match l with
  | [] => retM st
  | o :: l => let* st := handle_option o st in handle_options l st
  end.

(** ** Which events does ptrace report? *)

(** The test's own child, and what it forks *)
Definition test_child {A} : M state A :=
  let* r := sysM Ptrace_traceme in
  if (r <? 0)%Z then stopM (Exit 1)
  else
    let* me := sysM Getpid in
    let* _ := sysM (Kill me SIGSTOP) in
    let* g := sysM Fork in
    stopM (Exit (if (g <? 0)%Z then 1 else 0)).

(** A restart that kills the process when it fails, but for a process that has gone *)
Definition restart_or_kill (op : restart) (p : Z) : M state unit :=
  let* r := sysM (Ptrace_restart op p 0) in
  when (negb (r =? 0)%Z && negb (r =? ESRCH)%Z) (let* _ := sysM (Kill p SIGKILL) in skip).

(** The loop: the child that was announced and the one that was seen; [None] for a failure *)
Fixpoint test_loop (k : nat) (p expected_grandchild found_grandchild : Z) : M state (option (Z * Z)) :=
  match k with
  | O => stopM (OutOfFuel "test_ptrace_setoptions")
  | S k' =>
    let* r := sysM (Wait4 (-1) 0) in
    match r with
    | inr errno =>
      if (errno =? EINTR)%Z then test_loop k' p expected_grandchild found_grandchild
      else if (errno =? ECHILD)%Z then retM (Some (expected_grandchild, found_grandchild))
      else eprintf "%s" [PS (lit "test_ptrace_setoptions")] ;;; retM None
    | inl (tracee_pid, status) =>
      if negb (tracee_pid =? p)%Z then
        restart_or_kill PTRACE_CONT tracee_pid ;;;
        test_loop k' p expected_grandchild tracee_pid
      else if WIFSTOPPED status then
        if (WSTOPSIG status =? SIGSTOP)%Z then
          let* r := sysM (Ptrace_setoptions p trace_events) in
          if negb (r =? 0)%Z then let* _ := sysM (Kill p SIGKILL) in retM None
          else restart_or_kill PTRACE_SYSCALL p ;;; test_loop k' p expected_grandchild found_grandchild
        else
          let* expected_grandchild :=
            (if (WSTOPSIG status =? SIGTRAP)%Z && (Z.shiftr status 16 =? PTRACE_EVENT_FORK)%Z then
               let* r := sysM (Ptrace_geteventmsg p) in
               match r with inl msg => retM (to_int msg) | inr _ => retM expected_grandchild end
             else retM expected_grandchild) in
          restart_or_kill PTRACE_SYSCALL p ;;; test_loop k' p expected_grandchild found_grandchild
      else test_loop k' p expected_grandchild found_grandchild
    end
  end.
Definition test_ptrace_setoptions : M state Z :=
  let* p := sysM Fork in
  if (p <? 0)%Z then retM (-1)%Z
  else if (p =? 0)%Z then test_child
  else
    let* r := test_loop fuel p 0 0 in
    match r with
    | None => retM (-1)%Z
    | Some (expected_grandchild, found_grandchild) =>
      when (negb (expected_grandchild =? 0)%Z && (expected_grandchild =? found_grandchild)%Z)
        (modM (fun s => s {{ procs -> ptrace_setoptions := Z.lor (ptrace_setoptions (procs s)) trace_events }})) ;;;
      retM 0%Z
    end.

(** ** The program is looked for

    getcwd is taken to succeed: when it fails, main goes on with the next directory. *)

Definition executable (st : option fstat) : bool :=
  match st with
  | Some st => bool_decide (st_kind st = REG) && negb (Z.land (st_mode st) 73 =? 0)%Z
  | None => false
  end.
(** Where a path is looked for: in exec mode in the package *)
Definition path_to_look (pathname : cstring) : M state cstring :=
  let* exec := conf Cde_exec_mode in
  let* p := (if exec then strcpy_redirected_cderoot pathname else retM pathname) in
  strbuf MAXPATHLEN p.
Definition with_slash (d : cstring) : cstring :=
  match last d with Some c => if is_slash c then d else d ++ [slash] | None => d end.

(** The loop over $PATH: [pathname] and [path_to_search], which keep what the last turn put
    there when nothing is found. *)
Fixpoint search_path (k : nat) (path filename : cstring) (pathname : option cstring) (path_to_search : cstring)
    : M state (option cstring * cstring) :=
  match k, path with
  | _, [] => retM (pathname, path_to_search)
  | O, _ => stopM (OutOfFuel "PATH")
  | S k', _ =>
    let '(n, m) := match strchr path ":"%char with Some i => (i, i + 1) | None => (length path, length path) end in
    if MAXPATHLEN - 1 <? n then search_path k' (drop m path) filename pathname path_to_search
    else
      let* d := (if n =? 0 then sysM Getcwd else retM (take n path)) in
      let* pathname := strbuf MAXPATHLEN (with_slash d ++ filename) in
      let* path_to_search := path_to_look pathname in
      let* st := sysM (Stat path_to_search) in
      if executable st then retM (Some pathname, path_to_search)
      else search_path k' (drop m path) filename (Some pathname) path_to_search
  end.

Definition find_program (filename : cstring) : M state (cstring * fstat) :=
  let* found :=
    match strchr filename slash with
    | Some _ =>
      if MAXPATHLEN - 1 <? length filename then eprintf "%s" [PS (lit "strace: exec")] ;;; stopM (Exit 1)
      else retM (Some filename, [])
    | None =>
      let* path := sysM (Getenv (lit "PATH")) in
      let path := default [] path in
      search_path (length path) path filename None []
    end in
  let* pathname := deref found.1 in
  let* path_to_search := (if bool_decide (found.2 = []) then path_to_look pathname else retM found.2) in
  let* st := sysM (Stat path_to_search) in
  match st with
  | None => eprintf "%s: command not found (path_to_search=%s)\n" [PS filename; PS path_to_search] ;;; stopM (Exit 1)
  | Some st => retM (pathname, st)
  end.

(** ** The program is started *)

Definition perror_exit {A} (what : string) : M state A := eprintf "%s" [PS (lit what)] ;;; stopM (Exit 1).
Arguments perror_exit {A} _%_string_scope.

(** The user and the groups of the new process; a set-user-ID program gets its owner's. *)
Definition set_user (o : settings) (statbuf : fstat) : M state unit :=
  match username o with
  | Some name =>
    let run_euid := if has_flag (st_mode statbuf) S_ISUID then st_uid statbuf else run_uid o in
    let run_egid := if has_flag (st_mode statbuf) S_ISGID then st_gid statbuf else run_gid o in
    let* r := sysM (Initgroups name (run_gid o)) in
    if (r <? 0)%Z then perror_exit "initgroups" else
    let* r := sysM (Setregid (run_gid o) run_egid) in
    if (r <? 0)%Z then perror_exit "setregid" else
    let* r := sysM (Setreuid (run_uid o) run_euid) in
    if (r <? 0)%Z then perror_exit "setreuid" else skip
  | None =>
    let* e := sysM Geteuid in
    when (negb (e =? 0)%Z) (let* _ := sysM (Setreuid (run_uid o) (run_uid o)) in skip)
  end.

(** The process that becomes the program *)
Definition become_program {A} (o : settings) (pathname : cstring) (argv : list cstring) (statbuf : fstat) : M state A :=
  let* me := sysM Getpid in
  set_user o statbuf ;;;
  (if daemonized_tracer o then
     let* _ := sysM (Signal SIGCHLD false) in
     let* _ := sysM (Alarm 3) in
     let* _ := sysM (Wait4 (-1) 0) in
     let* _ := sysM (Alarm 0) in skip
   else
     let* me := sysM Getpid in
     let* _ := sysM (Kill me SIGSTOP) in skip) ;;;
  let* outside := conf cde_exec_from_outside_cderoot in
  when outside
    (let* name := conf_str CDE_ROOT_NAME in
     when (bool_decide (strstr pathname name <> None))
       (eprintf "Fatal error: can't cde-exec '%s' from outside of cde-root/\n(instead try specifying a program path relative to cde-root/)\n"
          [PS pathname] ;;; stopM (Exit 1))) ;;;
  let* _ := sysM (Execvp pathname argv) in
  eprintf "%s %d\n" [PS pathname; PZ (if outside then 1 else 0)] ;;;
  perror_exit "strace: exec".

(** The tracer waits until the process has stopped itself. *)
Fixpoint wait_stopped (k : nat) (p : Z) : M state unit :=
  match k with
  | O => stopM (OutOfFuel "waitpid")
  | S k' =>
    let* r := sysM (Wait4 p WSTOPPED) in
    match r with
    | inr errno => if (errno =? EINTR)%Z then wait_stopped k' p else perror_exit "waitpid"
    | inl (_, status) =>
      if WIFSTOPPED status && (WSTOPSIG status =? SIGSTOP)%Z then skip
      else let* _ := sysM (Kill p SIGKILL) in perror_exit "Unexpected wait status"
    end
  end.
(** [ptrace_attach_or_seize], with PTRACE_SEIZE *)
Definition ptrace_attach_or_seize (p : Z) : M state Z :=
  let* r := sysM (Ptrace_seize p) in
  if negb (r =? 0)%Z then retM r else sysM (Ptrace_interrupt p).

(** The tracer's side *)
Definition attach_child (p : Z) : M state unit :=
  wait_stopped fuel p ;;;
  let* r := ptrace_attach_or_seize p in
  (if negb (r =? 0)%Z then let* _ := sysM (Kill p SIGKILL) in perror_exit "Can't attach to child" else skip) ;;;
  let* _ := sysM (Kill p SIGCONT) in
  let* c := alloc_tcb p in
  on_tcb c CDE_init_tcb_dir_fields ;;;
  or_flags c (Z.lor TCB_ATTACHED TCB_STARTUP).

Definition startup_child (o : settings) (argv : list cstring) : M state unit :=
  let* filename := deref (head argv) in
  let* found := find_program filename in
  let '(pathname, statbuf) := found in
  let* p := sysM Fork in
  modM (fun s => s {{ procs -> strace_child := p }}) ;;;
  if (p <? 0)%Z then eprintf "%s" [PS (lit "strace: fork")] ;;; cleanup ;;; stopM (Exit 1)
  else if (if daemonized_tracer o then negb (p =? 0)%Z else (p =? 0)%Z) then become_program o pathname argv statbuf
  else if daemonized_tracer o then
    let* p := sysM Getppid in
    let* c := alloc_tcb p in
    or_flags c TCB_ATTACHED
  else attach_child p.

(** ** The tracer of -D attaches to the process that it is a child of. *)

Definition attach_one (i : nat) : M state unit :=
  let* f := flags_at i in
  if negb (has_flag f TCB_INUSE) || negb (has_flag f TCB_ATTACHED) || has_flag f TCB_CLONE_THREAD then skip
  else
    let* p := pid_at i in
    let* r := ptrace_attach_or_seize p in
    if (r <? 0)%Z then eprintf "%s" [PS (lit "attach: ptrace(PTRACE_ATTACH, ...)")] ;;; droptcb i
    else
      clear_flags i TCB_ATTACHED ;;;
      let* pp := sysM Getppid in
      let* _ := sysM (Kill pp SIGKILL) in skip.
Definition startup_attach : M state unit :=
  let* p := sysM Fork in
  if (p <? 0)%Z then stopM (Exit 1)
  else if negb (p =? 0)%Z then let* _ := sysM Pause in stopM (Exit 0)
  else let* size := tcbtabsize in forM (seq 0 size) attach_one.

(** ** main *)

Definition is_exec_name (progname : cstring) : bool :=
  strcmp_eq (basename progname) (lit "cde-exec") || strcmp_eq (basename progname) (lit "ptu-exec").
Definition is_restore_name (progname : cstring) : bool := strcmp_eq (basename progname) (lit "ptu-restore").

(** The user that the program runs as *)
Definition find_user (o : settings) : M state settings :=
  match username o with
  | Some name =>
    let* u := sysM Getuid in
    let* e := (if (u =? 0)%Z then sysM Geteuid else retM 1%Z) in
    if negb (u =? 0)%Z || negb (e =? 0)%Z then
      eprintf "%s: you must be root to use the -u option\n" [] ;;; stopM (Exit 1)
    else
      let* pent := sysM (Getpwnam name) in
      match pent with
      | None => eprintf "%s: cannot find user `%s'\n" [PS name] ;;; stopM (Exit 1)
      | Some (pw_uid, pw_gid) => retM (o {{ run_uid := pw_uid; run_gid := pw_gid }})
      end
  | None =>
    let* u := sysM Getuid in
    let* g := sysM Getgid in
    retM (o {{ run_uid := u; run_gid := g }})
  end.

(** The globals that main sets first; [personality] is that of the tracer's machine. *)
Definition init_main (argv : list cstring) : M state unit :=
  set_perf_timer AUDIT_FILE_COPYING DISABLED ;;;
  match argv with
  | [] => eprintf "cde error, wha???\n" [] ;;; stopM (Exit 1)
  | progname :: _ =>
    modM (fun s => s {{ cfg -> Cde_exec_mode := is_exec_name progname;
                        procs -> tcbtab := repeat slot0 (length argv);
                        cfg -> personality := match personality (cfg s) with I386 => I386 | _ => X86_64 end }})
  end.

(** From the options to CDE_init *)
Definition main_settings (argc optind : nat) (o : settings) : M state settings :=
  let* a := conf personality in
  main_qualify a ;;;
  (if optind =? argc then usage true 1 else skip) ;;;
  modM (fun s => s {{ procs -> followfork := followfork (procs s) || optF o }}) ;;;
  let* o := find_user o in
  let* ff := gets (fun s => followfork (procs s)) in
  when ff
    (let* r := test_ptrace_setoptions in
     when (r <? 0)%Z
       (eprintf "Test for options supported by PTRACE_SETOPTIONS failed, giving up using this feature.\n" [] ;;;
        modM (fun s => s {{ procs -> ptrace_setoptions := 0%Z }})) ;;;
     when (debug o)
       (let* opts := gets (fun s => ptrace_setoptions (procs s)) in eprintf "ptrace_setoptions = %#x\n" [PZ opts])) ;;;
  retM o.

(** The signals that the tracer ignores, once the program has been started *)
Definition ignore_signals : M state unit :=
  forM [SIGTTOU; SIGTTIN; SIGHUP; SIGINT; SIGQUIT; SIGPIPE; SIGTERM] (fun sig => let* _ := sysM (Signal sig true) in skip) ;;;
  let* _ := sysM (Signal SIGCHLD false) in skip.

(** From the log to the end *)
Definition main_run (argv : list cstring) (optind : nat) (o : settings) : M state unit :=
  init_prov ;;;
  let* exec := conf Cde_exec_mode in
  when exec (let* name := conf CDE_ROOT_NAME in CDE_load_environment_vars name) ;;;
  when (negb (is_restore_name (default [] (head argv)))) (startup_child o (drop optind argv)) ;;;
  ignore_signals ;;;
  when (daemonized_tracer o) startup_attach ;;;
  run_trace fuel.

Definition main (argv : list cstring) : M state unit :=
  init_main argv ;;;
  let '(l, optind) := getopt argv in
  let* o := handle_options l settings0 in
  let* o := main_settings (length argv) optind o in
  CDE_init argv optind ;;;
  main_run argv optind o.
End Startup.
