(* ===== verification/StartupSpec.v ===== *)
(** * What the start of the tracer does (strace.c)

    The command line read back, the test of ptrace's options, the search for the program. *)
From S2P Require Import Prelude CString Os PerfTimers SysLimits OkapiPath OkapiMirror Trie State CdeOptions Redirect Shm Sysent Qualify ProcTab.
From S2P Require Import RedirectSpec ProcTabSafe Provenance Environ Forks TraceLoop Init Startup.

(** ** The command line *)








Section Options.
Context {Fu : Fuel}.

End Options.


(** ** The test of the options of ptrace *)

Section Test.
Context {Fu : Fuel} {W : Type} (h : forall c, W -> reply c * W).
(** What the waits of the tracer will report, until it has no child left *)
Context (waits : W -> list ((Z * Z) + Z)).
Context (Hwait : forall w, (h (Wait4 (-1) 0) w).1 = default (inr ECHILD) (head (waits w))
                        /\ waits (h (Wait4 (-1) 0) w).2 = tail (waits w)).
Context (Hother : forall c w, c <> Wait4 (-1) 0 -> waits (h c w).2 = waits w).
Let R (w w' : W) : Prop := waits w' = waits w.
#[local] Instance R_refl : Reflexive R.
Proof. by intros w. Qed.
#[local] Instance R_trans : Transitive R.
Proof. intros a b c H1 H2. unfold R in *. congruence. Qed.

Lemma restart_runs op p s : runs h R (restart_or_kill op p) s tt s.
Proof.
  unfold restart_or_kill. apply (runs_ignore_bind h R); [intros w; by apply Hother|]. intros r. destruct (_ && _); simpl.
  - apply (runs_ignore_bind h R); [intros w; by apply Hother|]. intros r2. by apply (runs_pure h R).
  - by apply (runs_pure h R).
Qed.

(** The child forks; the other children that are reported *)
Definition fork_event (p : Z) (x : (Z * Z) + Z) : bool :=
  match x with
  | inl (q, st) => (q =? p)%Z && WIFSTOPPED st && (WSTOPSIG st =? SIGTRAP)%Z && (Z.shiftr st 16 =? PTRACE_EVENT_FORK)%Z
  | inr _ => false
  end.
Definition other_child (p : Z) (x : (Z * Z) + Z) : option Z :=
  match x with inl (q, _) => if (q =? p)%Z then None else Some q | inr _ => None end.
Definition wait_ok (x : (Z * Z) + Z) : Prop := match x with inr e => e = EINTR | inl _ => True end.

Lemma test_loop_returns (p g : Z) s :
  (forall w, (h (Ptrace_setoptions p trace_events) w).1 = 0%Z) ->
  (forall w, (h (Ptrace_geteventmsg p) w).1 = inl g) ->
  forall k l w e f, waits w = l -> length l < k -> Forall wait_ok l ->
  exists tr w', returns h (test_loop k p e f) s w tr
    (Some (if existsb (fork_event p) l then to_int g else e, default f (last (omap (other_child p) l)))) s w'.
Proof.
  intros Hset Hev k. induction k as [|k IH]; intros l w e f Hw Hk Hl; [lia|].
  destruct (Hwait w) as [Hr Hn]. rewrite Hw in Hr, Hn. cbn [test_loop].
  destruct l as [|x l].
  - simpl in Hr. eexists _, _. eapply (returns_sys_bind h (Wait4 (-1) 0)); [exact Hr|reflexivity|]. simpl. apply returns_ret.
  - simpl in Hr, Hn, Hk. apply Forall_cons_1 in Hl as [Hx Hl].
    assert (Hnext : forall w1 e1 f1, waits w1 = l -> exists tr w', returns h (test_loop k p e1 f1) s w1 tr
      (Some (if existsb (fork_event p) l then to_int g else e1, default f1 (last (omap (other_child p) l)))) s w').
    { intros w1 e1 f1 H1. apply IH; [done|lia|done]. }
    assert (Hrun : forall (m : M state unit) w1 e1 f1, waits w1 = l -> runs h R m s tt s ->
      exists tr w', returns h (m ;;; test_loop k p e1 f1) s w1 tr
      (Some (if existsb (fork_event p) l then to_int g else e1, default f1 (last (omap (other_child p) l)))) s w').
    { intros m w1 e1 f1 H1 Hm. destruct (Hm w1) as (t1 & w2 & Hr1 & H2). unfold R in H2. rewrite H1 in H2.
      destruct (Hnext w2 e1 f1 H2) as (t2 & w3 & Hr2). exists (t1 ++ t2), w3. by eapply returns_bind. }
    assert (Hstep : forall (m : M state (option (Z * Z))) a,
       (exists tr w', returns h m s (h (Wait4 (-1) 0) w).2 tr a s w') ->
       forall f, f x = m -> exists tr w', returns h (let* r := sysM (Wait4 (-1) 0) in f r) s w tr a s w').
    { intros m a (tr & w' & Hm) f0 Hf. eexists _, w'. eapply (returns_sys_bind h (Wait4 (-1) 0)); [exact Hr|reflexivity|].
      rewrite Hf. exact Hm. }
    destruct x as [[q st]|err].
    2: { simpl in Hx. subst err. eapply Hstep; [|reflexivity]. simpl. by apply Hnext. }
    cbn [existsb fork_event omap list_omap other_child]. destruct (Z.eqb_spec q p) as [->|Hq]; simpl.
    2: { eapply Hstep; [|simpl; rewrite (proj2 (Z.eqb_neq q p) Hq); reflexivity]. simpl.
         destruct (Hrun (restart_or_kill PTRACE_CONT q) _ e q Hn (restart_runs _ _ _)) as (tr & w' & Hret).
         exists tr, w'. destruct (omap (other_child p) l) as [|y l'] eqn:El; [exact Hret|].
         rewrite last_cons. by destruct (last (y :: l')) eqn:Ey; [|apply last_None in Ey]. }
    eapply Hstep; [|cbn beta iota; rewrite Z.eqb_refl; reflexivity]. cbn [negb].
    destruct (WIFSTOPPED st) eqn:Est; simpl; [|by apply Hnext].
    destruct (WSTOPSIG st =? SIGSTOP)%Z eqn:Es.
    + apply Z.eqb_eq in Es. rewrite Es. simpl.
      destruct (Hrun (restart_or_kill PTRACE_SYSCALL p) (h (Ptrace_setoptions p trace_events) (h (Wait4 (-1) 0) w).2).2 e f)
        as (tr & w' & Hret); [by rewrite Hother|by apply restart_runs|].
      eexists _, w'. eapply (returns_sys_bind h (Ptrace_setoptions p trace_events)); [apply Hset|reflexivity|exact Hret].
    + destruct ((WSTOPSIG st =? SIGTRAP)%Z && (Z.shiftr st 16 =? PTRACE_EVENT_FORK)%Z); simpl.
      * destruct (Hrun (restart_or_kill PTRACE_SYSCALL p) (h (Ptrace_geteventmsg p) (h (Wait4 (-1) 0) w).2).2 (to_int g) f)
          as (tr & w' & Hret); [by rewrite Hother|by apply restart_runs|].
        exists (existT (Ptrace_geteventmsg p) (inl g) :: tr), w'.
        eapply (returns_bind h _ _ s _ [existT (Ptrace_geteventmsg p) (inl g)] (to_int g) s); [|].
        { eapply (returns_sys_bind h (Ptrace_geteventmsg p)); [apply Hev|reflexivity|apply returns_ret]. }
        by destruct (existsb (fork_event p) l).
      * destruct (Hrun (restart_or_kill PTRACE_SYSCALL p) (h (Wait4 (-1) 0) w).2 e f Hn) as (tr & w' & Hret);
          [by apply restart_runs|]. by exists tr, w'.
Qed.

(** C38.  The test ends and decides whether children are reported: the options of ptrace get
    the three events of new children exactly when the test's child was reported to fork
    and the last other process that stopped is the child that was announced; whatever else
    is reported, in whatever order, interrupted waits included. *)
Theorem test_ptrace_setoptions_correct (p g : Z) (l : list ((Z * Z) + Z)) (s : state) (w : W)
    (Hfork : (h Fork w).1 = p) (Hp : (0 < p)%Z) (Hg : to_int g <> 0%Z)
    (Hset : forall w, (h (Ptrace_setoptions p trace_events) w).1 = 0%Z)
    (Hev : forall w, (h (Ptrace_geteventmsg p) w).1 = inl g)
    (Hl : waits w = l) (Hok : Forall wait_ok l) (Hfuel : length l < fuel) :
  exists tr w', returns h test_ptrace_setoptions s w tr 0%Z
    (if existsb (fork_event p) l && bool_decide (last (omap (other_child p) l) = Some (to_int g))
     then s {{ procs -> ptrace_setoptions := Z.lor (ptrace_setoptions (procs s)) trace_events }} else s) w'.
Proof.
  destruct (test_loop_returns p g s Hset Hev fuel l (h Fork w).2 0 0) as (tr & w' & Hret); [by rewrite Hother|done|done|].
  eexists _, w'. unfold test_ptrace_setoptions. eapply (returns_sys_bind h Fork); [exact Hfork|reflexivity|].
  rewrite (proj2 (Z.ltb_ge p 0)), (proj2 (Z.eqb_neq p 0)) by lia. eapply returns_bind; [exact Hret|].
  destruct (existsb (fork_event p) l); cbn [andb]; [|apply returns_ret].
  rewrite (proj2 (Z.eqb_neq (to_int g) 0) Hg). cbn [negb andb].
  destruct (last (omap (other_child p) l)) as [q|]; unfold default; cbn [from_option id].
  - destruct (Z.eqb_spec (to_int g) q) as [<-|Hq].
    + rewrite bool_decide_eq_true_2 by done. eapply returns_pure_bind; [reflexivity|apply returns_ret].
    + rewrite bool_decide_eq_false_2 by congruence. eapply returns_pure_bind; [reflexivity|apply returns_ret].
  - rewrite (proj2 (Z.eqb_neq (to_int g) 0) Hg), bool_decide_eq_false_2 by done.
    eapply returns_pure_bind; [reflexivity|apply returns_ret].
Qed.
End Test.

(** A kernel that reports forks: the test's child 50 stops, forks 51 and ends. *)
Definition test_os (c : sys) (l : list ((Z * Z) + Z)) : reply c * list ((Z * Z) + Z) :=
  match c return reply c * list ((Z * Z) + Z) with
  | Wait4 p o => if (p =? -1)%Z && (o =? 0)%Z then (default (inr ECHILD) (head l), tail l) else (inr ECHILD, l)
  | Fork => (50%Z, l)
  | Ptrace_setoptions _ _ | Ptrace_restart _ _ _ => (0%Z, l)
  | Ptrace_geteventmsg _ => (inl 51%Z, l)
  | c => (null_reply c, l)
  end.
Definition test_waits : list ((Z * Z) + Z) :=
  [inl (50, 4991)%Z; inl (50, 66943)%Z; inr EINTR; inl (51, 4991)%Z; inl (51, 0)%Z; inl (50, 0)%Z].
Lemma test_ptrace_setoptions_correct_witness :
  exists tr w', returns test_os (@test_ptrace_setoptions 9) state0 test_waits tr 0%Z
    (state0 {{ procs -> ptrace_setoptions := 14%Z }}) w'.
Proof.
  apply (@test_ptrace_setoptions_correct 9 _ test_os (fun l => l)) with (p := 50%Z) (g := 51%Z) (l := test_waits).
  - intros w. by split.
  - intros c w Hc. destruct c; try reflexivity. simpl. destruct ((_ =? -1)%Z && _)%bool eqn:E; [|reflexivity].
    apply andb_true_iff in E as [E1%Z.eqb_eq E2%Z.eqb_eq]. by rewrite E1, E2 in Hc.
  - reflexivity.
  - lia.
  - discriminate.
  - reflexivity.
  - reflexivity.
  - reflexivity.
  - repeat constructor.
  - apply Nat.ltb_lt. reflexivity.
Defined.

(** ** The search for the program *)

(** A run goes on after a part that returns. *)
Lemma outcome_after {W S A B} (h : forall c, W -> reply c * W) (m : M S A) (f : A -> M S B) s w tr a s' w' :
  returns h m s w tr a s' w' -> outcome h (bindM m f s) w = outcome h (f a s') w'.
Proof.
  intros H. unfold outcome, bindM. rewrite run_bind. unfold returns in H. rewrite H.
  by destruct (run h (f a s') w') as [[t o] w2].
Qed.

Section Search.
Context {Fu : Fuel} {W : Type} (h : forall c, W -> reply c * W) (fs : cstring -> option fstat) (cwd : cstring).
Context (Hstat : forall p w, (h (Stat p) w).1 = fs p) (Hcwd : forall w, (h Getcwd w).1 = cwd).
Let R (w w' : W) : Prop := True.
#[local] Instance any_refl : Reflexive R.
Proof. done. Qed.
#[local] Instance any_trans : Transitive R.
Proof. done. Qed.

(** $PATH, and the paths that are tried for a name *)
Definition join_colon (ds : list cstring) : cstring :=
  match ds with [] => [] | d :: ds => d ++ concat (map (fun d => ":"%char :: d) ds) end.
Definition candidate (filename d : cstring) : cstring := with_slash (if bool_decide (d = []) then cwd else d) ++ filename.
(** The first that is an executable file, or else the last *)
Definition chosen (filename : cstring) (ds : list cstring) : option cstring :=
  match List.find (fun p => executable (fs p)) (map (candidate filename) ds) with
  | Some p => Some p
  | None => last (map (candidate filename) ds)
  end.

(** A directory of $PATH that is short enough, and its name *)
Definition dir_ok (filename d : cstring) : Prop :=
  (":"%char ∉ d) /\ length d < MAXPATHLEN /\ length (candidate filename d) < MAXPATHLEN.

Lemma look_audit p s : Cde_exec_mode (cfg s) = false -> length p < MAXPATHLEN -> path_to_look p s = Ret (p, s).
Proof.
  intros He Hp. unfold path_to_look, bindM, conf, gets, bindP. rewrite He. simpl bindP. unfold retM, bindP, strbuf.
  by rewrite (proj2 (Nat.ltb_lt _ _) Hp).
Qed.
Lemma strbuf_pure {S} n p (s : S) : length p < n -> strbuf n p s = Ret (p, s).
Proof. intros H. unfold strbuf. by rewrite (proj2 (Nat.ltb_lt _ _) H). Qed.

(** A turn of the loop: the first directory is tried, then the rest. *)
Lemma search_turn d path k filename pn pts s c s' :
  Cde_exec_mode (cfg s) = false -> dir_ok filename d -> path <> [] ->
  path = d ++ drop (length d) path ->
  strchr path ":"%char = (if bool_decide (drop (length d) path = []) then None else Some (length d)) ->
  (if executable (fs (candidate filename d)) then c = (Some (candidate filename d), candidate filename d) /\ s' = s
   else runs h R (search_path k (drop (length d + 1) path) filename (Some (candidate filename d)) (candidate filename d)) s c s') ->
  runs h R (search_path (S k) path filename pn pts) s c s'.
Proof.
  intros He (Hd & Hlen & Hcand) Hne Hsplit Hch Hrest.
  assert (Hnm : (match strchr path ":"%char with Some i => (i, i + 1) | None => (length path, length path) end)
    = (length d, if bool_decide (drop (length d) path = []) then length d else length d + 1)).
  { rewrite Hch. case_bool_decide as E; [|done]. rewrite E, app_nil_r in Hsplit. by rewrite <- Hsplit. }
  assert (Hdrop : drop (if bool_decide (drop (length d) path = []) then length d else length d + 1) path = drop (length d + 1) path).
  { case_bool_decide as E; [|done]. rewrite E. symmetry. apply drop_ge. rewrite Hsplit, E, app_nil_r. lia. }
  assert (Htake : take (length d) path = d) by (rewrite Hsplit; apply take_app_exact).
  destruct path as [|x path]; [done|]. cbn [search_path]. rewrite Hnm.
  rewrite (proj2 (Nat.ltb_ge (MAXPATHLEN - 1) (length d))) by (unfold MAXPATHLEN in *; lia).
  rewrite Hdrop, Htake.
  eapply (runs_bind h R _ _ _ (if bool_decide (d = []) then cwd else d) s).
  { clear Hch Hnm Hdrop. destruct d as [|y d]; [|by apply (runs_pure h R)].
    intros w. exists [existT Getcwd (h Getcwd w).1], (h Getcwd w).2. split; [|done]. simpl. rewrite <- (Hcwd w). exact (returns_sys h Getcwd s w). }
  eapply (runs_pure_bind h R); [by apply strbuf_pure|].
  eapply (runs_pure_bind h R); [by apply look_audit|].
  eapply (runs_sys_bind h R); [intros w; split; [apply Hstat|done]|]. fold (candidate filename d).
  destruct (executable _); [|exact Hrest]. destruct Hrest as [-> ->]. by apply (runs_pure h R).
Qed.

Lemma search_path_runs filename s ds : Cde_exec_mode (cfg s) = false -> Forall (dir_ok filename) ds -> ds <> [] ->
  last ds <> Some [] -> forall k pn pts, length (join_colon ds) <= k ->
  let c := default [] (chosen filename ds) in
  runs h R (search_path k (join_colon ds) filename pn pts) s (Some c, c) s.
Proof.
  intros He Hok. induction Hok as [|d ds Hd Hok IH]; [done|]. intros _ Hlast k pn pts Hk.
  assert (Hcol : ":"%char ∉ d) by apply Hd.
  assert (Hc : chosen filename (d :: ds) =
    if executable (fs (candidate filename d)) then Some (candidate filename d)
    else match ds with [] => Some (candidate filename d) | _ => chosen filename ds end).
  { unfold chosen. simpl. destruct (executable _); [done|]. destruct ds as [|e ds]; [done|].
    simpl map. rewrite last_cons_cons. done. }
  rewrite Hc. clear Hc. destruct ds as [|e ds].
  - simpl join_colon in *. rewrite app_nil_r in *. assert (Hne : d <> []) by (intros ->; by destruct Hlast).
    destruct k as [|k]; [destruct d; simpl in Hk; [done|lia]|].
    apply search_turn with (d := d); [done|done|done|by rewrite drop_all, app_nil_r| |].
    + rewrite drop_all, bool_decide_eq_true_2 by done. by apply strchr_None.
    + destruct (executable _); simpl; [done|]. rewrite drop_ge by lia. destruct k; by apply (runs_pure h R).
  - change (join_colon (d :: e :: ds)) with (d ++ ":"%char :: join_colon (e :: ds)) in *.
    destruct k as [|k]; [rewrite length_app in Hk; simpl in Hk; lia|].
    apply search_turn with (d := d); [done|done|by destruct d|by rewrite drop_app_exact| |].
    + rewrite drop_app_exact, bool_decide_eq_false_2 by done. apply strchr_Some. by exists d, (join_colon (e :: ds)).
    + destruct (executable _); simpl; [done|]. rewrite drop_app_ge by lia.
      replace (length d + 1 - length d) with 1 by lia. simpl drop. apply IH; [done|done|].
      rewrite length_app in Hk. cbn [length] in Hk. lia.
Qed.

(** C39.  The program that is started, in an audit: a name without a slash is looked for in
    the directories of $PATH in their order (an empty one is the current directory), and
    the first regular file that may be executed is taken; if there is none, the file of the
    last directory is taken, which may be a directory or may not be executable, and
    only if it does not exist the tracer ends with status 1. *)
Theorem program_found (filename : cstring) (ds : list cstring) (s : state) (w : W)
    (He : Cde_exec_mode (cfg s) = false) (Hpath : forall w, (h (Getenv (lit "PATH")) w).1 = Some (join_colon ds))
    (Hname : slash ∉ filename) (Hok : Forall (dir_ok filename) ds) (Hds : ds <> []) (Hlast : last ds <> Some [])
    (Hne : filename <> []) :
  let p := default [] (chosen filename ds) in
  outcome h (find_program filename s) w =
  match fs p with Some st => inl (p, st, s) | None => inr (Exit 1) end.
Proof.
  cbn zeta. set (p := default [] (chosen filename ds)). unfold find_program, outcome.
  destruct (search_path_runs filename s ds He Hok Hds Hlast (length (join_colon ds)) None [] ltac:(lia)
    (h (Getenv (lit "PATH")) w).2) as (tr & w1 & Hr & _). fold p in Hr.
  assert (Hp : p <> []).
  { unfold p, chosen. assert (Hall : Forall (fun c => c <> []) (map (candidate filename) ds)).
    { apply Forall_fmap, Forall_true. intros d E%app_nil. by destruct E. }
    destruct (List.find _ _) as [c|] eqn:Ef.
    - apply find_some in Ef as [Hin _]. simpl. rewrite Forall_forall in Hall. by apply Hall, list_elem_of_In.
    - destruct (last (map (candidate filename) ds)) as [c|] eqn:El.
      + apply last_snoc_inv in El as [k El]. rewrite El in Hall. by apply Forall_app in Hall as [_ Hall%Forall_inv].
      + apply last_None in El. by destruct ds. }
  rewrite (proj2 (strchr_None filename slash) Hname).
  assert (Hpre : exists tr w', returns h (let* path := sysM (Getenv (lit "PATH")) in
      let path := default [] path in search_path (length path) path filename None []) s w tr (Some p, p) s w').
  { eexists _, _. eapply (returns_sys_bind h (Getenv (lit "PATH"))); [apply Hpath|reflexivity|exact Hr]. }
  destruct Hpre as (tr1 & w2 & Hpre). apply (eq_trans (outcome_after h _ _ _ _ _ _ _ _ Hpre)). cbn [fst snd].
  rewrite bool_decide_eq_false_2 by done. unfold outcome. simpl. specialize (Hstat p w2).
  destruct (h (Stat p) w2) as [r w3]. simpl in Hstat. subst r. destruct (fs p) as [st|]; [done|].
  unfold eprintf, bindM, sysM. simpl. by destruct (h _ w3).
Qed.
End Search.

Definition ls_file (p : cstring) : option fstat :=
  let file k m := Some {| st_kind := k; st_mode := m; st_mtime := 0; st_size := 9; st_uid := 0; st_gid := 0 |} in
  if bool_decide (p = lit "/opt/ls") then file DIR 493%Z
  else if bool_decide (p = lit "/home/alice/ls") then file REG 420%Z
  else if bool_decide (p = lit "/bin/ls") then file REG 493%Z else None.
Definition ls_os (c : sys) (w : unit) : reply c * unit :=
  match c return reply c * unit with
  | Stat p => (ls_file p, w)
  | Getcwd => (lit "/home/alice", w)
  | Getenv n => ((if bool_decide (n = lit "PATH") then Some (lit "/opt::/bin:/sbin") else None), w)
  | c => (null_reply c, w)
  end.
(** A directory and a file that is not executable are passed over. *)
Lemma program_found_witness :
  outcome ls_os (@find_program 0 (lit "ls") state0) tt
  = match ls_file (lit "/bin/ls") with Some st => inl (lit "/bin/ls", st, state0) | None => inr (Exit 1) end.
Proof.
  apply (@program_found 0 _ ls_os ls_file (lit "/home/alice")) with (ds := [lit "/opt"; []; lit "/bin"; lit "/sbin"]).
  - reflexivity.
  - reflexivity.
  - reflexivity.
  - reflexivity.
  - by apply strchr_None.
  - repeat (apply Forall_cons_2; [split_and!; [by apply strchr_None|apply Nat.ltb_lt; reflexivity|apply Nat.ltb_lt; reflexivity]|]).
    apply Forall_nil_2.
  - discriminate.
  - discriminate.
  - discriminate.
Defined.
