(* ===== verification/MainSafe.v ===== *)
(** * What the tracer does to the disk, from main on (strace.c, cde.c)

    The theorems on the loop ([TraceSafe]) joined to what comes before it: the options, the
    directories of the package, cde.options, the log, the environment, the start of the
    program. *)
From S2P Require Import Prelude CString Os PerfTimers SysLimits OkapiPath OkapiMirror OkapiContain Trie State Environ CdeOptions ChildMem Redirect RedirectSpec.
From S2P Require Import Shm Sysent Qualify QualifySpec ProcTab ProcTabSafe Syscalls Provenance Execve Forks Calls TraceSyscall TraceLoop Handlers TraceSafe.
From S2P Require Import Init Startup.

(** The log is asked for by the environment too; not in these runs. *)
Definition no_log_asked (c : sys) : reply c -> Prop :=
  match c return reply c -> Prop with
  | Getenv n => fun r => n = lit "IN_CDE_PROVENANCE_MODE" -> r <> Some (lit "1")
  | _ => fun _ => True
  end.
Definition quiet_system : contract := {| may c := fs_write_target c = None; rep := no_log_asked |}.

(** Options that make ptu-exec write files: -c, a log of the copied files, and -s *)
Definition writes_no_file (o : option_read) : Prop :=
  match o with Opt c _ => c <> "c"%char /\ c <> "s"%char | _ => True end.

(** The other options are -c, -s, -a and -o. *)
Definition plain_option (o : option_read) : Prop :=
  match o with Opt c _ => c ∉ lit "csao" | _ => True end.
#[export] Instance plain_option_dec o : Decision (plain_option o).
Proof. destruct o; apply _. Defined.

(** What the invariants of the start are about *)
Definition core (cf : config) (op : options) :=
  (Cde_exec_mode cf, CDE_exec_streaming_mode cf, CDE_PACKAGE_DIR cf, CDE_ROOT_NAME cf, CDE_ROOT_DIR cf, Cde_app_dir cf,
   multi_repo_paths op).

(** ** The parts that keep an invariant of the configuration *)

Section Start.
Context {Fu : Fuel} (K : contract) (P : config -> options -> Prop).
Let I (s : state) : Prop := P (cfg s) (opts s).
Context (Kfile : forall c, fs_write_target c = None -> may K c).
Context (Pcore : forall cf op cf' op', core cf op = core cf' op' -> P cf op -> P cf' op').

(** Every line of cde.options is [line_ok]; repositories are only added by lines that are. *)
Context (line_ok : cstring -> Prop) (Hline : forall f l, rep K (Getline f) (Some l) -> line_ok (strip_line l)).
Context (Hrepo : forall l p, line_ok l -> head (strtok "="%char l) = Some (lit "multi_repo_path") -> okT K I (CDE_add_multi_repo_path p)).
Context (Hlook : forall p, okT K I (path_to_look p)).

#[local] Hint Extern 0 (may K _) => apply Kfile; reflexivity : okdb.
Lemma start_mod f : (forall s, core (cfg (f s)) (opts (f s)) = core (cfg s) (opts s)) -> okT K I (modM f).
Proof. intros H s Hs. apply wpM_mod. split; [done|]. unfold I in *. eapply Pcore; [symmetry; apply H|exact Hs]. Qed.
Lemma start_gets {A} (f : state -> A) : okT K I (gets f).
Proof. by intros s Hs. Qed.
Lemma start_eprintf fmt args : okT K I (eprintf fmt args).
Proof. unfold eprintf. oks; auto with okdb. Qed.
Lemma start_vbprintf fmt args : okT K I (vbprintf fmt args).
Proof. unfold vbprintf, conf. oks; auto with okdb. Qed.
#[local] Hint Resolve start_eprintf start_vbprintf : okdb.
Ltac start_step :=
  lazymatch goal with
  | |- ok _ _ (modM _) _ => apply start_mod; reflexivity
  | |- ok _ _ (bindM (modM _) _) _ => eapply (ok_bind _ _ _ _ (fun _ => True)); [apply start_mod; reflexivity|intros ? _]
  | |- ok _ _ (bindM (gets _) _) _ => eapply (ok_bind _ _ _ _ (fun _ => True)); [apply start_gets|intros ? _]
  | _ => ok_step
  end.
Ltac start := unfold conf_str, tcp_str, conf, opt, prv, tcp; repeat (start_step; try done); auto with okdb.

(** ** The options *)

Lemma start_usage {A} b n : okT K I (usage (A:=A) b n).
Proof. unfold usage. start. Qed.
Lemma start_add a p n : okT K I (_add_to_array_internal a p n).
Proof. unfold _add_to_array_internal. start. Qed.
#[local] Hint Resolve start_usage start_add : okdb.
Lemma start_ignore_exact p : okT K I (CDE_add_ignore_exact_path p).
Proof. unfold CDE_add_ignore_exact_path. start. Qed.
Lemma start_ignore_prefix p : okT K I (CDE_add_ignore_prefix_path p).
Proof. unfold CDE_add_ignore_prefix_path. start. Qed.
Lemma start_words t0 t1 b f a n ws q : okT K I (qualify_words t0 t1 b f a n ws q).
Proof. revert q; induction ws; intros q; simpl; start. Qed.
#[local] Hint Resolve start_ignore_exact start_ignore_prefix start_words : okdb.
Lemma start_qualify t0 t1 s q : okT K I (qualify t0 t1 s q).
Proof. unfold qualify. start. Qed.
#[local] Hint Resolve start_qualify : okdb.
Lemma start_qualify_opt s : okT K I (qualify_opt s).
Proof. unfold qualify_opt. start. Qed.
Lemma start_main_qualify a : okT K I (main_qualify a).
Proof. unfold main_qualify. start. Qed.
#[local] Hint Resolve start_qualify_opt start_main_qualify : okdb.
Lemma start_option o st : plain_option o -> okT K I (handle_option o st).
Proof using Kfile Pcore.
  clear Hline Hrepo Hlook line_ok.
  intros Ho. destruct o as [c a|c|c]; simpl; [|start..]. simpl in Ho.
  repeat (case_bool_decide; [first [start; fail|exfalso; apply Ho; subst; set_solver]|]). start.
Qed.
Lemma start_user o : okT K I (find_user o).
Proof. unfold find_user. start. Qed.
Lemma start_restart op p : okT K I (restart_or_kill op p).
Proof. unfold restart_or_kill. start. Qed.
#[local] Hint Resolve start_user start_restart : okdb.
Lemma start_test_loop k p e f : okT K I (test_loop k p e f).
Proof. revert e f; induction k; intros; simpl; start. Qed.
Lemma start_test_child : okT K I (@test_child Z).
Proof. unfold test_child. start. Qed.
#[local] Hint Resolve start_test_loop start_test_child : okdb.
Lemma start_test : okT K I test_ptrace_setoptions.
Proof. unfold test_ptrace_setoptions. start. Qed.
#[local] Hint Resolve start_test : okdb.
Lemma start_settings argc n o : okT K I (main_settings argc n o).
Proof. unfold main_settings. start. Qed.

(** ** The file of options *)

Lemma start_ignore_substr p : okT K I (CDE_add_ignore_substr_path p).
Proof. unfold CDE_add_ignore_substr_path. start. Qed.
Lemma start_redirect_exact p : okT K I (CDE_add_redirect_exact_path p).
Proof. unfold CDE_add_redirect_exact_path. start. Qed.
Lemma start_redirect_prefix p : okT K I (CDE_add_redirect_prefix_path p).
Proof. unfold CDE_add_redirect_prefix_path. start. Qed.
Lemma start_redirect_substr p : okT K I (CDE_add_redirect_substr_path p).
Proof. unfold CDE_add_redirect_substr_path. start. Qed.
Lemma start_load_values l : okT K I (load_ignore_values l).
Proof. induction l as [|[n v] l IH]; simpl; start. Qed.
#[local] Hint Resolve start_ignore_substr start_redirect_exact start_redirect_prefix start_redirect_substr start_load_values : okdb.
Lemma start_envvar p : okT K I (CDE_add_ignore_envvar p).
Proof. unfold CDE_add_ignore_envvar. start. Qed.
Lemma start_process p : okT K I (CDE_add_ignore_process p).
Proof. unfold CDE_add_ignore_process. start. Qed.
Lemma start_process_prefix p : okT K I (add_process_ignore_prefix p).
Proof. unfold add_process_ignore_prefix. start. Qed.
#[local] Hint Resolve start_envvar start_process start_process_prefix : okdb.
Lemma start_first_token b p : ok K I (first_token b p) (fun id => set_id_of p directives = Some id).
Proof.
  unfold first_token. eapply (ok_bind _ _ _ _ (fun id => set_id_of p directives = Some id)).
  - destruct (set_id_of p directives); [destruct (_ && _); start|start].
  - intros id Hid. eapply (ok_bind _ _ _ _ (fun _ => True)); [destruct (_ && _); start|]. intros _ _. by apply ok_ret.
Qed.
Lemma repo_directive p : set_id_of p directives = Some 9%Z -> p = lit "multi_repo_path".
Proof. cbn [set_id_of directives]. repeat (destruct (strcmp_eq p _) eqn:E; [by intros H; try discriminate H; apply strcmp_eq_spec in E|clear E]). done. Qed.
Lemma start_second_token id p : (id = 9%Z -> okT K I (CDE_add_multi_repo_path p)) -> okT K I (second_token id p).
Proof. intros H9. unfold second_token. repeat case_match; first [by apply H9|start]. Qed.
Lemma start_option_line b l : line_ok l -> okT K I (option_line b l).
Proof.
  intros Hl. unfold option_line, option_tokens. destruct l as [|c l]; [start|].
  case_bool_decide; [start|]. case_bool_decide; [start|]. case_bool_decide; [start|].
  eapply (ok_bind _ _ _ _ (fun _ => True)); [|intros _ _; start].
  destruct (strtok "="%char (c :: l)) as [|p rest] eqn:Et; [start|].
  eapply ok_bind; [apply start_first_token|]. intros id Hid. destruct rest as [|p2 rest]; [start|].
  apply start_second_token. intros ->. apply repo_directive in Hid as ->. apply (Hrepo (c :: l)); [done|by rewrite Et].
Qed.
Lemma start_options_loop n f a b : okT K I (options_loop n f a b).
Proof.
  revert a b; induction n as [|n IH]; intros a b; simpl; [start|].
  eapply ok_bind; [apply ok_sys; [by apply Kfile|]; intros r Hr; exact Hr|]. intros [line|] Hr; [|start].
  apply Hline in Hr. ok1. destruct a.
  - destruct (strncmp_eq _ _ _); [apply IH|start].
  - eapply ok_bind; [by apply start_option_line|]. intros b' _. apply IH.
Qed.

(** ** The environment, the program *)

Lemma start_load_one n v : okT K I (load_one_envvar n v).
Proof. unfold load_one_envvar. start. Qed.
#[local] Hint Resolve start_load_one : okdb.
Lemma start_environ_loop n e : okT K I (environ_loop n e).
Proof. revert e; induction n; intros; simpl; start. Qed.
#[local] Hint Resolve start_environ_loop : okdb.
Lemma start_environ r : okT K I (CDE_load_environment_vars r).
Proof. unfold CDE_load_environment_vars, load_environment_vars_from_mem. start. Qed.
#[local] Hint Resolve start_environ : okdb.

#[local] Hint Resolve Hlook : okdb.
Lemma start_search k p f a b : okT K I (search_path k p f a b).
Proof.
  revert p a b; induction k; intros p a b; simpl.
  - destruct p; start.
  - destruct p as [|x p]; [start|]. cbv zeta. destruct (match strchr _ _ with Some i => _ | None => _ end) as [n m]. start.
Qed.
#[local] Hint Resolve start_search : okdb.
Lemma start_find f : okT K I (find_program f).
Proof. unfold find_program. start. Qed.
#[local] Hint Resolve start_find : okdb.

(** The operations of the table *)
Lemma start_table c : table_call c = true -> may K c.
Proof. intros Hc. apply Kfile. by destruct c. Qed.
Lemma start_alloc p : okT K I (alloc_tcb p).
Proof. apply (plain_alloc K P). exact Kfile. Qed.
Lemma start_on_tcb {A} i (m : M state A) : okT K I m -> okT K I (on_tcb i m).
Proof. intros Hm. by apply (plain_on_tcb K P). Qed.
Lemma start_dir_fields : okT K I CDE_init_tcb_dir_fields.
Proof. apply (plain_dir_fields K P). exact Kfile. Qed.
Lemma start_mod_slot i f : okT K I (mod_slot i f).
Proof. by apply (plain_mod_slot K P). Qed.
Lemma start_droptcb i : okT K I (droptcb i).
Proof. apply (plain_droptcb K P). exact start_table. Qed.
Lemma start_cleanup : okT K I cleanup.
Proof.
  apply ok_cleanup; [exact start_table|intros; apply start_mod_slot|apply (plain_keep K P)|exact start_droptcb].
Qed.
#[local] Hint Resolve start_alloc start_on_tcb start_dir_fields start_mod_slot start_droptcb start_cleanup ok_slot_at ok_flags_at ok_pid_at : okdb.

Lemma start_perror {A} w : okT K I (perror_exit (A:=A) w).
Proof. unfold perror_exit. start. Qed.
#[local] Hint Resolve start_perror : okdb.
Lemma start_set_user o st : okT K I (set_user o st).
Proof. unfold set_user. start. Qed.
#[local] Hint Resolve start_set_user : okdb.
Lemma start_become {A} o p argv st : okT K I (become_program (A:=A) o p argv st).
Proof. unfold become_program. start. Qed.
Lemma start_wait_stopped k p : okT K I (wait_stopped k p).
Proof. induction k; simpl; start. Qed.
Lemma start_seize p : okT K I (ptrace_attach_or_seize p).
Proof. unfold ptrace_attach_or_seize. start. Qed.
#[local] Hint Resolve start_become start_wait_stopped start_seize : okdb.
Lemma start_attach_child p : okT K I (attach_child p).
Proof. unfold attach_child, or_flags. start. Qed.
#[local] Hint Resolve start_attach_child : okdb.
Lemma start_startup_child o argv : okT K I (startup_child o argv).
Proof. unfold startup_child, or_flags. start. Qed.
Lemma start_attach_one i : okT K I (attach_one i).
Proof. unfold attach_one, clear_flags. start. Qed.
Lemma start_forM {A} (l : list A) f : (forall x, okT K I (f x)) -> okT K I (forM l f).
Proof. intros Hf. apply ok_forM. auto. Qed.
#[local] Hint Resolve start_startup_child start_attach_one start_forM : okdb.
Lemma start_attach : okT K I startup_attach.
Proof. unfold startup_attach, tcbtabsize. start. Qed.
Lemma start_signals : okT K I ignore_signals.
Proof. unfold ignore_signals. eapply ok_bind; [apply start_forM; intros; start|intros ? _; start]. Qed.
#[local] Hint Resolve start_attach start_signals start_environ : okdb.
Lemma start_main_run argv n o : okT K I init_prov -> okT K I (run_trace fuel) -> okT K I (main_run argv n o).
Proof. intros Hp Hr. unfold main_run. start. Qed.
End Start.

(** ** Exec mode *)

Section Exec.
Context {Fu : Fuel}.
Let K := quiet_system.
Let I (s : state) : Prop := exec_config (cfg s) (opts s).
#[local] Hint Extern 0 (may K _) => reflexivity : okdb.
Lemma quiet_file c : fs_write_target c = None -> may K c.
Proof. done. Qed.
Lemma exec_core cf op cf' op' : core cf op = core cf' op' -> exec_config cf op -> exec_config cf' op'.
Proof. intros [= H1 H2 _ _ _ _ _] [He Hs]. split; congruence. Qed.
Lemma exec_line (f : Z) (l : cstring) : rep K (Getline f) (Some l) -> (fun _ : cstring => True) (strip_line l).
Proof. done. Qed.
Lemma exec_mod f : (forall s, Cde_exec_mode (cfg (f s)) = Cde_exec_mode (cfg s)) ->
  (forall s, CDE_exec_streaming_mode (cfg (f s)) = CDE_exec_streaming_mode (cfg s)) -> okT K I (modM f).
Proof. intros H1 H2 s [He Hs]. apply wpM_mod. split; [done|]. split; [by rewrite H1|by rewrite H2]. Qed.
Lemma exec_gets {A} (f : state -> A) : okT K I (gets f).
Proof. by intros s Hs. Qed.
Lemma exec_eprintf fmt args : okT K I (eprintf fmt args).
Proof. exact (start_eprintf K exec_config quiet_file fmt args). Qed.
Lemma exec_vbprintf fmt args : okT K I (vbprintf fmt args).
Proof. exact (start_vbprintf K exec_config quiet_file fmt args). Qed.
Lemma exec_add a p n : okT K I (_add_to_array_internal a p n).
Proof. exact (start_add K exec_config quiet_file a p n). Qed.
#[local] Hint Resolve exec_eprintf exec_vbprintf exec_add : okdb.
Ltac exec_step :=
  lazymatch goal with
  | |- ok _ _ (modM _) _ => apply exec_mod; reflexivity
  | |- ok _ _ (bindM (modM _) _) _ => eapply (ok_bind _ _ _ _ (fun _ => True)); [apply exec_mod; reflexivity|intros ? _]
  | |- ok _ _ (bindM (gets _) _) _ => eapply (ok_bind _ _ _ _ (fun _ => True)); [apply exec_gets|intros ? _]
  | _ => ok_step
  end.
Ltac exec := unfold conf_str, tcp_str, conf, opt, prv, tcp; repeat (exec_step; try done); auto with okdb.

Lemma exec_repo (l p : cstring) : True -> head (strtok "="%char l) = Some (lit "multi_repo_path") -> okT K I (CDE_add_multi_repo_path p).
Proof. intros _ _. unfold CDE_add_multi_repo_path. exec. Qed.
Lemma exec_redirect f d b : okT K I (redirect_filename_into_cderoot f d b).
Proof.
  apply (ok_inv no_file_change _ (holds (framed exec_config no_frame))); [done|done|unfold holds, framed, no_frame, I; tauto|].
  eapply ok_weaken; [|done].
  apply (ok_redirect no_file_change (framed exec_config no_frame) (fun _ => True) true); try done.
  - by intros cf op ps i p g [[] _].
  - intros c Hc. destruct c; try done. simpl in *. by case_match.
  - apply ok_create_exec.
  - intros p _. apply ok_create_exec.
Qed.
#[local] Hint Resolve exec_redirect : okdb.
Lemma exec_look p : okT K I (path_to_look p).
Proof. unfold path_to_look, strcpy_redirected_cderoot. exec. Qed.

Lemma exec_option o st : writes_no_file o -> okT K I (handle_option o st).
Proof.
  intros Ho. destruct (decide (plain_option o)) as [Hp|Hp]; [by apply (start_option K exec_config quiet_file exec_core)|].
  destruct o as [c a|c|c]; [|by destruct Hp..]. destruct Ho as [Hc Hs].
  assert (c = "a"%char \/ c = "o"%char) as [-> | ->].
  { simpl in Hp. destruct (decide (c = "a"%char)); [by left|]. destruct (decide (c = "o"%char)); [by right|]. set_solver. }
  - simpl. exec.
  - simpl. exec.
Qed.
Lemma exec_options l st : Forall writes_no_file l -> okT K I (handle_options l st).
Proof.
  intros Hl. revert st; induction Hl as [|o l Ho _ IH]; intros st; simpl; [exec|].
  eapply ok_bind; [by apply exec_option|]. intros st' _. apply IH.
Qed.
Lemma exec_find_root l i f : okT K I (find_root l i f).
Proof. revert i f; induction l; intros; simpl; exec. Qed.
Lemma exec_dirname : okT K I dirname_self_exe.
Proof. unfold dirname_self_exe. exec. Qed.
Lemma exec_set_app d : okT K I (set_app_dir d).
Proof. unfold set_app_dir. exec. Qed.
Lemma exec_set_cderoot d : okT K I (set_cderoot_dir d).
Proof. unfold set_cderoot_dir. exec. Qed.
#[local] Hint Resolve exec_find_root exec_dirname exec_set_app exec_set_cderoot : okdb.
Lemma exec_root_dirs p f : okT K I (set_root_dirs p f).
Proof. unfold set_root_dirs. exec. Qed.
#[local] Hint Resolve exec_root_dirs : okdb.
Lemma exec_pseudo_root : okT K I CDE_init_pseudo_root_dir.
Proof. unfold CDE_init_pseudo_root_dir. exec. Qed.
Lemma exec_globals : okT K I init_globals.
Proof. unfold init_globals. exec. Qed.
Lemma exec_options_loop n f a b : okT K I (options_loop n f a b).
Proof. by apply (start_options_loop K exec_config quiet_file exec_core (fun _ => True) exec_line exec_repo). Qed.
#[local] Hint Resolve exec_pseudo_root exec_options_loop : okdb.
(** In exec mode the file of options is that of the package. *)
Lemma exec_init_options : okT K I CDE_init_options.
Proof.
  unfold CDE_init_options. eapply (ok_bind _ _ _ _ (fun _ => True)); [|intros f _; exec].
  intros s [He Hs]. unfold open_options, conf. wp1. wp1. rewrite He.
  cut (okT K I (let* root := gets (fun s => cde_cderoot_dir (cfg s)) in
    assertM (negb (bool_decide (root = []))) ;;;
    let* options_file := format (root ++ lit "/../cde.options") in
    let* f := sysM (Fopen options_file F_read) in
    match f with
    | Some f => retM f
    | None =>
      eprintf "Fatal error: missing cde.options file" [] ;;;
      eprintf "(trying to locate file at %s)" [PS options_file] ;;;
      stopM (Exit 1)
    end)); [intros H; by apply H|exec].
Qed.
#[local] Hint Resolve exec_init_options : okdb.
Lemma exec_init argv n : okT K I (CDE_init argv n).
Proof.
  unfold CDE_init, conf. eapply ok_bind; [apply exec_globals|]. intros _ _ s [He Hs]. wp1. wp1. rewrite He.
  cut (okT K I ((CDE_init_pseudo_root_dir ;;;
     let* streaming := gets (fun s => CDE_exec_streaming_mode (cfg s)) in when streaming init_streaming) ;;;
     CDE_init_options ;;; when (negb true) (fill_package argv n))); [intros H; by apply H|].
  eapply (ok_bind _ _ _ _ (fun _ => True)); [|intros _ _; exec].
  eapply (ok_bind _ _ _ _ (fun _ => True)); [exec|intros _ _].
  intros s2 [He2 Hs2]. wp1. wp1. rewrite Hs2. by apply ok_skip.
Qed.
Lemma exec_init_prov : okT K I init_prov.
Proof.
  unfold init_prov. eapply ok_bind; [apply ok_sys; [done|]; intros r Hr; exact Hr|]. intros env Henv s [He Hs].
  unfold conf. wp1. wp1. wp1. wp1. rewrite He. wp1; [|done].
  exfalso. simpl in Henv. destruct env as [v|]; [|done]. apply (Henv eq_refl). f_equal. by apply strcmp_eq_spec.
Qed.
Lemma exec_run_trace n : okT K I (run_trace n).
Proof.
  apply (plain_run_trace K exec_config); [by intros cf op a []|exact quiet_file|].
  intros c e. by apply (ok_inv no_file_change _ (fun s => exec_config (cfg s) (opts s))); [..|apply ok_hooks_exec].
Qed.
End Exec.

(** main begins with the timers and the mode. *)
Lemma main_timer (C : contract) s : wpM C (set_timer AUDIT_FILE_COPYING DISABLED) s
  (fun _ s' => exists t, s' = s {{ timers_ := t }}) (fun _ => True).
Proof.
  unfold set_timer, mod_timers. wp1. wp1. destruct (is_enabled _ _).
  - wp1. wp1. wp1. by eexists.
  - wp1. exists (timers_ s). by destruct s.
Qed.

Lemma exec_main {Fu : Fuel} argv s : is_exec_name (default [] (head argv)) = true -> CDE_exec_streaming_mode (cfg s) = false ->
  Forall writes_no_file (getopt argv).1 -> wpM quiet_system (main argv) s (fun _ _ => True) (fun _ => True).
Proof.
  intros Hx Hs Hl. unfold main. wp1.
  assert (Hinit : wpM quiet_system (init_main argv) s (fun _ s => exec_config (cfg s) (opts s)) (fun _ => True)).
  { unfold init_main, set_perf_timer. wp1. eapply wpM_mono; [apply (main_timer quiet_system s)| |done].
    intros a s1 [t ->]. destruct argv as [|progname argv]; [done|]. wp1. split; [exact Hx|exact Hs]. }
  eapply wpM_mono; [exact Hinit| |done]. clear Hinit. intros u s1 H1. destruct (getopt argv) as [l n]. simpl in Hl.
  cut (okT quiet_system (fun s => exec_config (cfg s) (opts s)) (let* o := handle_options l settings0 in
    let* o := main_settings (length argv) n o in CDE_init argv n ;;; main_run argv n o));
    [intros H; eapply wpM_mono; [by apply H|done|done]|].
  eapply ok_bind; [by apply exec_options|]. intros o _.
  eapply ok_bind; [exact (start_settings quiet_system exec_config quiet_file exec_core _ _ _)|]. intros o2 _.
  eapply ok_bind; [apply exec_init|]. intros _ _.
  apply (start_main_run quiet_system exec_config quiet_file exec_core exec_look);
    [apply exec_init_prov|apply exec_run_trace].
Qed.

(** C2.  ptu-exec changes nothing on the disk itself. Run under the name ptu-exec or
    cde-exec, from main to its end, with any options but -c (a log of copied files) and -s
    (streaming), and unless the environment asks for a log, it creates, removes and
    writes no file: not when it reads the options, finds the package, loads the
    environment, searches and starts the program, and not at any stop of any
    process; whatever the system answers and however the run ends. *)
Theorem exec_run_changes_no_file {Fu : Fuel} {W} (h : forall c, W -> reply c * W) (argv : list cstring) (s : state) (w : W)
    (Hh : forall c w, no_log_asked c (h c w).1)
    (Hx : is_exec_name (default [] (head argv)) = true)
    (Hs : CDE_exec_streaming_mode (cfg s) = false)
    (Hl : Forall writes_no_file (getopt argv).1) :
  Forall (fun e : event => fs_write_target (projT1 e) = None) (Os.trace h (main argv s) w).
Proof. by destruct (wp_run quiet_system h _ _ _ w Hh (exec_main argv s Hx Hs Hl)). Qed.

(** ** A run *)

(** A machine on which files can be read and made, but there is no cde.options yet, for a
    tracer that starts in [cwd]; the program is process 7, which stops and ends as the
    machine says. *)
Definition host_file : fstat := {| st_kind := REG; st_mode := 493; st_mtime := 0; st_size := 0; st_uid := 0; st_gid := 0 |}.
Definition host_os (cwd : cstring) (c : sys) (w : machine) : reply c * machine :=
  match c return reply c * machine with
  | Getcwd => (cwd, w)
  | Readlink p => (if strcmp_eq p (lit "/proc/self/exe") then Some (lit "/usr/bin/ptu") else None, w)
  | Stat p => (if strcmp_eq p (lit "cde.options") then None else Some host_file, w)
  | Fopen _ _ | Open_read _ | Open_create _ _ | Opendir _ => (Some 3%Z, w)
  | Read _ _ => (Some [], w)
  | Getenv n => (if strcmp_eq n (lit "PATH") then Some (lit "/bin") else None, w)
  | Setregs _ rs => (0%Z, (w.1.1, rs, w.2))
  | Mmap _ _ => (Some (lit "PATH=/bin" ++ [NUL; NUL]), w)
  | Uname => (Some (lit "Linux", lit "3.2", lit "1", lit "x86_64"), w)
  | Fork => (7%Z, w)
  | Shmget _ => (inl 5%Z, w)
  | Shmat _ => (Some 4096%Z, w)
  | Shmctl_rmid _ => (0%Z, w)
  | Ptrace_seize _ | Ptrace_interrupt _ => (0%Z, w)
  | c => script_os c w
  end.
(** The program stops itself and is attached to; the tracer gives it the shared memory at
    its first call; it removes /etc/passwd and ends. *)
Definition started_stop : stop_of := {| stop_pid := 7; stop_status := 4991; stop_regs := fun _ => 0%Z |}.
Definition exec_machine : machine :=
  ([started_stop; started_stop; SIGTRAP_stop 7 (call_regs 87 (-38) 1000); SIGTRAP_stop 7 (call_regs NR_shmat 28672 5);
    SIGTRAP_stop 7 (call_regs 87 (-38) 1000); SIGTRAP_stop 7 (call_regs 87 0 1000);
    {| stop_pid := 7; stop_status := 0; stop_regs := fun _ => 0%Z |}], fun _ => 0%Z, open_memory).
Definition exec_argv : list cstring := map lit ["ptu-exec"; "-v"; "-f"; "rm"; "/etc/passwd"]%string.
Definition exec_cwd : cstring := lit "/home/bob/pkg/cde-root/home/bob".

(** The run under ptu-exec finds the package around the directory, writes the path of the
    file in the package for the program, and gets to its end. *)
Example exec_run_redirects :
  (fun r => (omap (fun e : event => match projT1 e with Shm_store _ _ b => Some b | _ => None end) r.1.1, r.1.2))
    (run (host_os exec_cwd) (@main 30 exec_argv state0) exec_machine)
  = ([lit "/home/bob/pkg/cde-root/etc/passwd" ++ [NUL]], inr (Exit 0)).
Proof. vm_compute. reflexivity. Qed.

Lemma exec_run_changes_no_file_witness :
  Forall (fun e : event => fs_write_target (projT1 e) = None) (Os.trace (host_os exec_cwd) (@main 30 exec_argv state0) exec_machine).
Proof.
  apply (@exec_run_changes_no_file 30 _ (host_os exec_cwd) exec_argv state0 exec_machine).
  - intros c [[l rs] m]. destruct c; try exact Logic.I. intros -> Hr. discriminate Hr.
  - reflexivity.
  - reflexivity.
  - repeat constructor; discriminate.
Defined.
