(* ===== verification/MainAudit.v ===== *)
(** * What an audit does to the disk, from main on (strace.c, cde.c, provenance.c)

    Every file that ptu makes or changes is in the package, but for the file of options in
    the current directory and the log that -c asks for. *)
From S2P Require Import Prelude CString Os PerfTimers SysLimits OkapiPath OkapiMirror OkapiContain Trie State Environ CdeOptions ChildMem Redirect RedirectSpec.
From S2P Require Import Shm Sysent Qualify QualifySpec ProcTab ProcTabSafe Syscalls Provenance Execve Forks Calls TraceSyscall TraceLoop Handlers TraceSafe.
From S2P Require Import StrUtils Init Startup MainSafe.

(** ** Paths below a directory *)

Lemma climb_more l m n k : climb n l = Some k -> n <= m -> is_Some (climb m l).
Proof.
  revert n m; induction l as [|c l IH]; intros n m; simpl; [intros; by eexists|].
  destruct (_ || _); [apply IH|]. destruct (strcmp_eq c _).
  - destruct n as [|n]; [done|]. destruct m as [|m]; [lia|]. intros H Hle. apply (IH n m H). lia.
  - intros H Hle. apply (IH (S n) (S m) H). lia.
Qed.
Lemma normal_step c l n : normal c -> climb n (c :: l) = climb (S n) l.
Proof.
  intros (Hne & Hd & Hdd & _). cbn [climb]. rewrite bool_decide_eq_false_2 by done.
  assert (E1 : strcmp_eq c (lit ".") = false) by (apply not_true_iff_false; by rewrite strcmp_eq_spec).
  assert (E2 : strcmp_eq c (lit "..") = false) by (apply not_true_iff_false; by rewrite strcmp_eq_spec).
  by rewrite E1, E2.
Qed.
Lemma below_name d c : normal c -> below d (d ++ slash :: c).
Proof.
  intros Hc. exists (slash :: c). split_and!; [done|done|].
  change (slash :: c) with (render [c]). apply no_escape_render. by apply Forall_singleton.
Qed.
(** What is in a directory of a directory is in that one. *)
Lemma inside_sub d c p : normal c -> inside (d ++ slash :: c) p -> inside d p.
Proof.
  intros Hc [->|(q & -> & Hq & Hn)]; [right; by apply below_name|]. right. exists (slash :: c ++ q).
  split_and!; [by rewrite <- (assoc (++))|done|].
  destruct q as [|x q]; [done|]. simpl in Hq. destruct (is_slash x) eqn:Ex; [|done].
  assert (x = slash) as -> by (by apply bool_decide_eq_true_1 in Ex).
  assert (E1 : split_slash (slash :: c ++ slash :: q) = [] :: c :: split_slash q).
  { change (slash :: c ++ slash :: q) with ([] ++ slash :: (c ++ slash :: q)).
    by rewrite !split_slash_app, (split_slash_free c) by apply Hc. }
  assert (E2 : split_slash (slash :: q) = [] :: split_slash q) by done.
  unfold no_escape in *. rewrite E2 in Hn. rewrite E1.
  change (climb 0 ([] :: split_slash q)) with (climb 0 (split_slash q)) in Hn.
  change (climb 0 ([] :: c :: split_slash q)) with (climb 0 (c :: split_slash q)).
  rewrite normal_step by done. destruct Hn as [k Hk]. eapply climb_more; [exact Hk|lia].
Qed.

(** The names of the tracer's files *)
Lemma named_normal x c : x <> "."%char -> x <> slash -> (slash ∉ c) -> normal (x :: c).
Proof.
  intros Hx Hs Hc. split_and!; [done|by intros [= ->]|by intros [= ->]|].
  intros [E|E]%elem_of_cons; [by symmetry in E|done].
Qed.
Lemma digit_no_slash r : (r < 10)%N -> ascii_of_N (48 + r) <> slash.
Proof.
  intros Hr. assert (In r (map N.of_nat (seq 0 10))) as Hin.
  { apply in_map_iff. exists (N.to_nat r). split; [lia|]. apply in_seq. lia. }
  simpl in Hin. by intuition subst.
Qed.
Lemma digits_no_slash k n l : (slash ∉ l) -> slash ∉ digits_fuel k 10 n l.
Proof.
  assert (Hd : forall l, (slash ∉ l) -> slash ∉ ascii_of_N (let r := (n mod 10)%N in if (r <? 10)%N then 48 + r else 87 + r)%N :: l).
  { clear. intros l Hl. cbv zeta. pose proof (N.mod_lt n 10 ltac:(done)) as Hlt.
    rewrite (proj2 (N.ltb_lt _ _) Hlt). apply not_elem_of_cons. split; [by apply not_eq_sym, digit_no_slash|done]. }
  revert n l Hd; induction k as [|k IH]; intros n l Hd Hl; cbn [digits_fuel]; [by apply Hd|].
  destruct (n <? 10)%N; [by apply Hd|]. apply IH; [|by apply Hd].
  clear. intros l Hl. cbv zeta. pose proof (N.mod_lt (n / 10) 10 ltac:(done)) as Hlt.
  rewrite (proj2 (N.ltb_lt _ _) Hlt). apply not_elem_of_cons. split; [by apply not_eq_sym, digit_no_slash|done].
Qed.
Lemma itoa_no_slash z : slash ∉ itoa z.
Proof.
  unfold itoa, utoa. destruct (z <? 0)%Z; [apply not_elem_of_cons; split; [done|]|]; apply digits_no_slash, not_elem_of_nil.
Qed.
Lemma app_no_slash a b : (slash ∉ a) -> (slash ∉ b) -> slash ∉ a ++ b.
Proof. intros Ha Hb. rewrite elem_of_app. tauto. Qed.
Lemma lit_no_slash a : existsb is_slash a = false -> slash ∉ a.
Proof.
  intros H Hin. assert (existsb is_slash a = true); [|congruence].
  apply existsb_exists. exists slash. split; [by apply list_elem_of_In|done].
Qed.

(** A name with a slash in front, and at least three characters behind it *)
Lemma normal_long c : 3 <= length c -> (slash ∉ c) -> normal c.
Proof. intros H Hc. split_and!; [intros ->; simpl in H; lia..|done]. Qed.
Lemma basename_no_slash p : slash ∉ basename p.
Proof.
  unfold basename. intros H%list_elem_of_In%in_rev%list_elem_of_In. revert H. induction (rev p) as [|x r IH]; simpl; [apply not_elem_of_nil|].
  destruct (is_slash x) eqn:E; simpl; [apply not_elem_of_nil|]. intros [<-|Hin]%elem_of_cons; [done|]. by apply IH.
Qed.

(** ** The system, and what the tracer may write *)

(** No line of cde.options names a repository. *)
Definition no_repository (l : cstring) : Prop := head (strtok "="%char l) <> Some (lit "multi_repo_path").
(** Links do not climb above the root directory; the tracer stays in its directory. *)
Definition audit_system (rp : cstring -> cstring) (cwd : cstring) (c : sys) (r : reply c) : Prop :=
  tame rp [] c r /\
  match c return reply c -> Prop with
  | Getcwd => fun r => r = cwd
  | Getline _ => fun r => forall line, r = Some line -> no_repository (strip_line line)
  | _ => fun _ => True
  end r.
(** The files of ptu outside of the package: they are in the current directory. *)
Definition options_file : cstring := lit "cde.options".
Definition copied_files_log : cstring := lit "cde-copied-files.log".
Definition audit_target (pkg p : cstring) : Prop := inside pkg p \/ p = options_file \/ p = copied_files_log.

(** What the options say about the package *)
Fixpoint last_option (c : ascii) (l : list option_read) (x : option cstring) : option cstring :=
  match l with
  | [] => x
  | Opt c' v :: l => last_option c l (if bool_decide (c' = c) then Some v else x)
  | _ :: l => last_option c l x
  end.

Section Audit.
Context {Fu : Fuel} (rp : cstring -> cstring) (cwd : cstring) (l : list cstring) (Hl : Forall normal l) (Hne : l <> []).
Context (name : cstring) (Hname : normal name).
Let pkg := render l.
Let root := render (l ++ [name]).
Let K : contract := {| may c := forall p, fs_write_target c = Some p -> audit_target pkg p; rep := audit_system rp cwd |}.

Lemma root_is : root = pkg ++ slash :: name.
Proof. apply (render_app l [name]); done. Qed.
Lemma root_normal : Forall normal (l ++ [name]).
Proof. apply Forall_app. split; [done|by apply Forall_singleton]. Qed.
Lemma root_not_empty : l ++ [name] <> [].
Proof. by destruct l. Qed.
Lemma audit_file c : fs_write_target c = None -> may K c.
Proof. intros H p Hp. congruence. Qed.
Lemma target_name c : normal c -> audit_target pkg (pkg ++ slash :: c).
Proof. intros Hc. left. right. by apply below_name. Qed.
Lemma target_root p : inside root p -> audit_target pkg p.
Proof. intros Hp. left. rewrite root_is in Hp. by apply (inside_sub _ name). Qed.

(** *** The options *)

(** The mode, no repositories, and what the options have said so far *)
Definition settings_seen (x y : option cstring) (cf : config) (op : options) : Prop :=
  Cde_exec_mode cf = false /\ multi_repo_paths op = [] /\ CDE_PACKAGE_DIR cf = x /\ CDE_ROOT_NAME cf = y.
Lemma seen_core x y cf op cf' op' : core cf op = core cf' op' -> settings_seen x y cf op -> settings_seen x y cf' op'.
Proof. intros [= H1 _ H3 H4 _ _ H7] (H & Hr & Hx & Hy). split_and!; congruence. Qed.

Lemma audit_option x y o st s : settings_seen x y (cfg s) (opts s) ->
  wpM K (handle_option o st) s (fun _ s' => settings_seen (last_option "o" [o] x) (last_option "a" [o] y) (cfg s') (opts s')) (fun _ => True).
Proof.
  intros Hs. destruct (decide (plain_option o)) as [Hp|Hp].
  { eapply wpM_mono; [by apply (start_option K (settings_seen x y) audit_file (seen_core x y) o st Hp)| |done].
    intros st' s' [_ Hs']. destruct o as [c v|c|c]; simpl; [|done..]. simpl in Hp.
    by rewrite !bool_decide_eq_false_2 by set_solver. }
  destruct o as [c v|c|c]; [|by destruct Hp..].
  assert (c = "c"%char \/ c = "s"%char \/ c = "a"%char \/ c = "o"%char) as Hc.
  { destruct (decide (c = "c"%char)); [by left|]. destruct (decide (c = "s"%char)); [by right; left|].
    destruct (decide (c = "a"%char)); [by right; right; left|]. destruct (decide (c = "o"%char)); [by repeat right|].
    destruct Hp. simpl. set_solver. }
  destruct Hs as (He & Hr & Hx & Hy).
  destruct Hc as [->|[->|[->| ->]]]; simpl.
  - wp1. wp1. { intros p [= <-]. by repeat right. } wp1. wp1. wp1. by split_and!.
  - wp1. wp1. wp1. by split_and!.
  - wp1. wp1. wp1. by split_and!.
  - wp1. wp1. wp1. by split_and!.
Qed.
Lemma last_option_cons c o os x : last_option c (o :: os) x = last_option c os (last_option c [o] x).
Proof. by destruct o. Qed.
Lemma audit_options os : forall x y st s, settings_seen x y (cfg s) (opts s) ->
  wpM K (handle_options os st) s (fun _ s' => settings_seen (last_option "o" os x) (last_option "a" os y) (cfg s') (opts s')) (fun _ => True).
Proof.
  induction os as [|o os IH]; intros x y st s Hs; [simpl; by wp1|]. cbn [handle_options]. wp1.
  eapply wpM_mono; [by apply (audit_option x y)| |done]. intros st' s' Hs'.
  rewrite !(last_option_cons _ o os). by apply IH.
Qed.

(** *** The package *)

(** The state from the making of the package's directories on *)
Definition packaged (cf : config) (op : options) : Prop :=
  audit_config root cf op /\ CDE_PACKAGE_DIR cf = Some pkg /\ Cde_app_dir cf = pkg /\ CDE_ROOT_NAME cf = Some name.
Lemma packaged_core cf op cf' op' : core cf op = core cf' op' -> packaged cf op -> packaged cf' op'.
Proof. intros [= H1 _ H3 H4 H5 H6 H7] ((H & Hr & Ho) & Hx & Ha & Hy). repeat split; congruence. Qed.
Let I (s : state) : Prop := packaged (cfg s) (opts s).
(** What the hooks leave as it is *)
Definition package_frame : frame := fun cf _ _ _ _ =>
  CDE_PACKAGE_DIR cf = Some pkg /\ Cde_app_dir cf = pkg /\ CDE_ROOT_NAME cf = Some name.
Lemma packaged_framed s : I s <-> holds (framed (audit_config root) package_frame) s.
Proof. unfold I, packaged, holds, framed, package_frame. tauto. Qed.
Lemma from_hooks {A} (m : M state A) (Q : A -> Prop) :
  ok (audit_contract True rp root) (holds (framed (audit_config root) package_frame)) m Q -> ok K I m Q.
Proof.
  intros H s Hs%packaged_framed. eapply wp_contract; [| |eapply wpM_mono; [by apply H| |done]].
  - intros c [Hc _] p Hp. by apply target_root, Hc.
  - by intros c r [].
  - intros a s' [Ha Hs'%packaged_framed]. by split.
Qed.
Lemma audit_copy f d : okT K I (copy_file_into_cde_root f d).
Proof. apply from_hooks. apply ok_copy_audit. Qed.
Lemma audit_dirs p b : okT K I (make_mirror_dirs_in_cde_package p b).
Proof. apply from_hooks. apply ok_dirs_audit. Qed.
Lemma audit_redirect f d b : ok K I (redirect_filename_into_cderoot f d b) (fun r => forall q, r = Some q -> audit_target pkg q).
Proof.
  eapply ok_weaken; [apply from_hooks|].
  - apply (ok_redirect (audit_contract True rp root) (framed (audit_config root) package_frame) (inside root) false).
    + apply audit_mode.
    + apply may_passive.
    + apply audit_repo.
    + apply ok_create_audit.
    + apply ok_create_inside; [exact root_normal|exact root_not_empty].
  - intros r Hr q ->. by apply target_root, Hr.
Qed.
Lemma audit_copy_file cf src c perms : normal c -> okT K I (okapi_copy_file cf src (pkg ++ slash :: c) perms).
Proof.
  intros Hc. apply (ok_okapi_copy_file K I pkg no_escape).
  - intros t s Hs. exact Hs.
  - intros c' Hc'. apply audit_file. by destruct c'.
  - intros q c' Hq Hn Hw p Hp. left. right. exists q. split_and!; [|done|done].
    destruct c'; simpl in *; try done; congruence.
  - done.
  - change (slash :: c) with (render [c]). apply no_escape_render. by apply Forall_singleton.
Qed.
#[local] Hint Resolve audit_copy audit_dirs : okdb.

#[local] Hint Extern 0 (may K _) => apply audit_file; reflexivity : okdb.
Lemma audit_mod f : (forall s, core (cfg (f s)) (opts (f s)) = core (cfg s) (opts s)) -> okT K I (modM f).
Proof. exact (start_mod K packaged packaged_core f). Qed.
Lemma audit_gets {A} (f : state -> A) : okT K I (gets f).
Proof. by intros s Hs. Qed.
Lemma audit_eprintf fmt args : okT K I (eprintf fmt args).
Proof. exact (start_eprintf K packaged audit_file fmt args). Qed.
Lemma audit_vbprintf fmt args : okT K I (vbprintf fmt args).
Proof. exact (start_vbprintf K packaged audit_file fmt args). Qed.
Lemma audit_fput f s : okT K I (fput f s).
Proof. unfold fput. oks; auto with okdb. Qed.
#[local] Hint Resolve audit_eprintf audit_vbprintf audit_fput : okdb.
Ltac audit_step :=
  lazymatch goal with
  | |- ok _ _ (modM _) _ => apply audit_mod; reflexivity
  | |- ok _ _ (bindM (modM _) _) _ => eapply (ok_bind _ _ _ _ (fun _ => True)); [apply audit_mod; reflexivity|intros ? _]
  | |- ok _ _ (bindM (gets _) _) _ => eapply (ok_bind _ _ _ _ (fun _ => True)); [apply audit_gets|intros ? _]
  | _ => ok_step
  end.
Ltac audit := unfold conf, opt, prv, tcp; repeat (audit_step; try done); auto with okdb.

Lemma audit_package_dir : ok K I (conf_str CDE_PACKAGE_DIR) (fun d => d = pkg).
Proof. intros s Hs. pose proof Hs as (_ & Hd & _). unfold conf_str, conf. wp1. wp1. rewrite Hd. by wp1. Qed.
Lemma audit_root_name : ok K I (conf_str CDE_ROOT_NAME) (fun n => n = name).
Proof. intros s Hs. pose proof Hs as (_ & _ & _ & Hn). unfold conf_str, conf. wp1. wp1. rewrite Hn. by wp1. Qed.
Lemma audit_fputs (ls : list cstring) f : okT K I (forM ls (fput f)).
Proof. apply ok_forM. intros x _. apply audit_fput. Qed.
#[local] Hint Resolve audit_fputs : okdb.
(** A file of the package is opened. *)
Lemma audit_fopen m c : normal c -> okT K I (sysM (Fopen (pkg ++ slash :: c) m)).
Proof. intros Hc. apply ok_sys; [|done]. intros p Hp. destruct m; simpl in Hp; [done|injection Hp as <-; by apply target_name..]. Qed.

(** *** CDE_init *)

Ltac file1 := eapply (ok_bind _ _ _ _ (fun _ => True)); [apply ok_sys; [by apply audit_file|done]|intros ? _].

Lemma audit_save_uname : okT K I save_uname.
Proof.
  unfold save_uname. file1. destruct a as [[[[sysname release] version] machine]|]; [|by apply ok_skip].
  eapply ok_bind; [apply audit_package_dir|]. intros ? ->.
  eapply ok_bind; [by apply (audit_fopen F_write (lit "cde.uname")), named_normal; [..|apply lit_no_slash]|]. intros f _.
  destruct f; audit.
Qed.
Lemma audit_seed_options : okT K I seed_options.
Proof.
  unfold seed_options. file1. destruct a; [by apply ok_skip|].
  eapply (ok_bind _ _ _ _ (fun _ => True)); [apply ok_sys; [|done]; intros p [= <-]; by right; left|]. intros f _. audit.
Qed.
Lemma audit_line f ln : rep K (Getline f) (Some ln) -> no_repository (strip_line ln).
Proof. intros [_ H]. by apply H. Qed.
Lemma audit_repo_line ln p : no_repository ln -> head (strtok "="%char ln) = Some (lit "multi_repo_path") -> okT K I (CDE_add_multi_repo_path p).
Proof. intros H1 H2. by destruct H1. Qed.
Lemma audit_options_loop n f a b : okT K I (options_loop n f a b).
Proof. exact (start_options_loop K packaged audit_file packaged_core no_repository audit_line audit_repo_line n f a b). Qed.
#[local] Hint Resolve audit_options_loop : okdb.
Lemma audit_init_options : okT K I CDE_init_options.
Proof.
  unfold CDE_init_options. eapply (ok_bind _ _ _ _ (fun _ => True)); [|intros f _; audit].
  intros s Hs. pose proof Hs as ((He & _) & _). unfold open_options, conf. wp1. wp1. rewrite He.
  wp1. wp1; [by apply audit_file|]. destruct r as [f|].
  - cut (okT K I (let* pkg := conf_str CDE_PACKAGE_DIR in
      let* fn := format (pkg ++ lit "/cde.options") in
      okapi_copy_file fuel (lit "cde.options") fn 438 ;;;
      let* _ := sysM (Unlink (lit "cde.options")) in
      retM f)); [intros HC; by apply HC|].
    eapply ok_bind; [apply audit_package_dir|]. intros ? ->. ok1.
    eapply ok_bind; [by apply (audit_copy_file fuel (lit "cde.options") (lit "cde.options")), named_normal; [..|apply lit_no_slash]|].
    intros _ _. eapply (ok_bind _ _ _ _ (fun _ => True)); [apply ok_sys; [|done]; intros p [= <-]; by right; left|]. intros; audit.
  - wp1. eapply wpM_mono; [by apply audit_eprintf| |done]. intros. by wp1.
Qed.

(** *** What fills the package *)

Lemma audit_write_script p b : audit_target pkg p -> okT K I (write_script p b).
Proof.
  intros Hp. unfold write_script.
  eapply (ok_bind _ _ _ _ (fun _ => True)); [apply ok_sys; [by intros q [= <-]|done]|intros f _].
  audit. by intros q [= <-].
Qed.
Lemma audit_conf_any {A} (f : config -> A) : okT K I (conf f).
Proof. by intros s Hs. Qed.
#[local] Hint Resolve audit_conf_any : okdb.
Lemma audit_scripts argv n : okT K I (CDE_create_convenience_scripts argv n).
Proof.
  unfold CDE_create_convenience_scripts.
  eapply (ok_bind _ _ _ _ (fun _ => True)); [apply audit_conf_any|intros e _]. ok1.
  eapply (ok_bind _ _ _ _ (fun _ => True)); [by intros s Hs|intros nocap _]. destruct nocap; [by apply ok_skip|].
  ok1. eapply (ok_bind _ _ _ _ (fun _ => True)); [apply audit_conf_any|intros start _].
  eapply ok_bind; [apply audit_redirect|]. intros r Hr.
  eapply (ok_bind _ _ _ _ (fun _ => True)).
  { destruct r as [q|]; [|by apply ok_skip]. eapply (ok_bind _ _ _ _ (fun _ => True)); [apply audit_dirs|intros _ _].
    ok1. ok1. ok1. by apply audit_write_script, Hr. }
  intros _ _. destruct (strchr _ slash); [by apply ok_skip|].
  eapply ok_bind; [apply audit_package_dir|]. intros ? ->. apply audit_write_script, target_name.
  apply normal_long; [rewrite length_app; simpl; lia|]. apply app_no_slash; [apply basename_no_slash|by apply lit_no_slash].
Qed.
Lemma audit_put_quoted f args : okT K I (put_quoted f args).
Proof. induction args as [|a args IH]; simpl; audit. Qed.
#[local] Hint Resolve audit_put_quoted : okdb.
Lemma audit_append argv n : okT K I (append_command argv n).
Proof.
  unfold append_command. eapply ok_bind; [apply audit_package_dir|]. intros ? ->. cbv zeta. file1.
  assert (Hn : normal (lit "cde.log")) by (apply normal_long; [simpl; lia|by apply lit_no_slash]).
  eapply (ok_bind _ _ _ _ (fun _ => True)); [|intros f' _; audit].
  destruct a.
  - eapply (ok_bind _ _ _ _ (fun _ => True)); [by apply (audit_fopen F_append (lit "cde.log"))|intros f' _; audit].
  - eapply (ok_bind _ _ _ _ (fun _ => True)); [by apply (audit_fopen F_write (lit "cde.log"))|intros f' _]. ok1.
    eapply ok_bind; [apply audit_root_name|]. intros ? ->. audit.
Qed.
Lemma audit_link p : okT K I (copy_if_link p).
Proof. unfold copy_if_link. file1. destruct a; audit. Qed.
#[local] Hint Resolve audit_link : okdb.
Lemma audit_path_dirs k p : okT K I (path_dirs_loop k p).
Proof.
  revert p; induction k as [|k IH]; intros p; simpl; (destruct p as [|x p]; [audit|]); [audit|].
  destruct (match strchr _ _ with Some i => _ | None => _ end) as [n m]. audit.
Qed.
Lemma audit_path_links : okT K I CDE_create_path_symlink_dirs.
Proof. pose proof audit_path_dirs. unfold CDE_create_path_symlink_dirs. file1. audit. Qed.
Lemma audit_toplevel_loop k d : okT K I (toplevel_loop k d).
Proof. induction k as [|k IH]; simpl; audit. Qed.
Lemma audit_toplevel : okT K I CDE_create_toplevel_symlink_dirs.
Proof. pose proof audit_toplevel_loop. unfold CDE_create_toplevel_symlink_dirs. file1. audit. Qed.
#[local] Hint Resolve audit_scripts audit_append audit_path_links audit_toplevel : okdb.
Lemma audit_fill argv n : okT K I (fill_package argv n).
Proof.
  unfold fill_package. eapply ok_bind; [apply audit_package_dir|]. intros ? ->.
  eapply (ok_bind _ _ _ _ (fun _ => True)).
  { apply (audit_copy_file fuel _ (lit "cde-exec")), normal_long; [simpl; lia|by apply lit_no_slash]. }
  intros _ _. do 4 (eapply (ok_bind _ _ _ _ (fun _ => True)); [auto with okdb|intros _ _]).
  eapply ok_bind; [apply audit_root_name|]. intros ? ->.
  apply (audit_copy_file fuel _ (lit "cde.full-environment." ++ name)), normal_long; [rewrite length_app; simpl; lia|].
  apply app_no_slash; [by apply lit_no_slash|apply Hname].
Qed.

(** *** From the log to the end *)

(** The log is in the package. *)
Lemma audit_log_path k : ok K I (log_path_buf k) (audit_target pkg).
Proof.
  intros s Hs. pose proof Hs as (_ & _ & Ha & Hn). unfold log_path_buf, conf. do 4 wp1. wp1; [|done]. split; [|exact Hs].
  rewrite Ha, Hn. unfold log_path. simpl str_or_null.
  change (lit "/provenance.") with (slash :: lit "provenance."). rewrite <- app_comm_cons. apply target_name, normal_long.
  - rewrite !length_app. simpl. lia.
  - repeat apply app_no_slash; [by apply lit_no_slash|apply Hname|by apply lit_no_slash|apply itoa_no_slash|by apply lit_no_slash].
Qed.
Lemma audit_log_name n k : ok K I (new_log_name n k) (fun r => audit_target pkg r.1).
Proof.
  revert k; induction n as [|n IH]; intros k; simpl; [by apply ok_stop|].
  eapply ok_bind; [apply audit_log_path|]. intros path Hp. file1. case_match; [apply IH|by apply ok_ret].
Qed.
Lemma audit_open_log : okT K I open_log.
Proof.
  unfold open_log. eapply ok_bind; [apply audit_log_path|]. intros path Hp. file1.
  eapply (ok_bind _ _ _ _ (fun r => audit_target pkg r.1)).
  - case_match; [|by apply ok_ret]. eapply ok_bind; [apply audit_log_name|]. intros r Hr.
    eapply (ok_bind _ _ _ _ (fun _ => True)); [apply audit_eprintf|intros _ _]. by apply ok_ret.
  - intros r Hr. eapply (ok_bind _ _ _ _ (fun _ => True)); [apply ok_sys; [by intros q [= <-]|done]|intros f _]. audit.
Qed.
Lemma audit_log_line s : okT K I (fprintf_log s).
Proof. unfold fprintf_log. audit. Qed.
#[local] Hint Resolve audit_open_log audit_log_line : okdb.
Lemma audit_init_prov : okT K I init_prov.
Proof. unfold init_prov, log_header, set_pidlist. audit. Qed.

(** The program is looked for where the user's path leads, not in the package. *)
Lemma audit_look p : okT K I (path_to_look p).
Proof.
  intros s Hs. pose proof Hs as ((He & _) & _). unfold path_to_look, conf. wp1. wp1. rewrite He. wp1. wp1. by wp1.
Qed.
Lemma audit_hooks c e : okT K I (sys_func c e).
Proof.
  apply from_hooks. apply (ok_sys_func _ _ (inside root) false True).
  - apply audit_mode.
  - apply may_passive.
  - done.
  - apply audit_steers.
  - intros _. apply audit_changes.
  - apply audit_repo.
  - apply ok_create_audit.
  - apply ok_create_inside; [exact root_normal|exact root_not_empty].
  - intros _. apply ok_copy_audit.
  - intros _. apply ok_dirs_audit.
  - intros _ sig s Hs. eapply wpM_mono; [apply (plain_detach_tcp _ packaged)| |done].
    + intros c' Hc. destruct c'; try done; first [by apply may_passive|by apply audit_steers].
    + by apply packaged_framed.
    + intros a s' [_ Hs']. split; [done|]. by apply packaged_framed.
  - intros _ _. by right.
Qed.
Lemma audit_run_trace n : okT K I (run_trace n).
Proof.
  apply (plain_run_trace K packaged); [|exact audit_file|exact audit_hooks].
  intros cf op a ((? & ? & ?) & ? & ? & ?). by repeat split.
Qed.
Lemma audit_main_run argv n o : okT K I (main_run argv n o).
Proof.
  apply (start_main_run K packaged audit_file packaged_core audit_look); [exact audit_init_prov|apply audit_run_trace].
Qed.

(** *** From the options to the package *)

Lemma audit_globals x y s : settings_seen x y (cfg s) (opts s) ->
  wpM K init_globals s (fun _ s' => settings_seen x (Some (default CDE_ROOT_NAME_DEFAULT y)) (cfg s') (opts s') /\
    cde_starting_pwd (cfg s') = cwd) (fun _ => True).
Proof.
  intros (He & Hr & <- & <-). unfold init_globals, vbprintf, eprintf, conf.
  wp1. wp1; [by apply audit_file|]. wp1. wp1; [by apply audit_file|]. wp1. wp1. wp1. wp1; [by apply audit_file|].
  wp1. wp1. wp1. wp1. wp1. wp1; [by apply audit_file|]. wp1. wp1; [|done]. wp1. wp1; [|done]. wp1. wp1; [|done].
  assert (r0 = cwd) as -> by (match goal with H : rep K Getcwd _ |- _ => by destruct H end).
  wp1. wp1. wp1. wp1. wp1; [wp1; wp1; [by apply audit_file|]; wp1|]; by split_and!.
Qed.
Lemma audit_make_dirs x s : settings_seen x (Some name) (cfg s) (opts s) -> cde_starting_pwd (cfg s) = cwd ->
  canonicalize_path (default (lit "cde-package") x) cwd = Some pkg ->
  wpM K make_package_dirs s (fun _ s' => I s') (fun _ => True).
Proof.
  intros (He & Hr & Hx & Hy) Hcwd Hpkg. unfold make_package_dirs, set_app_dir, conf_str, conf, eprintf.
  wp1. wp1. wp1. wp1. rewrite Hx, Hcwd, Hpkg. wp1. wp1. wp1. wp1. wp1. wp1. wp1; [|done]. wp1. wp1. wp1. wp1.
  wp1; [|done]. assert (a = name) as -> by (change (CDE_ROOT_NAME (cfg s) = Some a) in H0; congruence).
  wp1. wp1. wp1. wp1; [|done]. wp1. wp1; [|done].
  assert (Hroot : pkg ++ slash :: name = root) by by rewrite root_is.
  wp1. wp1; [intros p [= <-]; left; by left|]. wp1. wp1; [intros p [= <-]; by apply target_name|].
  wp1. wp1; [intros p [= <-]; left; right; exists (slash :: CDE_IMGDIR_NAME ++ [slash]); split_and!; [done|done|by eexists]|].
  wp1. wp1; [by apply audit_file|].
  destruct r2; [wp1|by repeat first [wp1; [by apply audit_file|]|wp1]].
  repeat split; [exact He|exact (f_equal Some Hroot)|exact Hr|exact Hy].
Qed.

Lemma audit_cde_init x y argv n s : settings_seen x y (cfg s) (opts s) -> default CDE_ROOT_NAME_DEFAULT y = name ->
  canonicalize_path (default (lit "cde-package") x) cwd = Some pkg ->
  wpM K (CDE_init argv n) s (fun _ s' => I s') (fun _ => True).
Proof.
  intros Hs Hy Hpkg. unfold CDE_init, conf. wp1. eapply wpM_mono; [by apply (audit_globals x y)| |done].
  intros u s1 [H1 Hcwd]. rewrite Hy in H1. pose proof H1 as (He & _). wp1. wp1. rewrite He. wp1. wp1.
  eapply wpM_mono; [by apply (audit_make_dirs x)| |done]. clear s Hs s1 H1 Hcwd He u. intros u s Hs.
  assert (Hk : forall m : M state unit, okT K I m -> forall s (Q : unit -> state -> Prop), I s ->
      (forall s', I s' -> Q tt s') -> wpM K m s Q (fun _ => True)).
  { intros m Hm s' Q Hs' HQ. eapply wpM_mono; [by apply Hm|intros [] s2 [_ H2]; by apply HQ|done]. }
  wp1. apply Hk; [apply audit_save_uname|done|]. clear s Hs. intros s Hs.
  apply Hk; [apply audit_seed_options|done|]. clear s Hs. intros s Hs.
  wp1. apply Hk; [apply audit_init_options|done|]. clear s Hs. intros s Hs.
  apply Hk; [apply audit_fill|done|done].
Qed.
End Audit.

Lemma audit_main {Fu : Fuel} rp cwd l name argv s (os := (getopt argv).1) : Forall normal l -> l <> [] ->
  is_exec_name (default [] (head argv)) = false -> multi_repo_paths (opts s) = [] ->
  canonicalize_path (default (lit "cde-package") (last_option "o" os (CDE_PACKAGE_DIR (cfg s)))) cwd = Some (render l) ->
  default CDE_ROOT_NAME_DEFAULT (last_option "a" os (CDE_ROOT_NAME (cfg s))) = name -> normal name ->
  wpM {| may c := forall p, fs_write_target c = Some p -> audit_target (render l) p; rep := audit_system rp cwd |}
    (main argv) s (fun _ _ => True) (fun _ => True).
Proof.
  intros Hl Hne Hx Hr Hpkg Hname Hn. unfold main. wp1.
  set (K := {| may := _; rep := _ |}).
  eapply (wpM_mono _ _ _ (fun _ s' => settings_seen (CDE_PACKAGE_DIR (cfg s)) (CDE_ROOT_NAME (cfg s)) (cfg s') (opts s'))); [| |done].
  { unfold init_main, set_perf_timer. wp1. eapply wpM_mono; [apply (main_timer K s)| |done].
    intros a s1 [t ->]. destruct argv as [|progname argv].
    - repeat first [wp1; [by apply audit_file|]|wp1]. done.
    - wp1. split_and!; [exact Hx|exact Hr|done|done]. }
  intros u s1 H1. clear u. subst os. destruct (getopt argv) as [os n]. unfold fst in Hpkg, Hname. wp1.
  eapply wpM_mono; [apply (audit_options rp cwd l Hl Hne name Hn); exact H1| |done]. clear s1 H1. intros o s1 H1. wp1.
  eapply wpM_mono; [apply (start_settings K _ (audit_file rp cwd l) (seen_core _ _) _ _ _ _ H1)| |done].
  clear o s1 H1. intros o s1 [_ H1]. wp1.
  eapply wpM_mono; [by eapply (audit_cde_init rp cwd l Hl Hne name Hn)| |done]. clear s1 H1. intros u s1 H1.
  eapply wpM_mono; [by apply (audit_main_run rp cwd l Hl Hne name Hn)|done|done].
Qed.

(** C1.  An audit writes nowhere but into the package. Run under any name but ptu-exec or
    cde-exec, from main to its end, with any options and any program: every file that the
    tracer creates, links, removes or opens for writing is in the package's directory (that
    of -o, or cde-package, as it is seen from the current directory), or it is one of the
    two files in the current directory that it may make, cde.options and the log of -c;
    when it reads the options, makes the package and its scripts, copies the files the
    program uses and writes the log of its calls; and however the run ends.

    The system may answer anything but for these conditions ([audit_system]): no link climbs
    above the root directory and realpath is the same throughout, no line of cde.options
    names another repository, and the current directory stays the same.  The package is not
    "/", its root has the name of one component, and no repository is set at the start.
    Without them it is false: see [create_mirror_file_escapes] for such a link and
    [repo_file_unlinked] for a repository. *)
Theorem audit_run_confined {Fu : Fuel} {W} (h : forall c, W -> reply c * W) (rp : cstring -> cstring) (cwd : cstring)
    (l : list cstring) (argv : list cstring) (s : state) (w : W) (os := (getopt argv).1)
    (Hh : forall c w, audit_system rp cwd c (h c w).1)
    (Hx : is_exec_name (default [] (head argv)) = false)
    (Hr : multi_repo_paths (opts s) = [])
    (Hpkg : canonicalize_path (default (lit "cde-package") (last_option "o" os (CDE_PACKAGE_DIR (cfg s)))) cwd = Some (render l))
    (Hl : Forall normal l) (Hne : l <> [])
    (Hname : normal (default CDE_ROOT_NAME_DEFAULT (last_option "a" os (CDE_ROOT_NAME (cfg s))))) :
  Forall (fun e : event => forall p, fs_write_target (projT1 e) = Some p -> audit_target (render l) p)
    (Os.trace h (main argv s) w).
Proof.
  pose proof (audit_main rp cwd l _ argv s Hl Hne Hx Hr Hpkg eq_refl Hname) as H. set (K := {| may := _; rep := _ |}) in H.
  by destruct (wp_run K h _ _ _ w Hh H).
Qed.

(** ** A run *)

Definition audit_argv : list cstring := map lit ["ptu-audit"; "-f"; "-o"; "../pkg"; "rm"; "/etc/passwd"]%string.
Definition audit_cwd : cstring := lit "/home/alice".
Definition audit_machine : machine := (started_stop :: unlink_run, fun _ => 0%Z, open_memory).

(** The files that a run of rm changes: those of the package first, in the order of
    [CDE_init], then the log, then the file that rm has removed. *)
Example audit_run_writes :
  (fun r => (omap (fun e : event => fs_write_target (projT1 e)) r.1.1, r.1.2))
    (run (host_os audit_cwd) (@main 30 audit_argv state0) audit_machine)
  = (map lit ["/home/pkg"; "/home/pkg/cde-root"; "/home/pkg/images/"; "/home/pkg/cde.uname"; "cde.options";
      "/home/pkg/cde.options"; "cde.options"; "/home/pkg/cde-exec"; "/home/pkg/cde-root/home/alice/rm.cde";
      "/home/pkg/cde-root/home/alice/rm.cde"; "/home/pkg/rm.cde"; "/home/pkg/rm.cde"; "/home/pkg/cde.log";
      "/home/pkg/cde.full-environment.cde-root"; "/home/pkg/provenance.cde-root.1.log";
      "/home/pkg/cde-root/etc/passwd"]%string, inr (Exit 0)).
Proof. vm_compute. reflexivity. Qed.

Lemma audit_run_confined_witness :
  Forall (fun e : event => forall p, fs_write_target (projT1 e) = Some p -> audit_target (lit "/home/pkg") p)
    (Os.trace (host_os audit_cwd) (@main 30 audit_argv state0) audit_machine).
Proof.
  apply (@audit_run_confined 30 _ (host_os audit_cwd) (fun _ => lit "/usr/bin") audit_cwd [lit "home"; lit "pkg"]
    audit_argv state0 audit_machine).
  - assert (HN : Forall normal [lit "usr"; lit "bin"; lit "ptu"]) by (repeat constructor; by apply (bool_decide_eq_true_1 _)).
    intros c [[rs x] m]. split.
    + destruct c; try exact Logic.I; intros t Ht; [|discriminate Ht]. simpl in Ht. destruct (strcmp_eq p _); [|discriminate Ht].
      injection Ht as <-. by apply (contained_render [] [lit "usr"; lit "bin"; lit "ptu"]).
    + destruct c; try exact Logic.I; [discriminate|reflexivity].
  - reflexivity.
  - reflexivity.
  - reflexivity.
  - repeat constructor; by apply (bool_decide_eq_true_1 _).
  - discriminate.
  - by apply (bool_decide_eq_true_1 _).
Defined.
