(* ===== verification/ExecveSpec.v ===== *)
(** * What a packaged program is run with

    In exec mode the hook of execve leaves in the shared segment a path and an argument
    vector for the kernel: the dynamic linker of the package, run on the program with the
    arguments of the original call. *)
From S2P Require Import Prelude CString Os StrUtils PerfTimers OkapiPath OkapiMirror Trie State Environ.
From S2P Require Import ChildMem Redirect RedirectSpec Shm Syscalls ShmSpec Provenance Execve Calls Handlers.

(** ** Words in the segment *)

Definition below_word (n : nat) (v : Z) : Prop := (0 <= v < 256 ^ Z.of_nat n)%Z.

Lemma word_bytes_nth n v j : j < n -> nth j (word_bytes n v) NUL = byte_of v j.
Proof.
  intros Hj. unfold word_bytes. rewrite (nth_indep _ NUL (byte_of v 0)) by (rewrite length_map, length_seq; lia).
  rewrite map_nth. by rewrite seq_nth.
Qed.

(** A pointer of the process read over the bytes of the pointer of the turn before. *)
Lemma word_of_overwritten ws pws v cur : pws <= ws -> below_word pws v -> below_word pws cur ->
  word_of (overwrite (word_bytes pws v) (word_bytes ws cur)) = v.
Proof.
  intros Hle Hv Hcur. unfold overwrite. rewrite word_of_app, !word_bytes_length, word_of_word_bytes.
  assert (Hhigh : word_of (drop pws (word_bytes ws cur)) = 0%Z).
  { pose proof (word_of_word_bytes ws cur) as Hw. rewrite <- (take_drop pws (word_bytes ws cur)), word_of_app in Hw.
    rewrite length_take, word_bytes_length, Nat.min_l, word_low in Hw by done.
    rewrite (Z.mod_small cur (256 ^ Z.of_nat pws)) in Hw by done.
    assert (H256 : (0 < 256 ^ Z.of_nat pws)%Z) by (apply Z.pow_pos_nonneg; lia).
    rewrite (Z.mod_small cur (256 ^ Z.of_nat ws)) in Hw.
    { assert (256 ^ Z.of_nat pws * word_of (drop pws (word_bytes ws cur)) = 0)%Z by lia. nia. }
    destruct Hcur as [H1 H2]. split; [done|]. eapply Z.lt_le_trans; [exact H2|]. apply Z.pow_le_mono_r; lia. }
  rewrite Hhigh, Z.mod_small by done. lia.
Qed.

Lemma personality_wordsize_le a : 0 < personality_wordsize a <= sizeof_long a.
Proof. destruct a; simpl; lia. Qed.

(** ** The new argument vector *)

Section Argv.
Context {Fu : Fuel} {W : Type} (h : forall c, W -> reply c * W) (s : state) (l : Z).
Let a := personality (cfg s).
Let ws := sizeof_long a.
Let pws := personality_wordsize a.
Context (mapped : Z -> Prop) (regs_of : W -> regs) (mem : W -> Z -> ascii) (seg : W -> nat -> ascii).
Context (Hsh : sharing h ws (pid (cur s)) (shmid (cur s)) mapped regs_of mem seg).
Context (Hl : localshm (cur s) = Some l) (Hq : Cde_verbose_mode (cfg s) = false).

Lemma shm_store_ptr_returns off v w : off + ws <= shared_page_size ->
  exists tr w', returns h (shm_store_ptr off v) s w tr tt s w' /\ untouched regs_of mem w w'
    /\ forall i, seg w' i = if (off <=? i) && (i <? off + ws) then byte_of v (i - off) else seg w i.
Proof.
  intros Hoff. destruct (sh_store _ _ _ _ _ _ _ _ Hsh off (word_bytes ws v) w) as [HR Hs].
  eexists _, _. split; [|split; [exact HR|]].
  - unfold shm_store_ptr. eapply returns_pure_bind; [reflexivity|]. eapply returns_pure_bind; [reflexivity|].
    rewrite Hl. eapply returns_pure_bind; [reflexivity|]. eapply returns_pure_bind; [reflexivity|].
    fold a. fold ws. rewrite (proj2 (Nat.leb_le _ _)) by done.
    eapply returns_sys_bind; [done..|]. apply returns_ret.
  - intros i. rewrite Hs, word_bytes_length. destruct (_ && _) eqn:E; [|done].
    apply andb_true_iff in E as [E1 E2]. apply Nat.leb_le in E1. apply Nat.ltb_lt in E2.
    apply word_bytes_nth. lia.
Qed.

(** Pointers of the process, one after the other from an offset of the segment on. *)
Definition words_at (w : W) (na : nat) (k : list Z) : Prop :=
  forall i v, k !! i = Some v -> forall j, j < pws -> seg w (na + i * pws + j) = byte_of v j.
Definition kept_below (na : nat) (w w' : W) : Prop := forall i, i < na -> seg w' i = seg w i.

Lemma set_new_argv_returns na k v w : words_at w na k -> na + length k * pws + ws <= shared_page_size ->
  exists tr w', returns h (set_new_argv na (length k) v) s w tr tt s w' /\ untouched regs_of mem w w'
    /\ words_at w' na (k ++ [v]) /\ kept_below na w w'.
Proof.
  intros Hk Hb. destruct (shm_store_ptr_returns (na + length k * pws) v w Hb) as (tr & w' & Hr & HR & Hs).
  pose proof (personality_wordsize_le a) as [Hp1 Hp2]. fold pws ws in Hp1, Hp2.
  eexists _, w'. split; [|split; [exact HR|split]].
  - unfold set_new_argv. eapply returns_pure_bind; [reflexivity|]. eapply returns_bind; [exact Hr|].
    eapply returns_pure_bind; [reflexivity|]. rewrite Hq. apply returns_ret.
  - intros i x Hi j Hj. rewrite Hs. apply lookup_app_Some in Hi as [Hi|[Hge Hi]].
    + assert (i < length k) by by eapply lookup_lt_Some.
      rewrite (proj2 (Nat.leb_gt _ _)) by nia. by apply (Hk i x).
    + assert (i = length k) by (apply lookup_lt_Some in Hi; simpl in Hi; lia). subst i.
      rewrite Nat.sub_diag in Hi. injection Hi as ->.
      rewrite (proj2 (Nat.leb_le _ _)), (proj2 (Nat.ltb_lt _ _)) by lia. f_equal. lia.
  - intros i Hi. rewrite Hs. by rewrite (proj2 (Nat.leb_gt _ _)) by lia.
Qed.

(** The argument vector of the call: pointers that are not NULL, then NULL. *)
Definition vector_in (m : Z -> ascii) (base : Z) (vec : list Z) : Prop :=
  forall i v, (vec ++ [0%Z]) !! i = Some v ->
    read_mem m (base + Z.of_nat (i * pws)) pws = word_bytes pws v
    /\ mapped_bytes s mapped (base + Z.of_nat (i * pws)) pws.
Definition pointers (vec : list Z) : Prop := Forall (fun v => v <> 0%Z /\ below_word pws v) vec.

Lemma copy_argv_returns vec na k rest i n cur w pre :
  vector_in (mem w) (nth 1 (u_arg (State.cur s)) 0%Z) vec -> pointers vec ->
  drop i vec = rest -> i <= length vec -> length pre = i + k -> words_at w na pre ->
  below_word pws cur -> length rest < n ->
  na + (length vec + k) * pws + ws <= shared_page_size ->
  exists tr w', returns h (copy_argv n na k i cur) s w tr tt s w' /\ untouched regs_of mem w w'
    /\ words_at w' na (pre ++ rest ++ [0%Z]) /\ kept_below na w w'.
Proof.
  pose proof (personality_wordsize_le a) as [Hp1 Hp2]. fold pws ws in Hp1, Hp2.
  intros Hvec Hptr. revert i n cur w pre Hvec. induction rest as [|v rest IH]; intros i n cur w pre Hvec Hd Hi Hlen Hw Hcur Hn Hb;
    (destruct n as [|n]; [simpl in Hn; lia|]).
  - assert (Hvi : i = length vec) by (pose proof (length_drop vec i); rewrite Hd in *; simpl in *; lia).
    destruct (Hvec i 0%Z) as [Hrd Hmap]; [rewrite lookup_app_r, Hvi, Nat.sub_diag by lia; done|].
    destruct (umoven_reads h s mapped mem (tc_mem _ _ _ _ _ _ (sh_proc _ _ _ _ _ _ _ _ Hsh)) _ pws w Hmap Hp1) as (t1 & Hr1).
    destruct (set_new_argv_returns na pre 0 w Hw) as (t2 & w2 & Hr2 & HR2 & Hw2 & Hk2); [nia|].
    eexists _, w2. split; [|split; [exact HR2|split; [exact Hw2|exact Hk2]]].
    cbn [copy_argv]. eapply returns_pure_bind; [reflexivity|]. eapply returns_pure_bind; [reflexivity|]. cbv zeta.
    eapply returns_bind; [exact Hr1|]. cbv iota zeta. rewrite Hrd. rewrite word_of_overwritten by (try done; split; lia).
    rewrite <- Hlen. eapply returns_bind; [exact Hr2|]. apply returns_ret.
  - assert (Hv : vec !! i = Some v) by (rewrite <- (Nat.add_0_r i), <- lookup_drop, Hd; done).
    assert (Hlt : i < length vec) by by eapply lookup_lt_Some.
    destruct (Hvec i v) as [Hrd Hmap]; [by apply lookup_app_l_Some|].
    destruct (proj1 (Forall_lookup _ _) Hptr i v Hv) as [Hv0 Hvb].
    destruct (umoven_reads h s mapped mem (tc_mem _ _ _ _ _ _ (sh_proc _ _ _ _ _ _ _ _ Hsh)) _ pws w Hmap Hp1) as (t1 & Hr1).
    destruct (set_new_argv_returns na pre v w Hw) as (t2 & w2 & Hr2 & HR2 & Hw2 & Hk2); [nia|].
    destruct (IH (i + 1) n v w2 (pre ++ [v])) as (t3 & w3 & Hr3 & HR3 & Hw3 & Hk3).
    { intros j x Hj. destruct (Hvec j x Hj) as [H1 H2]. split; [|done]. rewrite <- H1.
      unfold read_mem. apply map_ext. intros y. apply HR2. }
    { rewrite <- drop_drop, Hd. done. }
    { lia. }
    { rewrite length_app. simpl. lia. }
    { exact Hw2. }
    { exact Hvb. }
    { simpl in Hn. lia. }
    { lia. }
    eexists _, w3. split; [|split; [by transitivity w2|split]].
    + cbn [copy_argv]. eapply returns_pure_bind; [reflexivity|]. eapply returns_pure_bind; [reflexivity|]. cbv zeta.
      eapply returns_bind; [exact Hr1|]. cbv iota zeta. rewrite Hrd. rewrite word_of_overwritten by done.
      rewrite <- Hlen. eapply returns_bind; [exact Hr2|]. rewrite (proj2 (Z.eqb_neq v 0)) by done. exact Hr3.
    + rewrite <- app_assoc in Hw3. exact Hw3.
    + intros x Hx. rewrite Hk3 by done. by apply Hk2.
Qed.
End Argv.

(** ** The rewritten call *)

Lemma arg_reg_kernel b : arg_reg b 1 = kernel_arg b 1 /\ arg_reg b 2 = kernel_arg b 2.
Proof. by destruct b. Qed.

Section Binary.
Context {Fu : Fuel} {W : Type} (h : forall c, W -> reply c * W) (s : state) (l : Z).
Let a := personality (cfg s).
Let ws := sizeof_long a.
Let pws := personality_wordsize a.
Let c := childshm (cur s).
Context (mapped : Z -> Prop) (regs_of : W -> regs) (mem : W -> Z -> ascii) (seg : W -> nat -> ascii).
Context (Hsh : sharing h ws (pid (cur s)) (shmid (cur s)) mapped regs_of mem seg).
Context (Hl : localshm (cur s) = Some l) (Hq : Cde_verbose_mode (cfg s) = false).

(** What the kernel is to find: the linker's path at the start, the program's path after
    it, and a vector with these two and the arguments after the first one. *)
Definition segment_laid_out (w : W) (ld name : cstring) (vec : list Z) : Prop :=
  let off := length ld + 1 in
  seg_at seg w 0 ld /\ seg_at seg w off name
  /\ words_at s seg w (off + length name + 1) ([c; c + Z.of_nat off]%Z ++ tail vec ++ [0%Z]).
(** It fits. *)
Definition layout_fits (ld name : cstring) (vec : list Z) : Prop :=
  length ld + length name + 2 + (length vec + 1) * pws + ws <= shared_page_size.

Definition perceiving (p : cstring) (s : state) : state := s {{ cur -> perceived_program_fullpath := Some p }}.

Lemma seg_at_kept w w' off na q : seg_at seg w off q -> off + length q < na -> kept_below seg na w w' -> seg_at seg w' off q.
Proof. intros H Hlt Hk i Hi. rewrite Hk by lia. by apply H. Qed.

Lemma put_vector ld name vec w :
  vector_in s mapped (mem w) (nth 1 (u_arg (cur s)) 0%Z) vec -> pointers s vec -> vec <> [] -> layout_fits ld name vec ->
  seg_at seg w 0 ld -> seg_at seg w (length ld + 1) name ->
  exists tr w', returns h (put_binary_argv (length ld + 1 + length name + 1) (length ld + 1)) s w tr tt s w'
  /\ untouched regs_of mem w w' /\ segment_laid_out w' ld name vec.
Proof.
  intros Hvec Hptr Hne Hfit Hs1 Hs2. unfold layout_fits in Hfit. set (na := length ld + 1 + length name + 1).
  pose proof (personality_wordsize_le a) as [Hp1 Hp2]. fold pws ws in Hp1, Hp2.
  assert (Hlen : 1 <= length vec) by (destruct vec; simpl; [done|lia]).
  destruct (set_new_argv_returns h s l mapped regs_of mem seg Hsh Hl Hq na [] c w) as (t1 & w1 & Hr1 & HR1 & Hw1 & Hk1).
  { by intros i v Hi. }
  { fold a ws pws. simpl. unfold na. nia. }
  destruct (set_new_argv_returns h s l mapped regs_of mem seg Hsh Hl Hq na [c] (c + Z.of_nat (length ld + 1)) w1 Hw1)
    as (t2 & w2 & Hr2 & HR2 & Hw2 & Hk2).
  { fold a ws pws. simpl. unfold na. nia. }
  destruct (copy_argv_returns h s l mapped regs_of mem seg Hsh Hl Hq vec na 1 (tail vec) 1 (S shared_page_size) 0 w2
    ([c] ++ [c + Z.of_nat (length ld + 1)]%Z)) as (t3 & w3 & Hr3 & HR3 & Hw3 & Hk3); try done.
  { intros i v Hi. destruct (Hvec i v Hi) as [H1 H2]. split; [|done]. rewrite <- H1.
    unfold read_mem. apply map_ext. intros y. by rewrite (proj2 HR2), (proj2 HR1). }
  { split; [lia|apply Z.pow_pos_nonneg; lia]. }
  { assert (length vec + 1 <= (length vec + 1) * pws) by nia. assert (length (tail vec) <= length vec) by (destruct vec; simpl; lia). lia. }
  { fold a ws pws. unfold na. nia. }
  assert (Hk : kept_below seg na w w3) by (intros x Hx; by rewrite Hk3, Hk2, Hk1).
  eexists _, w3. split; [|split; [by transitivity w2; [transitivity w1|]|split; [|split; [|exact Hw3]]]].
  - unfold put_binary_argv. eapply returns_pure_bind; [reflexivity|].
    eapply returns_bind; [exact Hr1|]. eapply returns_bind; [exact Hr2|]. exact Hr3.
  - apply (seg_at_kept w w3 0 na); [done|unfold na; lia|exact Hk].
  - apply (seg_at_kept w w3 (length ld + 1) na); [done|unfold na; lia|exact Hk].
Qed.
End Binary.

Section Rewritten.
Context {Fu : Fuel} {W : Type} (h : forall c, W -> reply c * W) (s : state) (l : Z).
Let a := personality (cfg s).
Let ws := sizeof_long a.
Let pws := personality_wordsize a.
Let c := childshm (cur s).
Context (mapped : Z -> Prop) (regs_of : W -> regs) (mem : W -> Z -> ascii) (seg : W -> nat -> ascii).
Context (Hsh : sharing h ws (pid (cur s)) (shmid (cur s)) mapped regs_of mem seg).
Context (Hl : localshm (cur s) = Some l) (Hq : Cde_verbose_mode (cfg s) = false).
Context (Hlink : CDE_use_linker_from_package (cfg s) = true).

(** The kernel's first two arguments. *)
Definition points_to_layout (w w' : W) (ld name : cstring) : Prop :=
  regs_of w' = set_reg (kernel_arg a 2) (c + Z.of_nat (length ld + 1 + length name + 1))%Z
                 (set_reg (kernel_arg a 1) c (regs_of w)).

Lemma rewrite_binary_returns ld exe name vec w :
  path_in s mapped mem w (nth 0 (u_arg (cur s)) 0%Z) name -> basename name <> lit "java" ->
  vector_in s mapped (mem w) (nth 1 (u_arg (cur s)) 0%Z) vec -> pointers s vec -> vec <> [] -> layout_fits s ld name vec ->
  exists tr w', returns h (rewrite_binary ld exe) s w tr tt (perceiving name s) w'
  /\ (forall b, mem w' b = mem w b) /\ points_to_layout w w' ld name /\ segment_laid_out s seg w' ld name vec.
Proof.
  intros Hname Hjava Hvec Hptr Hne Hfit. pose proof Hfit as Hfit'. unfold layout_fits in Hfit'.
  destruct (shm_strcpy_returns h s l mapped regs_of mem seg Hsh Hl 0 ld w) as (t1 & w1 & Hr1 & HR1 & Hs1 & _); [lia|].
  assert (Hname1 : path_in s mapped mem w1 (nth 0 (u_arg (cur s)) 0%Z) name).
  { destruct Hname as (Hn1 & Hn2 & Hn3). split; [done|]. split; [|done].
    unfold string_at. rewrite <- Hn2. apply map_ext. intros y. apply HR1. }
  destruct (read_path h s mapped regs_of mem seg Hsh _ name w1 w1 (conj (reflexivity w1) eq_refl) Hname1) as (t2 & Hr2).
  destruct (shm_strcpy_returns h (perceiving name s) l mapped regs_of mem seg Hsh Hl (length ld + 1) name w1)
    as (t3 & w3 & Hr3 & HR3 & Hs3 & Hk3); [lia|].
  destruct (put_vector h (perceiving name s) l mapped regs_of mem seg Hsh Hl Hq ld name vec w3) as (t4 & w4 & Hr4 & HR4 & Hlay); try done.
  { intros i v Hi. destruct (Hvec i v Hi) as [H1 H2]. split; [|done]. etransitivity; [|exact H1].
    unfold read_mem. apply map_ext. intros y. by rewrite (proj2 HR3), (proj2 HR1). }
  { apply (seg_at_kept s seg w1 w3 0 (length ld + 1)); [done|lia|exact Hk3]. }
  destruct (point_args_returns h (perceiving name s) mapped regs_of mem seg Hsh
    [(1, 0); (2, length ld + 1 + length name + 1)] w4) as (t5 & w5 & Hr5 & Hrs & Hm5 & Hs5).
  exists (t1 ++ t2 ++ t3 ++ t4 ++ t5), w5. split; [|split; [|split]].
  - unfold rewrite_binary. eapply returns_bind; [exact Hr1|]. cbv zeta. eapply returns_pure_bind; [reflexivity|].
    eapply returns_bind; [exact Hr2|]. eapply returns_pure_bind; [reflexivity|].
    eapply returns_pure_bind.
    { unfold follow_java_links, tcp_str, tcp, gets, bindM, deref. simpl.
      unfold strcmp_eq. rewrite bool_decide_eq_false_2 by exact Hjava. reflexivity. }
    eapply returns_pure_bind; [reflexivity|]. eapply returns_bind; [exact Hr3|].
    eapply returns_bind; [exact Hr4|]. eapply returns_pure_bind; [reflexivity|]. change (cfg (perceiving name s)) with (cfg s). rewrite Hlink. exact Hr5.
  - intros b. by rewrite Hm5, (proj2 HR4), (proj2 HR3), (proj2 HR1).
  - unfold points_to_layout, a. destruct (arg_reg_kernel (personality (cfg s))) as [<- <-].
    rewrite Hrs, (proj1 HR4), (proj1 HR3), (proj1 HR1). simpl. by rewrite Z.add_0_r.
  - destruct Hlay as (H1 & H2 & H3). split; [|split].
    + intros i Hi. rewrite Hs5. by apply H1.
    + intros i Hi. rewrite Hs5. by apply H2.
    + intros i v Hi j Hj. rewrite Hs5. by apply (H3 i v).
Qed.
End Rewritten.

(** ** What the kernel runs *)

(** The process's memory, with the segment attached at [c]. *)
Definition view (c : Z) (m : Z -> ascii) (g : nat -> ascii) (x : Z) : ascii :=
  if ((c <=? x) && (x <? c + Z.of_nat shared_page_size))%Z then g (Z.to_nat (x - c)) else m x.

(** The call is made with the path [ld] and the arguments [ld], [name] and those of [vec]
    from the second one on; every other register is as it was. *)
Record runs_linker (b : abi) (rs rs' : regs) (m : Z -> ascii) (ld name : cstring) (vec : list Z) : Prop := {
  rl_path : string_at m (rs' (kernel_arg b 1)) ld;
  rl_argv : exists a1, string_at m a1 name /\
    forall i v, ([rs' (kernel_arg b 1); a1] ++ tail vec ++ [0%Z]) !! i = Some v ->
      let n := personality_wordsize b in
      read_mem m (rs' (kernel_arg b 2) + Z.of_nat (i * n)) n = word_bytes n v;
  rl_regs : forall r, r <> kernel_arg b 1 -> r <> kernel_arg b 2 -> rs' r = rs r;
}.

Lemma view_seg c m g (off : nat) (x : nat) : off + x < shared_page_size ->
  view c m g (c + Z.of_nat off + Z.of_nat x)%Z = g (off + x).
Proof.
  intros H. unfold view. rewrite (proj2 (Z.leb_le _ _)), (proj2 (Z.ltb_lt _ _)) by lia. f_equal. lia.
Qed.

Lemma layout_runs_linker {W} s (seg : W -> nat -> ascii) w w' regs_of m ld name vec :
  points_to_layout s regs_of w w' ld name -> segment_laid_out s seg w' ld name vec -> layout_fits s ld name vec -> vec <> [] ->
  runs_linker (personality (cfg s)) (regs_of w) (regs_of w') (view (childshm (cur s)) m (seg w')) ld name vec.
Proof.
  intros Hrs (H1 & H2 & H3) Hfit Hne. unfold layout_fits in Hfit. unfold points_to_layout in Hrs.
  set (c := childshm (cur s)) in *. set (b := personality (cfg s)) in *.
  pose proof (personality_wordsize_le b) as [Hp1 Hp2].
  assert (Hk : kernel_arg b 1 <> kernel_arg b 2) by by destruct b.
  assert (E1 : regs_of w' (kernel_arg b 1) = c) by (rewrite Hrs; unfold set_reg; by rewrite decide_False, decide_True).
  assert (E2 : regs_of w' (kernel_arg b 2) = (c + Z.of_nat (length ld + 1 + length name + 1))%Z)
    by (rewrite Hrs; unfold set_reg; by rewrite decide_True).
  assert (Hstr : forall off q, seg_at seg w' off q -> off + length q < shared_page_size ->
    string_at (view c m (seg w')) (c + Z.of_nat off) q).
  { intros off q Hq Hlt. apply nth_ext_nul; [rewrite read_mem_length, length_app; simpl; lia|].
    rewrite read_mem_length. intros i Hi. rewrite read_mem_nth by done. rewrite view_seg by lia. apply Hq. lia. }
  split.
  - fold b. rewrite E1. pose proof (Hstr 0 ld H1 ltac:(lia)) as H0. by rewrite Z.add_0_r in H0.
  - fold b. exists (c + Z.of_nat (length ld + 1))%Z. split; [apply Hstr; [done|lia]|]. cbv zeta. intros i v Hi.
    rewrite E1 in Hi. rewrite E2.
    assert (Hlt : i < length vec + 2).
    { apply lookup_lt_Some in Hi. rewrite !length_app in Hi. destruct vec; simpl in *; [done|lia]. }
    apply nth_ext_nul; [by rewrite read_mem_length, word_bytes_length|]. rewrite read_mem_length. intros j Hj.
    rewrite read_mem_nth, word_bytes_nth by done.
    rewrite <- (H3 i v Hi j Hj), <- (view_seg c m) by (fold b; nia). f_equal. fold b. lia.
  - fold b. intros r Hr1 Hr2. rewrite Hrs. unfold set_reg. by rewrite !decide_False.
Qed.

(** A program that is in the package, at the path [p] as the process sees it. *)
Record packaged (s : state) (p name : cstring) : Prop := {
  pk_repo : in_repo (multi_repo_paths (opts s)) p = false;
  pk_name : is_cde_binary (Some name) = false;
  pk_cde : is_cde_binary (Some p) = false;
  pk_ignored : ignored (opts s) None p = false;
  pk_outside : starts_with p (cde_cderoot_dir (cfg s)) = false;
  pk_process : List.find (fun i => strcmp_eq p (process_name i)) (process_ignores (opts s)) = None;
}.
(** A dynamically linked binary on disk, with its interpreter. *)
Record linked_binary {W} (h : forall c, W -> reply c * W) (R : W -> W -> Prop) (q ld : cstring) (f : Z) : Prop := {
  lb_stat : forall w, (exists st, (h (Stat q) w).1 = Some st) /\ R w (h (Stat q) w).2;
  lb_open : forall w, (h (Fopen q F_read) w).1 = Some f /\ R w (h (Fopen q F_read) w).2;
  lb_magic : forall w, (h (Fgets f 5) w).1 = Some ELF_MAGIC /\ R w (h (Fgets f 5) w).2;
  lb_close : forall w, R w (h (Fclose f) w).2;
  lb_interp : forall w, (h (Find_ELF_program_interpreter q) w).1 = Some ld
    /\ R w (h (Find_ELF_program_interpreter q) w).2;
}.

Section Lookup.
Context {Fu : Fuel} (s : state) (root sub name : cstring).
Let pwd := if bool_decide (sub = []) then [slash] else sub.
Let p := program_path pwd name.
Context (Hrun : exec_run s root) (Hsub : sub = [] \/ IS_ABSPATH sub = true).
Context (Hdir : current_dir (cur s) = Some (root ++ sub)) (Hig : p_ignores (cur s) = None) (Hpk : packaged s p name).

Lemma packaged_redirect : redirect_spec (opts s) None root pwd name = Some (root ++ p).
Proof.
  unfold redirect_spec. fold p. rewrite (pk_repo _ _ _ Hpk), (pk_cde _ _ _ Hpk), (pk_ignored _ _ _ Hpk). simpl.
  by rewrite <- (er_root _ _ Hrun), (pk_outside _ _ _ Hpk).
Qed.

Lemma program_nonempty : bool_decide (p = []) = false.
Proof. apply bool_decide_eq_false_2. intros E. pose proof (program_path_abs pwd name) as H. fold p in H. by rewrite E in H. Qed.

Lemma wpM_redirect_name (Q : option cstring -> state -> Prop) E :
  Q (Some (root ++ p)) s -> wpM prints (redirect_filename_into_cderoot name (Some (root ++ sub)) true) s Q E.
Proof.
  intros HQ. eapply wpM_redirect; [done|done|done|]. cbv iota. fold pwd. by rewrite Hig, packaged_redirect.
Qed.

Lemma wpM_lookup_exec :
  wpM prints (lookup_exec name) s (fun r s' => s' = s /\ r = Found (Some (root ++ p))) (fun _ => False).
Proof.
  destruct Hrun as [Hex Hinit Hin _ Hroot Habs].
  assert (Hpwd : IS_ABSPATH pwd = true) by (unfold pwd; case_bool_decide; [done|by destruct Hsub]).
  unfold lookup_exec, tcp_str. wp1. wp1. apply wpM_tcp. rewrite Hdir. wp1. wp1. eapply wpM_extract; [done..|]. fold pwd.
  rewrite (canonicalize_path_ok name pwd Hpwd). fold (program_path pwd name). fold p. wp1. wp1.
  rewrite (pk_name _ _ _ Hpk). wp1. unfold punt_ignored. wp1.
  apply wpM_ignore_path; [done|done|done|right; apply program_path_abs|].
  rewrite program_nonempty, Hig, (pk_ignored _ _ _ Hpk). simpl. wp1. apply wpM_opt. rewrite (pk_process _ _ _ Hpk).
  wp1. wp1. apply wpM_redirect_name. wp1. unfold load_repo_environment. wp1. apply wpM_repo. wp1. apply wpM_tcp.
  rewrite repo_search_nonneg by lia. rewrite (pk_repo _ _ _ Hpk). by wp1.
Qed.

Lemma wpM_perceived : perceived_program_fullpath (cur s) = Some name ->
  wpM prints make_perceived_absolute s (fun r s' => s' = perceiving p s /\ r = tt) (fun _ => False).
Proof.
  destruct Hrun as [Hex Hinit Hin _ Hroot Habs]. intros Hfull.
  unfold make_perceived_absolute. wp1. apply wpM_tcp. rewrite Hfull. wp1. apply wpM_tcp. rewrite Hdir.
  wp1. apply wpM_redirect_name. wp1. eapply wpM_extract; [done..|]. rewrite program_nonempty. by wp1.
Qed.
End Lookup.

Section Linked.
Context {Fu : Fuel} {W : Type} (h : forall c, W -> reply c * W) (root sub name ld : cstring) (l f : Z) (vec : list Z).
Context (mapped : Z -> Prop) (regs_of : W -> regs) (mem : W -> Z -> ascii) (seg : W -> nat -> ascii).
Let pwd := if bool_decide (sub = []) then [slash] else sub.
Let p := program_path pwd name.
Let linker := root ++ ld.
#[local] Instance quiet_refl' : Reflexive (quiet regs_of mem seg).
Proof. by intros w. Qed.
#[local] Instance quiet_trans' : Transitive (quiet regs_of mem seg).
Proof. intros x y z [H1 H2] [H3 H4]. split; [by etransitivity|congruence]. Qed.

(** A process of a packaged run, whose segment is attached, calls execve. *)
Record execve_call (s : state) (w : W) : Prop := {
  ec_run : exec_run s root;
  ec_sharing : sharing h (sizeof_long (personality (cfg s))) (pid (cur s)) (shmid (cur s)) mapped regs_of mem seg;
  ec_local : localshm (cur s) = Some l;
  ec_attached : (childshm (cur s) =? 0)%Z = false;
  ec_dir : current_dir (cur s) = Some (root ++ sub);
  ec_quiet : Cde_verbose_mode (cfg s) = false;
  ec_linker : CDE_use_linker_from_package (cfg s) = true;
  ec_package : packaged s p name;
  ec_name : path_in s mapped mem w (nth 0 (u_arg (cur s)) 0%Z) name;
  ec_argv : vector_in s mapped (mem w) (nth 1 (u_arg (cur s)) 0%Z) vec;
  ec_pointers : pointers s vec;
  ec_fits : layout_fits s linker name vec;
}.
Context (Hsub : sub = [] \/ IS_ABSPATH sub = true) (Hjava : basename name <> lit "java").
Context (Hne : vec <> []).
Context (Hld : IS_ABSPATH ld = true) (Hldout : starts_with ld root = false).
Context (Hfile : linked_binary h (quiet regs_of mem seg) (root ++ p) ld f).

Lemma prints_run {A} (s s1 : state) (m : M state A) a : 
  sharing h (sizeof_long (personality (cfg s))) (pid (cur s)) (shmid (cur s)) mapped regs_of mem seg ->
  wpM prints m s (fun r s' => s' = s1 /\ r = a) (fun _ => False) -> runs h (quiet regs_of mem seg) m s a s1.
Proof.
  intros Hsh. apply (runs_of_wpM h (quiet regs_of mem seg) prints).
  intros cl w Hp. split; [done|]. destruct cl; try by destruct Hp. apply (sh_print _ _ _ _ _ _ _ _ Hsh).
Qed.

Lemma has_elf_header_run s : runs h (quiet regs_of mem seg) (has_elf_header (root ++ p)) s true s.
Proof.
  destruct Hfile as [_ Hop Hmag Hcl _]. unfold has_elf_header.
  eapply (runs_sys_bind h _ (Fopen (root ++ p) F_read)); [exact Hop|].
  eapply runs_pure_bind; [exact _..|reflexivity|].
  eapply (runs_sys_bind h _ (Fgets f 5)); [exact Hmag|].
  eapply (runs_ignore_bind h _ (Fclose f)); [exact Hcl|]. intros r. by apply runs_pure; [exact _|].
Qed.

Lemma binary_interpreter_run s : runs h (quiet regs_of mem seg) (binary_interpreter name (root ++ p)) s (Some ld) s.
Proof.
  unfold binary_interpreter. eapply (runs_sys_bind h _ (Find_ELF_program_interpreter (root ++ p))); [apply (lb_interp _ _ _ _ _ Hfile)|].
  cbv iota. rewrite Hld. by apply runs_pure; [exact _|].
Qed.

Lemma execve_call_quiet s w w1 : execve_call s w -> quiet regs_of mem seg w w1 -> execve_call s w1.
Proof.
  intros [] [[_ Hm] _]. split; try done.
  - destruct ec_name0 as (Hn1 & Hn2 & Hn3). split; [done|]. split; [|done].
    unfold string_at. rewrite <- Hn2. apply map_ext. intros y. apply Hm.
  - intros i v Hi. destruct (ec_argv0 i v Hi) as [H1 H2]. split; [|done]. rewrite <- H1.
    unfold read_mem. apply map_ext. intros y. apply Hm.
Qed.

Lemma handle_program_returns s w : execve_call s w -> p_ignores (cur s) = None ->
  exists tr w', returns h (handle_program name (root ++ p)) s w tr 0 (perceiving p s) w'
  /\ (forall b, mem w' b = mem w b) /\ points_to_layout s regs_of w w' linker name
  /\ segment_laid_out s seg w' linker name vec.
Proof.
  intros Hec Hig. pose proof Hec as [Hrun Hsh Hl Hc Hdir Hq Hlink Hpk _ _ Hptr Hfit].
  destruct (has_elf_header_run s w) as (t1 & w1 & Hr1 & HQ1).
  destruct (binary_interpreter_run s w1) as (t2 & w2 & Hr2 & HQ2).
  destruct (prints_run s s (create_abspath_within_cderoot ld) linker Hsh) with (w := w2) as (t3 & w3 & Hr3 & HQ3).
  { eapply wpM_create_abspath; [done..|]. by rewrite Hldout. }
  assert (HQ : quiet regs_of mem seg w w3) by (transitivity w2; [by transitivity w1|done]).
  pose proof (execve_call_quiet s w w3 Hec HQ) as [_ _ _ _ _ _ _ _ Hname Hargv _ _].
  destruct (rewrite_binary_returns h s l mapped regs_of mem seg Hsh Hl Hq Hlink linker name name vec w3)
    as (t4 & w4 & Hr4 & Hm4 & Hp4 & Hl4); try done.
  destruct (prints_run (perceiving name s) (perceiving p s) make_perceived_absolute tt Hsh) with (w := w4) as (t5 & w5 & Hr5 & HQ5).
  { apply (wpM_perceived (perceiving name s) root sub name); try done; [by destruct Hrun|by destruct Hpk]. }
  exists (t1 ++ [] ++ t2 ++ (t3 ++ t4 ++ t5) ++ []), w5. split; [|split; [|split]].
  - unfold handle_program. eapply returns_bind; [exact Hr1|]. eapply returns_bind; [apply returns_ret|].
    eapply returns_bind; [exact Hr2|]. eapply returns_pure_bind; [reflexivity|]. rewrite Hc.
    eapply returns_pure_bind; [reflexivity|]. rewrite (er_exec _ _ Hrun). eapply returns_bind; [|apply returns_ret].
    unfold rewrite_execve. eapply returns_bind; [exact Hr3|]. eapply returns_bind; [exact Hr4|exact Hr5].
  - intros b. by rewrite (proj2 (proj1 HQ5)), Hm4, (proj2 (proj1 HQ)).
  - unfold points_to_layout in *. by rewrite (proj1 (proj1 HQ5)), Hp4, (proj1 (proj1 HQ)).
  - destruct HQ5 as [_ HQ5], Hl4 as (H1 & H2 & H3). split; [|split].
    + intros i Hi. rewrite HQ5. by apply H1.
    + intros i Hi. rewrite HQ5. by apply H2.
    + intros i v Hi j Hj. rewrite HQ5. by apply (H3 i v).
Qed.

Definition starting (s : state) : state := s {{ cur -> p_ignores := None }}.
Lemma execve_call_starting s w : execve_call s w -> execve_call (starting s) w.
Proof.
  intros []. split; try done; [by destruct ec_run0|by destruct ec_package0].
Qed.

(** C4.  Running a packaged program.  When a process of a packaged run, whose segment is
    attached, calls execve on a dynamically linked program of the package, the hook changes
    nothing of the process but the registers of the call's path and argument vector, and
    with these the kernel runs the package's own copy of the program's dynamic linker, its
    arguments being the linker's path, the name of the program as it was given, and the
    original arguments from the second one on; from then on the program's path, for the
    process, is its path on the original machine. *)
Theorem linked_program_run s w (Hec : execve_call s w) (Hprov : Prov_prov_mode (prov s) = false) :
  exists tr w', returns h CDE_begin_execve s w tr tt (perceiving p (starting s)) w'
  /\ (forall b, mem w' b = mem w b)
  /\ runs_linker (personality (cfg s)) (regs_of w) (regs_of w') (view (childshm (cur s)) (mem w') (seg w')) linker name vec.
Proof.
  pose proof (execve_call_starting s w Hec) as Hec1. pose proof Hec1 as [Hrun1 Hsh1 _ _ _ _ _ Hpk1 _ _ _ _].
  destruct Hec as [Hrun Hsh _ _ Hdir Hq _ _ Hname _ _ Hfit].
  destruct (read_path h s mapped regs_of mem seg Hsh _ name w w (reflexivity w) Hname) as (t1 & Hr1).
  destruct (prints_run (starting s) (starting s) (lookup_exec name) (Found (Some (root ++ p))) Hsh) with (w := w) as (t2 & w2 & Hr2 & HQ2).
  { apply (wpM_lookup_exec (starting s) root sub name); done. }
  destruct (lb_stat _ _ _ _ _ Hfile w2) as [[st Hst] HQ3].
  assert (HQ : quiet regs_of mem seg w (h (Stat (root ++ p)) w2).2) by by transitivity w2.
  destruct (handle_program_returns (starting s) _ (execve_call_quiet (starting s) w _ Hec1 HQ) eq_refl)
    as (t4 & w4 & Hr4 & Hm4 & Hp4 & Hl4).
  eexists _, w4. split; [|split].
  - unfold CDE_begin_execve. eapply returns_pure_bind; [reflexivity|]. eapply returns_bind; [exact Hr1|].
    eapply (returns_pure_bind h _ _ _ (starting s) tt); [reflexivity|].
    eapply returns_bind.
    { eapply returns_pure_bind; [reflexivity|]. unfold vbprintf. eapply returns_pure_bind; [reflexivity|].
      change (cfg (starting s)) with (cfg s). rewrite Hq. apply returns_ret. }
    eapply returns_pure_bind; [reflexivity|]. change (cfg (starting s)) with (cfg s). rewrite (er_exec _ _ Hrun).
    eapply returns_bind; [exact Hr2|].
    eapply returns_bind.
    { cbv iota. eapply (returns_sys_bind h (Stat (root ++ p))); [exact Hst|reflexivity|]. exact Hr4. }
    unfold done_execve, in_prov_mode. eapply returns_pure_bind; [reflexivity|].
    change (prov (perceiving p (starting s))) with (prov s). rewrite Hprov. apply returns_ret.
  - intros b. by rewrite Hm4, (proj2 (proj1 HQ)).
  - apply (layout_runs_linker (starting s) seg w w4 regs_of (mem w4) linker name vec); try done.
    unfold points_to_layout in *. by rewrite Hp4, (proj1 (proj1 HQ)).
Qed.
End Linked.

(** A 64-bit process that calls execve("/usr/bin/perl", {"perl", ...}). *)
Definition linked_os (c : sys) (w : proc * (nat -> ascii)) : reply c * (proc * (nat -> ascii)) :=
  match c return reply c * (proc * (nat -> ascii)) with
  | Stat _ => (Some {| st_kind := REG; st_mode := 493; st_mtime := 0; st_size := 8192; st_uid := 0; st_gid := 0 |}, w)
  | Fopen _ _ => (Some 5%Z, w)
  | Fgets _ _ => (Some ELF_MAGIC, w)
  | Find_ELF_program_interpreter _ => (Some (lit "/lib64/ld.so"), w)
  | c => share_os c w
  end.
Definition perl_name : cstring := lit "/usr/bin/perl".
Definition perl_vec : list Z := [1009; 1001]%Z.
Definition perl_memory : Z -> ascii :=
  memory_with 1000 (perl_name ++ repeat NUL 11 ++ flat_map (word_bytes 8) (perl_vec ++ [0%Z])).
Definition perl_state : state := rename_state {{ cur -> u_arg := [1000; 1024]%Z }}.
Definition perl_world : proc * (nat -> ascii) := (fun _ => 0%Z, perl_memory, [], fun _ => NUL).

Lemma linked_os_sharing p id : sharing linked_os 8 p id (fun _ => True) (fun w => w.1.1.1) (fun w => w.1.1.2) (fun w => w.2).
Proof. destruct (share_os_sharing p id) as [[[Hpeek Hpoke] Hpr Hget Hset] H1 H2 H3]. split; [split; [split|..]|..]; done. Qed.

Lemma perl_call : @execve_call _ linked_os (lit "/home/bob/pkg/cde-root") (lit "/home/alice/exp") perl_name (lit "/lib64/ld.so")
  4096 perl_vec (fun _ => True) (fun w => w.1.1.1) (fun w => w.1.1.2) (fun w => w.2) perl_state perl_world.
Proof.
  split; try done.
  - apply linked_os_sharing.
  - split_and!; [done|reflexivity|by apply (bool_decide_eq_true_1 _)|apply Nat.ltb_lt; reflexivity].
  - intros i v Hi. split; [|done]. destruct i as [|[|[|i]]]; try discriminate Hi; injection Hi as <-; vm_compute; reflexivity.
  - repeat constructor; done.
  - apply Nat.leb_le. reflexivity.
Qed.

Lemma linked_program_run_witness :
  exists tr w', returns linked_os (@CDE_begin_execve 0) perl_state perl_world tr tt (perceiving perl_name (starting perl_state)) w'
  /\ (forall b, w'.1.1.2 b = perl_memory b)
  /\ runs_linker X86_64 (fun _ => 0%Z) w'.1.1.1 (view 65536 w'.1.1.2 w'.2) (lit "/home/bob/pkg/cde-root/lib64/ld.so") perl_name perl_vec.
Proof.
  apply (@linked_program_run 0 _ linked_os (lit "/home/bob/pkg/cde-root") (lit "/home/alice/exp") perl_name (lit "/lib64/ld.so")
    4096 5 perl_vec (fun _ => True) (fun w => w.1.1.1) (fun w => w.1.1.2) (fun w => w.2)).
  - by right.
  - done.
  - done.
  - reflexivity.
  - reflexivity.
  - split; intros [[[rs m] rest] g]; repeat split. by eexists.
  - exact perl_call.
  - reflexivity.
Defined.

(** ** A script without a #! line *)

(** A script that is not marked.  If the file is neither an ELF binary nor starts with
    "#!" (an old shell script, which the C library's execvp and every shell run with
    /bin/sh) and its name does not end in .sh, then in both modes the tracer writes that it
    ignores the error, and dies of a NULL pointer. *)
Theorem bare_script_crashes {Fu : Fuel} {W} (h : forall c, W -> reply c * W) (s : state) (w : W) exe path f header line
    (Hopen : forall w, (h (Fopen path F_read) w).1 = Some f)
    (Hheader : forall w, (h (Fgets f 5) w).1 = Some header) (Hline : forall w, (h (Getline f) w).1 = Some line)
    (Helf : until_nul header <> ELF_MAGIC) (Hbang : str_startswith (str_rstrip (until_nul line)) (lit "#!") = false)
    (Hsh : str_endswith path (lit ".sh") = false) :
  outcome h (handle_program exe path s) w = inr Segv
  /\ map (@projT1 _ _) (trace h (handle_program exe path s) w)
     = [Fopen path F_read; Fgets f 5; Fclose f; Fopen path F_read; Getline f; Fclose f;
        Eprintf "Ignored: Fatal error: '%s' seems to be a script without a #! line." [PS path]].
Proof.
  unfold outcome, trace, handle_program, has_elf_header, get_script_command, script_interpreter, eprintf, bindM, sysM, conf, gets.
  simpl. pose proof (Hopen w) as H1. destruct (h (Fopen path F_read) w) as [o1 w1]. simpl in H1. subst o1. simpl.
  pose proof (Hheader w1) as H2. destruct (h (Fgets f 5) w1) as [o2 w2]. simpl in H2. subst o2. simpl.
  destruct (h (Fclose f) w2) as [u2 w3]. simpl.
  unfold strcmp_eq. rewrite (bool_decide_eq_false_2 _ Helf). simpl.
  pose proof (Hopen w3) as H3. destruct (h (Fopen path F_read) w3) as [o3 w4]. simpl in H3. subst o3. simpl.
  pose proof (Hline w4) as H4. destruct (h (Getline f) w4) as [o4 w5]. simpl in H4. subst o4. simpl.
  destruct (h (Fclose f) w5) as [u5 w6]. simpl. simpl in Hbang, Hsh. rewrite Hbang, andb_false_r, Hsh. simpl.
  by destruct (h (Eprintf _ _) w6) as [u6 w7].
Qed.

Definition script_os (line : cstring) (c : sys) (w : unit) : reply c * unit :=
  match c return reply c * unit with
  | Stat _ => (Some {| st_kind := REG; st_mode := 493; st_mtime := 0; st_size := 8192; st_uid := 0; st_gid := 0 |}, w)
  | Fopen _ _ => (Some 5%Z, w)
  | Fgets _ n => (Some (take (n - 1) line), w)
  | Getline _ => (Some line, w)
  | c => (null_reply c, w)
  end.
Lemma bare_script_crashes_witness :
  outcome (script_os (lit "echo $*" ++ [newline])) (@handle_program 0 (lit "./hello") (lit "/home/alice/hello") audit_state) tt = inr Segv
  /\ map (@projT1 _ _) (trace (script_os (lit "echo $*" ++ [newline])) (@handle_program 0 (lit "./hello") (lit "/home/alice/hello") audit_state) tt)
     = [Fopen (lit "/home/alice/hello") F_read; Fgets 5 5; Fclose 5; Fopen (lit "/home/alice/hello") F_read; Getline 5; Fclose 5;
        Eprintf "Ignored: Fatal error: '%s' seems to be a script without a #! line." [PS (lit "/home/alice/hello")]].
Proof.
  apply (@bare_script_crashes 0 _ (script_os (lit "echo $*" ++ [newline])) audit_state tt (lit "./hello") (lit "/home/alice/hello") 5
    (lit "echo") (lit "echo $*" ++ [newline])); try done; by intros [].
Defined.

(** The command of a script: what follows "#!" without the white space at the end. *)
Example script_commands :
  map (fun line => outcome (script_os (lit line)) (get_script_command (lit "run") audit_state) tt)
    ["#! /usr/bin/env python  "; "#!/bin/sh"; "#!"; "echo"]
  = [inl (Some (lit " /usr/bin/env python"), true, audit_state); inl (Some (lit "/bin/sh"), true, audit_state);
     inl (None, false, audit_state); inl (None, false, audit_state)].
Proof. vm_compute. reflexivity. Qed.

(** With two repositories and no process directives, a process of the first one that runs
    a program of the second one gets the first one's environment: the index is that of
    another loop. *)
Definition repos_state : state := perl_state {{ opts -> multi_repo_paths := [lit "/repo/a"; lit "/repo/b"]; cur -> current_repo_ind := 0%Z }}.
Lemma wrong_repository_environment :
  load_repo_environment (lit "/repo/b/bin/tool") repos_state = CDE_load_environment_vars (Some (lit "/repo/a")) repos_state
  /\ repo_search 0 (multi_repo_paths (opts repos_state)) (lit "/repo/b/bin/tool") = 1%Z.
Proof. split; reflexivity. Qed.
