(* ===== verification/InitSpec.v ===== *)
(** * What the start of a run establishes

    Where the package is found in exec mode, what the scripts of the package run, and that
    the cde.options that is written by default is refused. *)
From S2P Require Import Prelude CString Os StrUtils ShellUtils OkapiPath OkapiMirror Trie State CdeOptions Redirect Syscalls Init.

(** ** The root of the package *)

Definition no_root (l : list cstring) : Prop := Forall (fun c => is_a_repo_name c = false) l.
Definition with_root_name (c : cstring) (s : state) : state := s {{ cfg -> CDE_ROOT_NAME := Some c }}.

Lemma find_root_none l i found s : no_root l -> find_root l i found s = Ret (found, s).
Proof.
  intros H. revert i found; induction H as [|c l Hc Hl IH]; intros i found; [done|]. cbn [find_root]. by rewrite Hc.
Qed.
Lemma find_root_skip l k i found s : no_root l -> find_root (l ++ k) i found s = find_root k (i + length l) found s.
Proof.
  intros H. revert i found; induction H as [|c l Hc Hl IH]; intros i found; simpl; [by rewrite Nat.add_0_r|].
  rewrite Hc, IH. f_equal. lia.
Qed.

(** In the three cases: the index of the only root, none, more than one. *)
Lemma find_root_one pre c post s : no_root pre -> is_a_repo_name c = true -> no_root post ->
  find_root (pre ++ c :: post) 1 None s = Ret (Some (length pre + 1, c), with_root_name c s).
Proof.
  intros H1 Hc H2. rewrite find_root_skip by done. cbn [find_root]. rewrite Hc. unfold bindM, modM. cbn [bindP].
  rewrite find_root_none by done. do 4 f_equal. lia.
Qed.
Lemma find_root_two pre c mid d post s : no_root pre -> is_a_repo_name c = true -> no_root mid -> is_a_repo_name d = true ->
  find_root (pre ++ c :: mid ++ d :: post) 1 None s
  = (eprintf "Error: More than one cde-root/ directory found in pwd: '%s'" [PS (cde_starting_pwd (cfg s))] ;;; stopM (Exit 1))
      (with_root_name c s).
Proof.
  intros H1 Hc H2 Hd. rewrite find_root_skip by done. cbn [find_root]. rewrite Hc. unfold bindM at 1, modM. cbn [bindP].
  rewrite find_root_skip by done. cbn [find_root]. rewrite Hd. done.
Qed.

Lemma render_prefix_length (k m : list cstring) : length (render k) <= length (render (k ++ m)).
Proof.
  unfold render. simpl. induction k as [|x k IH]; simpl; [lia|].
  destruct k as [|y k]; simpl in *; [destruct m; simpl; rewrite ?length_app; lia|]. rewrite !length_app. simpl in *. lia.
Qed.

Section Root.
Context {Fu : Fuel} {W : Type} (h : forall c, W -> reply c * W) (s : state) (l : list cstring) (w : W).
Context (He : Cde_exec_mode (cfg s) = true) (Hl : Forall normal l) (Hne : l <> []).
Context (Hpwd : cde_starting_pwd (cfg s) = render l).

Lemma start_path : exists p, new_path_from_abspath (render l) = Some p /\ stack p = l /\ is_abspath p = true.
Proof.
  destruct (new_path_from_abspath_ok (render l) (IS_ABSPATH_render l)) as (p & H1 & H2 & H3 & _).
  exists p. by rewrite H2, resolve_render.
Qed.

(** The part up to the search for the root. *)
Lemma search_root p t a s' w' :
  new_path_from_abspath (render l) = Some p -> stack p = l ->
  returns h (let* found := find_root l 1 None in set_root_dirs p found) s w t a s' w' ->
  returns h CDE_init_pseudo_root_dir s w t a s' w'.
Proof.
  intros Hp Hst H. eapply returns_pure_bind; [reflexivity|]. rewrite He. eapply returns_pure_bind; [reflexivity|].
  eapply returns_pure_bind; [reflexivity|]. rewrite Hpwd, Hp. eapply returns_pure_bind; [reflexivity|].
  unfold depth. rewrite Hst. rewrite (proj2 (Nat.ltb_lt 0 (length l))) by (destruct l; simpl; [done|lia]).
  eapply returns_pure_bind; [reflexivity|]. exact H.
Qed.

Lemma set_cderoot_pure d s0 : length d < MAXPATHLEN ->
  set_cderoot_dir d s0 = Ret (tt, s0 {{ cfg -> cde_cderoot_dir := d }}).
Proof. intros H. unfold set_cderoot_dir, bindM, strbuf. by rewrite (proj2 (Nat.ltb_lt _ _) H). Qed.
Lemma set_app_pure d s0 : length d < MAXPATHLEN ->
  set_app_dir d s0 = Ret (tt, s0 {{ cfg -> Cde_app_dir := d }}).
Proof. intros H. unfold set_app_dir, bindM, strbuf. by rewrite (proj2 (Nat.ltb_lt _ _) H). Qed.

(** The state after the search, in the two cases. *)
Definition root_found (c cderoot app : cstring) : state :=
  s {{ cfg -> CDE_ROOT_NAME := Some c; cfg -> cde_cderoot_dir := cderoot; cfg -> Cde_app_dir := app }}.
Definition root_beside (cderoot app : cstring) : state :=
  s {{ cfg -> CDE_proc_self_exe := app; cfg -> cde_cderoot_dir := cderoot; cfg -> Cde_app_dir := app;
       cfg -> cde_exec_from_outside_cderoot := true }}.

(** Where the package is, from inside.  When ptu-exec is started in a directory below
    one, and only one, whose name starts with "cde-root", that directory is taken for the
    root of the package, whatever is above and below it, and the directory it is in for
    the application's; but for a root at the top of the file system the application's
    directory is the current one, because [path2str] takes a depth of 0 for all. *)
Theorem package_found_inside pre c post (Hsplit : l = pre ++ c :: post)
    (Hpre : no_root pre) (Hc : is_a_repo_name c = true) (Hpost : no_root post) (Hlen : length (render l) < MAXPATHLEN) :
  returns h CDE_init_pseudo_root_dir s w [] tt
    (root_found c (render (pre ++ [c])) (render (if bool_decide (pre = []) then l else pre))) w.
Proof.
  destruct start_path as (p & Hp & Hst & Ha). eapply search_root; [exact Hp|exact Hst|].
  assert (Hd : depth p = length l) by (unfold depth; by rewrite Hst).
  assert (Htake : take (length pre + 1) l = pre ++ [c]).
  { rewrite Hsplit, take_app_ge by lia. replace (length pre + 1 - length pre) with 1 by lia. done. }
  assert (Hshort : forall k, length (render (take k l)) <= length (render l)).
  { intros k. rewrite <- (take_drop k l) at 2. apply render_prefix_length. }
  eapply returns_pure_bind; [rewrite Hsplit; by apply find_root_one|]. unfold set_root_dirs.
  rewrite path2str_abs by (rewrite ?Hd, ?Hsplit, ?length_app; simpl; first [done|lia]).
  rewrite Hst, Htake. eapply returns_pure_bind; [reflexivity|].
  eapply returns_pure_bind.
  { apply set_cderoot_pure. rewrite <- Htake. specialize (Hshort (length pre + 1)). lia. }
  rewrite (proj2 (Nat.ltb_lt 0 (length pre + 1))) by lia. eapply returns_pure_bind; [reflexivity|].
  replace (length pre + 1 - 1) with (length pre) by lia.
  case_bool_decide as Hpre0.
  - rewrite Hpre0. simpl length. rewrite path2str_all, Hst by done. eapply returns_pure_bind; [reflexivity|].
    unfold returns. rewrite set_app_pure by done. reflexivity.
  - assert (Hpos : 0 < length pre) by (destruct pre; simpl; [done|lia]).
    rewrite path2str_abs by (rewrite ?Hd, ?Hsplit, ?length_app; simpl; first [done|lia]).
    assert (Htake' : take (length pre) l = pre) by (rewrite Hsplit; apply take_app_exact).
    rewrite Hst, Htake'. eapply returns_pure_bind; [reflexivity|]. unfold returns. rewrite set_app_pure; [reflexivity|].
    specialize (Hshort (length pre)). rewrite Htake' in Hshort. lia.
Qed.

Lemma dirname_self_exe_pure s0 exe : CDE_proc_self_exe (cfg s0) = exe -> strchr exe slash <> None ->
  dirname_self_exe s0 = Ret (dirname exe, s0 {{ cfg -> CDE_proc_self_exe := dirname exe }}).
Proof.
  intros H Hs. unfold dirname_self_exe, bindM, conf, gets. cbn [bindP]. rewrite H. by destruct (strchr exe slash).
Qed.

(** From outside the root is the directory cde-root beside the program, but the
    application's directory is not the one that the program and the root are in: the
    second [dirname] is of what the first one left in the array. *)
Lemma package_beside exe (Hnone : no_root l) (Hexe : CDE_proc_self_exe (cfg s) = exe) (Hslash : strchr exe slash <> None)
    (Hslash' : strchr (dirname exe) slash <> None)
    (H1 : length (dirname exe) + 9 < MAXPATHLEN) (H2 : length (dirname (dirname exe)) < MAXPATHLEN) :
  returns h CDE_init_pseudo_root_dir s w [] tt
    (root_beside (dirname exe ++ slash :: CDE_ROOT_NAME_DEFAULT) (dirname (dirname exe))) w.
Proof.
  destruct start_path as (p & Hp & Hst & Ha). eapply search_root; [exact Hp|exact Hst|].
  eapply returns_pure_bind; [by apply find_root_none|]. unfold set_root_dirs.
  eapply returns_pure_bind; [by apply dirname_self_exe_pure|].
  eapply returns_pure_bind; [apply set_cderoot_pure; rewrite length_app; change (length (slash :: CDE_ROOT_NAME_DEFAULT)) with 9; lia|].
  eapply returns_pure_bind; [by apply dirname_self_exe_pure|].
  eapply returns_pure_bind; [by apply set_app_pure|]. reflexivity.
Qed.
End Root.

(** ** dirname *)

Lemma normal_head c : normal c -> forall x, head (rev c) = Some x -> is_slash x = false.
Proof.
  intros (Hn & _ & _ & Hs) x Hx. apply bool_decide_eq_false_2. intros ->. apply Hs. apply list_elem_of_In, in_rev.
  destruct (rev c); simplify_eq/=. by left.
Qed.

Lemma render_snoc l x : l <> [] -> render (l ++ [x]) = render l ++ slash :: x.
Proof.
  intros Hl. unfold render. simpl. f_equal. induction l as [|c l IH]; [done|].
  destruct l as [|d l]; [done|]. simpl app. rewrite !(join_slash_cons c).
  rewrite <- app_assoc. simpl. do 2 f_equal. apply IH. done.
Qed.

Lemma drop_to_slash x k : slash ∉ x -> drop_while (fun c => negb (is_slash c)) (rev x ++ slash :: k) = slash :: k.
Proof.
  intros H. rewrite drop_while_app_all; [done|]. apply Forall_forall. intros c Hc. apply negb_true_iff.
  apply bool_decide_eq_false_2. intros ->. apply H. apply list_elem_of_In, in_rev. by apply list_elem_of_In.
Qed.

Lemma head_rev_render l x y : normal x -> head (rev (render (l ++ [x]))) = Some y -> is_slash y = false.
Proof.
  intros Hx Hy. apply (normal_head x Hx).
  assert (E : exists k, render (l ++ [x]) = k ++ x).
  { destruct l as [|c l]; [by exists [slash]|]. rewrite render_snoc by done. exists (render (c :: l) ++ [slash]).
    by rewrite <- app_assoc. }
  destruct E as [k E]. rewrite E, rev_app_distr in Hy. destruct (rev x) eqn:Er; [|done].
  destruct Hx as [Hn _]. exfalso. apply Hn. rewrite <- (rev_involutive x), Er. done.
Qed.

Lemma dirname_render l x : Forall normal l -> normal x -> dirname (render (l ++ [x])) = render l.
Proof.
  intros Hl Hx. pose proof Hx as (Hn & _ & _ & Hs).
  assert (E : rev (render (l ++ [x])) = rev x ++ slash :: (if bool_decide (l = []) then [] else rev (render l))).
  { case_bool_decide as Hl0; [by rewrite Hl0|]. rewrite render_snoc, rev_app_distr by done. simpl. by rewrite <- app_assoc. }
  unfold dirname.
  assert (E1 : drop_while is_slash (rev (render (l ++ [x]))) = rev (render (l ++ [x]))).
  { apply drop_while_none. intros y. by apply head_rev_render. }
  rewrite E1. assert (Hne : exists y k, rev (render (l ++ [x])) = y :: k).
  { rewrite E. destruct (rev x); simpl; eauto. }
  destruct Hne as (y & k & Ey). rewrite Ey. rewrite <- Ey, E, drop_to_slash by done. cbv zeta iota beta.
  case_bool_decide as Hl0; [by rewrite Hl0|].
  assert (Hlast : exists m z, l = m ++ [z] /\ normal z).
  { destruct (exists_last Hl0) as (m & z & ->). exists m, z. split; [done|]. by apply Forall_app in Hl as [_ Hz%Forall_inv]. }
  destruct Hlast as (m & z & -> & Hz).
  assert (E2 : drop_while is_slash (slash :: rev (render (m ++ [z]))) = rev (render (m ++ [z]))).
  { simpl. apply drop_while_none. intros c. by apply head_rev_render. }
  rewrite E2. destruct (rev (render (m ++ [z]))) eqn:Er.
  - apply (f_equal (@length _)) in Er. rewrite length_rev in Er. done.
  - rewrite <- Er. by rewrite rev_involutive.
Qed.

Section Outside.
Context {Fu : Fuel} {W : Type} (h : forall c, W -> reply c * W) (s : state) (l : list cstring) (w : W).

(** Where the package is, from outside.  When ptu-exec is started outside of a package,
    the root is the directory cde-root beside the program, but the application's directory
    becomes the one above the program's: dirname, which is called twice on the same array,
    cuts it each time. *)
Theorem app_dir_above_package (d : list cstring) b prog (He : Cde_exec_mode (cfg s) = true)
    (Hl : Forall normal l) (Hne : l <> []) (Hpwd : cde_starting_pwd (cfg s) = render l) (Hnone : no_root l)
    (Hd : Forall normal (d ++ [b; prog])) (Hexe : CDE_proc_self_exe (cfg s) = render (d ++ [b; prog]))
    (Hlen : length (render (d ++ [b; prog])) + 9 < MAXPATHLEN) :
  returns h CDE_init_pseudo_root_dir s w [] tt
    (root_beside s (render (d ++ [b; CDE_ROOT_NAME_DEFAULT])) (render d)) w.
Proof.
  change [b; prog] with ([b] ++ [prog]) in Hd, Hexe, Hlen. change [b; CDE_ROOT_NAME_DEFAULT] with ([b] ++ [CDE_ROOT_NAME_DEFAULT]).
  rewrite app_assoc in Hd, Hexe, Hlen |- *. apply Forall_app in Hd as [Hdb Hprog%Forall_inv].
  apply Forall_app in Hdb as Hdb'. destruct Hdb' as [Hd Hb%Forall_inv].
  assert (E1 : dirname (render ((d ++ [b]) ++ [prog])) = render (d ++ [b])) by by apply dirname_render.
  assert (E2 : dirname (render (d ++ [b])) = render d) by by apply dirname_render.
  pose proof (render_prefix_length (d ++ [b]) [prog]) as L1. pose proof (render_prefix_length d [b]) as L2.
  pose proof (package_beside h s l w He Hl Hne Hpwd _ Hnone Hexe) as H. rewrite E1, E2 in H.
  rewrite (render_snoc (d ++ [b])) by (by destruct d). apply H; try done; lia.
Qed.
End Outside.

(** ** The script of the program *)

Lemma dot_dots_S k : dot_dots (S k) = dot_dots k ++ slash :: lit "..".
Proof.
  unfold dot_dots. rewrite <- app_assoc. f_equal. induction k as [|k IH]; [done|].
  change (repeat (lit "/..") (S (S k))) with (lit "/.." :: repeat (lit "/..") (S k)).
  change (repeat (lit "/..") (S k)) with (lit "/.." :: repeat (lit "/..") k) at 2.
  rewrite !concat_cons, IH. by rewrite <- app_assoc.
Qed.

Lemma walk_dot_dots st k : walk st (dot_dots k) = take (length st - S k) st.
Proof.
  assert (Hdd : slash ∉ lit "..") by by apply (bool_decide_eq_true_1 _).
  induction k as [|k IH]; [exact (walk_free st (lit "..") Hdd)|].
  rewrite dot_dots_S, walk_app, IH, walk_free by exact Hdd.
  change (resolve1 (take (length st - S k) st) (lit ".."))
    with (take (length (take (length st - S k) st) - 1) (take (length st - S k) st)).
  rewrite take_take, length_take. f_equal. lia.
Qed.

Lemma sh_read_single a w k : squote ∉ a -> sh_read Single (Some w) (a ++ squote :: k) = sh_read Bare (Some (rev a ++ w)) k.
Proof.
  revert w; induction a as [|c a IH]; intros w H; [done|]. apply not_elem_of_cons in H as [Hc Ha].
  cbn [app sh_read]. rewrite bool_decide_eq_false_2 by congruence. rewrite IH by done. simpl. by rewrite <- app_assoc.
Qed.

Lemma print_args_read args : Forall (fun a => squote ∉ a) args -> sh_words (print_args args) = Some args.
Proof.
  intros H. unfold sh_words. induction H as [|a args Ha _ IH]; [done|].
  change (print_args (a :: args)) with (" "%char :: (squote :: a ++ [squote]) ++ print_args args).
  rewrite <- app_comm_cons, <- app_assoc. cbn [app sh_read].
  change (is_blank " "%char) with true. change (is_blank squote) with false. cbv iota.
  rewrite bool_decide_eq_true_2 by done. rewrite sh_read_single by done. rewrite app_nil_r.
  destruct args as [|b args]; [simpl; by rewrite rev_involutive|].
  change (print_args (b :: args)) with (" "%char :: quoted b ++ print_args args) in IH |- *.
  cbn [sh_read] in IH |- *. change (is_blank " "%char) with true in IH |- *. cbv iota in IH |- *. rewrite IH. simpl.
  by rewrite rev_involutive.
Qed.

(** C40.  The script in the package runs the program again.  The script lies in the package
    where the run was started ([l] is the directory below the root [pkg]/[name]); the path
    in it leads to the cde-exec of the package; and a shell reads the rest of the line as
    the options and the program that ptu was started with, followed by the script's own
    arguments, provided no word has a single quote in it. *)
Theorem nested_script_reruns (pkg l : list cstring) (name : cstring) (argv : list cstring) (optind : nat) (target : cstring)
    (Hq : Forall (fun a => squote ∉ a) (take (optind - 1) (drop 1 argv) ++ [target])) :
  exists cmd args, nested_script (length l) argv optind target = [ln "#!/bin/sh"; cmd; args]
  /\ walk (pkg ++ name :: l) cmd = pkg ++ [lit "cde-exec"]
  /\ exists words, args = words ++ lit " " ++ in_dquotes (lit "$@") ++ [newline]
     /\ sh_words words = Some (take (optind - 1) (drop 1 argv) ++ [target]).
Proof.
  eexists _, _. split; [reflexivity|]. split.
  - change (lit "/cde-exec") with (slash :: lit "cde-exec").
    assert (Hce : normal (lit "cde-exec")) by by apply (bool_decide_eq_true_1 _).
    rewrite walk_app, walk_dot_dots, walk_free, resolve1_normal by first [exact Hce|apply Hce].
    rewrite length_app. simpl length. replace (length pkg + S (length l) - S (length l)) with (length pkg) by lia.
    by rewrite take_app_exact.
  - exists (print_args (take (optind - 1) (drop 1 argv) ++ [target])). split; [|by apply print_args_read].
    unfold script_args, print_args. rewrite map_app, concat_app.
    change (concat (map (fun a => " "%char :: quoted a) [target])) with (lit " " ++ quoted target ++ []).
    by rewrite app_nil_r, <- !app_assoc.
Qed.

Lemma nested_script_reruns_witness :
  exists cmd args, nested_script 2 [lit "ptu"; lit "-o"; lit "my pkg"; lit "python"; lit "x.py"] 3 (lit "python") = [ln "#!/bin/sh"; cmd; args]
  /\ walk [lit "home"; lit "my pkg"; lit "cde-root"; lit "home"; lit "alice"] cmd = [lit "home"; lit "my pkg"; lit "cde-exec"]
  /\ exists words, args = words ++ lit " " ++ in_dquotes (lit "$@") ++ [newline]
     /\ sh_words words = Some [lit "-o"; lit "my pkg"; lit "python"].
Proof.
  apply (nested_script_reruns [lit "home"; lit "my pkg"] [lit "home"; lit "alice"] (lit "cde-root")
    [lit "ptu"; lit "-o"; lit "my pkg"; lit "python"; lit "x.py"] 3 (lit "python")).
  repeat constructor; by apply (bool_decide_eq_true_1 _).
Defined.

(** With a quote the shell does not find the end of the word. *)
Example quote_in_script : sh_words (print_args [lit "it's"]) = None.
Proof. reflexivity. Qed.

(** ** Witnesses *)

Definition no_call (c : sys) (w : unit) : reply c * unit := (null_reply c, w).
Definition bob_state (pwd exe : cstring) : state :=
  state0 {{ cfg -> Cde_exec_mode := true; cfg -> cde_starting_pwd := pwd; cfg -> CDE_proc_self_exe := exe }}.

Lemma package_found_inside_witness :
  returns no_call (@CDE_init_pseudo_root_dir) (bob_state (lit "/home/bob/pkg/cde-root.2/home/alice") []) tt [] tt
    (root_found (bob_state (lit "/home/bob/pkg/cde-root.2/home/alice") []) (lit "cde-root.2")
       (lit "/home/bob/pkg/cde-root.2") (lit "/home/bob/pkg")) tt.
Proof.
  apply (package_found_inside no_call (bob_state (lit "/home/bob/pkg/cde-root.2/home/alice") [])
    [lit "home"; lit "bob"; lit "pkg"; lit "cde-root.2"; lit "home"; lit "alice"] tt eq_refl ltac:(repeat constructor; by apply (bool_decide_eq_true_1 _))
    ltac:(done) eq_refl [lit "home"; lit "bob"; lit "pkg"] (lit "cde-root.2") [lit "home"; lit "alice"]).
  - reflexivity.
  - repeat constructor.
  - reflexivity.
  - repeat constructor.
  - apply Nat.ltb_lt. reflexivity.
Defined.

Lemma app_dir_above_package_witness :
  returns no_call (@CDE_init_pseudo_root_dir) (bob_state (lit "/home/bob") (lit "/opt/apps/pkg/cde-exec")) tt [] tt
    (root_beside (bob_state (lit "/home/bob") (lit "/opt/apps/pkg/cde-exec")) (lit "/opt/apps/pkg/cde-root") (lit "/opt/apps")) tt.
Proof.
  apply (app_dir_above_package no_call (bob_state (lit "/home/bob") (lit "/opt/apps/pkg/cde-exec")) [lit "home"; lit "bob"] tt
    [lit "opt"; lit "apps"] (lit "pkg") (lit "cde-exec")).
  - reflexivity.
  - repeat constructor; by apply (bool_decide_eq_true_1 _).
  - done.
  - reflexivity.
  - repeat constructor.
  - repeat constructor; by apply (bool_decide_eq_true_1 _).
  - reflexivity.
  - apply Nat.ltb_lt. reflexivity.
Defined.

(** ** The default cde.options *)

(** A directory without cde.options: the world is what has been written to the file, and
    what has not been read of it yet. *)
Definition fresh_dir (c : sys) (w : cstring * cstring) : reply c * (cstring * cstring) :=
  match c return reply c * (cstring * cstring) with
  | Fopen _ F_write => (Some 3%Z, ([], []))
  | Fopen _ _ => (Some 3%Z, (w.1, w.1))
  | Fputs _ x => (tt, (w.1 ++ x, w.2))
  | Getline _ =>
    match strchr w.2 newline with
    | Some i => (Some (take (i + 1) w.2), (w.1, drop (i + 1) w.2))
    | None => (None, w)
    end
  | Open_read _ => (Some 4%Z, w)
  | Open_create _ _ => (Some 5%Z, w)
  | Read _ _ => (Some [], w)
  | c => (null_reply c, w)
  end.
Definition first_state (local : bool) : state :=
  state0 {{ cfg -> local_network_settings := local; cfg -> CDE_PACKAGE_DIR := Some (lit "/home/alice/cde-package") }}.

(** The first run dies.  In a directory without cde.options, with either network
    setting, [CDE_init] writes the default options and then refuses them: one of the lines
    that it wrote is a bare path, and ptu exits with status 1 after the message that the
    token is not recognised. *)
Theorem default_options_rejected (local : bool) :
  let init := @bindM state unit unit seed_options (fun _ => @CDE_init_options 60) in
  outcome fresh_dir (init (first_state local)) ([], []) = inr (Exit 1)
  /\ last (map (@projT1 _ _) (trace fresh_dir (init (first_state local)) ([], [])))
     = Some (Eprintf "Fatal error in cde.options: unrecognized token '%s'"
               [PS (lit "/home/fried-liver/Desktop/depaul/provenance-to-use")]).
Proof. destruct local; split; vm_compute; reflexivity. Qed.
